(* ===== verification/_CoqProject ===== *)
-Q . S2P
Prelude.v
Effects.v
Types.v
Platform.v
PortFrame.v
PortCritical.v
CortexM.v
LinkedLists.v
Kernel.v
Invariant.v
RefPlatform.v
KernelCheck.v
SchedCore.v
SchedCoreSpec.v
DelaySpec.v
TaskInfo.v
Stats.v
Timer.v
Scheduler.v
Task.v
Sem.v
Mutex.v
Queue.v
StreamBuffer.v
CortexM0.v
CortexM0plus.v
CortexM3.v
CortexM4.v
CortexM7.v
CortexM23.v
CortexM33.v
CortexM55.v
SchedulerSpec.v
BlockSpec.v
TaskSpec.v
MutexSpec.v
SemSpec.v
IpcSpec.v
TimerSpec.v
System.v
SystemSpec.v
SystemStreams.v
SystemMutex.v
SystemTick.v
SystemCalls.v
Scenarios.v
SchedulerProps.v
BlockingProps.v
TaskProps.v
SemProps.v
MutexProps.v
TimerProps.v
QueueProps.v
DeleteProps.v
StreamProps.v
StatsProps.v
SystemCases.v
SystemProps.v
CortexPorts.v
CortexProps.v
RiscV.v
RiscVProps.v
PortScenarios.v
HostPort.v
Posix.v
PosixProps.v
Windows.v
WindowsProps.v
