(* ===== verification/Prelude.v ===== *)
(** SertOS, a preemptive real-time kernel in C, modelled and verified.

    * The program

    The kernel (src/src/, headers in src/inc/) keeps tasks in intrusive circular lists: one ready
    queue per priority with a bitmap of the non-empty ones, a delay list, a registry of all tasks,
    and a wait list for each semaphore, mutex, queue and stream buffer.  A task runs until it
    blocks, yields or is preempted; sertos_scheduler_select_next_task takes the head of the
    highest non-empty ready queue, sertos_scheduler_perform_switch makes it current, and the port
    (src/port/) changes the processor's context.  The tick interrupt counts down the delay list,
    rotates the running task's queue (time slicing) and serves the software timers.  IPC
    operations block on a wait list through sertos_scheduler_wait_list_block and are served
    through sertos_scheduler_wait_list_unblock_highest.

    * How it is modelled

    State.  [Kernel.Kernel] is a record of all statics and of the kernel's objects, in typed
    memories indexed by address ([tcbs], [sems], [mutexes], ...), with the list nodes embedded in
    them in a list memory of their own ([Types.ListHeap]) and byte memory for stacks and buffers.
    Machine integers are [Z] with the wrap-around of the C type written out ([u32], [u64]).
    Structures and constants (src/inc/) are in Types.v.

    Effects.  An operation is a program of the monad [Effects.M]: it changes the state, gets stuck
    on a bad dereference or when a loop exceeds its fuel, and pauses where something else may run:
    before interrupts are masked, after they are unmasked, and at a context switch.  [run] resumes
    pauses with given interference, [exec] without any; [wp P m s Q] is total correctness under
    every interference the protocol [P] allows ([quiet]: none; [across_switch G R]: the task is
    away at context switches, which it leaves in [G] and comes back from in [R]).  On the
    simulator ports sertos_scheduler_switch_context makes the switch itself; on the processors it
    asks for the exception whose handler calls sertos_scheduler_perform_switch.  Both are pauses
    for a switch: [SchedulerSpec.switch_taken] says what is then done, [Effects.run_serving] runs a
    program with its switches made that way, and what is proved of either covers every port.

    What lies below.  The modules of src/modules/ are git submodules that are not in the
    repository.  Platform.v has what the kernel calls of them as classes of operations and of laws
    (lists, bitmap, atomics, pool, ring buffer) and the port contract src/port/sertos_port.h as
    the class [PortOps]; RefPlatform.v has a concrete instance of everything, on which all
    definitions run.

    Invariant.  A view ([LinkedLists.lview]) says which tasks each list links, in order;
    [Invariant.kernel_ok k V] says that the list memory realises the view, that no node is in two
    lists, that the bitmap is right, and that the TCBs of ready, delayed and waiting tasks agree
    with the lists they are in.  KernelCheck.v decides it on concrete kernels; Scenarios.v has
    kernels reached by running the kernel's own initialisation and operations.

    * Files, by part of the program

    - src/sertos_scheduler.c: SchedCore.v (queues, delay list, registry, wait lists), Scheduler.v
      (switching, tick, lock, delays, blocking), Task.v (initialisation and the idle task), with
      the specifications SchedCoreSpec.v, DelaySpec.v, SchedulerSpec.v, BlockSpec.v and the
      properties SchedulerProps.v, BlockingProps.v;
    - src/sertos_task.c: Task.v and TaskInfo.v; TaskSpec.v, TaskProps.v;
    - src/sertos_sem.c: Sem.v; SemSpec.v (abstract semaphores), SemProps.v;
    - src/sertos_mutex.c: Mutex.v; MutexSpec.v, MutexProps.v;
    - src/sertos_timer.c: Timer.v (callbacks are the class [Callbacks]); TimerSpec.v, TimerProps.v;
    - src/sertos_queue.c: Queue.v; IpcSpec.v, QueueProps.v; deleting semaphores and queues:
      DeleteProps.v;
    - src/sertos_stream_buffer.c: StreamBuffer.v; StreamProps.v;
    - src/sertos_stats.c: Stats.v; StatsProps.v;
    - the kernel and its tasks as one machine: System.v, SystemSpec.v, SystemStreams.v (streams),
      SystemMutex.v (mutexes), SystemTick.v (the tick and the timers), SystemCalls.v (the calls of
      tasks), SystemCases.v (concrete programs, on both kinds of port), SystemProps.v;
    - port/arm: CortexM.v (registers, instructions, SysTick, the interface of a core), a file per
      core (CortexM0.v to CortexM55.v), CortexPorts.v, CortexProps.v;
    - port/riscv: RiscV.v, RiscVProps.v; both processor families: PortFrame.v (stack frames),
      PortCritical.v (nested critical sections), PortScenarios.v;
    - port/posix and port/windows: HostPort.v, Posix.v, PosixProps.v, Windows.v, WindowsProps.v.

    * What the theorems show

    - The whole program (SystemProps), on every port: the machine [System.step] runs a tick, or a
      task up to its next context switch, which it makes.  Its calls are those of
      [SystemCalls.kernel_call] (yield, delay, semaphores, mutexes among tasks of one priority,
      queues and streams with a limited wait, software timers) from a consistent kernel whose
      tasks are at their base priority and whose scheduler runs unlocked; callbacks and the hook
      only change memory, and ticks come between a call's context switches.  However they follow
      one another, the kernel stays well-formed, never gets stuck, and the running task is always
      the head of the highest non-empty ready queue; every semaphore stays a legal abstract
      semaphore with its waiters BLOCKED and in order of priority, and a release or an acquisition
      made there behaves as the abstract one; nobody waits for a free mutex, and unlocking one
      passes it to its first waiter; time slicing is fair: the task at position i of the highest
      ready queue runs after i ticks.
      The proof is modular: a call is [Cooperative] if it gives up the processor in a consistent
      kernel and relies on getting it back in one.  [System.Setup] lists the tasks and the
      objects in use.  Mutual exclusion is shown call by call ([mutex_lock_refines],
      [mutex_unlock_refines]), not for the machine: what a task relies on while it is away does
      not say who holds the mutex it waits for.
    - The scheduler (SchedulerProps, BlockingProps): one tick of the delay list, wake-up after
      exactly the ticks asked for, selection, dispatching, the preemption lock, priority-ordered
      wait lists, blocking and waking, sleeping, tick conversions.
    - Tasks (TaskProps): initialisation, creation, rejected configurations, stack alignment and
      high-water mark, suspension, and the state machine.
    - IPC: refinement of abstract semaphores (SemSpec.v), recursive mutexes (MutexSpec.v), bounded queues of items and
      bounded streams of bytes with a trigger level (SemProps, MutexProps, QueueProps,
      StreamProps); what a blocking call leaves and reports; bytes come out as they went in.
    - Deletion (DeleteProps): all waiters of a semaphore or queue are released in order, and
      every operation of a static queue is refused afterwards.
    - Timers (TimerProps): the tick on the list of active timers, starting, stopping, changing the period.
    - Statistics (StatsProps): run time is conserved over any sequence of switches; snapshots.
    - Processor ports (CortexProps, RiscVProps): saving a context, with the stack pointer in the
      TCB, and restoring it is the identity on what a task can see: on Cortex-M for both frames of
      the exception entry, with the padding that aligns them and the floating-point registers; on
      RISC-V for what the frame holds, gp and tp being neither saved nor changed.  A created task
      starts at its entry with its parameter, the tick timer is armed exactly, critical sections
      nest.
    - Simulator ports (PosixProps, WindowsProps): at most one task has its turn, as an invariant
      of the threads' steps, as long as only tasks switch, and until the scheduler stops.
    - Where the code does not do what it means to, a theorem exhibits a run that shows it (for
      instance [finite_wait_always_times_out], [set_priority_running_stalls],
      [tick_rotates_sleeping_task], [deleted_queue_receiver_waits_again],
      [posix_tick_runs_two_tasks]).

    * Bounds and fuel

    Walks of lists have the fuel [loop_fuel], a parameter of [Platform]; theorems assume that it is
    at least the length of the lists walked (the concrete platform has 64, more than the tasks a
    scenario creates), and with that no walk runs out of it.  The loops of the queue and stream
    transfers use it to bound how often a task is woken in vain; a limited wait ends the first
    time it is woken, so one unit is enough.  [next_power_of_two] needs one unit per bit.  The
    RISC-V clock is read again at most once if it does not wrap between reads, so two are enough.

    * Not modelled, and why

    - The code of the submodules (not in the repository), and the constants that tests or
      applications override (the defaults of sertos_config.h are used).
    - Overrides of weak functions (clock rates, run-time counters): the ports' defaults are
      modelled.
    - In System.v, ticks between the instructions of a call: the kernel does not keep its
      invariant then ([tick_rotates_sleeping_task]); mutexes shared by tasks of different priorities,
      because a release by a holder whose priority was raised leaves it in the wrong ready queue
      ([unlock_leaves_holder_in_boosted_queue]); task deletion and priority changes of the running
      task ([set_priority_running_stalls]); callbacks and hooks that do more than change memory
      ([stopping_the_next_timer_skips_the_rest]); calls from interrupt handlers, which wake a task
      without a switch; waiting for ever on queues and streams, where a task may be woken in vain
      any number of times.
    - On the processors: CCR.STKALIGN is taken to be set and a lazily stacked floating-point state
      to have been written when the handler runs; Cortex-M55 vector predicates, the security
      extension, caches and faults.  On the hosts: failure to create events on Windows, POSIX
      signals, and the times at which threads run.
    - Build files, documentation. *)
From stdpp Require Export base tactics numbers list functions strings sets.
From Stdlib Require Export ZArith Lia.
From Stdlib Require Import FunctionalExtensionality.

#[global] Open Scope Z_scope.

(** ** Record update: [r <| field := v |>] and [r <| field ::= f |>] *)

Class Eta (R : Type) : Type := eta : R -> R.
Class Setter {R T : Type} (proj : R -> T) : Type := set : (T -> T) -> R -> R.
#[global] Arguments set {R T} proj {Setter} f r.

(** The setter of a field is read off the record's eta expansion. *)
Ltac derive_setter :=
  match goal with
  | |- @Setter ?R ?T ?p =>
      let s := constr:(fun (f : T -> T) (r : R) => ltac:(
        let b := eval hnf in (@eta R _ r) in
        let g := eval pattern (p r) in b in
        match g with
        | ?h _ => let t := eval cbv beta in (h (f (p r))) in exact t
        end)) in
      exact s
  end.
#[export] Hint Extern 1 (Setter _) => derive_setter : typeclass_instances.

Declare Scope record_scope.
Delimit Scope record_scope with rec.
Notation "r <| f := v |>" := (set f (fun _ => v) r)
  (at level 1, f at next level, v at level 200, left associativity,
   format "r  <| f  :=  v |>") : record_scope.
Notation "r <| f ::= g |>" := (set f g r)
  (at level 1, f at next level, g at level 200, left associativity,
   format "r  <| f  ::=  g |>") : record_scope.
#[global] Open Scope record_scope.

(** Reading a field of an updated record: the update of that field, or the field before. *)
Ltac rsimpl_step :=
  match goal with
  | |- context [?p (@set ?R ?T ?q ?i ?f ?r)] =>
      first [ change (p (@set R T q i f r)) with (p r)
            | change (p (@set R T q i f r)) with (f (p r)) ]
  end.
Ltac rsimpl := repeat (rsimpl_step; cbv beta).
Ltac rsimpl_in H := revert H; rsimpl; intros H.

(** ** Machine integers *)

Definition wrap (w x : Z) : Z := x mod 2 ^ w.
Abbreviation u8 := (wrap 8).
Abbreviation u32 := (wrap 32).
Abbreviation u64 := (wrap 64).
Definition in_range (w x : Z) : Prop := 0 <= x < 2 ^ w.

(** Rounding an address down to a multiple of eight, as the code does it with a mask. *)
Lemma land_align8 w x :
  3 <= w -> 0 <= x < 2 ^ w -> Z.land x (wrap w (Z.lnot 7)) = 8 * (x / 8).
Proof.
  intros Hw Hx. unfold wrap. rewrite <-Z.land_ones by lia. rewrite Z.land_assoc, Z.land_comm, Z.land_assoc.
  rewrite (Z.land_comm _ x), Z.land_ones, (Z.mod_small x) by lia.
  change 7 with (Z.ones 3). rewrite <-Z.ldiff_land, Z.ldiff_ones_r by lia.
  rewrite Z.shiftr_div_pow2, Z.shiftl_mul_pow2 by lia. change (2 ^ 3) with 8. lia.
Qed.

(** ** Updating one cell of a memory *)

Section alter.
Context {A T : Type} `{EqDecision A}.
Implicit Types (m : A -> T) (f g : T -> T) (a : A).

Lemma alter_alter f g a m : alter f a (alter g a m) = alter (fun x => f (g x)) a m.
Proof.
  apply functional_extensionality. intros b. destruct (decide (a = b)) as [<-|Hne].
  - by rewrite !fn_lookup_alter.
  - by rewrite !fn_lookup_alter_ne.
Qed.

Lemma alter_ext_at f g a m : f (m a) = g (m a) -> alter f a m = alter g a m.
Proof.
  intros Heq. apply functional_extensionality. intros b. destruct (decide (a = b)) as [<-|Hne].
  - by rewrite !fn_lookup_alter.
  - by rewrite !fn_lookup_alter_ne.
Qed.

Lemma alter_id_at f a m : f (m a) = m a -> alter f a m = m.
Proof.
  intros Heq. apply functional_extensionality. intros b. destruct (decide (a = b)) as [<-|Hne].
  - by rewrite !fn_lookup_alter.
  - by rewrite !fn_lookup_alter_ne.
Qed.

Lemma fn_insert_insert a (x y : T) m : <[a := x]> (<[a := y]> m) = <[a := x]> m.
Proof. apply functional_extensionality. intros b. unfold insert, fn_insert. by case_decide. Qed.

Lemma fn_insert_id a (x : T) m : m a = x -> <[a := x]> m = m.
Proof.
  intros <-. apply functional_extensionality. intros b. unfold insert, fn_insert. case_decide; congruence.
Qed.

(** A cell altered once along a list without duplicates. *)
Lemma foldl_alter_notin f l a m : a ∉ l -> foldl (fun m b => alter f b m) m l a = m a.
Proof.
  revert m. induction l as [|b l IH]; intros m Hl; simpl; [done|].
  rewrite IH by set_solver. apply fn_lookup_alter_ne. set_solver.
Qed.

Lemma foldl_alter_in f l a m :
  NoDup l -> a ∈ l -> foldl (fun m b => alter f b m) m l a = f (m a).
Proof.
  revert m. induction l as [|b l IH]; intros m Hnd Hl; simpl; [set_solver|].
  apply NoDup_cons in Hnd as [Hb Hnd]. apply elem_of_cons in Hl as [->|Hl].
  - rewrite foldl_alter_notin by done. apply fn_lookup_alter.
  - rewrite IH by done. by rewrite fn_lookup_alter_ne by set_solver.
Qed.
End alter.

(** ** Filtering a list *)

Section filter.
Context {A : Type} (P Q : A -> Prop) `{!forall x, Decision (P x)} `{!forall x, Decision (Q x)}.

Lemma filter_ext_in (l : list A) : (forall x, x ∈ l -> (P x <-> Q x)) -> filter P l = filter Q l.
Proof.
  induction l as [|x l IH]; intros Hl; [done|]. pose proof (Hl x ltac:(by left)) as Hx.
  rewrite !filter_cons. rewrite IH by (intros; apply Hl; by right).
  destruct (decide (P x)), (decide (Q x)); tauto || done.
Qed.

Lemma filter_id (l : list A) : (forall x, x ∈ l -> P x) -> filter P l = l.
Proof.
  induction l as [|x l IH]; intros Hl; [done|]. rewrite filter_cons_True by (apply Hl; by left).
  f_equal. apply IH. intros. apply Hl. by right.
Qed.

Lemma filter_none (l : list A) : (forall x, x ∈ l -> ~ P x) -> filter P l = [].
Proof.
  induction l as [|x l IH]; intros Hl; [done|]. rewrite filter_cons_False by (apply Hl; by left).
  apply IH. intros. apply Hl. by right.
Qed.
End filter.
