(* ===== verification/Effects.v ===== *)
(** The effect monad of the kernel: a state monad with interleaving points.

    Kernel code is sequential between the points where something else may run: before
    interrupts are masked ([sertos_port_enter_critical]), after they are unmasked
    ([sertos_port_exit_critical]) and at a context switch ([sertos_port_yield]).  An
    operation of type [M S A] therefore runs from a state to an [outcome]: it is done, it has
    reached an interleaving point and goes on from the state it is resumed in, or it is
    stuck (a dereference the C code must not make, or a loop that ran out of fuel).

    [run] resumes an outcome with the interference given as a list, one state change per
    point; [wp] is total correctness under every interference a [protocol] allows. *)
From S2P Require Import Prelude.

(** Where a computation can be interleaved. *)
Inductive pause : Type :=
  | PEnter   (** about to mask interrupts *)
  | PExit    (** interrupts just unmasked *)
  | PYield.  (** context switch requested *)

#[export] Instance pause_eq_dec : EqDecision pause.
Proof. solve_decision. Defined.

(** Why a computation is stuck. *)
Inductive fault : Type :=
  | OutOfFuel    (** a loop made more iterations than its fuel *)
  | BadPointer.  (** a pointer of the wrong kind was dereferenced *)

Inductive outcome (S A : Type) : Type :=
  | Done (a : A) (s : S)
  | Pause (p : pause) (s : S) (k : S -> outcome S A)
  | Stuck (f : fault).
#[global] Arguments Done {S A} a s.
#[global] Arguments Pause {S A} p s k.
#[global] Arguments Stuck {S A} f.

Definition M (S A : Type) : Type := S -> outcome S A.

Fixpoint obind {S A B} (f : A -> M S B) (o : outcome S A) : outcome S B :=
  match o with
  | Done a s => f a s
  | Pause p s k => Pause p s (fun s' => obind f (k s'))
  | Stuck e => Stuck e
  end.

#[export] Instance M_ret {S} : MRet (M S) := fun A a s => Done a s.
#[export] Instance M_bind {S} : MBind (M S) := fun A B f m s => obind f (m s).

Definition get {S} : M S S := fun s => Done s s.
Definition gets {S A} (f : S -> A) : M S A := fun s => Done (f s) s.
Definition modify {S} (f : S -> S) : M S unit := fun s => Done tt (f s).
Definition stuck {S A} (e : fault) : M S A := fun _ => Stuck e.
Definition yield_point {S} (p : pause) : M S unit := fun s => Pause p s (Done tt).
Definition when {S} (b : bool) (m : M S unit) : M S unit := if b then m else mret tt.
Definition unless_none {S A} (o : option A) : M S A :=
  match o with Some a => mret a | None => stuck BadPointer end.

(** ** Running with explicit interference *)

(** The i-th interleaving point is resumed in the state changed by the i-th element of
    [env]; nothing interferes once [env] is used up. *)
Fixpoint run {S A} (env : list (S -> S)) (o : outcome S A) : option (A * S) :=
  match o with
  | Done a s => Some (a, s)
  | Pause _ s k =>
      match env with
      | [] => run [] (k s)
      | e :: env' => run env' (k (e s))
      end
  | Stuck _ => None
  end.

Abbreviation exec m s := (run [] (m s)).

(** ** Total correctness under interference *)

(** [rely p s s'] : the environment may take [s] to [s'] at a point of kind [p];
    [guar p s]    : what the computation must establish before it lets the environment run. *)
Record protocol (S : Type) : Type := Protocol {
  rely : pause -> S -> S -> Prop;
  guar : pause -> S -> Prop }.
#[global] Arguments Protocol {S} _ _.
#[global] Arguments rely {S} _ _ _ _.
#[global] Arguments guar {S} _ _ _.

(** No interference, nothing to guarantee. *)
Definition quiet {S} : protocol S := Protocol (fun _ s s' => s' = s) (fun _ _ => True).

(** Every interference that preserves [I], which the computation keeps as well. *)
Definition invariant {S} (I : S -> Prop) : protocol S := Protocol (fun _ _ s' => I s') (fun _ s => I s).

Fixpoint owp {S A} (P : protocol S) (Q : A -> S -> Prop) (o : outcome S A) : Prop :=
  match o with
  | Done a s => Q a s
  | Pause p s k => guar P p s /\ forall s', rely P p s s' -> owp P Q (k s')
  | Stuck _ => False
  end.

Definition wp {S A} (P : protocol S) (m : M S A) (s : S) (Q : A -> S -> Prop) : Prop :=
  owp P Q (m s).

(** The interference lists a protocol allows along a computation. *)
Fixpoint allowed {S A} (P : protocol S) (env : list (S -> S)) (o : outcome S A) : Prop :=
  match o with
  | Done _ _ | Stuck _ => True
  | Pause p s k =>
      match env with
      | [] => rely P p s s /\ allowed P [] (k s)
      | e :: env' => rely P p s (e s) /\ allowed P env' (k (e s))
      end
  end.

(** ** Laws *)

Section laws.
Context {S : Type}.
Implicit Types (P : protocol S) (s : S) (env : list (S -> S)).

Lemma owp_mono {A} P (Q Q' : A -> S -> Prop) (o : outcome S A) :
  owp P Q o -> (forall a s, Q a s -> Q' a s) -> owp P Q' o.
Proof.
  intros H HQ. induction o as [a s|p s k IH|e]; simpl in *; [by auto| |done].
  destruct H as [Hg H]. split; [done|]. intros s' Hs'. apply IH, H, Hs'.
Qed.

Lemma wp_mono {A} P (m : M S A) s (Q Q' : A -> S -> Prop) :
  wp P m s Q -> (forall a s', Q a s' -> Q' a s') -> wp P m s Q'.
Proof. apply owp_mono. Qed.

Lemma owp_bind {A B} P (Q : B -> S -> Prop) (f : A -> M S B) (o : outcome S A) :
  owp P (fun a s => wp P (f a) s Q) o -> owp P Q (obind f o).
Proof.
  induction o as [a s|p s k IH|e]; simpl; [done| |done].
  intros [Hg H]. split; [done|]. intros s' Hs'. apply IH, H, Hs'.
Qed.

Lemma wp_bind {A B} P (m : M S A) (f : A -> M S B) s Q :
  wp P m s (fun a s' => wp P (f a) s' Q) -> wp P (m ≫= f) s Q.
Proof. apply owp_bind. Qed.

Lemma wp_bind_inv {A B} P (m : M S A) (f : A -> M S B) s Q :
  wp P (m ≫= f) s Q -> wp P m s (fun a s' => wp P (f a) s' Q).
Proof.
  unfold wp, mbind, M_bind. induction (m s) as [a s'|p s' k IH|e]; simpl; [done| |done].
  intros [Hg H]. split; [done|]. intros s'' Hs. by apply IH, H.
Qed.

Lemma wp_ret {A} P (a : A) s Q : Q a s -> wp P (mret a) s Q.
Proof. done. Qed.
Lemma wp_gets {A} P (f : S -> A) s Q : Q (f s) s -> wp P (gets f) s Q.
Proof. done. Qed.
Lemma wp_gets_inv {A} P (f : S -> A) s Q : wp P (gets f) s Q -> Q (f s) s.
Proof. done. Qed.
Lemma wp_modify P (f : S -> S) s Q : Q tt (f s) -> wp P (modify f) s Q.
Proof. done. Qed.

Lemma wp_yield P p s (Q : unit -> S -> Prop) :
  guar P p s -> (forall s', rely P p s s' -> Q tt s') -> wp P (yield_point p) s Q.
Proof. done. Qed.

Lemma wp_when P (b : bool) (m : M S unit) s (Q : unit -> S -> Prop) :
  (b = true -> wp P m s Q) -> (b = false -> Q tt s) -> wp P (when b m) s Q.
Proof. destruct b; intros Ht Hf; [by apply Ht|by apply wp_ret, Hf]. Qed.

Lemma run_bind {A B} (m : M S A) (f : A -> M S B) s :
  exec (m ≫= f) s = '(a, s') ← exec m s; exec (f a) s'.
Proof.
  unfold mbind, M_bind. induction (m s) as [a s'|p s' k IH|e]; simpl; [done|apply IH|done].
Qed.

(** [wp] is sound: under every allowed interference the run ends, not stuck, in [Q]. *)
Lemma wp_run {A} P (m : M S A) s (Q : A -> S -> Prop) env :
  wp P m s Q -> allowed P env (m s) -> exists a s', run env (m s) = Some (a, s') /\ Q a s'.
Proof.
  unfold wp. revert env. induction (m s) as [a s'|p s' k IH|e]; intros env H Ha; simpl in *.
  - eauto.
  - destruct H as [_ H]. destruct env as [|e env']; destruct Ha as [Hr Ha]; eauto.
  - done.
Qed.

Lemma allowed_quiet {A} (o : outcome S A) : allowed quiet [] o.
Proof. induction o; simpl; auto. Qed.

Lemma wp_exec {A} (m : M S A) s (Q : A -> S -> Prop) :
  wp quiet m s Q <-> exists a s', exec m s = Some (a, s') /\ Q a s'.
Proof.
  split; [intros H; by apply (wp_run quiet); [|apply allowed_quiet]|].
  unfold wp. induction (m s) as [a s'|p s' k IH|e]; simpl.
  - intros (a' & s'' & [= <- <-] & HQ). done.
  - intros H. split; [done|]. intros s'' ->. by apply IH.
  - intros (a' & s' & Hf & _). done.
Qed.
End laws.

(** ** Running up to a context switch *)

(** The state a computation ends or asks for a context switch in, in the latter case with what
    is left of it; [None] if it gets stuck. *)
Fixpoint proceed {S A} (o : outcome S A) : option (S * option (S -> outcome S A)) :=
  match o with
  | Done _ s => Some (s, None)
  | Pause PYield s k => Some (s, Some k)
  | Pause _ s k => proceed (k s)
  | Stuck _ => None
  end.

Lemma wp_proceed {S A} P (m : M S A) s Q :
  (forall p s, p <> PYield -> rely P p s s) -> wp P m s Q ->
  match proceed (m s) with
  | Some (s', None) => exists a, Q a s'
  | Some (s', Some k) => guar P PYield s' /\ forall s'', rely P PYield s' s'' -> wp P k s'' Q
  | None => False
  end.
Proof.
  intros HP. unfold wp. induction (m s) as [a s'|p s' k IH|e]; simpl; [by eauto| |done].
  intros [Hg H]. destruct p; [by apply IH, H, HP|by apply IH, H, HP|done].
Qed.

(** ** Running with the context switches served

    [sv] is what happens in the machine when a computation that asks for a context switch is let
    go: the computation goes on from the state [sv] leaves. *)
Fixpoint run_serving {S A} (sv : S -> option S) (o : outcome S A) : option (A * S) :=
  match o with
  | Done a s => Some (a, s)
  | Pause PYield s k => s' ← sv s; run_serving sv (k s')
  | Pause _ s k => run_serving sv (k s)
  | Stuck _ => None
  end.

Definition serving {S} (sv : S -> option S) : protocol S :=
  Protocol (fun p s s' => match p with PYield => sv s = Some s' | _ => s' = s end)
           (fun p s => match p with PYield => is_Some (sv s) | _ => True end).

Lemma wp_run_serving {S A} sv (m : M S A) s (Q : A -> S -> Prop) :
  wp (serving sv) m s Q -> exists a s', run_serving sv (m s) = Some (a, s') /\ Q a s'.
Proof.
  unfold wp. induction (m s) as [a s'|p s' k IH|e]; simpl; [by eauto| |done].
  intros [Hg H]. destruct p; [by apply IH, H|by apply IH, H|].
  destruct Hg as [s'' Hs]. rewrite Hs. by apply IH, H.
Qed.

Lemma run_serving_bind {S A B} sv (m : M S A) (f : A -> M S B) s :
  run_serving sv ((m ≫= f) s) = '(a, s') ← run_serving sv (m s); run_serving sv (f a s').
Proof.
  unfold mbind, M_bind. induction (m s) as [a s'|p s' k IH|e]; simpl; [done| |done].
  destruct p; [apply IH|apply IH|]. destruct (sv s'); simpl; [apply IH|done].
Qed.

#[global] Opaque wp.

Create HintDb wp.
#[export] Hint Resolve wp_ret wp_gets wp_modify : wp.

(** Symbolic execution: descend into binds and run primitives, stop at calls. *)
Ltac wp_step :=
  cbv beta;
  lazymatch goal with
  | |- wp _ (@mbind _ _ _ _ _ _) _ _ => apply wp_bind
  | |- wp _ (@mret _ _ _ _) _ _ => apply wp_ret
  | |- wp _ (gets _) _ _ => apply wp_gets
  | |- wp _ (modify _) _ _ => apply wp_modify
  | |- wp _ (when true _) _ _ => cbn [when]
  | |- wp _ (when false _) _ _ => cbn [when]
  | |- wp _ (unless_none (Some _)) _ _ => cbn [unless_none]
  end.
Ltac wp_steps := repeat wp_step; cbv beta.
