(* ===== verification/Types.v ===== *)
(** The data of the kernel: inc/sertos_types.h, inc/sertos_config.h and the structures of the
    other headers under inc/.

    Addresses are integers and pointers are [option Z] ([None] is NULL).  The kernel's objects
    live in typed memories indexed by their address.  [LinkedListNode] fields embedded in a
    structure are nodes of their own ([NLink f t] is the field [f] of the object at [t]), and
    every [LinkedList] object of the kernel has an identifier [listid]. *)
From S2P Require Import Prelude.

Definition addr : Type := Z.
Definition ptr : Type := option Z.

(** [(uintptr_t)p] and back. *)
Definition uintptr (p : ptr) : Z := match p with Some a => a | None => 0 end.
Definition of_uintptr (a : Z) : ptr := if a =? 0 then None else Some a.
Definition is_null (p : ptr) : bool := match p with Some _ => false | None => true end.

(** ** Configuration (inc/sertos_config.h, default values) *)

Definition SERTOS_CONFIG_MAX_PRIORITIES : Z := 32.
Abbreviation MAXP := SERTOS_CONFIG_MAX_PRIORITIES.
Definition SERTOS_CONFIG_TICK_RATE_HZ : Z := 1000.
Definition SERTOS_CONFIG_STACK_ALIGNMENT_BYTES : Z := 8.
Definition SERTOS_CONFIG_MINIMAL_STACK_SIZE : Z := 256.
Definition SERTOS_CONFIG_IDLE_TASK_STACK_SIZE : Z := 512.
Definition SERTOS_CONFIG_TIME_SLICING : Z := 1.
Definition SERTOS_STACK_ALIGNMENT_BYTES : Z := SERTOS_CONFIG_STACK_ALIGNMENT_BYTES.

(** ** Status codes and special timeouts (inc/sertos_types.h) *)

Inductive SertosStatus : Type :=
  | SERTOS_STATUS_OK
  | SERTOS_STATUS_ERROR_NULL_PTR
  | SERTOS_STATUS_ERROR_INVALID_PARAM
  | SERTOS_STATUS_ERROR_NO_MEMORY
  | SERTOS_STATUS_ERROR_TIMEOUT
  | SERTOS_STATUS_ERROR_RESOURCE_BUSY
  | SERTOS_STATUS_ERROR_NOT_INITIALIZED
  | SERTOS_STATUS_ERROR_ISR_CONTEXT
  | SERTOS_STATUS_ERROR_STACK_OVERFLOW.

#[export] Instance SertosStatus_eq_dec : EqDecision SertosStatus.
Proof. solve_decision. Defined.

Definition SERTOS_NO_WAIT : Z := 0.
Definition SERTOS_WAIT_FOREVER : Z := 0xFFFFFFFF.

(** ** Intrusive lists: the objects and their embedded nodes *)

(** The [LinkedList] objects: the scheduler's and the timer module's statics, and the wait
    lists embedded in the IPC object at an address. *)
Inductive listid : Type :=
  | LReady (p : Z)     (** s_ready_queues[p] *)
  | LDelay             (** s_delay_list *)
  | LSuspended         (** s_suspended_list *)
  | LRegistry          (** s_task_registry *)
  | LTimers            (** s_active_timers *)
  | LSemWait (a : addr)     (** sem->wait_list *)
  | LMutexWait (a : addr)   (** mutex->wait_list *)
  | LQueueSend (a : addr)   (** queue->wait_send *)
  | LQueueRecv (a : addr)   (** queue->wait_recv *)
  | LStreamSend (a : addr)  (** stream_buf->wait_send *)
  | LStreamRecv (a : addr). (** stream_buf->wait_recv *)

#[export] Instance listid_eq_dec : EqDecision listid.
Proof. solve_decision. Defined.

(** The [LinkedListNode] fields of TCBs and timers. *)
Inductive link : Type :=
  | FState     (** tcb->state_node *)
  | FEvent     (** tcb->event_node *)
  | FRegistry  (** tcb->registry_node *)
  | FTimer.    (** timer->node *)

#[export] Instance link_eq_dec : EqDecision link.
Proof. solve_decision. Defined.

Inductive node : Type :=
  | NRoot (l : listid)            (** &list->root *)
  | NLink (f : link) (t : addr).  (** &object->f *)

#[export] Instance node_eq_dec : EqDecision node.
Proof. solve_decision. Defined.

(** LINKED_LIST_CONTAINER_OF(n, type, f); a node of another field is not a member. *)
Definition container_of (f : link) (n : node) : option addr :=
  match n with
  | NLink f' t => if decide (f' = f) then Some t else None
  | NRoot _ => None
  end.

(** Which field links the members of a list. *)
Definition link_of (l : listid) : link :=
  match l with
  | LReady _ | LDelay | LSuspended => FState
  | LRegistry => FRegistry
  | LTimers => FTimer
  | _ => FEvent
  end.

Record LinkedListNode : Type := mkNode { next : option node; prev : option node }.
#[export] Instance LinkedListNode_eta : Eta LinkedListNode := fun n => mkNode (next n) (prev n).

(** The memory of list nodes and of the lists' [count] fields. *)
Record ListHeap : Type := mkListHeap { cells : node -> LinkedListNode; count : listid -> Z }.
#[export] Instance ListHeap_eta : Eta ListHeap := fun h => mkListHeap (cells h) (count h).

Definition set_cell (n : node) (c : LinkedListNode) (h : ListHeap) : ListHeap :=
  h <| cells ::= fun m => <[n := c]> m |>.
Definition set_next (n : node) (v : option node) (h : ListHeap) : ListHeap :=
  set_cell n ((cells h n) <| next := v |>) h.
Definition set_prev (n : node) (v : option node) (h : ListHeap) : ListHeap :=
  set_cell n ((cells h n) <| prev := v |>) h.

(** ** Tasks (inc/sertos_task.h) *)

Definition SERTOS_TASK_MAGIC_WORD : Z := 0x54434221.
Definition SERTOS_TASK_STACK_FILL_BYTE : Z := 0xA5.

Inductive SertosTaskState : Type :=
  | SERTOS_TASK_STATE_READY
  | SERTOS_TASK_STATE_RUNNING
  | SERTOS_TASK_STATE_BLOCKED
  | SERTOS_TASK_STATE_SUSPENDED
  | SERTOS_TASK_STATE_TERMINATED.

#[export] Instance SertosTaskState_eq_dec : EqDecision SertosTaskState.
Proof. solve_decision. Defined.

(** The nodes [state_node], [event_node] and [registry_node] are in the list heap. *)
Record SertosTaskControlBlock : Type := mkTCB {
  stack_ptr : ptr;
  stack_base : ptr;
  stack_size : Z;
  stack_limit : ptr;
  state : SertosTaskState;
  priority : Z;
  base_priority : Z;
  delay_ticks : Z;
  entry_func : ptr;
  param : ptr;
  name : option string;
  wait_list : option listid;
  is_statically_allocated : bool;
  magic : Z;
  port_context : ptr;
  run_time_total : Z;
  run_time_last_entry : Z;
  switch_in_count : Z }.
#[export] Instance TCB_eta : Eta SertosTaskControlBlock := fun t =>
  mkTCB (stack_ptr t) (stack_base t) (stack_size t) (stack_limit t) (state t) (priority t)
    (base_priority t) (delay_ticks t) (entry_func t) (param t) (name t) (wait_list t)
    (is_statically_allocated t) (magic t) (port_context t) (run_time_total t)
    (run_time_last_entry t) (switch_in_count t).

Record SertosTaskConfig : Type := mkTaskConfig {
  cfg_name : option string;
  cfg_entry_func : ptr;
  cfg_param : ptr;
  cfg_priority : Z;
  cfg_stack_buffer : ptr;
  cfg_stack_size : Z }.
#[export] Instance TaskConfig_eta : Eta SertosTaskConfig := fun c =>
  mkTaskConfig (cfg_name c) (cfg_entry_func c) (cfg_param c) (cfg_priority c)
    (cfg_stack_buffer c) (cfg_stack_size c).

(** Scheduler configuration (inc/sertos_types.h). *)
Record SertosConfig : Type := mkConfig {
  tick_rate_hz : Z;
  enable_time_slicing : bool;
  idle_task_stack : ptr;
  idle_task_stack_size : Z;
  tick_hook : ptr;
  idle_hook : ptr;
  enable_runtime_stats : bool }.

(** ** IPC objects and timers *)

Definition SERTOS_SEM_MAGIC_WORD : Z := 0x53454D41.

(** Semaphore (inc/sertos_sem.h); its wait list is the list object [LSemWait a]. *)
Record SertosSemaphore : Type := mkSem {
  sem_count : Z;
  sem_max_count : Z;
  sem_is_static : bool;
  sem_magic : Z }.
#[export] Instance Sem_eta : Eta SertosSemaphore := fun s =>
  mkSem (sem_count s) (sem_max_count s) (sem_is_static s) (sem_magic s).

Definition SERTOS_MUTEX_MAGIC_WORD : Z := 0x4D555458.

(** Mutex (inc/sertos_mutex.h); its wait list is the list object [LMutexWait a]. *)
Record SertosMutex : Type := mkMutex {
  mtx_owner : ptr;
  mtx_lock_count : Z;
  mtx_original_owner_priority : Z;
  mtx_is_static : bool;
  mtx_magic : Z }.
#[export] Instance Mutex_eta : Eta SertosMutex := fun m =>
  mkMutex (mtx_owner m) (mtx_lock_count m) (mtx_original_owner_priority m)
    (mtx_is_static m) (mtx_magic m).

Definition SERTOS_TIMER_MAGIC_WORD : Z := 0x54494D52.

Record SertosTimerConfig : Type := mkTimerConfig {
  tcfg_name : option string;
  tcfg_period : Z;
  tcfg_is_periodic : bool;
  tcfg_callback : ptr;
  tcfg_param : ptr }.

(** Software timer (inc/sertos_timer.h); [node] is in the list heap. *)
Record SertosTimer : Type := mkTimer {
  tm_name : option string;
  tm_period_ticks : Z;
  tm_remaining_ticks : Z;
  tm_is_periodic : bool;
  tm_is_active : bool;
  tm_callback : ptr;
  tm_param : ptr;
  tm_is_static : bool;
  tm_magic : Z }.
#[export] Instance Timer_eta : Eta SertosTimer := fun t =>
  mkTimer (tm_name t) (tm_period_ticks t) (tm_remaining_ticks t) (tm_is_periodic t)
    (tm_is_active t) (tm_callback t) (tm_param t) (tm_is_static t) (tm_magic t).

(** ** Runtime statistics records (inc/sertos_stats.h) *)

Record SertosTaskStats : Type := mkTaskStats {
  ts_name : option string;
  ts_priority : Z;
  ts_state : SertosTaskState;
  ts_run_time : Z;
  ts_cpu_percent_x100 : Z;
  ts_switch_in_count : Z;
  ts_stack_high_water : Z }.
#[export] Instance TaskStats_eta : Eta SertosTaskStats := fun s =>
  mkTaskStats (ts_name s) (ts_priority s) (ts_state s) (ts_run_time s)
    (ts_cpu_percent_x100 s) (ts_switch_in_count s) (ts_stack_high_water s).

Record SertosSystemStats : Type := mkSystemStats {
  ss_total_run_time : Z;
  ss_idle_run_time : Z;
  ss_idle_percent_x100 : Z;
  ss_total_switches : Z;
  ss_total_ticks : Z;
  ss_task_count : Z }.
