(* ===== verification/Platform.v ===== *)
(** The interfaces below the kernel.

    The modules under src/modules/ (linked_list, bitmap, atomic, memory_pool, crc,
    ring_buffer, fsm) are git submodules: their code is not part of the repository.  Their
    operations are parameters of the model (the [...Ops] classes, with the names and argument
    order of the C calls), and what the kernel relies on are laws (the [...Laws] classes).
    The port contract inc port/sertos_port.h is such an interface too ([PortOps]); the ports
    under src/port/ implement it.

    The list laws speak of the pointer structure itself, which the kernel reads and writes
    directly: [is_dll h l ns] says that following [next] from the root of [l] visits the nodes
    [ns] and comes back to the root, and [prev] the same backwards. *)
From S2P Require Import Prelude Types.

(** ** modules/linked_list *)

Class LinkedListOps : Type := {
  linked_list_init : listid -> ListHeap -> ListHeap;
  linked_list_insert_tail_direct : listid -> node -> ListHeap -> ListHeap;
  linked_list_remove_direct : listid -> node -> ListHeap -> ListHeap;
  linked_list_peek_head : listid -> ListHeap -> option node;
  linked_list_is_empty : listid -> ListHeap -> bool }.

Definition is_link (n : node) : Prop := match n with NLink _ _ => True | NRoot _ => False end.

(** [a -> ns -> z], in both directions. *)
Fixpoint linked (h : ListHeap) (a : node) (ns : list node) (z : node) : Prop :=
  match ns with
  | [] => next (cells h a) = Some z /\ prev (cells h z) = Some a
  | n :: ns' => next (cells h a) = Some n /\ prev (cells h n) = Some a /\ linked h n ns' z
  end.

Record is_dll (h : ListHeap) (l : listid) (ns : list node) : Prop := Is_dll {
  dll_linked : linked h (NRoot l) ns (NRoot l);
  dll_count : count h l = Z.of_nat (length ns);
  dll_nodup : NoDup ns;
  dll_links : Forall is_link ns }.

(** Nothing changed but the nodes in [fp] and the count of [l]. *)
Record heap_frame (l : listid) (fp : list node) (h h' : ListHeap) : Prop := Heap_frame {
  frame_cells : forall n, n ∉ fp -> cells h' n = cells h n;
  frame_count : forall l', l' <> l -> count h' l' = count h l' }.

Class LinkedListLaws `{LinkedListOps} : Prop := {
  linked_list_init_law : forall h l,
    is_dll (linked_list_init l h) l [] /\ heap_frame l [NRoot l] h (linked_list_init l h);
  linked_list_insert_tail_law : forall h l ns n,
    is_dll h l ns -> n ∉ ns -> is_link n ->
    is_dll (linked_list_insert_tail_direct l n h) l (ns ++ [n]) /\
    heap_frame l (NRoot l :: ns ++ [n]) h (linked_list_insert_tail_direct l n h);
  linked_list_remove_law : forall h l ns1 n ns2,
    is_dll h l (ns1 ++ n :: ns2) ->
    is_dll (linked_list_remove_direct l n h) l (ns1 ++ ns2) /\
    heap_frame l (NRoot l :: ns1 ++ n :: ns2) h (linked_list_remove_direct l n h);
  linked_list_peek_head_law : forall h l ns,
    is_dll h l ns -> linked_list_peek_head l h = head ns;
  linked_list_is_empty_law : forall h l ns,
    is_dll h l ns -> linked_list_is_empty l h = bool_decide (ns = []) }.

(** ** modules/bitmap *)

Class BitmapOps : Type := {
  BitmapStorage : Type;
  bitmap_zero_storage : BitmapStorage;           (** the words, after memset to 0 *)
  Bitmap : Type;
  bitmap_init : BitmapStorage -> Z -> option Bitmap;
  bitmap_set_bit : Z -> Bitmap -> Bitmap;
  bitmap_clear_bit : Z -> Bitmap -> Bitmap;
  bitmap_find_last_set : Bitmap -> option Z;
  (** the abstract value of a bitmap, used by the laws only *)
  bitmap_size : Bitmap -> Z;
  bitmap_bit : Bitmap -> Z -> bool }.

Class BitmapLaws `{BitmapOps} : Prop := {
  bitmap_init_law : forall n, 1 <= n ->
    exists b, bitmap_init bitmap_zero_storage n = Some b /\ bitmap_size b = n /\
              forall p, bitmap_bit b p = false;
  bitmap_set_law : forall b p, 0 <= p < bitmap_size b ->
    bitmap_size (bitmap_set_bit p b) = bitmap_size b /\
    forall q, bitmap_bit (bitmap_set_bit p b) q = (q =? p) || bitmap_bit b q;
  bitmap_clear_law : forall b p, 0 <= p < bitmap_size b ->
    bitmap_size (bitmap_clear_bit p b) = bitmap_size b /\
    forall q, bitmap_bit (bitmap_clear_bit p b) q = negb (q =? p) && bitmap_bit b q;
  bitmap_find_last_set_law : forall b,
    match bitmap_find_last_set b with
    | Some p => 0 <= p < bitmap_size b /\ bitmap_bit b p = true /\
                forall q, p < q < bitmap_size b -> bitmap_bit b q = false
    | None => forall q, 0 <= q < bitmap_size b -> bitmap_bit b q = false
    end }.

(** ** modules/atomic *)

Class AtomicOps : Type := {
  atomic_size_t : Type;
  atomic_init_size_t : Z -> atomic_size_t;
  atomic_load_relaxed : atomic_size_t -> Z;
  atomic_load_acquire : atomic_size_t -> Z;
  atomic_store_relaxed : Z -> atomic_size_t -> atomic_size_t }.

Class AtomicLaws `{AtomicOps} : Prop := {
  atomic_load_init_law : forall v, atomic_load_relaxed (atomic_init_size_t v) = v;
  atomic_load_store_law : forall v a, atomic_load_relaxed (atomic_store_relaxed v a) = v;
  atomic_load_acquire_law : forall a, atomic_load_acquire a = atomic_load_relaxed a }.

(** ** modules/memory_pool *)

Class PoolOps : Type := {
  Pool : Type;
  memory_pool_malloc : Z -> Pool -> ptr * Pool;
  memory_pool_free : addr -> Pool -> Pool;
  (** the blocks handed out, used by the laws only *)
  pool_live : Pool -> addr -> bool }.

Class PoolLaws `{PoolOps} : Prop := {
  memory_pool_malloc_law : forall n p,
    match memory_pool_malloc n p with
    | (Some a, p') => a <> 0 /\ pool_live p a = false /\
                      forall b, pool_live p' b = (b =? a) || pool_live p b
    | (None, p') => forall b, pool_live p' b = pool_live p b
    end;
  memory_pool_free_law : forall a p b,
    pool_live (memory_pool_free a p) b = negb (b =? a) && pool_live p b }.

(** ** modules/ring_buffer

    The bytes are in the caller's storage; [rb_tail], [rb_mask] and [rb_buffer] are the
    fields the kernel reads directly. *)

Definition Mem : Type := Z -> Z.

(** The [n] bytes at [a]. *)
Fixpoint mem_bytes (m : Mem) (a : addr) (n : nat) : list Z :=
  match n with O => [] | S n => m a :: mem_bytes m (a + 1) n end.

Class RingBufferOps : Type := {
  RingBuffer : Type;
  rb_zero : RingBuffer;                          (** before initialisation *)
  rb_tail : RingBuffer -> Z;                     (** atomic_load_relaxed(&rb->tail) *)
  rb_mask : RingBuffer -> Z;
  rb_buffer : RingBuffer -> addr;
  ring_buffer_init : addr -> Z -> option RingBuffer;
  ring_buffer_capacity : RingBuffer -> Z;
  ring_buffer_count : RingBuffer -> Z;
  ring_buffer_write : addr -> Z -> RingBuffer -> Mem -> Z * RingBuffer * Mem;
  ring_buffer_read : addr -> Z -> RingBuffer -> Mem -> Z * RingBuffer * Mem;
  ring_buffer_clear : RingBuffer -> RingBuffer;
  ring_buffer_is_empty : RingBuffer -> bool;
  ring_buffer_is_full : RingBuffer -> bool;
  (** the bytes in store, oldest first; used by the laws only *)
  ring_holds : RingBuffer -> Mem -> list Z -> Prop }.

(** The storage of a ring buffer, and what writing and reading leave of the descriptor. *)
Definition in_storage `{RingBufferOps} (rb : RingBuffer) (x : addr) : Prop :=
  rb_buffer rb <= x <= rb_buffer rb + rb_mask rb.
Definition same_ring `{RingBufferOps} (rb rb' : RingBuffer) : Prop :=
  rb_buffer rb' = rb_buffer rb /\ rb_mask rb' = rb_mask rb /\
  ring_buffer_capacity rb' = ring_buffer_capacity rb.

(** First in, first out; a write or read of more than fits or is there is cut short; one byte
    of the storage is never used; a caller's buffer does not overlap the storage. *)
Class RingBufferLaws `{RingBufferOps} : Prop := {
  ring_init_law : forall st n rb m, ring_buffer_init st n = Some rb ->
    ring_holds rb m [] /\ rb_buffer rb = st /\ rb_mask rb = n - 1 /\ ring_buffer_capacity rb = n - 1;
  ring_init_power_law : forall st e, 0 < e -> is_Some (ring_buffer_init st (2 ^ e));
  ring_count_law : forall rb m bs, ring_holds rb m bs ->
    ring_buffer_count rb = Z.of_nat (length bs) /\ Z.of_nat (length bs) <= ring_buffer_capacity rb;
  ring_empty_law : forall rb m bs, ring_holds rb m bs -> ring_buffer_is_empty rb = bool_decide (bs = []);
  ring_full_law : forall rb m bs, ring_holds rb m bs ->
    ring_buffer_is_full rb = (Z.of_nat (length bs) =? ring_buffer_capacity rb);
  ring_frame_law : forall rb m m' bs, ring_holds rb m bs ->
    (forall x, in_storage rb x -> m' x = m x) -> ring_holds rb m' bs;
  ring_peek_law : forall rb m bs i b, ring_holds rb m bs -> bs !! i = Some b ->
    m (rb_buffer rb + Z.land (rb_tail rb + Z.of_nat i) (rb_mask rb)) = b;
  ring_mask_law : forall rb m bs, ring_holds rb m bs -> exists e, 0 < e /\ rb_mask rb = 2 ^ e - 1;
  ring_write_law : forall rb m bs src n, ring_holds rb m bs -> 0 <= n ->
    let w := Z.min n (ring_buffer_capacity rb - Z.of_nat (length bs)) in
    (forall x, src <= x < src + w -> ~ in_storage rb x) ->
    exists rb' m', ring_buffer_write src n rb m = (w, rb', m') /\ same_ring rb rb' /\
      ring_holds rb' m' (bs ++ mem_bytes m src (Z.to_nat w)) /\
      (forall x, ~ in_storage rb x -> m' x = m x);
  ring_read_law : forall rb m bs dest n, ring_holds rb m bs -> 0 <= n ->
    let w := Z.min n (Z.of_nat (length bs)) in
    (forall x, dest <= x < dest + w -> ~ in_storage rb x) ->
    exists rb' m', ring_buffer_read dest n rb m = (w, rb', m') /\ same_ring rb rb' /\
      ring_holds rb' m' (drop (Z.to_nat w) bs) /\ mem_bytes m' dest (Z.to_nat w) = take (Z.to_nat w) bs /\
      (forall x, ~ dest <= x < dest + w -> m' x = m x);
  ring_clear_law : forall rb m bs, ring_holds rb m bs ->
    ring_holds (ring_buffer_clear rb) m [] /\ same_ring rb (ring_buffer_clear rb) }.

(** ** The port contract (port/sertos_port.h)

    [PortState] is the port's own state.  [port_host] says whether one of SERTOS_PORT_HOST,
    _WIN32 and __linux__ is defined; [port_size_bits] is the width of size_t.  A port's
    run-time counter may be derived from the tick count, which is therefore an argument. *)

Class PortOps : Type := {
  PortState : Type;
  port_host : bool;
  port_size_bits : Z;
  sertos_port_stack_init : ptr -> ptr -> ptr -> ptr -> Mem -> ptr * Mem;
  port_start_first_task : PortState -> PortState;
  port_yield : PortState -> PortState;
  port_enter_critical : PortState -> Z * PortState;
  port_exit_critical : Z -> PortState -> PortState;
  port_tick_init : Z -> PortState -> SertosStatus * PortState;
  port_task_create_hook : addr -> ptr -> PortState -> ptr * PortState;
  port_task_delete_hook : addr -> ptr -> PortState -> ptr * PortState;
  port_stop_scheduler : PortState -> PortState;
  port_runtime_counter : Z -> PortState -> Z * PortState;
  port_runtime_counter_init : PortState -> PortState }.

(** ** Everything the kernel is linked with

    [s_idle_tcb], [s_idle_stack] and [idle_task_entry_addr] are the addresses the linker gives
    two statics and the idle task's function, the [sizeof_...] are the compiler's;
    [loop_fuel] bounds the iterations of the kernel's list walks in the model. *)
Class Platform : Type := {
  platform_lists :: LinkedListOps;
  platform_bitmap :: BitmapOps;
  platform_atomic :: AtomicOps;
  platform_pool :: PoolOps;
  platform_ring_buffer :: RingBufferOps;
  platform_port :: PortOps;
  s_idle_tcb : addr;
  s_idle_stack : addr;
  idle_task_entry_addr : addr;
  sizeof_SertosTaskControlBlock : Z;
  sizeof_SertosSemaphore : Z;
  sizeof_SertosMutex : Z;
  sizeof_SertosTimer : Z;
  sizeof_SertosQueue : Z;
  sizeof_SertosStreamBuffer : Z;
  loop_fuel : nat }.

Class PlatformLaws `{Platform} : Prop := {
  platform_lists_laws :: LinkedListLaws;
  platform_bitmap_laws :: BitmapLaws;
  platform_atomic_laws :: AtomicLaws;
  platform_pool_laws :: PoolLaws;
  platform_ring_buffer_laws :: RingBufferLaws }.

(** A platform with another port. *)
Definition with_port (PL : Platform) (PO : PortOps) : Platform := {|
  platform_lists := platform_lists; platform_bitmap := platform_bitmap; platform_atomic := platform_atomic;
  platform_pool := platform_pool; platform_ring_buffer := platform_ring_buffer; platform_port := PO;
  s_idle_tcb := s_idle_tcb; s_idle_stack := s_idle_stack; idle_task_entry_addr := idle_task_entry_addr;
  sizeof_SertosTaskControlBlock := sizeof_SertosTaskControlBlock;
  sizeof_SertosSemaphore := sizeof_SertosSemaphore; sizeof_SertosMutex := sizeof_SertosMutex;
  sizeof_SertosTimer := sizeof_SertosTimer; sizeof_SertosQueue := sizeof_SertosQueue;
  sizeof_SertosStreamBuffer := sizeof_SertosStreamBuffer; loop_fuel := loop_fuel |}.

Lemma with_port_laws PL PO : @PlatformLaws PL -> @PlatformLaws (with_port PL PO).
Proof. intros []. by split. Qed.
