(* ===== verification/PortFrame.v ===== *)
(** Stack frames in byte memory: little-endian words, C structures of words laid out in
    declaration order, and the alignment of their base.  Shared by the ports under src/port/. *)
From S2P Require Import Prelude Types Platform.

(** ** Little-endian words *)

Fixpoint store_le (n : nat) (a v : Z) (m : Mem) : Mem :=
  match n with
  | O => m
  | S n => <[a := u8 v]> (store_le n (a + 1) (Z.shiftr v 8) m)
  end.
Fixpoint load_le (n : nat) (a : Z) (m : Mem) : Z :=
  match n with
  | O => 0
  | S n => m a + Z.shiftl (load_le n (a + 1) m) 8
  end.

(** [*(uint32_t* )a] *)
Abbreviation store32 := (store_le 4).
Abbreviation load32 := (load_le 4).

Lemma byte_insert_eq (m : Mem) a v : (<[a := v]> m) a = v.
Proof. apply (fn_lookup_insert m a v). Qed.
Lemma byte_insert_ne (m : Mem) a b v : a <> b -> (<[a := v]> m) b = m b.
Proof. apply (fn_lookup_insert_ne m a b v). Qed.

Lemma store_le_out n a v m x : ~ a <= x < a + Z.of_nat n -> store_le n a v m x = m x.
Proof.
  revert a v. induction n as [|n IH]; intros a v Hx; cbn [store_le]; [done|].
  rewrite byte_insert_ne by lia. apply IH. lia.
Qed.

Lemma load_le_ext n a m m' :
  (forall x, a <= x < a + Z.of_nat n -> m' x = m x) -> load_le n a m' = load_le n a m.
Proof.
  revert a. induction n as [|n IH]; intros a Hm; cbn [load_le]; [done|].
  rewrite Hm by lia. f_equal. f_equal. apply IH. intros x Hx. apply Hm. lia.
Qed.

Lemma load_store_same n a v m : load_le n a (store_le n a v m) = wrap (8 * Z.of_nat n) v.
Proof.
  unfold wrap. revert a v. induction n as [|n IH]; intros a v.
  - simpl. by rewrite Z.mod_1_r.
  - cbn [load_le store_le]. rewrite byte_insert_eq.
    rewrite (load_le_ext _ _ (store_le n (a + 1) (Z.shiftr v 8) m)) by (intros; apply byte_insert_ne; lia).
    rewrite IH, Z.shiftr_div_pow2, Z.shiftl_mul_pow2 by lia. unfold wrap.
    replace (8 * Z.of_nat (S n)) with (8 + 8 * Z.of_nat n) by lia.
    rewrite Z.pow_add_r, (Z.rem_mul_r v) by lia. lia.
Qed.

Lemma load_store_ne n a b v m :
  b + Z.of_nat n <= a \/ a + Z.of_nat n <= b -> load_le n b (store_le n a v m) = load_le n b m.
Proof. intros Hne. apply load_le_ext. intros x Hx. apply store_le_out. lia. Qed.

(** Words side by side. *)
Fixpoint store_words (n : nat) (a : Z) (vs : list Z) (m : Mem) : Mem :=
  match vs with
  | [] => m
  | v :: vs => store_words n (a + Z.of_nat n) vs (store_le n a v m)
  end.

Lemma store_words_out n a vs m x :
  ~ a <= x < a + Z.of_nat n * Z.of_nat (length vs) -> store_words n a vs m x = m x.
Proof.
  revert a m. induction vs as [|v vs IH]; intros a m Hx; cbn [store_words]; [done|].
  cbn [length] in Hx. rewrite IH by nia. apply store_le_out. nia.
Qed.

Lemma load_words_at n a vs m i v :
  vs !! i = Some v ->
  load_le n (a + Z.of_nat n * Z.of_nat i) (store_words n a vs m) = wrap (8 * Z.of_nat n) v.
Proof.
  revert a m i. induction vs as [|w vs IH]; intros a m i Hi; cbn [store_words]; [done|].
  destruct i as [|i]; simpl in Hi.
  - injection Hi as ->. rewrite (load_le_ext _ _ (store_le n a v m)).
    + rewrite Z.mul_0_r, Z.add_0_r. apply load_store_same.
    + intros x Hx. apply store_words_out. lia.
  - replace (a + Z.of_nat n * Z.of_nat (S i)) with ((a + Z.of_nat n) + Z.of_nat n * Z.of_nat i) by lia.
    by apply IH.
Qed.

(** ** Structures *)

(** A [struct] of fields of [n] bytes each, in declaration order. *)
Section struct.
Context {F : Type} `{EqDecision F} (n : nat) (layout : list F).
Implicit Types (f g : F).

Fixpoint index_of f (l : list F) : nat :=
  match l with
  | [] => O
  | g :: l => if decide (g = f) then O else S (index_of f l)
  end.
Definition sizeof : Z := Z.of_nat n * Z.of_nat (length layout).
Definition offsetof f : Z := Z.of_nat n * Z.of_nat (index_of f layout).
(** [base->f = v] and [base->f]. *)
Definition set_field (base : Z) f (v : Z) (m : Mem) : Mem := store_le n (base + offsetof f) v m.
Definition get_field (base : Z) f (m : Mem) : Z := load_le n (base + offsetof f) m.
(** A sequence of assignments to fields of [base]. *)
Definition assign (base : Z) (l : list (F * Z)) (m : Mem) : Mem :=
  foldl (fun m fv => set_field base fv.1 fv.2 m) m l.

Lemma index_of_lt f l : f ∈ l -> (index_of f l < length l)%nat.
Proof.
  induction l as [|g l IH]; intros Hf; [by apply elem_of_nil in Hf|]. simpl. case_decide; [lia|].
  apply elem_of_cons in Hf as [->|Hf]; [done|]. specialize (IH Hf). lia.
Qed.

Lemma index_of_lookup f l : f ∈ l -> l !! index_of f l = Some f.
Proof.
  induction l as [|g l IH]; intros Hf; [by apply elem_of_nil in Hf|]. simpl. case_decide as Hg; [by subst|].
  apply IH. by apply elem_of_cons in Hf as [->|Hf].
Qed.

Lemma index_of_ne f g l : f ∈ l -> f <> g -> index_of f l <> index_of g l.
Proof.
  intros Hf Hne. induction l as [|x l IH]; [by apply elem_of_nil in Hf|]. simpl.
  destruct (decide (x = f)), (decide (x = g)); try congruence.
  apply elem_of_cons in Hf as [->|Hf]; [done|]. intros [= Heq]. by apply IH.
Qed.

Lemma get_set_same base f v m : get_field base f (set_field base f v m) = wrap (8 * Z.of_nat n) v.
Proof. apply load_store_same. Qed.

Lemma get_set_ne base f g v m :
  g ∈ layout -> f <> g -> get_field base g (set_field base f v m) = get_field base g m.
Proof.
  intros Hg Hne. apply load_store_ne. unfold offsetof.
  pose proof (index_of_ne g f layout Hg ltac:(congruence)). nia.
Qed.

Lemma set_field_out base f v m x :
  f ∈ layout -> ~ base <= x < base + sizeof -> set_field base f v m x = m x.
Proof.
  intros Hf Hx. apply store_le_out. unfold offsetof, sizeof in *.
  pose proof (index_of_lt f layout Hf). nia.
Qed.

(** A field reads as its last assignment. *)
Lemma get_assign base l m g :
  g ∈ layout ->
  get_field base g (assign base l m) =
    match list_find (fun fv => fv.1 = g) (reverse l) with
    | Some (_, (_, v)) => wrap (8 * Z.of_nat n) v
    | None => get_field base g m
    end.
Proof.
  intros Hg. induction l as [|[f v] l IH] using rev_ind; [done|].
  unfold assign in *. rewrite foldl_snoc, reverse_app. simpl. case_decide as Hf.
  - subst f. apply get_set_same.
  - rewrite get_set_ne by done. rewrite IH. destruct (list_find _ (reverse l)) as [[i [h w]]|]; done.
Qed.

Lemma assign_out base l m x :
  Forall (fun fv => fv.1 ∈ layout) l -> ~ base <= x < base + sizeof -> assign base l m x = m x.
Proof.
  intros Hl Hx. revert m. induction Hl as [|[f v] l Hf _ IH]; intros m; [done|].
  unfold assign in *. simpl. rewrite IH. by apply set_field_out.
Qed.
End struct.

(** The base of a structure of [size] bytes at the aligned top of a stack. *)
Definition frame_base (w top size : Z) : Z :=
  wrap w (Z.land top (wrap w (Z.lnot (SERTOS_STACK_ALIGNMENT_BYTES - 1))) - size).

Lemma frame_base_spec w top size :
  3 <= w -> 0 <= top < 2 ^ w -> 0 <= size <= 8 * (top / 8) ->
  frame_base w top size = 8 * (top / 8) - size /\ 8 * (top / 8) <= top.
Proof.
  intros Hw Ht Hs. unfold frame_base. change (SERTOS_STACK_ALIGNMENT_BYTES - 1) with 7.
  rewrite land_align8 by done. unfold wrap. pose proof (Z.mul_div_le top 8).
  rewrite Z.mod_small by lia. lia.
Qed.
