(* ===== verification/PortCritical.v ===== *)
(** Nested critical sections on an interrupt mask register: the interface of the ports that
    count their depth, and what it promises to the kernel.

    [sertos_port_enter_critical] saves the mask register and masks interrupts;
    [sertos_port_exit_critical] writes the saved value back when the outermost section ends.
    The kernel pairs the two calls; a computation that does is [balanced]. *)
From S2P Require Import Prelude.

Class CriticalOps (S : Type) : Type := {
  enter_critical : S -> Z * S;
  exit_critical : Z -> S -> S;
  nesting : S -> Z;          (** the depth counter *)
  mask : S -> Z;             (** the mask register *)
  closed : Z -> Z }.         (** the register once interrupts are masked *)

Class CriticalLaws (S : Type) `{CriticalOps S} : Prop := {
  closed_closed : forall v, closed (closed v) = closed v;
  enter_law : forall s, fst (enter_critical s) = mask s /\
    mask (snd (enter_critical s)) = closed (mask s) /\ nesting (snd (enter_critical s)) = u32 (nesting s + 1);
  exit_law : forall v s, 0 < nesting s ->
    nesting (exit_critical v s) = nesting s - 1 /\
    mask (exit_critical v s) = if nesting s =? 1 then v else mask s;
  exit_unbalanced_law : forall v s, nesting s = 0 -> exit_critical v s = s }.

Section critical.
Context {S : Type} `{CriticalLaws S}.
Implicit Types (s : S) (f g : S -> S).

(** [inside f]: [f] in a critical section. *)
Definition inside f s : S :=
  let '(status, s1) := enter_critical s in exit_critical status (f s1).

(** A computation that pairs its critical sections, at most [n] deep, and otherwise leaves the
    mask register and the counter alone. *)
Inductive balanced : nat -> (S -> S) -> Prop :=
  | balanced_plain n f : (forall s, nesting (f s) = nesting s /\ mask (f s) = mask s) -> balanced n f
  | balanced_seq n f g : balanced n f -> balanced n g -> balanced n (fun s => g (f s))
  | balanced_inside n f : balanced n f -> balanced (Datatypes.S n) (inside f).

(** Inside a section, interrupts are masked. *)
Definition consistent s : Prop := 0 <= nesting s /\ (0 < nesting s -> mask s = closed (mask s)).

Lemma balanced_restores n f s :
  balanced n f -> consistent s -> nesting s + Z.of_nat n < 2 ^ 32 ->
  consistent (f s) /\ nesting (f s) = nesting s /\ mask (f s) = mask s.
Proof.
  intros Hf. revert s. induction Hf as [n f Hf|n f g _ IHf _ IHg|n f Hf IH]; intros s Hc Hn.
  - destruct (Hf s) as [Hnest Hmask]. split; [|done]. unfold consistent. by rewrite Hnest, Hmask.
  - destruct (IHf s Hc Hn) as (Hc1 & Hn1 & Hm1). destruct (IHg (f s) Hc1) as (Hc2 & Hn2 & Hm2); [lia|].
    split; [done|]. by rewrite Hn2, Hm2.
  - unfold inside. destruct (enter_law s) as (Hst & Hm & Hnest).
    destruct (enter_critical s) as [status s1]. simpl in Hst, Hm, Hnest. subst status. destruct Hc as [Hc0 Hc].
    unfold wrap in Hnest. rewrite Z.mod_small in Hnest by lia.
    destruct (IH s1) as ((_ & Hc2) & Hn2 & Hm2); [|lia|].
    { split; [lia|]. by rewrite Hm, closed_closed. }
    destruct (exit_law (mask s) (f s1)) as [Hn3 Hm3]; [lia|].
    assert (mask (exit_critical (mask s) (f s1)) = mask s) as Hmask.
    { rewrite Hm3. destruct (Z.eqb_spec (nesting (f s1)) 1); [done|]. rewrite Hm2, Hm. symmetry. apply Hc. lia. }
    split; [|split; [lia|done]]. split; [lia|]. rewrite Hmask, Hn3, Hn2, Hnest. intros Hpos. apply Hc. lia.
Qed.

(** The code of a section runs masked, whatever the depth. *)
Lemma inside_masked s : mask (snd (enter_critical s)) = closed (mask (snd (enter_critical s))).
Proof. destruct (enter_law s) as (_ & Hm & _). by rewrite Hm, closed_closed. Qed.
End critical.
