(* ===== verification/CortexM.v ===== *)
(** What the Cortex-M ports under src/port/arm/ share: the registers they write
    ([CortexM] is a port's state), the SysTick computation of cortex_m_systick.h, the
    instructions of the port_context.s files ([Machine], [instr]) with exception entry and
    return, and the interface [CortexPort] every core's file instantiates.

    Each core has a file of its own ([CortexM0.v], ...), as under src/port/arm/. *)
From S2P Require Import Prelude Types Platform PortFrame PortCritical.

(** ** Memory-mapped registers and the state of a port *)

Definition CORTEX_M_ICSR : Z := 0xE000ED04.
Definition CORTEX_M_ICSR_PENDSVSET : Z := Z.shiftl 1 28.
Definition CORTEX_M_DEFAULT_XPSR : Z := 0x01000000.
Definition CORTEX_M_EXC_RETURN_THREAD_PSP : Z := 0xFFFFFFFD.
Definition CORTEX_M_SYSTICK_CTRL : Z := 0xE000E010.
Definition CORTEX_M_SYSTICK_LOAD : Z := 0xE000E014.
Definition CORTEX_M_SYSTICK_VAL : Z := 0xE000E018.
Definition CORTEX_M_SYSTICK_CTRL_CLKSOURCE : Z := Z.shiftl 1 2.
Definition CORTEX_M_SYSTICK_CTRL_TICKINT : Z := Z.shiftl 1 1.
Definition CORTEX_M_SYSTICK_CTRL_ENABLE : Z := Z.shiftl 1 0.
Definition CORTEX_M_SHPR3 : Z := 0xE000ED20.
Definition CORTEX_M_DEMCR : Z := 0xE000EDFC.
Definition CORTEX_M_DEMCR_TRCENA : Z := Z.shiftl 1 24.
Definition CORTEX_M_DWT_CTRL : Z := 0xE0001000.
Definition CORTEX_M_DWT_CTRL_CYCCNTENA : Z := Z.shiftl 1 0.
Definition CORTEX_M_DWT_CYCCNT : Z := 0xE0001004.
Definition CORTEX_M_AIRCR : Z := 0xE000ED0C.
Definition CORTEX_M_AIRCR_VECTKEY : Z := 0x05FA0000.
Definition CORTEX_M_AIRCR_SYSRESETREQ : Z := Z.shiftl 1 2.

(** PRIMASK, the registers as last written with the order of the writes, what successive reads
    of the free-running cycle counter return, and the statics of port_cpu.c. *)
Record CortexM : Type := mkCortexM {
  primask : Z;
  mmio : Z -> Z;
  mmio_writes : list (Z * Z);
  cyccnt : nat -> Z;
  cyccnt_reads : nat;
  s_critical_nesting : Z;
  s_runtime_dwt_ok : bool }.
#[export] Instance CortexM_eta : Eta CortexM := fun c =>
  mkCortexM (primask c) (mmio c) (mmio_writes c) (cyccnt c) (cyccnt_reads c) (s_critical_nesting c)
    (s_runtime_dwt_ok c).

(** [*(volatile uint32_t* )a = v] and [|= v]. *)
Definition mmio_write (a v : Z) (c : CortexM) : CortexM :=
  c <| mmio ::= fun m => <[a := v]> m |> <| mmio_writes ::= fun l => l ++ [(a, v)] |>.
Definition mmio_or (a v : Z) (c : CortexM) : CortexM := mmio_write a (Z.lor (mmio c a) v) c.
Definition read_cyccnt (c : CortexM) : Z * CortexM :=
  (u32 (cyccnt c (cyccnt_reads c)), c <| cyccnt_reads ::= S |>).

(** ** cortex_m_systick.h *)

Definition CORTEX_M_SYSTICK_MAX_RELOAD_COUNTS : Z := 0x01000000.

(** [Some] of what is stored through [reload_value], a pointer that may be NULL, on [true]. *)
Definition cortex_m_systick (timer_clock_hz tick_rate_hz : Z) (reload_value : bool) : option Z :=
  if (timer_clock_hz =? 0) || (tick_rate_hz =? 0) || negb reload_value then None
  else
    let counts_per_tick := timer_clock_hz / tick_rate_hz in
    if (counts_per_tick =? 0) || (CORTEX_M_SYSTICK_MAX_RELOAD_COUNTS <? counts_per_tick) then None
    else Some (counts_per_tick - 1).

(** ** The bodies of port_cpu.c that the cores share *)

Definition pend_switch (c : CortexM) : CortexM := mmio_write CORTEX_M_ICSR CORTEX_M_ICSR_PENDSVSET c.

(** [mrs prev, primask; cpsid i; s_critical_nesting++]. *)
Definition primask_enter (c : CortexM) : Z * CortexM :=
  (primask c, c <| primask := 1 |> <| s_critical_nesting ::= fun n => u32 (n + 1) |>).
Definition primask_exit (status : Z) (c : CortexM) : CortexM :=
  if 0 <? s_critical_nesting c then
    let c := c <| s_critical_nesting ::= fun n => n - 1 |> in
    if s_critical_nesting c =? 0 then c <| primask := status |> else c
  else c.

(** SysTick at [tick_rate_hz] from [timer_clock_hz]; PendSV gets the lowest priority first. *)
Definition systick_init (timer_clock_hz tick_rate_hz : Z) (c : CortexM) : SertosStatus * CortexM :=
  match cortex_m_systick timer_clock_hz tick_rate_hz true with
  | None => (SERTOS_STATUS_ERROR_INVALID_PARAM, c)
  | Some reload_value =>
      let c := mmio_or CORTEX_M_SHPR3 0x00FF0000 c in
      let c := mmio_write CORTEX_M_SYSTICK_LOAD reload_value c in
      let c := mmio_write CORTEX_M_SYSTICK_VAL 0 c in
      (SERTOS_STATUS_OK,
       mmio_write CORTEX_M_SYSTICK_CTRL
         (Z.lor CORTEX_M_SYSTICK_CTRL_CLKSOURCE
            (Z.lor CORTEX_M_SYSTICK_CTRL_TICKINT CORTEX_M_SYSTICK_CTRL_ENABLE)) c)
  end.

(** The cycle counter, if it was seen to move, and the tick count otherwise. *)
Definition dwt_counter (ticks : Z) (c : CortexM) : Z * CortexM :=
  if s_runtime_dwt_ok c then read_cyccnt c else (ticks, c).
Definition dwt_counter_init (c : CortexM) : CortexM :=
  let c := mmio_or CORTEX_M_DEMCR CORTEX_M_DEMCR_TRCENA c in
  let c := mmio_write CORTEX_M_DWT_CYCCNT 0 c in
  let c := mmio_or CORTEX_M_DWT_CTRL CORTEX_M_DWT_CTRL_CYCCNTENA c in
  let '(start, c) := read_cyccnt c in
  let '(now, c) := read_cyccnt c in
  c <| s_runtime_dwt_ok := negb (now =? start) |>.

(** Up to the endless wait for the reset. *)
Definition request_reset (c : CortexM) : CortexM :=
  mmio_write CORTEX_M_AIRCR (Z.lor CORTEX_M_AIRCR_VECTKEY CORTEX_M_AIRCR_SYSRESETREQ)
    (mmio_write CORTEX_M_SYSTICK_CTRL 0 c).

(** ** The instructions of port_context.s *)

Inductive areg : Type := R0 | R1 | R2 | R3 | R4 | R5 | R6 | R7 | R8 | R9 | R10 | R11 | R12 | LR.

Definition areg_index (r : areg) : nat :=
  match r with
  | R0 => 0 | R1 => 1 | R2 => 2 | R3 => 3 | R4 => 4 | R5 => 5 | R6 => 6 | R7 => 7
  | R8 => 8 | R9 => 9 | R10 => 10 | R11 => 11 | R12 => 12 | LR => 13
  end.

(** The words of a stack frame: a register saved by software or by the exception entry. *)
Inductive slot : Type :=
  | F_r0 | F_r1 | F_r2 | F_r3 | F_r4 | F_r5 | F_r6 | F_r7 | F_r8 | F_r9 | F_r10 | F_r11 | F_r12
  | F_lr | F_pc | F_xpsr | F_exc_return.
#[export] Instance slot_eq_dec : EqDecision slot.
Proof. solve_decision. Defined.

(** The registers of the core, the memory, the TCB words of the task switched to (by offset),
    sertos_current_tcb, and the stack pointer stored in the TCB it points to. *)
Record Machine : Type := mkMachine {
  gr : areg -> Z;
  fr : Z -> Z;          (** s0 - s31, and FPSCR at 32 *)
  m_psp : Z;
  m_primask : Z;
  m_control : Z;
  m_psplim : Z;
  m_pc : Z;
  m_xpsr : Z;
  m_mem : Mem;
  tcb_in : Z -> Z;
  tcb_cur : ptr;
  tcb_out : option Z }.
#[export] Instance Machine_eta : Eta Machine := fun s =>
  mkMachine (gr s) (fr s) (m_psp s) (m_primask s) (m_control s) (m_psplim s) (m_pc s) (m_xpsr s)
    (m_mem s) (tcb_in s) (tcb_cur s) (tcb_out s).

Inductive instr : Type :=
  | Ldmia (rn : areg) (rs : list areg)     (** ldmia rn!, {rs} *)
  | Stmia (rn : areg) (rs : list areg)     (** stmia rn!, {rs} *)
  | Stmdb (rn : areg) (rs : list areg)     (** stmdb rn!, {rs} *)
  | VldmiaEq (rn : areg)                   (** tst lr, #0x10; it eq; vldmiaeq rn!, {s16-s31} *)
  | VstmdbEq (rn : areg)                   (** tst lr, #0x10; it eq; vstmdbeq rn!, {s16-s31} *)
  | Ldr (rd rn : areg)                     (** ldr rd, [rn] *)
  | Str (rd rn : areg)                     (** str rd, [rn] *)
  | LdrTcb (rd : areg) (offset : Z)        (** ldr rd, [tcb, #offset], the task switched to *)
  | StrTcb (rd : areg)                     (** ldr r1, =sertos_current_tcb; ldr r2, [r1];
                                               cmp r2, #0; beq behind; str rd, [r2]
                                               (r1 and r2 are scratch here) *)
  | Mov (rd rn : areg)
  | MovImm (rd : areg) (v : Z)             (** movs rd, #v and ldr rd, =v *)
  | Adds (rd : areg) (v : Z)
  | Subs (rd : areg) (v : Z)
  | MrsPsp (rd : areg)
  | MsrPsp (rn : areg)
  | MsrPsplim (rn : areg)
  | MsrControl (rn : areg)
  | Cpsie
  | Cpsid
  | Isb.

Definition upd_gr (r : areg) (v : Z) (g : areg -> Z) : areg -> Z :=
  fun x => if Nat.eqb (areg_index x) (areg_index r) then v else g x.
Definition set_gr (r : areg) (v : Z) (s : Machine) : Machine := s <| gr ::= upd_gr r v |>.

(** The registers [rs], lowest address first, from the words at [a]. *)
Fixpoint load_regs (a : Z) (rs : list areg) (m : Mem) (g : areg -> Z) : areg -> Z :=
  match rs with
  | [] => g
  | r :: rs => load_regs (a + 4) rs m (upd_gr r (load32 a m) g)
  end.

(** [s16 - s31] from the 16 words at [a]. *)
Definition load_fregs (a : Z) (s : Machine) : Machine :=
  s <| fr ::= fun f x => if (16 <=? x) && (x <? 32) then load32 (a + 4 * (x - 16)) (m_mem s) else f x |>.

(** EXC_RETURN bit 4 is clear when the exception stacked floating-point state. *)
Definition uses_fpu (s : Machine) : bool := Z.land (gr s LR) 0x10 =? 0.
Definition saved_fregs (f : Z -> Z) : list Z := f <$> seqZ 16 16.

Definition step (i : instr) (s : Machine) : Machine :=
  match i with
  | Ldmia rn rs => set_gr rn (u32 (gr s rn + 4 * Z.of_nat (length rs))) (s <| gr ::= load_regs (gr s rn) rs (m_mem s) |>)
  | Stmia rn rs => set_gr rn (u32 (gr s rn + 4 * Z.of_nat (length rs)))
                     (s <| m_mem ::= store_words 4 (gr s rn) (gr s <$> rs) |>)
  | Stmdb rn rs => let a := u32 (gr s rn - 4 * Z.of_nat (length rs)) in
                   set_gr rn a (s <| m_mem ::= store_words 4 a (gr s <$> rs) |>)
  | VldmiaEq rn => if uses_fpu s then set_gr rn (u32 (gr s rn + 64)) (load_fregs (gr s rn) s) else s
  | VstmdbEq rn => if uses_fpu s then
                     let a := u32 (gr s rn - 64) in
                     set_gr rn a (s <| m_mem ::= store_words 4 a (saved_fregs (fr s)) |>)
                   else s
  | Ldr rd rn => set_gr rd (load32 (gr s rn) (m_mem s)) s
  | Str rd rn => s <| m_mem ::= store_words 4 (gr s rn) [gr s rd] |>
  | LdrTcb rd offset => set_gr rd (tcb_in s offset) s
  | StrTcb rd => match tcb_cur s with Some _ => s <| tcb_out := Some (gr s rd) |> | None => s end
  | Mov rd rn => set_gr rd (gr s rn) s
  | MovImm rd v => set_gr rd v s
  | Adds rd v => set_gr rd (u32 (gr s rd + v)) s
  | Subs rd v => set_gr rd (u32 (gr s rd - v)) s
  | MrsPsp rd => set_gr rd (m_psp s) s
  | MsrPsp rn => s <| m_psp := gr s rn |>
  | MsrPsplim rn => s <| m_psplim := gr s rn |>
  | MsrControl rn => s <| m_control := gr s rn |>
  | Cpsie => s <| m_primask := 0 |>
  | Cpsid => s <| m_primask := 1 |>
  | Isb => s
  end.
Definition run_code (code : list instr) (s : Machine) : Machine := foldl (fun s i => step i s) s code.

(** What the core does when it takes an exception in thread mode on PSP: it keeps the stack 8-byte
    aligned (bit 9 of the stacked status word says whether it had to skip a word) and pushes eight
    words, or, if EXC_RETURN says that floating-point state is in use, 26 (s0 - s15, FPSCR and a
    reserved word above the eight; lazy stacking is over by the time they are read). *)
Definition stacks_fpu (exc_return : Z) : bool := Z.land exc_return 0x10 =? 0.
Definition frame_bytes (fp : bool) : Z := if fp then 104 else 32.
Definition xpsr_padded : Z := 0x200.
Definition stacked_fregs (f : Z -> Z) : list Z := (f <$> seqZ 0 16) ++ [f 32].

Definition exception_entry (exc_return : Z) (s : Machine) : Machine :=
  let fp := stacks_fpu exc_return in
  let pad := Z.testbit (m_psp s) 2 in
  let a := u32 (m_psp s - frame_bytes fp - if pad then 4 else 0) in
  let x := if pad then Z.lor (m_xpsr s) xpsr_padded else m_xpsr s in
  let m := store_words 4 a [gr s R0; gr s R1; gr s R2; gr s R3; gr s R12; gr s LR; m_pc s; x] (m_mem s) in
  set_gr LR exc_return
    (s <| m_mem := if fp then store_words 4 (a + 32) (stacked_fregs (fr s)) m else m |> <| m_psp := a |>).

(** [s0 - s15] and FPSCR from the words at [a]. *)
Definition unstack_fregs (a : Z) (s : Machine) : Machine :=
  s <| fr ::= fun f x => if (0 <=? x) && (x <? 16) then load32 (a + 4 * x) (m_mem s)
                         else if x =? 32 then load32 (a + 64) (m_mem s) else f x |>.

(** And on [bx lr] with an EXC_RETURN for thread mode on PSP. *)
Definition exception_return (s : Machine) : Machine :=
  let a := m_psp s in
  let w i := load32 (a + 4 * i) (m_mem s) in
  let fp := uses_fpu s in
  let s := if fp then unstack_fregs (a + 32) s else s in
  set_gr R0 (w 0) (set_gr R1 (w 1) (set_gr R2 (w 2) (set_gr R3 (w 3) (set_gr R12 (w 4) (set_gr LR (w 5)
    (s <| m_pc := w 6 |> <| m_xpsr := Z.ldiff (w 7) xpsr_padded |>
       <| m_psp := u32 (a + frame_bytes fp + if Z.testbit (w 7) 9 then 4 else 0) |>)))))).

(** ** The interface of a core's port *)

Class CortexPort : Type := {
  stack_frame : list slot;            (** the struct of port_cpu.c *)
  saved_regs : list areg;             (** the words port_context.s saves, lowest address first *)
  core_fpu : bool;                    (** whether it also saves s16 - s31 *)
  core_stack_init : ptr -> ptr -> ptr -> ptr -> Mem -> ptr * Mem;
  core_yield : CortexM -> CortexM;
  core_enter_critical : CortexM -> Z * CortexM;
  core_exit_critical : Z -> CortexM -> CortexM;
  core_tick_clock_hz : Z;
  core_tick_init : Z -> CortexM -> SertosStatus * CortexM;
  core_runtime_counter : Z -> CortexM -> Z * CortexM;
  core_runtime_counter_init : CortexM -> CortexM;
  core_stop_scheduler : CortexM -> CortexM;
  core_svc : list instr;              (** SVC_Handler *)
  core_save : list instr;             (** PendSV_Handler up to sertos_scheduler_perform_switch *)
  core_restore : list instr }.        (** PendSV_Handler behind it *)

#[export] Instance core_critical_ops `{CortexPort} : CriticalOps CortexM := {
  enter_critical := core_enter_critical;
  exit_critical := core_exit_critical;
  nesting := s_critical_nesting;
  mask := primask;
  closed := fun _ => 1 }.

Section words.
Context `{CortexPort}.

(** The size of what PendSV saves below PSP, in state [s]. *)
Definition saves_fregs (s : Machine) : bool := core_fpu && uses_fpu s.
Definition saved_size (s : Machine) : Z :=
  4 * Z.of_nat (length saved_regs) + if saves_fregs s then 64 else 0.

(** The words at [sp] are the saved registers of [s]. *)
Definition words_are (sp : Z) (m : Mem) (s : Machine) : Prop :=
  (forall i r, saved_regs !! i = Some r -> load32 (sp + 4 * Z.of_nat i) m = gr s r) /\
  (saves_fregs s = true -> forall j, 0 <= j < 16 ->
     load32 (sp + 4 * Z.of_nat (length saved_regs) + 4 * j) m = fr s (16 + j)).

(** The frame at [f] of a task that was not started yet. *)
Record fresh_frame (f : Z) (entry param : ptr) (m : Mem) : Prop := Fresh_frame {
  ff_words : forall i, (i < 8)%nat ->
    Some (load32 (f + 4 * Z.of_nat (length saved_regs) + 4 * Z.of_nat i) m) =
    [u32 (uintptr param); 0; 0; 0; 0; 0; u32 (uintptr entry); CORTEX_M_DEFAULT_XPSR] !! i;
  ff_exc_return : forall i, saved_regs !! i = Some LR ->
    load32 (f + 4 * Z.of_nat i) m = CORTEX_M_EXC_RETURN_THREAD_PSP }.
End words.

(** What a core's port promises: its struct is what its assembly expects, saving and restoring
    are inverse, critical sections nest. *)
Class CortexPortLaws `{CortexPort} : Prop := {
  core_critical_laws :: CriticalLaws CortexM;
  stack_init_null_law : forall limit entry param m, core_stack_init None limit entry param m = (None, m);
  stack_init_law : forall top limit entry param m,
    0 <= top < 2 ^ 32 -> sizeof 4 stack_frame < 8 * (top / 8) ->
    let f := 8 * (top / 8) - sizeof 4 stack_frame in
    exists m', core_stack_init (Some top) limit entry param m = (Some f, m') /\
      fresh_frame f entry param m' /\ forall x, ~ f <= x < 8 * (top / 8) -> m' x = m x;
  frame_size_law : sizeof 4 stack_frame = 4 * Z.of_nat (length saved_regs) + 32;
  save_law : forall s, 0 <= m_psp s - saved_size s -> m_psp s < 2 ^ 32 ->
    (forall r, 0 <= gr s r < 2 ^ 32) -> (forall j, 0 <= fr s j < 2 ^ 32) ->
    let sp := m_psp s - saved_size s in
    let s' := run_code core_save s in
    tcb_out s' = match tcb_cur s with Some _ => Some sp | None => tcb_out s end /\ words_are sp (m_mem s') s /\
    forall x, ~ sp <= x < m_psp s -> m_mem s' x = m_mem s x;
  restore_law : forall code s, code = core_svc \/ code = core_restore ->
    0 <= tcb_in s 0 -> tcb_in s 0 + 4 * Z.of_nat (length saved_regs) + 64 < 2 ^ 32 ->
    let s' := run_code code s in
    m_mem s' = m_mem s /\ words_are (tcb_in s 0) (m_mem s) s' /\
    (LR ∉ saved_regs -> gr s' LR = CORTEX_M_EXC_RETURN_THREAD_PSP) /\
    m_psp s' = tcb_in s 0 + saved_size s' /\ m_primask s' = 0 }.

(** ** Lemmas and automation for the laws of a core *)

#[global] Arguments load_le : simpl never.
#[global] Arguments store_le : simpl never.
#[global] Arguments store_words : simpl never.
#[global] Arguments saved_fregs : simpl never.

Lemma wrap_small w x : 0 <= x < 2 ^ w -> wrap w x = x.
Proof. apply Z.mod_small. Qed.

Lemma load_word_hit a b vs m v i :
  vs !! i = Some v -> b = a + 4 * Z.of_nat i -> 0 <= v < 2 ^ 32 -> load32 b (store_words 4 a vs m) = v.
Proof.
  intros Hi -> Hv. pose proof (load_words_at 4 a vs m i v Hi) as Hl. change (Z.of_nat 4) with 4 in Hl.
  rewrite Hl. by apply wrap_small.
Qed.

Lemma load_word_miss a b vs m :
  b + 4 <= a \/ a + 4 * Z.of_nat (length vs) <= b -> load32 b (store_words 4 a vs m) = load32 b m.
Proof. intros Hb. apply load_le_ext. intros x Hx. apply store_words_out. lia. Qed.

Lemma saved_fregs_lookup f j :
  0 <= j < 16 -> saved_fregs f !! Z.to_nat j = Some (f (16 + j)).
Proof.
  intros Hj. unfold saved_fregs. rewrite list_lookup_fmap, lookup_seqZ_lt by lia. simpl. f_equal. f_equal. lia.
Qed.

Lemma length_saved_fregs f : length (saved_fregs f) = 16%nat.
Proof. unfold saved_fregs. by rewrite length_fmap, length_seqZ. Qed.

(** The laws of [primask_enter] and [primask_exit]. *)
Lemma primask_critical `{CortexPort} :
  core_enter_critical = primask_enter -> core_exit_critical = primask_exit -> CriticalLaws CortexM.
Proof.
  intros He Hx. split; simpl.
  - done.
  - intros s. by rewrite He.
  - intros v s Hn. rewrite Hx. unfold primask_exit. rsimpl. rewrite (proj2 (Z.ltb_lt _ _) Hn).
    destruct (Z.eqb_spec (s_critical_nesting s - 1) 0), (Z.eqb_spec (s_critical_nesting s) 1); rsimpl; done || lia.
  - intros v s Hn. rewrite Hx. unfold primask_exit. by rewrite Hn.
Qed.

(** A frame built by assignments to the fields of the struct. *)
Definition hardware_slots : list slot := [F_r0; F_r1; F_r2; F_r3; F_r12; F_lr; F_pc; F_xpsr].
Definition assigned (l : list (slot * Z)) (g : slot) : option Z :=
  (fun x => x.2.2) <$> list_find (fun fv => fv.1 = g) (reverse l).

Lemma get_assigned layout base l m g v :
  g ∈ layout -> assigned l g = Some v -> load32 (base + offsetof 4 layout g) (assign 4 layout base l m) = u32 v.
Proof.
  intros Hg Hl. pose proof (get_assign 4 layout base l m g Hg) as Ha. unfold get_field in Ha. rewrite Ha.
  unfold assigned in Hl. destruct (list_find _ _) as [[i [h w]]|]; [|done]. by injection Hl as ->.
Qed.

Lemma index_of_nodup {F} `{EqDecision F} (l : list F) i f : NoDup l -> l !! i = Some f -> index_of f l = i.
Proof.
  intros Hnd Hi. assert (Hf : f ∈ l) by by eapply list_elem_of_lookup_2.
  eapply NoDup_lookup; [done|by apply index_of_lookup|done].
Qed.

Lemma stack_init_frame `{CortexPort} sw (inits : ptr -> ptr -> list (slot * Z)) top limit entry param m :
  (forall st, core_stack_init (Some st) limit entry param m =
     let frame := frame_base 32 st (sizeof 4 stack_frame) in
     (of_uintptr frame, assign 4 stack_frame frame (inits entry param) m)) ->
  stack_frame = sw ++ hardware_slots -> length sw = length saved_regs -> NoDup stack_frame ->
  Forall (fun fv => fv.1 ∈ stack_frame) (inits entry param) ->
  (assigned (inits entry param) <$> hardware_slots) =
    Some <$> [u32 (uintptr param); 0; 0; 0; 0; 0; u32 (uintptr entry); CORTEX_M_DEFAULT_XPSR] ->
  (forall i, saved_regs !! i = Some LR -> sw !! i = Some F_exc_return) ->
  (LR ∈ saved_regs -> assigned (inits entry param) F_exc_return = Some CORTEX_M_EXC_RETURN_THREAD_PSP) ->
  0 <= top < 2 ^ 32 -> sizeof 4 stack_frame < 8 * (top / 8) ->
  let f := 8 * (top / 8) - sizeof 4 stack_frame in
  exists m', core_stack_init (Some top) limit entry param m = (Some f, m') /\
    fresh_frame f entry param m' /\ forall x, ~ f <= x < 8 * (top / 8) -> m' x = m x.
Proof.
  intros Hinit Hsf Hlen Hnd Hfields Hhw Hlr Hexc Htop Hsize f. rewrite Hinit. cbv zeta.
  destruct (frame_base_spec 32 top (sizeof 4 stack_frame)) as [-> Hle]; [lia|done|unfold sizeof in *; lia|].
  fold f. unfold of_uintptr. destruct (Z.eqb_spec f 0); [lia|]. eexists. split; [done|]. split; [|].
  - assert (Hword : forall i g v, stack_frame !! i = Some g -> assigned (inits entry param) g = Some v ->
      load32 (f + 4 * Z.of_nat i) (assign 4 stack_frame f (inits entry param) m) = u32 v).
    { intros i g v Hi Hv. rewrite <-(get_assigned stack_frame f (inits entry param) m g v); [|by eapply list_elem_of_lookup_2|done].
      unfold offsetof. by rewrite (index_of_nodup _ i g). }
    split.
    + intros i Hi. destruct (hardware_slots !! i) as [g|] eqn:Hg.
      2:{ apply lookup_ge_None in Hg. simpl in Hg. lia. }
      assert (Hv := f_equal (.!! i) Hhw). rewrite !list_lookup_fmap, Hg in Hv. simpl in Hv.
      set (vs := [_; _; _; _; _; _; _; _]) in *. destruct (vs !! i) as [v|] eqn:Hvi; [|done].
      injection Hv as Hv. rewrite <-Z.add_assoc, <-Z.mul_add_distr_l, <-Nat2Z.inj_add, <-Hlen.
      rewrite (Hword (length sw + i)%nat g v).
      * f_equal. unfold vs in Hvi. unfold wrap. apply Z.mod_small.
        repeat (destruct i as [|i]; [injection Hvi as <-; unfold wrap, CORTEX_M_DEFAULT_XPSR;
          try (apply Z.mod_pos_bound); lia|]). done.
      * rewrite Hsf, lookup_app_r by lia. by replace (length sw + i - length sw)%nat with i by lia.
      * done.
    + intros i Hi. rewrite (Hword i F_exc_return CORTEX_M_EXC_RETURN_THREAD_PSP); [done| |].
      * rewrite Hsf. apply lookup_app_l_Some. by apply Hlr.
      * apply Hexc. by eapply list_elem_of_lookup_2.
  - intros x Hx. apply assign_out; [done|]. unfold f in *. lia.
Qed.

Lemma run_code_cons i code s : run_code (i :: code) s = run_code code (step i s).
Proof. done. Qed.

Lemma run_code_nil s : run_code [] s = s.
Proof. done. Qed.

Lemma machine_inj g f p pm c l pc x m ti tc to g' f' p' pm' c' l' pc' x' m' ti' tc' to' :
  mkMachine g f p pm c l pc x m ti tc to = mkMachine g' f' p' pm' c' l' pc' x' m' ti' tc' to' ->
  g = g' /\ f = f' /\ p = p' /\ pm = pm' /\ m = m' /\ to = to'.
Proof. by intros [=]. Qed.

(** What each instruction does to a machine given by its components. *)
Section step.
Context (g : areg -> Z) (f : Z -> Z) (p pm c l pc x : Z) (m : Mem) (ti : Z -> Z) (tc : ptr) (to : option Z).
Abbreviation machine g f p pm c l m to := (mkMachine g f p pm c l pc x m ti tc to).
Implicit Types (rn rd : areg) (rs : list areg) (v : Z).

Lemma step_ldmia rn rs : step (Ldmia rn rs) (machine g f p pm c l m to) =
  machine (upd_gr rn (u32 (g rn + 4 * Z.of_nat (length rs))) (load_regs (g rn) rs m g)) f p pm c l m to.
Proof. done. Qed.
Lemma step_stmia rn rs : step (Stmia rn rs) (machine g f p pm c l m to) =
  machine (upd_gr rn (u32 (g rn + 4 * Z.of_nat (length rs))) g) f p pm c l (store_words 4 (g rn) (g <$> rs) m) to.
Proof. done. Qed.
Lemma step_stmdb rn rs : step (Stmdb rn rs) (machine g f p pm c l m to) =
  let a := u32 (g rn - 4 * Z.of_nat (length rs)) in
  machine (upd_gr rn a g) f p pm c l (store_words 4 a (g <$> rs) m) to.
Proof. done. Qed.
Lemma step_vldmiaeq rn : step (VldmiaEq rn) (machine g f p pm c l m to) =
  if Z.land (g LR) 0x10 =? 0 then
    machine (upd_gr rn (u32 (g rn + 64)) g)
      (fun y => if (16 <=? y) && (y <? 32) then load32 (g rn + 4 * (y - 16)) m else f y) p pm c l m to
  else machine g f p pm c l m to.
Proof. done. Qed.
Lemma step_vstmdbeq rn : step (VstmdbEq rn) (machine g f p pm c l m to) =
  if Z.land (g LR) 0x10 =? 0 then
    let a := u32 (g rn - 64) in
    machine (upd_gr rn a g) f p pm c l (store_words 4 a (saved_fregs f) m) to
  else machine g f p pm c l m to.
Proof. done. Qed.
Lemma step_ldr rd rn : step (Ldr rd rn) (machine g f p pm c l m to) =
  machine (upd_gr rd (load32 (g rn) m) g) f p pm c l m to.
Proof. done. Qed.
Lemma step_str rd rn : step (Str rd rn) (machine g f p pm c l m to) =
  machine g f p pm c l (store_words 4 (g rn) [g rd] m) to.
Proof. done. Qed.
Lemma step_ldrtcb rd v : step (LdrTcb rd v) (machine g f p pm c l m to) =
  machine (upd_gr rd (ti v) g) f p pm c l m to.
Proof. done. Qed.
Lemma step_strtcb rd : step (StrTcb rd) (machine g f p pm c l m to) =
  machine g f p pm c l m (match tc with Some _ => Some (g rd) | None => to end).
Proof. by destruct tc. Qed.
Lemma step_mov rd rn : step (Mov rd rn) (machine g f p pm c l m to) =
  machine (upd_gr rd (g rn) g) f p pm c l m to.
Proof. done. Qed.
Lemma step_movimm rd v : step (MovImm rd v) (machine g f p pm c l m to) =
  machine (upd_gr rd v g) f p pm c l m to.
Proof. done. Qed.
Lemma step_adds rd v : step (Adds rd v) (machine g f p pm c l m to) =
  machine (upd_gr rd (u32 (g rd + v)) g) f p pm c l m to.
Proof. done. Qed.
Lemma step_subs rd v : step (Subs rd v) (machine g f p pm c l m to) =
  machine (upd_gr rd (u32 (g rd - v)) g) f p pm c l m to.
Proof. done. Qed.
Lemma step_mrspsp rd : step (MrsPsp rd) (machine g f p pm c l m to) =
  machine (upd_gr rd p g) f p pm c l m to.
Proof. done. Qed.
Lemma step_msrpsp rn : step (MsrPsp rn) (machine g f p pm c l m to) = machine g f (g rn) pm c l m to.
Proof. done. Qed.
Lemma step_msrpsplim rn : step (MsrPsplim rn) (machine g f p pm c l m to) = machine g f p pm c (g rn) m to.
Proof. done. Qed.
Lemma step_msrcontrol rn : step (MsrControl rn) (machine g f p pm c l m to) = machine g f p pm (g rn) l m to.
Proof. done. Qed.
Lemma step_cpsie : step Cpsie (machine g f p pm c l m to) = machine g f p 0 c l m to.
Proof. done. Qed.
Lemma step_cpsid : step Cpsid (machine g f p pm c l m to) = machine g f p 1 c l m to.
Proof. done. Qed.
Lemma step_isb : step Isb (machine g f p pm c l m to) = machine g f p pm c l m to.
Proof. done. Qed.
End step.

Create Rewrite HintDb step.
#[export] Hint Rewrite step_ldmia step_stmia step_stmdb step_vldmiaeq step_vstmdbeq step_ldr step_str
  step_ldrtcb step_strtcb step_mov step_movimm step_adds step_subs step_mrspsp step_msrpsp step_msrpsplim
  step_msrcontrol step_cpsie step_cpsid step_isb : step.

(** Symbolic execution of a handler, in hypothesis [E]; a test of EXC_RETURN splits the case. *)
Ltac exec_code E :=
  repeat (rewrite run_code_cons in E; autorewrite with step in E; cbv zeta in E;
    cbn [upd_gr load_regs areg_index Nat.eqb length] in E;
    repeat match type of E with context [wrap 32 ?x] => rewrite (wrap_small 32 x) in E by lia end;
    try match type of E with context [if ?b =? 0 then _ else _] =>
      let Hu := fresh "Hu" in destruct (b =? 0) eqn:Hu end).
Ltac open_port :=
  try match goal with |- context [@saved_regs ?p] => unfold p in * end; cbn [saved_regs core_fpu andb length] in *.
Ltac machine_components :=
  cbn [gr fr CortexM.m_psp m_primask m_mem tcb_in tcb_cur tcb_out] in *.
Ltac unwrap := repeat match goal with
  | |- context [wrap 32 ?x] => rewrite (wrap_small 32 x) by lia
  end.
Ltac frame_lia := cbn [length]; rewrite ?length_saved_fregs; lia.

(** A load from memory written by [store_words]: skip the writes elsewhere, find the index. *)
Ltac word_hit n := eapply (load_word_hit _ _ _ _ _ n); [reflexivity|lia|solve [auto]].
Ltac find_word :=
  repeat (rewrite load_word_miss by frame_lia);
  first [word_hit 0%nat | word_hit 1%nat | word_hit 2%nat | word_hit 3%nat | word_hit 4%nat
        | word_hit 5%nat | word_hit 6%nat | word_hit 7%nat | word_hit 8%nat].
Ltac find_freg := 
  let j := fresh "j" in let Hj := fresh "Hj" in intros _ j Hj;
  repeat (rewrite load_word_miss by frame_lia);
  eapply (load_word_hit _ _ _ _ _ (Z.to_nat j)); [|lia|solve [auto]];
  by apply saved_fregs_lookup.
(** Case analysis on the index of a saved register. *)
Ltac each_saved tac :=
  let i := fresh "i" in let r := fresh "r" in let Hi := fresh "Hi" in
  intros i r Hi; repeat (destruct i as [|i]; [injection Hi as <-; tac|]); discriminate Hi.
Ltac untouched :=
  let x := fresh "x" in let Hx := fresh "Hx" in
  intros x Hx; repeat (rewrite store_words_out by frame_lia); reflexivity.

Ltac solve_save :=
  intros [g f psp pm ct l pc xp m tin tc tout]; unfold saved_size, saves_fregs, uses_fpu; machine_components;
  open_port; intros Hlo Hhi Hr Hf; cbv zeta; cbn [core_save];
  match goal with |- context [run_code ?c ?s] =>
    let c' := eval hnf in c in
    let E := fresh "E" in
    destruct (run_code c s) as [g' f' psp' pm' ct' l' pc' xp' m' tin' tc' tout'] eqn:E; change c with c' in E;
    exec_code E; rewrite run_code_nil in E; apply machine_inj in E as (_ & _ & _ & _ & <- & <-)
  end;
  machine_components; unfold saved_size, words_are, saves_fregs, uses_fpu in *; machine_components;
  open_port; cbn [fmap list_fmap upd_gr areg_index Nat.eqb length] in *;
  repeat match goal with H : (_ =? 0) = _ |- _ => rewrite H in *; clear H end; cbn [andb] in *; unwrap;
  (split; [destruct tc; [f_equal; lia|done]|]); (split; [|untouched]);
  (split; [each_saved ltac:(find_word)|first [done | find_freg]]).
(** The frame that [inits] fills has the struct [sw ++ hardware_slots]. *)
Ltac solve_frame sw inits :=
  intros ? ? ? ? ? ? ?; apply (stack_init_frame sw inits);
  [reflexivity..|apply (bool_decide_unpack _); reflexivity|apply (bool_decide_unpack _); reflexivity
  |reflexivity| |first [reflexivity|set_solver]|assumption|assumption];
  let i := fresh "i" in let Hi := fresh "Hi" in
  intros i Hi;
  repeat (first [discriminate Hi|destruct i as [|i]; [first [discriminate Hi|reflexivity]|]]).
Ltac saved_freg_back :=
  let j := fresh "j" in let Hj := fresh "Hj" in intros _ j Hj;
  rewrite (proj2 (Z.leb_le 16 (16 + j))), (proj2 (Z.ltb_lt (16 + j) 32)) by lia;
  cbn [andb]; f_equal; lia.
Ltac solve_restore :=
  intros ? [g f psp pm ct l pc xp m tin tc tout] [-> | ->] Hlo Hhi; cbv zeta; cbn [core_svc core_restore];
  match goal with |- context [run_code ?c ?s] =>
    let c' := eval hnf in c in
    let E := fresh "E" in
    destruct (run_code c s) as [g' f' psp' pm' ct' l' pc' xp' m' tin' tc' tout'] eqn:E; change c with c' in E;
    exec_code E; rewrite run_code_nil in E; apply machine_inj in E as (<- & <- & <- & <- & <- & _)
  end;
  machine_components; unfold words_are, saved_size, saves_fregs, uses_fpu; machine_components;
  open_port; cbn [upd_gr load_regs areg_index Nat.eqb length] in *;
  repeat match goal with H : (_ =? 0) = _ |- _ => rewrite H in *; clear H end; cbn [andb]; unwrap;
  (split; [done|]);
  (split; [split; [each_saved ltac:(cbn [upd_gr areg_index Nat.eqb]; f_equal; lia)|first [done|saved_freg_back]]|]);
  (split; [first [done|set_solver]|]); (split; [cbn [length]; lia|done]).
