(* ===== verification/LinkedLists.v ===== *)
(** The list memory as a collection of sequences.

    A view [V : lview] says which list objects are initialised and which tasks (or timers)
    each one links, in order; [lists_ok h V] says that the heap [h] realises it: every list of
    the view is a well-formed circular list, and no embedded node is linked by two lists.  The
    lemmas state each list operation, and each direct pointer access of the kernel, as an
    operation on the view. *)
From S2P Require Import Prelude Types Platform.

Abbreviation lview := (listid -> option (list addr)).

Definition nodes_of (l : listid) (ts : list addr) : list node := NLink (link_of l) <$> ts.

Record lists_ok (h : ListHeap) (V : lview) : Prop := Lists_ok {
  ok_dll : forall l ts, V l = Some ts -> is_dll h l (nodes_of l ts);
  ok_disjoint : forall l l' ts ts' t,
    V l = Some ts -> V l' = Some ts' -> t ∈ ts -> t ∈ ts' -> link_of l = link_of l' -> l = l' }.

(** The node [f] of [t] is in no list. *)
Definition detached (V : lview) (f : link) (t : addr) : Prop :=
  forall l ts, V l = Some ts -> link_of l = f -> t ∉ ts.

(** Where a member's [next] pointer leads. *)
Definition next_of (l : listid) (ts : list addr) : node :=
  match ts with [] => NRoot l | t :: _ => NLink (link_of l) t end.

(** Linking [n] in front of [c], by hand, as [insert_wait_list_priority] does. *)
Definition link_before (l : listid) (n p c : node) (h : ListHeap) : ListHeap :=
  let h := set_next n (Some c) h in
  let h := set_prev n (Some p) h in
  let h := set_next p (Some n) h in
  let h := set_prev c (Some n) h in
  h <| count ::= fun m => <[l := m l + 1]> m |>.

(** ** Pointer-level lemmas *)

Lemma cells_set_cell_eq n c h : cells (set_cell n c h) n = c.
Proof. apply fn_lookup_insert. Qed.
Lemma cells_set_cell_ne n n' c h : n <> n' -> cells (set_cell n c h) n' = cells h n'.
Proof. apply fn_lookup_insert_ne. Qed.

Lemma next_set_prev n n' v h : next (cells (set_prev n v h) n') = next (cells h n').
Proof.
  unfold set_prev. destruct (decide (n = n')) as [->|].
  - by rewrite cells_set_cell_eq.
  - by rewrite cells_set_cell_ne.
Qed.
Lemma prev_set_next n n' v h : prev (cells (set_next n v h) n') = prev (cells h n').
Proof.
  unfold set_next. destruct (decide (n = n')) as [->|].
  - by rewrite cells_set_cell_eq.
  - by rewrite cells_set_cell_ne.
Qed.
Lemma next_set_next n n' v h :
  next (cells (set_next n v h) n') = if decide (n = n') then v else next (cells h n').
Proof.
  unfold set_next. case_decide; subst.
  - by rewrite cells_set_cell_eq.
  - by rewrite cells_set_cell_ne.
Qed.
Lemma prev_set_prev n n' v h :
  prev (cells (set_prev n v h) n') = if decide (n = n') then v else prev (cells h n').
Proof.
  unfold set_prev. case_decide; subst.
  - by rewrite cells_set_cell_eq.
  - by rewrite cells_set_cell_ne.
Qed.
#[global] Opaque set_cell.

Lemma linked_app h a ns1 n ns2 z :
  linked h a (ns1 ++ n :: ns2) z <-> linked h a ns1 n /\ linked h n ns2 z.
Proof.
  revert a. induction ns1 as [|m ns1 IH]; intros a; simpl; [tauto|]. rewrite IH. tauto.
Qed.

Lemma linked_frame h h' a ns z :
  linked h a ns z ->
  (forall n, n ∈ a :: ns -> next (cells h' n) = next (cells h n)) ->
  (forall n, n ∈ z :: ns -> prev (cells h' n) = prev (cells h n)) ->
  linked h' a ns z.
Proof.
  revert a. induction ns as [|n ns IH]; intros a Hl Hn Hp; simpl in *.
  - destruct Hl. rewrite Hn, Hp by set_solver. done.
  - destruct Hl as (Ha & Hn' & Hl).
    split; [by rewrite Hn by set_solver|split; [by rewrite Hp by set_solver|]].
    apply IH; [done| |]; intros m Hm; [apply Hn|apply Hp]; set_solver.
Qed.

Lemma is_dll_frame h h' l ns :
  is_dll h l ns ->
  (forall n, n ∈ NRoot l :: ns -> cells h' n = cells h n) ->
  count h' l = count h l -> is_dll h' l ns.
Proof.
  intros [Hl Hc Hnd Hlk] Hf Hct. split; [|congruence|done|done].
  apply (linked_frame h); [done| |]; intros n Hn; by rewrite Hf.
Qed.

Lemma heap_frame_dll h h' l l' fp ns :
  heap_frame l fp h h' -> l' <> l -> (forall n, n ∈ fp -> n ∉ NRoot l' :: ns) ->
  is_dll h l' ns -> is_dll h' l' ns.
Proof.
  intros [Hc Hct] Hne Hfp Hd. apply (is_dll_frame h); [done| |by apply Hct].
  intros n Hn. apply Hc. intros ?. by eapply Hfp.
Qed.

(** The predecessor of [c] is the last node before it. *)
Lemma linked_pred h a ns1 c z :
  linked h a ns1 z -> c = z -> exists p, prev (cells h c) = Some p /\ last (a :: ns1) = Some p.
Proof.
  revert a. induction ns1 as [|n ns1 IH]; intros a Hl ->; simpl in Hl.
  - exists a. by destruct Hl.
  - destruct Hl as (_ & _ & Hl). by apply IH.
Qed.

(** Redirecting the end of a segment from [c] to [n]. *)
Lemma linked_retarget h h' a ns c p n :
  linked h a ns c -> last (a :: ns) = Some p -> NoDup (a :: ns) ->
  (forall m, m ∈ a :: ns -> m <> p -> next (cells h' m) = next (cells h m)) ->
  (forall m, m ∈ ns -> prev (cells h' m) = prev (cells h m)) ->
  next (cells h' p) = Some n -> prev (cells h' n) = Some p ->
  linked h' a ns n.
Proof.
  revert a. induction ns as [|m ns IH]; intros a Hl Hp Hnd Hn Hpr Hnp Hpn; simpl in *.
  - by simplify_eq.
  - destruct Hl as (Ha & Hm & Hl). apply NoDup_cons in Hnd as [Hni Hnd].
    assert (Hap : a <> p). { intros ->. apply Hni. by apply last_Some_elem_of. }
    split; [by rewrite Hn by set_solver|split; [by rewrite Hpr by set_solver|]].
    apply IH; [done|done|done|set_solver|set_solver|done|done].
Qed.

Section link_before.
Context (h : ListHeap) (l : listid) (n p c : node).
Hypotheses (Hnp : n <> p) (Hnc : n <> c).

Lemma link_before_next m :
  next (cells (link_before l n p c h) m) =
    if decide (m = p) then Some n else if decide (m = n) then Some c else next (cells h m).
Proof.
  unfold link_before. simpl.
  rewrite next_set_prev, next_set_next, next_set_prev, next_set_next.
  repeat case_decide; congruence.
Qed.

Lemma link_before_prev m :
  prev (cells (link_before l n p c h) m) =
    if decide (m = c) then Some n else if decide (m = n) then Some p else prev (cells h m).
Proof.
  unfold link_before. simpl.
  rewrite prev_set_prev, prev_set_next, prev_set_prev, prev_set_next.
  repeat case_decide; congruence.
Qed.

Lemma link_before_frame ns :
  p ∈ ns -> c ∈ ns -> heap_frame l (n :: ns) h (link_before l n p c h).
Proof.
  intros Hp Hc. split.
  - intros m Hm. unfold link_before, set_next, set_prev. simpl.
    rewrite !cells_set_cell_ne; set_solver.
  - intros l' Hl'. unfold link_before. simpl. by rewrite fn_lookup_insert_ne.
Qed.
End link_before.

Lemma is_dll_root h l ns m : is_dll h l ns -> m ∈ ns -> m <> NRoot l.
Proof. intros [_ _ _ Hl] Hm ->. by apply (proj1 (Forall_forall _ _) Hl) in Hm. Qed.

Lemma link_before_dll h l ns1 c ns2 n p :
  is_dll h l (ns1 ++ c :: ns2) -> n ∉ ns1 ++ c :: ns2 -> is_link n ->
  prev (cells h c) = Some p ->
  is_dll (link_before l n p c h) l (ns1 ++ n :: c :: ns2) /\
  heap_frame l (n :: NRoot l :: ns1 ++ c :: ns2) h (link_before l n p c h).
Proof.
  intros Hd Hn Hln Hp. pose proof (fun m => is_dll_root h l _ m Hd) as Hroot.
  destruct Hd as [Hl Hct Hnd Hlk]. apply linked_app in Hl as [Hl1 Hl2].
  destruct (linked_pred _ _ _ c _ Hl1 eq_refl) as (p' & Hp' & Hlast).
  rewrite Hp in Hp'. injection Hp' as <-.
  assert (Hpin : p ∈ NRoot l :: ns1) by by apply last_Some_elem_of.
  apply NoDup_app in Hnd as (Hnd1 & Hdis & Hnd2). apply NoDup_cons in Hnd2 as [Hc2 Hnd2].
  assert (Hpc : p <> c) by (intros ->; set_solver).
  assert (Hnr : n <> NRoot l) by (by intros ->).
  assert (Hnp : n <> p) by set_solver. assert (Hnc : n <> c) by set_solver.
  split; [split|].
  - apply linked_app. split.
    + apply (linked_retarget h _ _ _ c p); [done|done| | | | |].
      * apply NoDup_cons. set_solver.
      * intros m Hm ?. rewrite link_before_next by done. rewrite !decide_False; set_solver.
      * intros m Hm. rewrite link_before_prev by done. rewrite !decide_False; set_solver.
      * rewrite link_before_next by done. by rewrite decide_True.
      * rewrite link_before_prev by done. by rewrite decide_False, decide_True.
    + cbn [linked]. rewrite link_before_next, link_before_prev by done.
      rewrite decide_False, !decide_True by done. split_and!; [done..|].
      apply (linked_frame h); [done| |]; intros m Hm.
      * rewrite link_before_next by done. rewrite !decide_False; set_solver.
      * rewrite link_before_prev by done. rewrite !decide_False; set_solver.
  - unfold link_before. simpl. rewrite fn_lookup_insert.
    transitivity (count h l + 1); [done|]. rewrite Hct, !length_app. simpl. lia.
  - rewrite NoDup_app, !NoDup_cons. set_solver.
  - rewrite Forall_app, !Forall_cons in *. naive_solver.
  - apply link_before_frame; set_solver.
Qed.

(** ** View-level lemmas *)

Lemma elem_of_nodes l ts n : n ∈ nodes_of l ts <-> exists t, n = NLink (link_of l) t /\ t ∈ ts.
Proof. unfold nodes_of. rewrite list_elem_of_fmap. naive_solver. Qed.

Lemma elem_of_nodes_link l ts f t : NLink f t ∈ nodes_of l ts <-> link_of l = f /\ t ∈ ts.
Proof. rewrite elem_of_nodes. naive_solver. Qed.

Lemma nodes_of_app l ts1 ts2 : nodes_of l (ts1 ++ ts2) = nodes_of l ts1 ++ nodes_of l ts2.
Proof. apply fmap_app. Qed.

Lemma nodes_of_mid l ts1 t ts2 :
  nodes_of l (ts1 ++ t :: ts2) = nodes_of l ts1 ++ NLink (link_of l) t :: nodes_of l ts2.
Proof. apply nodes_of_app. Qed.

Lemma lists_ok_nodup h V l ts : lists_ok h V -> V l = Some ts -> NoDup ts.
Proof. intros HV Hl. eapply NoDup_fmap_1, dll_nodup, ok_dll; done. Qed.

Lemma lists_ok_count h V l ts : lists_ok h V -> V l = Some ts -> count h l = Z.of_nat (length ts).
Proof. intros HV Hl. rewrite (dll_count _ _ _ (ok_dll _ _ HV _ _ Hl)). unfold nodes_of. by rewrite length_fmap. Qed.

Lemma detached_insert V f t l ts :
  detached V f t -> (link_of l = f -> t ∉ ts) -> detached (<[l := Some ts]> V) f t.
Proof.
  intros Hd Hts l' ts'. destruct (decide (l = l')) as [<-|Hne].
  - rewrite fn_lookup_insert. intros [= <-]. auto.
  - rewrite fn_lookup_insert_ne by done. apply Hd.
Qed.

Lemma detached_other h V l ts f t :
  lists_ok h V -> V l = Some ts -> t ∈ ts -> link_of l = f ->
  forall l' ts', V l' = Some ts' -> link_of l' = f -> l' <> l -> t ∉ ts'.
Proof. intros HV Hl Ht Hf l' ts' Hl' Hf' Hne Ht'. apply Hne. eapply ok_disjoint; eauto; congruence. Qed.

(** Taking a member out of its list detaches it. *)
Lemma detached_remove h V l ts1 t ts2 :
  lists_ok h V -> V l = Some (ts1 ++ t :: ts2) ->
  detached (<[l := Some (ts1 ++ ts2)]> V) (link_of l) t.
Proof.
  intros HV Hl l' ts' Hl' Hf. destruct (decide (l = l')) as [<-|Hne].
  - rewrite fn_lookup_insert in Hl'. injection Hl' as <-.
    pose proof (lists_ok_nodup _ _ _ _ HV Hl) as Hnd.
    apply NoDup_app in Hnd as (_ & Hd & Hnd). apply NoDup_cons in Hnd as [? _].
    rewrite elem_of_app. intros [Hin|?]; [|done]. by apply (Hd t); [|apply elem_of_cons; left].
  - rewrite fn_lookup_insert_ne in Hl' by done.
    eapply (detached_other h V l); [done|apply Hl| |done|done|done|done]. set_solver.
Qed.

(** Replacing the members of one list by a realised sequence, its nodes being free otherwise. *)
Lemma lists_ok_update h h' V l ts fp :
  lists_ok h V -> is_dll h' l (nodes_of l ts) -> heap_frame l fp h h' ->
  (forall n, n ∈ fp -> n = NRoot l \/ exists t, n = NLink (link_of l) t /\
     forall l' ts', V l' = Some ts' -> link_of l' = link_of l -> l' <> l -> t ∉ ts') ->
  (forall l' ts' t, V l' = Some ts' -> link_of l' = link_of l -> l' <> l -> t ∈ ts -> t ∉ ts') ->
  lists_ok h' (<[l := Some ts]> V).
Proof.
  intros HV Hd Hfr Hfp Hts. split.
  - intros l' ts'. destruct (decide (l = l')) as [<-|Hne].
    + rewrite fn_lookup_insert. by intros [= <-].
    + rewrite fn_lookup_insert_ne by done. intros Hl'.
      apply (heap_frame_dll h _ l _ fp); [done|done| |by eapply ok_dll].
      intros n Hn Hin. apply elem_of_cons in Hin as [->|Hin].
      * destruct (Hfp _ Hn) as [[=]|(t & [=] & _)]; congruence.
      * apply elem_of_nodes in Hin as (t & -> & Ht).
        destruct (Hfp _ Hn) as [[=]|(t' & [= Hll ->] & Ht')]. by eapply Ht'.
  - intros l1 l2 ts1 ts2 t. unfold insert, fn_insert.
    repeat case_decide; subst; intros ????; simplify_eq; [done| | |by eapply ok_disjoint]; intros ?; exfalso.
    + by eapply (Hts l2).
    + by eapply (Hts l1).
Qed.

(** Writing the pointers of a detached node. *)
Lemma lists_ok_set_cell h V f t c :
  lists_ok h V -> detached V f t -> lists_ok (set_cell (NLink f t) c h) V.
Proof.
  intros HV Hd. split; [|by apply (ok_disjoint h)].
  intros l ts Hl. apply (is_dll_frame h); [by eapply ok_dll| |done].
  intros n Hn. rewrite cells_set_cell_ne; [done|]. intros <-.
  apply elem_of_cons in Hn as [?|Hn]; [done|].
  apply elem_of_nodes_link in Hn as [Hf Ht]. by apply (Hd l ts).
Qed.

Lemma linked_next h a ns1 n ns2 z :
  linked h a (ns1 ++ n :: ns2) z -> next (cells h n) = Some (default z (head ns2)).
Proof. rewrite linked_app. intros [_ H]. destruct ns2; simpl in *; naive_solver. Qed.

Lemma member_next h V l ts1 t ts2 :
  lists_ok h V -> V l = Some (ts1 ++ t :: ts2) ->
  next (cells h (NLink (link_of l) t)) = Some (next_of l ts2).
Proof.
  intros HV Hl. pose proof (dll_linked _ _ _ (ok_dll _ _ HV _ _ Hl)) as Hd.
  rewrite nodes_of_app in Hd. apply linked_next in Hd. rewrite Hd. by destruct ts2.
Qed.

Lemma root_next h V l ts :
  lists_ok h V -> V l = Some ts -> next (cells h (NRoot l)) = Some (next_of l ts).
Proof.
  intros HV Hl. pose proof (dll_linked _ _ _ (ok_dll _ _ HV _ _ Hl)) as Hd.
  destruct ts; simpl in *; naive_solver.
Qed.

Lemma member_prev h V l ts1 t ts2 :
  lists_ok h V -> V l = Some (ts1 ++ t :: ts2) ->
  is_Some (prev (cells h (NLink (link_of l) t))).
Proof.
  intros HV Hl. pose proof (dll_linked _ _ _ (ok_dll _ _ HV _ _ Hl)) as Hd.
  rewrite nodes_of_app in Hd. apply linked_app in Hd as [Hd _].
  destruct (linked_pred _ _ _ _ _ Hd eq_refl) as (p & ? & _). by exists p.
Qed.

(** Linking a detached node in front of a member. *)
Lemma lists_ok_link_before h V l ts1 c ts2 t p :
  lists_ok h V -> V l = Some (ts1 ++ c :: ts2) -> detached V (link_of l) t ->
  prev (cells h (NLink (link_of l) c)) = Some p ->
  lists_ok (link_before l (NLink (link_of l) t) p (NLink (link_of l) c) h)
    (<[l := Some (ts1 ++ t :: c :: ts2)]> V).
Proof.
  intros HV Hl Ht Hp. pose proof (ok_dll _ _ HV _ _ Hl) as Hd. rewrite nodes_of_mid in Hd.
  destruct (link_before_dll _ _ _ _ _ (NLink (link_of l) t) p Hd) as [Hd' Hfr]; [|done|done|].
  { rewrite <-nodes_of_mid, elem_of_nodes_link. intros [_ ?]. by eapply Ht. }
  eapply lists_ok_update; [done| |exact Hfr| |].
  - rewrite nodes_of_mid. exact Hd'.
  - intros n. rewrite <-nodes_of_mid, !elem_of_cons, elem_of_nodes.
    intros [->|[->|(t' & -> & Ht')]].
    + right. exists t. split; [done|]. intros l' ts' Hl' Hf _. by apply (Ht l').
    + by left.
    + right. exists t'. split; [done|]. by apply (detached_other h _ _ _ _ _ HV Hl).
  - intros l' ts' t' Hl' Hf Hne Ht'.
    assert (t' = t \/ t' ∈ ts1 ++ c :: ts2) as [->|Hin] by set_solver; [by apply (Ht l')|].
    by apply (detached_other h _ _ _ _ _ HV Hl Hin eq_refl l').
Qed.

Section laws.
Context `{LinkedListLaws}.

Lemma lists_ok_init h V l : lists_ok h V -> lists_ok (linked_list_init l h) (<[l := Some []]> V).
Proof.
  intros HV. destruct (linked_list_init_law h l) as [Hd Hfr].
  eapply lists_ok_update; [done|done|exact Hfr| |set_solver]. set_solver.
Qed.

Lemma lists_ok_insert_tail h V l ts t :
  lists_ok h V -> V l = Some ts -> detached V (link_of l) t ->
  lists_ok (linked_list_insert_tail_direct l (NLink (link_of l) t) h) (<[l := Some (ts ++ [t])]> V).
Proof.
  intros HV Hl Ht.
  destruct (linked_list_insert_tail_law h l (nodes_of l ts) (NLink (link_of l) t)) as [Hd Hfr];
    [by eapply ok_dll| |done|].
  { rewrite elem_of_nodes_link. intros [_ ?]. by eapply Ht. }
  eapply lists_ok_update; [done| |exact Hfr| |].
  - by rewrite nodes_of_app.
  - intros n. rewrite elem_of_cons, elem_of_app, elem_of_nodes, list_elem_of_singleton.
    intros [->|[(t' & -> & Ht')| ->]].
    + by left.
    + right. exists t'. split; [done|]. by apply (detached_other h _ _ _ _ _ HV Hl).
    + right. exists t. split; [done|]. intros l' ts' Hl' Hf _. by apply (Ht l').
  - intros l' ts' t' Hl' Hf Hne.
    rewrite elem_of_app, list_elem_of_singleton. intros [Hin| ->]; [|by apply (Ht l')].
    by apply (detached_other h _ _ _ _ _ HV Hl Hin eq_refl l').
Qed.

Lemma lists_ok_remove h V l ts1 t ts2 :
  lists_ok h V -> V l = Some (ts1 ++ t :: ts2) ->
  lists_ok (linked_list_remove_direct l (NLink (link_of l) t) h) (<[l := Some (ts1 ++ ts2)]> V).
Proof.
  intros HV Hl. pose proof (ok_dll _ _ HV _ _ Hl) as Hd. rewrite nodes_of_mid in Hd.
  apply linked_list_remove_law in Hd as [Hd Hfr].
  assert (forall t' l' ts', t' ∈ ts1 ++ t :: ts2 -> V l' = Some ts' -> link_of l' = link_of l ->
    l' <> l -> t' ∉ ts').
  { intros t' l' ts' Ht'. by apply (detached_other h _ _ _ _ _ HV Hl). }
  eapply lists_ok_update; [done| |exact Hfr| |].
  - by rewrite nodes_of_app.
  - intros n. rewrite elem_of_cons, <-nodes_of_mid, elem_of_nodes. intros [->|(t' & -> & Ht')]; [by left|].
    right. exists t'. eauto.
  - intros l' ts' t' ??? Ht'. assert (t' ∈ ts1 ++ t :: ts2) by set_solver. eauto.
Qed.

Lemma peek_head_ok h V l ts :
  lists_ok h V -> V l = Some ts ->
  linked_list_peek_head l h = NLink (link_of l) <$> head ts.
Proof.
  intros HV Hl. rewrite (linked_list_peek_head_law _ _ _ (ok_dll _ _ HV _ _ Hl)). by destruct ts.
Qed.

Lemma is_empty_ok h V l ts :
  lists_ok h V -> V l = Some ts -> linked_list_is_empty l h = bool_decide (ts = []).
Proof.
  intros HV Hl. rewrite (linked_list_is_empty_law _ _ _ (ok_dll _ _ HV _ _ Hl)).
  apply bool_decide_ext. destruct ts; naive_solver.
Qed.
End laws.
