(* ===== verification/Kernel.v ===== *)
(** The kernel's memory and the effects of the port contract.

    [Kernel] holds the statics of src/sertos_scheduler.c, src/sertos_timer.c and
    src/sertos_stats.c, the typed memories of the objects applications and the kernel
    allocate, the list heap, byte memory, and the states of the memory pool and of the port. *)
From S2P Require Import Prelude Effects Types Platform.

Section kernel.
Context `{PL : Platform}.

(** Message queue (inc/sertos_queue.h); its wait lists are [LQueueSend a] and [LQueueRecv a]. *)
Record SertosQueue : Type := mkQueue {
  q_ring_buf : RingBuffer;
  q_item_size : Z;
  q_max_items : Z;
  q_storage_buffer : ptr;
  q_is_static : bool;
  q_magic : Z }.
#[export] Instance Queue_eta : Eta SertosQueue := fun q =>
  mkQueue (q_ring_buf q) (q_item_size q) (q_max_items q) (q_storage_buffer q) (q_is_static q)
    (q_magic q).

(** Stream buffer (inc/sertos_stream_buffer.h); wait lists [LStreamSend a], [LStreamRecv a]. *)
Record SertosStreamBuffer : Type := mkStream {
  sb_ring_buf : RingBuffer;
  sb_trigger_level_bytes : Z;
  sb_storage_buffer : ptr;
  sb_is_static : bool;
  sb_magic : Z }.
#[export] Instance Stream_eta : Eta SertosStreamBuffer := fun b =>
  mkStream (sb_ring_buf b) (sb_trigger_level_bytes b) (sb_storage_buffer b) (sb_is_static b)
    (sb_magic b).

Record Kernel : Type := mkKernel {
  heap : ListHeap;
  tcbs : addr -> SertosTaskControlBlock;
  sems : addr -> SertosSemaphore;
  mutexes : addr -> SertosMutex;
  timers : addr -> SertosTimer;
  queues : addr -> SertosQueue;
  streams : addr -> SertosStreamBuffer;
  mem : Mem;
  pool : Pool;
  port : PortState;
  (* src/sertos_scheduler.c *)
  s_ready_bitmap : Bitmap;
  sertos_current_tcb : ptr;
  s_is_running : bool;
  s_lock_nesting : Z;
  s_reschedule_pending : bool;
  s_system_ticks : atomic_size_t;
  s_tick_rate_hz : Z;
  s_time_slicing_enabled : bool;
  s_tick_hook : ptr;
  s_idle_hook : ptr;
  (* src/sertos_timer.c *)
  s_timer_subsystem_initialized : bool;
  (* src/sertos_stats.c *)
  s_stats_enabled : bool;
  s_total_switches : Z }.

#[export] Instance Kernel_eta : Eta Kernel := fun k =>
  mkKernel (heap k) (tcbs k) (sems k) (mutexes k) (timers k)
    (queues k) (streams k) (mem k) (pool k) (port k)
    (s_ready_bitmap k) (sertos_current_tcb k) (s_is_running k) (s_lock_nesting k)
    (s_reschedule_pending k) (s_system_ticks k) (s_tick_rate_hz k) (s_time_slicing_enabled k)
    (s_tick_hook k) (s_idle_hook k) (s_timer_subsystem_initialized k) (s_stats_enabled k)
    (s_total_switches k).

(** ** Memory access *)

Definition upd_heap (f : ListHeap -> ListHeap) : M Kernel unit := modify (set heap f).
Definition upd_tcb (t : addr) (f : SertosTaskControlBlock -> SertosTaskControlBlock) : M Kernel unit :=
  modify (set tcbs (alter f t)).
Definition upd_sem (a : addr) (f : SertosSemaphore -> SertosSemaphore) : M Kernel unit :=
  modify (set sems (alter f a)).
Definition upd_mutex (a : addr) (f : SertosMutex -> SertosMutex) : M Kernel unit :=
  modify (set mutexes (alter f a)).
Definition upd_timer (a : addr) (f : SertosTimer -> SertosTimer) : M Kernel unit :=
  modify (set timers (alter f a)).
Definition upd_queue (a : addr) (f : SertosQueue -> SertosQueue) : M Kernel unit :=
  modify (set queues (alter f a)).
Definition upd_stream (a : addr) (f : SertosStreamBuffer -> SertosStreamBuffer) : M Kernel unit :=
  modify (set streams (alter f a)).

Definition rd_tcb {A} (t : addr) (f : SertosTaskControlBlock -> A) : M Kernel A :=
  gets (fun k => f (tcbs k t)).
Definition rd_sem {A} (a : addr) (f : SertosSemaphore -> A) : M Kernel A :=
  gets (fun k => f (sems k a)).
Definition rd_mutex {A} (a : addr) (f : SertosMutex -> A) : M Kernel A :=
  gets (fun k => f (mutexes k a)).
Definition rd_timer {A} (a : addr) (f : SertosTimer -> A) : M Kernel A :=
  gets (fun k => f (timers k a)).
Definition rd_queue {A} (a : addr) (f : SertosQueue -> A) : M Kernel A :=
  gets (fun k => f (queues k a)).
Definition rd_stream {A} (a : addr) (f : SertosStreamBuffer -> A) : M Kernel A :=
  gets (fun k => f (streams k a)).
(** [n->next] and [n->prev]. *)
Definition rd_next (n : node) : M Kernel (option node) := gets (fun k => next (cells (heap k) n)).
Definition rd_prev (n : node) : M Kernel (option node) := gets (fun k => prev (cells (heap k) n)).

(** ** Port calls *)

(** Masking and unmasking interrupts; something else may run just before and just after. *)
Definition sertos_port_enter_critical : M Kernel Z :=
  yield_point PEnter;;
  r ← gets (fun k => port_enter_critical (port k));
  modify (set port (fun _ => r.2));;
  mret r.1.
Definition sertos_port_exit_critical (status : Z) : M Kernel unit :=
  modify (set port (port_exit_critical status));;
  yield_point PExit.
Definition sertos_port_yield : M Kernel unit :=
  modify (set port port_yield);;
  yield_point PYield.

Definition sertos_port_runtime_counter (ticks : Z) : M Kernel Z :=
  r ← gets (fun k => port_runtime_counter ticks (port k));
  modify (set port (fun _ => r.2));;
  mret r.1.
Definition sertos_port_runtime_counter_init : M Kernel unit :=
  modify (set port port_runtime_counter_init).
Definition sertos_port_tick_init (hz : Z) : M Kernel SertosStatus :=
  r ← gets (fun k => port_tick_init hz (port k));
  modify (set port (fun _ => r.2));;
  mret r.1.
Definition sertos_port_start_first_task : M Kernel unit :=
  modify (set port port_start_first_task);;
  yield_point PYield.
Definition sertos_port_stop_scheduler : M Kernel unit :=
  modify (set port port_stop_scheduler);;
  yield_point PYield.
Definition sertos_port_task_create_hook (t : addr) : M Kernel unit :=
  r ← gets (fun k => port_task_create_hook t (port_context (tcbs k t)) (port k));
  modify (set port (fun _ => r.2));;
  upd_tcb t (set port_context (fun _ => r.1)).
Definition sertos_port_task_delete_hook (t : addr) : M Kernel unit :=
  r ← gets (fun k => port_task_delete_hook t (port_context (tcbs k t)) (port k));
  modify (set port (fun _ => r.2));;
  upd_tcb t (set port_context (fun _ => r.1)).

(** ** Memory pool *)

Definition malloc (n : Z) : M Kernel ptr :=
  r ← gets (fun k => memory_pool_malloc n (pool k));
  modify (set pool (fun _ => r.2));;
  mret r.1.
(** Freeing NULL is not a call the kernel may make. *)
Definition mfree (p : ptr) : M Kernel unit :=
  a ← unless_none p; modify (set pool (memory_pool_free a)).

(** ** Bytes *)

Definition mem_fill (a n v : Z) (m : Mem) : Mem :=
  fun x => if (a <=? x) && (x <? a + n) then v else m x.

(** ** Function pointers

    User code the kernel calls: hooks take nothing, timer callbacks get the timer and the
    parameter it was created with. *)
Class Callbacks : Type := {
  call_hook : addr -> M Kernel unit;
  call_timer_callback : addr -> addr -> ptr -> M Kernel unit }.


(** An update of the TCB memory only depends on the function at the current memory. *)
Lemma set_tcbs_ext (f g : (addr -> SertosTaskControlBlock) -> addr -> SertosTaskControlBlock) k :
  f (tcbs k) = g (tcbs k) -> k <| tcbs ::= f |> = k <| tcbs ::= g |>.
Proof. intros Hfg. unfold set. by rewrite Hfg. Qed.

End kernel.

#[global] Arguments Kernel {PL}.
#[global] Arguments Callbacks {PL}.

(** Symbolic execution through the memory accesses. *)
Ltac ksteps :=
  repeat (unfold upd_heap, upd_tcb, upd_sem, upd_mutex, upd_timer, rd_tcb, rd_sem, rd_mutex,
    rd_timer, rd_queue, rd_stream, upd_queue, upd_stream, rd_next, rd_prev; wp_step); cbv beta; rsimpl.
