(* ===== verification/Invariant.v ===== *)
(** The kernel invariant, over the view of the list memory, and the effect of the elementary
    scheduler operations on the view. *)
From S2P Require Import Prelude Effects Types Platform LinkedLists Kernel.

Section invariant.
Context `{PL : Platform}.

(** The ready bitmap has exactly the bits of the non-empty ready queues. *)
Record bits_ok (b : Bitmap) (V : lview) : Prop := Bits_ok {
  bits_size : bitmap_size b = MAXP;
  bits_ready : forall p ts, 0 <= p < MAXP -> V (LReady p) = Some ts ->
    bitmap_bit b p = bool_decide (ts <> []) }.

(** A task of a ready queue: of that queue's priority, ready or running, waiting for nothing. *)
Definition ready_task (k : Kernel) (p : Z) (t : addr) : Prop :=
  0 <= p < MAXP /\ priority (tcbs k t) = p /\
  (state (tcbs k t) = SERTOS_TASK_STATE_READY \/ state (tcbs k t) = SERTOS_TASK_STATE_RUNNING) /\
  wait_list (tcbs k t) = None /\ delay_ticks (tcbs k t) = 0.

(** A task of the delay list: blocked, with a positive 32-bit count of ticks left; if it also
    waits on an IPC object it is in that object's wait list. *)
Definition delayed_task (k : Kernel) (V : lview) (t : addr) : Prop :=
  state (tcbs k t) = SERTOS_TASK_STATE_BLOCKED /\
  0 <= priority (tcbs k t) < MAXP /\
  0 < delay_ticks (tcbs k t) < 2 ^ 32 /\
  forall l, wait_list (tcbs k t) = Some l ->
    link_of l = FEvent /\ exists ts, V l = Some ts /\ t ∈ ts.

(** A task of the wait list [l]: blocked, pointing back to [l]; with ticks left exactly when
    it is in the delay list too. *)
Definition waiting_task (k : Kernel) (V : lview) (l : listid) (t : addr) : Prop :=
  state (tcbs k t) = SERTOS_TASK_STATE_BLOCKED /\
  0 <= priority (tcbs k t) < MAXP /\
  wait_list (tcbs k t) = Some l /\
  (delay_ticks (tcbs k t) = 0 \/ exists ds, V LDelay = Some ds /\ t ∈ ds).

Record kernel_ok (k : Kernel) (V : lview) : Prop := Kernel_ok {
  ok_lists : lists_ok (heap k) V;
  ok_bits : bits_ok (s_ready_bitmap k) V;
  ok_queues : forall p, 0 <= p < MAXP -> is_Some (V (LReady p));
  ok_delay_list : is_Some (V LDelay);
  ok_registry_list : is_Some (V LRegistry);
  ok_suspended : V LSuspended = Some [];
  ok_ready : forall p ts t, V (LReady p) = Some ts -> t ∈ ts -> ready_task k p t;
  ok_delayed : forall ts t, V LDelay = Some ts -> t ∈ ts -> delayed_task k V t;
  ok_waiting : forall l ts t, link_of l = FEvent -> V l = Some ts -> t ∈ ts -> waiting_task k V l t }.

(** The task that runs stays in its ready queue. *)
Definition current_ok (k : Kernel) (V : lview) (c : addr) : Prop :=
  sertos_current_tcb k = Some c /\ state (tcbs k c) = SERTOS_TASK_STATE_RUNNING /\
  exists ts, V (LReady (priority (tcbs k c))) = Some ts /\ c ∈ ts.

(** The outcome of task selection: the head of the highest non-empty ready queue. *)
Definition selected (V : lview) (r : ptr) : Prop :=
  match r with
  | Some t => exists p ts, 0 <= p < MAXP /\ V (LReady p) = Some (t :: ts) /\
                forall q, p < q < MAXP -> V (LReady q) = Some []
  | None => forall q, 0 <= q < MAXP -> V (LReady q) = Some []
  end.

(** ** Sequence-level effects *)

Definition drop (t : addr) (ts : list addr) : list addr := filter (fun x => x <> t) ts.

(** Task [t] of priority [p] becomes ready: it leaves the delay list and any wait list and
    joins the tail of its ready queue. *)
Definition wake_view (t : addr) (p : Z) (V : lview) : lview := fun l =>
  match V l with
  | None => None
  | Some ts => Some
      match l with
      | LReady q => if decide (q = p) then ts ++ [t] else ts
      | LDelay => drop t ts
      | _ => if decide (link_of l = FEvent) then drop t ts else ts
      end
  end.

Definition wake_tcb (c : SertosTaskControlBlock) : SertosTaskControlBlock :=
  c <| delay_ticks := 0 |> <| wait_list := None |> <| state := SERTOS_TASK_STATE_READY |>.

(** Insertion before the first member of lower priority. *)
Fixpoint insert_by_priority (prio : addr -> Z) (t : addr) (ts : list addr) : list addr :=
  match ts with
  | [] => [t]
  | x :: ts' => if prio x <? prio t then t :: ts else x :: insert_by_priority prio t ts'
  end.

(** Priorities never increase along the list. *)
Fixpoint by_priority (prio : addr -> Z) (ts : list addr) : Prop :=
  match ts with
  | [] => True
  | t :: ts' => (forall x, x ∈ ts' -> prio x <= prio t) /\ by_priority prio ts'
  end.

(** The delay list, one tick later. *)
Definition expires (k : Kernel) (t : addr) : bool := delay_ticks (tcbs k t) <=? 1.
Definition tick_tcb (c : SertosTaskControlBlock) : SertosTaskControlBlock :=
  if delay_ticks c <=? 1 then wake_tcb c else c <| delay_ticks ::= fun d => d - 1 |>.
Definition tick_view (exp : addr -> bool) (prio : addr -> Z) (ds : list addr) (V : lview) : lview :=
  foldl (fun V t => if exp t then wake_view t (prio t) V else V) V ds.

End invariant.

(** ** Facts about views

    Views are compared pointwise; the invariant does not distinguish equal views. *)

#[export] Instance lists_ok_proper h : Proper (pointwise_relation listid eq ==> iff) (lists_ok h).
Proof.
  assert (forall V V' : lview, pointwise_relation listid eq V V' -> lists_ok h V -> lists_ok h V') as Himp.
  { intros V V' HV [Hd Hdis]. split.
    - intros l ts. rewrite <-(HV l). apply Hd.
    - intros l l' ts ts' t. rewrite <-(HV l), <-(HV l'). apply Hdis. }
  intros V V' HV. split; [by apply Himp|]. apply Himp. by symmetry.
Qed.

Lemma detached_ext V V' f t :
  pointwise_relation listid eq V V' -> detached V f t -> detached V' f t.
Proof. intros HV Hd l ts. rewrite <-(HV l). apply Hd. Qed.

Lemma elem_of_drop t x ts : x ∈ drop t ts <-> x <> t /\ x ∈ ts.
Proof. unfold drop. by rewrite list_elem_of_filter. Qed.

Lemma drop_notin t ts : t ∉ ts -> drop t ts = ts.
Proof.
  intros Ht. unfold drop. induction ts as [|x ts IH]; [done|].
  rewrite filter_cons_True by set_solver. f_equal. apply IH. set_solver.
Qed.

Lemma drop_mid t ts1 ts2 : NoDup (ts1 ++ t :: ts2) -> drop t (ts1 ++ t :: ts2) = ts1 ++ ts2.
Proof.
  intros Hnd. apply NoDup_app in Hnd as (_ & Hd & Hnd). apply NoDup_cons in Hnd as [Ht _].
  unfold drop. rewrite filter_app, filter_cons_False by auto.
  f_equal; apply drop_notin; [|done]. intros Hin. apply (Hd t Hin). by left.
Qed.

(** Distinct lists, by a fact that only one of them satisfies. *)
Ltac ne_lists := intros; first [done | by intros -> | by intros <- | congruence].
