(* ===== verification/RefPlatform.v ===== *)
(** A concrete platform: textbook versions of the modules the kernel is linked with, and a
    port whose critical sections count.  It shows that the laws of [Platform] can hold
    together, and it makes every definition of the development executable. *)
From S2P Require Import Prelude Effects Types Platform LinkedLists.

(** ** Doubly linked lists *)

Definition ref_list_init (l : listid) (h : ListHeap) : ListHeap :=
  (set_cell (NRoot l) (mkNode (Some (NRoot l)) (Some (NRoot l))) h)
    <| count ::= fun m => <[l := 0]> m |>.

Definition ref_list_insert_tail (l : listid) (n : node) (h : ListHeap) : ListHeap :=
  match prev (cells h (NRoot l)) with
  | Some p => link_before l n p (NRoot l) h
  | None => h
  end.

Definition ref_list_remove (l : listid) (n : node) (h : ListHeap) : ListHeap :=
  match prev (cells h n), next (cells h n) with
  | Some p, Some x =>
      (set_prev x (Some p) (set_next p (Some x) h)) <| count ::= fun m => <[l := m l - 1]> m |>
  | _, _ => h
  end.

Definition ref_list_peek_head (l : listid) (h : ListHeap) : option node :=
  if decide (next (cells h (NRoot l)) = Some (NRoot l)) then None else next (cells h (NRoot l)).
Definition ref_list_is_empty (l : listid) (h : ListHeap) : bool :=
  bool_decide (next (cells h (NRoot l)) = Some (NRoot l)).

#[local] Instance ref_lists : LinkedListOps := {|
  linked_list_init := ref_list_init;
  linked_list_insert_tail_direct := ref_list_insert_tail;
  linked_list_remove_direct := ref_list_remove;
  linked_list_peek_head := ref_list_peek_head;
  linked_list_is_empty := ref_list_is_empty |}.

Lemma linked_last h a ns z : linked h a ns z -> prev (cells h z) = last (a :: ns).
Proof. intros Hl. by destruct (linked_pred _ _ _ _ _ Hl eq_refl) as (p & -> & <-). Qed.

Lemma ref_insert_tail_law h l ns n :
  is_dll h l ns -> n ∉ ns -> is_link n ->
  is_dll (ref_list_insert_tail l n h) l (ns ++ [n]) /\
  heap_frame l (NRoot l :: ns ++ [n]) h (ref_list_insert_tail l n h).
Proof.
  intros Hd Hn Hln. pose proof (fun m => is_dll_root h l _ m Hd) as Hroot.
  destruct Hd as [Hl Hct Hnd Hlk]. unfold ref_list_insert_tail.
  destruct (linked_pred _ _ _ _ _ Hl eq_refl) as (p & Hp & Hlast). rewrite Hp.
  assert (Hnr : n <> NRoot l) by (by intros ->).
  assert (Hpin : p ∈ NRoot l :: ns) by by apply last_Some_elem_of.
  assert (Hnp : n <> p) by set_solver.
  split; [split|].
  - apply linked_app. split.
    + apply (linked_retarget h _ _ _ (NRoot l) p); [done|done| | | | |].
      * apply NoDup_cons. split; [|done]. intros ?. by apply (Hroot (NRoot l)).
      * intros m Hm ?. rewrite link_before_next by done. rewrite !decide_False; set_solver.
      * intros m Hm. rewrite link_before_prev by done.
        rewrite !decide_False; [done|set_solver|by apply Hroot].
      * rewrite link_before_next by done. by rewrite decide_True.
      * rewrite link_before_prev by done. by rewrite decide_False, decide_True.
    + cbn [linked]. rewrite link_before_next, link_before_prev by done.
      by rewrite decide_False, !decide_True by done.
  - unfold link_before. simpl. rewrite fn_lookup_insert.
    transitivity (count h l + 1); [done|]. rewrite Hct, length_app. simpl. lia.
  - rewrite NoDup_app. split; [done|]. split; [set_solver|]. apply NoDup_singleton.
  - rewrite Forall_app, Forall_singleton. done.
  - destruct (link_before_frame h l n p (NRoot l) Hnp Hnr (NRoot l :: ns)) as [Hc Hcn]; [done|by left|].
    split; [|done]. intros m Hm. apply Hc. set_solver.
Qed.

Lemma linked_next_of h a ns1 n ns2 z :
  linked h a (ns1 ++ n :: ns2) z -> next (cells h n) = Some (default z (head ns2)).
Proof. apply linked_next. Qed.

Lemma linked_prev_tail h n m ns z : linked h n (m :: ns) z -> prev (cells h m) = Some n.
Proof. by intros (_ & ? & _). Qed.

(** Splicing a member out of a list, for cells that agree but for the two neighbours. *)
Lemma linked_splice h h' a ns1 n ns2 z p x :
  linked h a (ns1 ++ n :: ns2) z -> NoDup (a :: ns1 ++ n :: ns2) -> z ∉ ns1 ++ n :: ns2 ->
  last (a :: ns1) = Some p -> x = default z (head ns2) ->
  (forall m, m ∈ a :: ns1 ++ ns2 -> m <> p -> next (cells h' m) = next (cells h m)) ->
  (forall m, m ∈ z :: ns1 ++ ns2 -> m <> x -> prev (cells h' m) = prev (cells h m)) ->
  next (cells h' p) = Some x -> prev (cells h' x) = Some p ->
  linked h' a (ns1 ++ ns2) z.
Proof.
  intros Hl Hnd Hz Hp -> Hn Hpr Hnp Hpx. apply linked_app in Hl as [Hl1 Hl2].
  assert (Hnd1 : NoDup (a :: ns1)).
  { change (NoDup ((a :: ns1) ++ n :: ns2)) in Hnd. by apply NoDup_app in Hnd as [? _]. }
  assert (Hdis : forall m, m ∈ a :: ns1 -> m ∉ ns2).
  { change (NoDup ((a :: ns1) ++ n :: ns2)) in Hnd. apply NoDup_app in Hnd as (_ & Hd & _).
    intros m Hm Hm'. apply (Hd m Hm). by right. }
  assert (Hnd2 : NoDup ns2).
  { change (NoDup ((a :: ns1) ++ n :: ns2)) in Hnd. apply NoDup_app in Hnd as (_ & _ & Hnd).
    by apply NoDup_cons in Hnd as [_ ?]. }
  assert (Hpin : p ∈ a :: ns1) by by apply last_Some_elem_of.
  assert (Hgoal : forall y, default z (head ns2) = y -> linked h' a ns1 y).
  { intros y Hy. apply (linked_retarget h _ _ _ n p); [done|done|done| | | |].
    - intros m Hm ?. apply Hn; [set_solver|done].
    - intros m Hm. apply Hpr; [set_solver|]. destruct ns2 as [|m2 ns2]; simpl; [set_solver|].
      intros ->. apply (Hdis m2); set_solver.
    - by subst y.
    - by subst y. }
  destruct ns2 as [|m ns2]; simpl in *; [rewrite app_nil_r; by apply Hgoal|].
  apply linked_app. split; [by apply Hgoal|].
  destruct Hl2 as (_ & _ & Hl2). apply (linked_frame h); [done| |].
  - intros q Hq. apply Hn; [set_solver|]. intros ->. by apply (Hdis p).
  - intros q Hq. apply Hpr; [set_solver|]. apply NoDup_cons in Hnd2 as [? _]. set_solver.
Qed.

Lemma ref_remove_law h l ns1 n ns2 :
  is_dll h l (ns1 ++ n :: ns2) ->
  is_dll (ref_list_remove l n h) l (ns1 ++ ns2) /\
  heap_frame l (NRoot l :: ns1 ++ n :: ns2) h (ref_list_remove l n h).
Proof.
  intros Hd. pose proof (fun m => is_dll_root h l _ m Hd) as Hroot.
  destruct Hd as [Hl Hct Hnd Hlk]. pose proof Hl as Hl'. apply linked_app in Hl' as [Hl1 Hl2].
  destruct (linked_pred _ _ _ _ _ Hl1 eq_refl) as (p & Hp & Hlast).
  pose proof (linked_next _ _ _ _ _ _ Hl) as Hx.
  unfold ref_list_remove. rewrite Hp, Hx. set (x := default (NRoot l) (head ns2)) in *.
  assert (Hpin : p ∈ NRoot l :: ns1) by by apply last_Some_elem_of.
  assert (Hxin : x ∈ NRoot l :: ns2) by (subst x; destruct ns2; simpl; set_solver).
  split; [split|split].
  - apply (linked_splice h _ _ _ n _ _ p x); [done| | |done|done| | | |].
    + apply NoDup_cons. split; [|done]. intros ?. by apply (Hroot (NRoot l)).
    + intros ?. by apply (Hroot (NRoot l)).
    + intros m Hm ?. simpl. rewrite next_set_prev, next_set_next. by rewrite decide_False.
    + intros m Hm ?. simpl. rewrite prev_set_prev, prev_set_next. by rewrite decide_False.
    + simpl. rewrite next_set_prev, next_set_next. by rewrite decide_True.
    + simpl. rewrite prev_set_prev. by rewrite decide_True.
  - simpl. rewrite fn_lookup_insert. transitivity (count h l - 1); [done|].
    rewrite Hct, !length_app. simpl. lia.
  - apply NoDup_app in Hnd as (? & Hdis & Hnd). apply NoDup_cons in Hnd as [? ?].
    apply NoDup_app. split; [done|]. split; [|done]. intros m Hm ?. apply (Hdis m Hm). by right.
  - rewrite !Forall_app, !Forall_cons in *. naive_solver.
  - intros m Hm. unfold set_next, set_prev. simpl. rewrite !cells_set_cell_ne; set_solver.
  - intros l' Hl0. simpl. by rewrite fn_lookup_insert_ne.
Qed.

#[local] Instance ref_lists_laws : LinkedListLaws.
Proof.
  split.
  - intros h l. split; [split|split].
    + simpl. unfold ref_list_init. by rewrite !cells_set_cell_eq.
    + simpl. by rewrite fn_lookup_insert.
    + constructor.
    + constructor.
    + intros n Hn. unfold ref_list_init. simpl. rewrite cells_set_cell_ne; set_solver.
    + intros l' Hl. simpl. by rewrite fn_lookup_insert_ne.
  - intros. by apply ref_insert_tail_law.
  - intros. by apply ref_remove_law.
  - intros h l ns Hd. simpl. unfold ref_list_peek_head.
    pose proof (fun m => is_dll_root h l _ m Hd) as Hroot. destruct Hd as [Hl _ _ _].
    destruct ns as [|n ns]; simpl in Hl.
    + destruct Hl as [-> _]. by rewrite decide_True.
    + destruct Hl as (-> & _ & _). rewrite decide_False; [done|].
      intros [= Heq]. apply (Hroot n); [by left|done].
  - intros h l ns Hd. simpl. unfold ref_list_is_empty.
    pose proof (fun m => is_dll_root h l _ m Hd) as Hroot. destruct Hd as [Hl _ _ _].
    apply bool_decide_ext. destruct ns as [|n ns]; simpl in Hl.
    + destruct Hl as [-> _]. done.
    + destruct Hl as (-> & _ & _). split; [|done].
      intros [= Heq]. exfalso. apply (Hroot n); [by left|done].
Qed.

(** ** Bitmaps: a predicate and a size *)

Fixpoint ref_find_last (f : Z -> bool) (n : nat) : option Z :=
  match n with
  | O => None
  | S n => if f (Z.of_nat n) then Some (Z.of_nat n) else ref_find_last f n
  end.

#[local] Instance ref_bitmap : BitmapOps := {|
  BitmapStorage := unit;
  bitmap_zero_storage := tt;
  Bitmap := (Z -> bool) * Z;
  bitmap_init := fun _ n => if 1 <=? n then Some (fun _ => false, n) else None;
  bitmap_set_bit := fun p b => (fun q => (q =? p) || b.1 q, b.2);
  bitmap_clear_bit := fun p b => (fun q => negb (q =? p) && b.1 q, b.2);
  bitmap_find_last_set := fun b => ref_find_last b.1 (Z.to_nat b.2);
  bitmap_size := snd;
  bitmap_bit := fst |}.

Lemma ref_find_last_spec f n :
  match ref_find_last f n with
  | Some p => 0 <= p < Z.of_nat n /\ f p = true /\ forall q, p < q < Z.of_nat n -> f q = false
  | None => forall q, 0 <= q < Z.of_nat n -> f q = false
  end.
Proof.
  induction n as [|n IH]; cbn [ref_find_last]; [lia|].
  destruct (f (Z.of_nat n)) eqn:Hf; [split; [lia|]; split; [done|]; lia|].
  destruct (ref_find_last f n) as [p|].
  - destruct IH as (? & ? & Hq). split; [lia|]. split; [done|]. intros q ?.
    destruct (decide (q = Z.of_nat n)) as [->|]; [done|]. apply Hq. lia.
  - intros q ?. destruct (decide (q = Z.of_nat n)) as [->|]; [done|]. apply IH. lia.
Qed.

#[local] Instance ref_bitmap_laws : BitmapLaws.
Proof.
  split; simpl; try done.
  - intros n Hn. rewrite (proj2 (Z.leb_le _ _)) by done. by eexists.
  - intros [f n]. simpl. pose proof (ref_find_last_spec f (Z.to_nat n)) as Hs.
    destruct (decide (0 <= n)).
    + rewrite Z2Nat.id in Hs by done. done.
    + destruct n; simpl in *; try lia. 
Qed.

(** ** Atomics, memory pool *)

#[local] Instance ref_atomic : AtomicOps := {|
  atomic_size_t := Z;
  atomic_init_size_t := fun v => v;
  atomic_load_relaxed := fun a => a;
  atomic_load_acquire := fun a => a;
  atomic_store_relaxed := fun v _ => v |}.

#[local] Instance ref_atomic_laws : AtomicLaws.
Proof. by split. Qed.

(** Blocks handed out, with their sizes, and how many more there are. *)
Record RefPool : Type := mkRefPool { blocks : list (Z * Z); left : nat }.

Definition ref_pool_top (bs : list (Z * Z)) : Z := foldr (fun b m => Z.max (b.1 + Z.max 0 b.2) m) 0x10000 bs.

#[local] Instance ref_pool : PoolOps := {|
  Pool := RefPool;
  memory_pool_malloc := fun n p =>
    match left p with
    | O => (None, p)
    | S l =>
        let a := 8 * (ref_pool_top (blocks p) / 8 + 1) in
        (Some a, mkRefPool ((a, n) :: blocks p) l)
    end;
  memory_pool_free := fun a p => mkRefPool (filter (fun b => b.1 <> a) (blocks p)) (S (left p));
  pool_live := fun p a => bool_decide (a ∈ (blocks p).*1) |}.

Lemma ref_pool_top_spec bs a n : (a, n) ∈ bs -> a <= ref_pool_top bs.
Proof.
  induction bs as [|b bs IH]; simpl; [set_solver|].
  rewrite elem_of_cons. intros [<-|Hin]; simpl; [lia|]. specialize (IH Hin). lia.
Qed.

#[local] Instance ref_pool_laws : PoolLaws.
Proof.
  split.
  - intros n p. cbn [memory_pool_malloc ref_pool]. destruct (left p); [done|].
    cbv zeta. set (t := ref_pool_top (blocks p)). set (a := 8 * (t / 8 + 1)).
    assert (Ht : 0x10000 <= t).
    { subst t. unfold ref_pool_top. clear. induction (blocks p) as [|b bs IH]; cbn [foldr]; lia. }
    assert (Hgt : t < a) by (pose proof (Z.mul_succ_div_gt t 8); lia).
    clearbody a. split; [lia|]. split.
    + apply bool_decide_eq_false. intros Hin. apply list_elem_of_fmap in Hin as ([a' m] & Ha & Hin).
      apply ref_pool_top_spec in Hin. simpl in Ha. subst a'. fold t in Hin. lia.
    + intros b. simpl. destruct (Z.eqb_spec b a) as [->|Hne]; simpl.
      * apply bool_decide_eq_true. by left.
      * apply bool_decide_ext. rewrite elem_of_cons. naive_solver.
  - intros a p b. simpl. destruct (Z.eqb_spec b a) as [->|Hne]; simpl.
    + apply bool_decide_eq_false. rewrite list_elem_of_fmap. intros (x & -> & Hin).
      apply list_elem_of_filter in Hin. naive_solver.
    + apply bool_decide_ext. rewrite !list_elem_of_fmap.
      split; intros (x & -> & Hin); exists x; (split; [done|]).
      * by apply list_elem_of_filter in Hin as [_ ?].
      * by apply list_elem_of_filter.
Qed.

(** ** Ring buffers: one byte of the storage stays free *)

Record RefRing : Type := mkRefRing { rr_buffer : Z; rr_mask : Z; rr_head : Z; rr_tail : Z }.

Definition ref_ring_count (r : RefRing) : Z := (rr_head r - rr_tail r) mod (rr_mask r + 1).

Fixpoint ref_ring_put (n : nat) (src : Z) (r : RefRing) (m : Mem) : RefRing * Mem :=
  match n with
  | O => (r, m)
  | S n =>
      ref_ring_put n (src + 1)
        (mkRefRing (rr_buffer r) (rr_mask r) ((rr_head r + 1) mod (rr_mask r + 1)) (rr_tail r))
        (<[rr_buffer r + rr_head r := m src]> m)
  end.

Fixpoint ref_ring_get (n : nat) (dest : Z) (r : RefRing) (m : Mem) : RefRing * Mem :=
  match n with
  | O => (r, m)
  | S n =>
      ref_ring_get n (dest + 1)
        (mkRefRing (rr_buffer r) (rr_mask r) (rr_head r) ((rr_tail r + 1) mod (rr_mask r + 1)))
        (<[dest := m (rr_buffer r + rr_tail r)]> m)
  end.

(** Bytes [bs], oldest first, in a storage of a power of two. *)
Record ref_holds (r : RefRing) (m : Mem) (bs : list Z) : Prop := Ref_holds {
  rh_size : exists e, 0 < e /\ rr_mask r = 2 ^ e - 1;
  rh_head : 0 <= rr_head r <= rr_mask r;
  rh_tail : 0 <= rr_tail r <= rr_mask r;
  rh_length : Z.of_nat (length bs) = ref_ring_count r;
  rh_bytes : forall i b, bs !! i = Some b ->
    m (rr_buffer r + (rr_tail r + Z.of_nat i) mod (rr_mask r + 1)) = b }.

#[local] Instance ref_ring : RingBufferOps := {|
  RingBuffer := RefRing;
  rb_zero := mkRefRing 0 0 0 0;
  rb_tail := rr_tail;
  rb_mask := rr_mask;
  rb_buffer := rr_buffer;
  ring_buffer_init := fun st n =>
    if (2 <=? n) && (Z.land n (n - 1) =? 0) then Some (mkRefRing st (n - 1) 0 0) else None;
  ring_buffer_capacity := rr_mask;
  ring_buffer_count := ref_ring_count;
  ring_buffer_write := fun src n r m =>
    let w := Z.min n (rr_mask r - ref_ring_count r) in
    let p := ref_ring_put (Z.to_nat w) src r m in (w, p.1, p.2);
  ring_buffer_read := fun dest n r m =>
    let w := Z.min n (ref_ring_count r) in
    let p := ref_ring_get (Z.to_nat w) dest r m in (w, p.1, p.2);
  ring_buffer_clear := fun r => mkRefRing (rr_buffer r) (rr_mask r) 0 0;
  ring_buffer_is_empty := fun r => ref_ring_count r =? 0;
  ring_buffer_is_full := fun r => ref_ring_count r =? rr_mask r;
  ring_holds := ref_holds |}.

Section ring.
Implicit Types (r : RefRing) (m : Mem) (bs : list Z).

Lemma ref_holds_positive r m bs : ref_holds r m bs -> 1 <= rr_mask r.
Proof.
  intros [(e & He & ->) _ _ _ _]. pose proof (Z.pow_le_mono_r 2 1 e ltac:(lia) ltac:(lia)). lia.
Qed.

Lemma ref_count_bound r m bs : ref_holds r m bs -> 0 <= ref_ring_count r <= rr_mask r.
Proof.
  intros Hr. pose proof (ref_holds_positive _ _ _ Hr). unfold ref_ring_count.
  pose proof (Z.mod_pos_bound (rr_head r - rr_tail r) (rr_mask r + 1)). lia.
Qed.

(** Writing one byte. *)
Lemma mem_insert_eq m (a v : Z) : (<[a := v]> m) a = v.
Proof. apply (fn_lookup_insert m a v). Qed.
Lemma mem_insert_ne m (a b v : Z) : a <> b -> (<[a := v]> m) b = m b.
Proof. apply (fn_lookup_insert_ne m a b v). Qed.

(** The slot [i] places behind the tail. *)
Lemma ref_slot_head r m bs : ref_holds r m bs ->
  (rr_tail r + ref_ring_count r) mod (rr_mask r + 1) = rr_head r.
Proof.
  intros Hr. pose proof (ref_holds_positive _ _ _ Hr). pose proof (rh_head _ _ _ Hr).
  unfold ref_ring_count. rewrite Zplus_mod_idemp_r. replace (_ + _) with (rr_head r) by lia.
  apply Z.mod_small. lia.
Qed.

Lemma ref_slot_inj N t i j :
  0 < N -> 0 <= i < N -> 0 <= j < N -> (t + i) mod N = (t + j) mod N -> i = j.
Proof.
  intros HN Hi Hj Heq. assert ((t + i - t) mod N = (t + j - t) mod N) as H.
  { by rewrite <-Zminus_mod_idemp_l, Heq, Zminus_mod_idemp_l. }
  replace (t + i - t) with i in H by lia. replace (t + j - t) with j in H by lia.
  by rewrite !Z.mod_small in H.
Qed.

Definition ref_push r : RefRing :=
  mkRefRing (rr_buffer r) (rr_mask r) ((rr_head r + 1) mod (rr_mask r + 1)) (rr_tail r).
Definition ref_pop r : RefRing :=
  mkRefRing (rr_buffer r) (rr_mask r) (rr_head r) ((rr_tail r + 1) mod (rr_mask r + 1)).

Lemma ref_push_holds r m bs v :
  ref_holds r m bs -> Z.of_nat (length bs) < rr_mask r ->
  ref_holds (ref_push r) (<[rr_buffer r + rr_head r := v]> m) (bs ++ [v]).
Proof.
  intros Hr Hlt. pose proof (ref_holds_positive _ _ _ Hr). pose proof (ref_count_bound _ _ _ Hr).
  pose proof (ref_slot_head _ _ _ Hr) as Hhead. destruct Hr as [Hs Hh Ht Hl Hb]. set (N := rr_mask r + 1) in *.
  split; cbn [ref_push rr_buffer rr_mask rr_head rr_tail]; try done.
  - pose proof (Z.mod_pos_bound (rr_head r + 1) N). unfold N in *. lia.
  - rewrite length_app. simpl. unfold ref_ring_count in Hl |- *. simpl. fold N in Hl |- *.
    rewrite Zminus_mod_idemp_l. replace (rr_head r + 1 - rr_tail r) with (rr_head r - rr_tail r + 1) by lia.
    rewrite <-Zplus_mod_idemp_l, <-Hl. rewrite Z.mod_small; lia.
  - intros i b Hi. fold N. apply lookup_app_Some in Hi as [Hi|[Hge Hi]].
    + rewrite mem_insert_ne; [by apply Hb|]. apply lookup_lt_Some in Hi.
      intros Heq. assert (Z.of_nat i = ref_ring_count r); [|lia].
      apply (ref_slot_inj N (rr_tail r)); lia.
    + apply list_lookup_singleton_Some in Hi as [Hi <-].
      replace (Z.of_nat i) with (ref_ring_count r) by lia. by rewrite Hhead, mem_insert_eq.
Qed.

Lemma ref_pop_holds r m b bs : ref_holds r m (b :: bs) -> ref_holds (ref_pop r) m bs.
Proof.
  intros Hr. pose proof (ref_holds_positive _ _ _ Hr). pose proof (ref_count_bound _ _ _ Hr) as Hcb. rewrite <-(rh_length _ _ _ Hr) in Hcb.
  destruct Hr as [Hs Hh Ht Hl Hb]. set (N := rr_mask r + 1) in *. simpl in Hl, Hcb. split; simpl; try done.
  - pose proof (Z.mod_pos_bound (rr_tail r + 1) N). unfold N in *. lia.
  - unfold ref_ring_count in Hl |- *. simpl. fold N in Hl |- *. rewrite Zminus_mod_idemp_r.
    replace (rr_head r - (rr_tail r + 1)) with (rr_head r - rr_tail r + (-1)) by lia.
    rewrite <-Zplus_mod_idemp_l, <-Hl. rewrite Z.mod_small; lia.
  - intros i x Hi. fold N. rewrite Zplus_mod_idemp_l. rewrite <-(Hb (S i) x Hi). f_equal. f_equal. f_equal. lia.
Qed.

Lemma ref_holds_frame r m m' bs :
  ref_holds r m bs -> (forall x, rr_buffer r <= x <= rr_buffer r + rr_mask r -> m' x = m x) -> ref_holds r m' bs.
Proof.
  intros Hr Hm. pose proof (ref_holds_positive _ _ _ Hr). destruct Hr as [Hs Hh Ht Hl Hb].
  split; try done. intros i b Hi. rewrite Hm; [by apply Hb|].
  pose proof (Z.mod_pos_bound (rr_tail r + Z.of_nat i) (rr_mask r + 1)). lia.
Qed.

Lemma mem_bytes_frame m m' a n :
  (forall x, a <= x < a + Z.of_nat n -> m' x = m x) -> mem_bytes m' a n = mem_bytes m a n.
Proof.
  revert a. induction n as [|n IH]; intros a Hm; simpl; [done|].
  f_equal; [apply Hm; lia|]. apply IH. intros x Hx. apply Hm. lia.
Qed.

Lemma ref_put_spec n src r m bs :
  ref_holds r m bs -> Z.of_nat (length bs + n) <= rr_mask r ->
  (forall x, src <= x < src + Z.of_nat n -> ~ rr_buffer r <= x <= rr_buffer r + rr_mask r) ->
  let p := ref_ring_put n src r m in
  ref_holds p.1 p.2 (bs ++ mem_bytes m src n) /\ rr_buffer p.1 = rr_buffer r /\ rr_mask p.1 = rr_mask r /\
  (forall x, ~ rr_buffer r <= x <= rr_buffer r + rr_mask r -> p.2 x = m x).
Proof.
  revert src r m bs. induction n as [|n IH]; intros src r m bs Hr Hn Hsrc; cbn [ref_ring_put mem_bytes].
  - by rewrite app_nil_r.
  - fold (ref_push r). pose proof (rh_head _ _ _ Hr) as Hh.
    assert (Hout : forall x, ~ rr_buffer r <= x <= rr_buffer r + rr_mask r ->
      (<[rr_buffer r + rr_head r := m src]> m) x = m x).
    { intros x Hx. apply mem_insert_ne. lia. }
    destruct (IH (src + 1) (ref_push r) (<[rr_buffer r + rr_head r := m src]> m) (bs ++ [m src]))
      as (H1 & H2 & H3 & H4).
    + apply ref_push_holds; [done|lia].
    + rewrite length_app. simpl. lia.
    + intros x Hx. apply Hsrc. lia.
    + split; [|split; [done|split; [done|]]].
      * rewrite <-app_assoc in H1. simpl in H1. rewrite (mem_bytes_frame m) in H1; [done|].
        intros x Hx. apply Hout, Hsrc. lia.
      * intros x Hx. rewrite H4 by done. by apply Hout.
Qed.

Lemma ref_get_spec n dest r m bs :
  ref_holds r m bs -> (n <= length bs)%nat ->
  (forall x, dest <= x < dest + Z.of_nat n -> ~ rr_buffer r <= x <= rr_buffer r + rr_mask r) ->
  let p := ref_ring_get n dest r m in
  ref_holds p.1 p.2 (drop n bs) /\ rr_buffer p.1 = rr_buffer r /\ rr_mask p.1 = rr_mask r /\
  mem_bytes p.2 dest n = take n bs /\ (forall x, ~ dest <= x < dest + Z.of_nat n -> p.2 x = m x).
Proof.
  revert dest r m bs. induction n as [|n IH]; intros dest r m bs Hr Hn Hdest; cbn [ref_ring_get mem_bytes].
  - by rewrite drop_0.
  - fold (ref_pop r). destruct bs as [|b bs]; simpl in Hn; [lia|].
    pose proof (rh_bytes _ _ _ Hr 0%nat b eq_refl) as Hb. rewrite Z.add_0_r, Z.mod_small in Hb
      by (pose proof (rh_tail _ _ _ Hr); lia).
    set (m1 := <[dest := m (rr_buffer r + rr_tail r)]> m).
    assert (Hm1 : forall x, x <> dest -> m1 x = m x) by (intros x Hx; by apply mem_insert_ne).
    destruct (IH (dest + 1) (ref_pop r) m1 bs) as (H1 & H2 & H3 & H4 & H5).
    + apply (ref_holds_frame _ m); [by eapply ref_pop_holds|]. intros x Hx. apply Hm1.
      intros ->. by apply (Hdest dest); [lia|].
    + lia.
    + intros x Hx. apply Hdest. lia.
    + split_and!; [done|done|done| |].
      * simpl. f_equal; [|done]. rewrite H5 by lia. unfold m1. rewrite mem_insert_eq. done.
      * intros x Hx. rewrite H5 by lia. apply Hm1. lia.
Qed.
End ring.

(** The test for a power of two. *)
Lemma power_land_pred e : 0 <= e -> Z.land (2 ^ e) (2 ^ e - 1) = 0.
Proof.
  intros He. replace (2 ^ e - 1) with (Z.ones e) by (rewrite Z.ones_equiv; lia).
  rewrite Z.land_ones by done. apply Z_mod_same_full.
Qed.

Lemma land_pred_power n : 2 <= n -> Z.land n (n - 1) = 0 -> exists e, 0 < e /\ n = 2 ^ e.
Proof.
  intros Hn Hl. exists (Z.log2 n). pose proof (Z.log2_spec n ltac:(lia)) as [Hlo Hhi].
  assert (0 < Z.log2 n) by (apply Z.log2_pos; lia). split; [done|].
  destruct (Z.eq_dec n (2 ^ Z.log2 n)) as [?|Hne]; [done|exfalso].
  assert (Z.testbit (Z.land n (n - 1)) (Z.log2 n) = true) as Hb; [|by rewrite Hl, Z.testbit_0_l in Hb].
  rewrite Z.land_spec, Z.bit_log2 by lia. simpl.
  replace (Z.log2 n) with (Z.log2 (n - 1)) by (apply Z.log2_unique; lia).
  apply Z.bit_log2. lia.
Qed.

#[local] Instance ref_ring_laws : RingBufferLaws.
Proof.
  split.
  - intros st n rb m. simpl. destruct (_ && _) eqn:Hn; [|done]. intros [= <-]. simpl.
    apply andb_true_iff in Hn as [H2 Hp]. apply Z.leb_le in H2. apply Z.eqb_eq in Hp.
    split; [|split; [done|split; [done|done]]]. split; simpl; try done; try lia.
    destruct (land_pred_power n H2 Hp) as (e & He & ->). by exists e.
  - intros st e He. simpl. rewrite power_land_pred, Z.eqb_refl by lia.
    rewrite (proj2 (Z.leb_le _ _)); [by eexists|].
    pose proof (Z.pow_le_mono_r 2 1 e ltac:(lia) ltac:(lia)). lia.
  - intros rb m bs Hr. pose proof (ref_count_bound _ _ _ Hr). simpl. rewrite (rh_length _ _ _ Hr). split; [done|lia].
  - intros rb m bs Hr. simpl. rewrite <-(rh_length _ _ _ Hr). by destruct bs.
  - intros rb m bs Hr. simpl. by rewrite (rh_length _ _ _ Hr).
  - intros rb m m' bs Hr Hm. by apply (ref_holds_frame _ m).
  - intros rb m bs i b Hr Hi. simpl. destruct (rh_size _ _ _ Hr) as (e & He & Hmask).
    rewrite <-(rh_bytes _ _ _ Hr i b Hi). f_equal. f_equal. rewrite Hmask.
    replace (2 ^ e - 1 + 1) with (2 ^ e) by lia.
    replace (2 ^ e - 1) with (Z.ones e) by (rewrite Z.ones_equiv; lia). apply Z.land_ones. lia.
  - intros rb m bs Hr. apply Hr.
  - intros rb m bs src n Hr Hn w Hsrc. simpl in *.
    pose proof (ref_count_bound _ _ _ Hr). rewrite <-(rh_length _ _ _ Hr) in *.
    destruct (ref_put_spec (Z.to_nat w) src rb m bs Hr) as (H1 & H2 & H3 & H4); [lia|intros x Hx; apply Hsrc; lia|].
    eexists _, _. split; [done|]. split; [by split|]. done.
  - intros rb m bs dest n Hr Hn w Hdest. simpl in *. rewrite <-(rh_length _ _ _ Hr) in *.
    destruct (ref_get_spec (Z.to_nat w) dest rb m bs Hr) as (H1 & H2 & H3 & H4 & H5);
      [lia|intros x Hx; apply Hdest; lia|].
    eexists _, _. split; [done|]. split; [done|]. split; [done|]. split; [done|]. intros x Hx. apply H5. lia.
  - intros rb m bs Hr. split; [|done]. pose proof (ref_holds_positive _ _ _ Hr). split; simpl; try done; try lia.
    apply Hr.
Qed.


(** ** A port *)

(** The depth of critical sections, the switches requested, the rate of the tick timer and
    whether the first task was started. *)
Record RefPort : Type := mkRefPort {
  rp_masked : Z; rp_yields : Z; rp_tick_hz : Z; rp_started : bool }.

Definition ref_port (host : bool) : PortOps := {|
  PortState := RefPort;
  port_host := host;
  port_size_bits := 32;
  sertos_port_stack_init := fun top _ _ _ m => (top, m);
  port_start_first_task := fun s => mkRefPort (rp_masked s) (rp_yields s) (rp_tick_hz s) true;
  port_yield := fun s => mkRefPort (rp_masked s) (rp_yields s + 1) (rp_tick_hz s) (rp_started s);
  port_enter_critical := fun s =>
    (rp_masked s, mkRefPort (rp_masked s + 1) (rp_yields s) (rp_tick_hz s) (rp_started s));
  port_exit_critical := fun c s => mkRefPort c (rp_yields s) (rp_tick_hz s) (rp_started s);
  port_tick_init := fun hz s =>
    (if hz =? 0 then SERTOS_STATUS_ERROR_INVALID_PARAM else SERTOS_STATUS_OK,
     mkRefPort (rp_masked s) (rp_yields s) hz (rp_started s));
  port_task_create_hook := fun t c s => (c, s);
  port_task_delete_hook := fun t c s => (c, s);
  port_stop_scheduler := fun s => mkRefPort (rp_masked s) (rp_yields s) (rp_tick_hz s) false;
  port_runtime_counter := fun ticks s => (ticks, s);
  port_runtime_counter_init := fun s => s |}.

Definition ref_platform (host : bool) : Platform := {|
  platform_lists := ref_lists;
  platform_bitmap := ref_bitmap;
  platform_atomic := ref_atomic;
  platform_pool := ref_pool;
  platform_ring_buffer := ref_ring;
  platform_port := ref_port host;
  s_idle_tcb := 0x1000;
  s_idle_stack := 0x2000;
  idle_task_entry_addr := 0x100;
  sizeof_SertosTaskControlBlock := 144;
  sizeof_SertosSemaphore := 40;
  sizeof_SertosMutex := 40;
  sizeof_SertosTimer := 48;
  sizeof_SertosQueue := 96;
  sizeof_SertosStreamBuffer := 96;
  loop_fuel := 64 |}.

#[export] Instance ref_platform_laws host : @PlatformLaws (ref_platform host).
Proof. split; apply _. Qed.
