(* ===== verification/KernelCheck.v ===== *)
(** The kernel invariant as a test, and kernels to run it on.

    A view with finitely many lists is given by an association list [vs]; [kernel_check k vs]
    is decidable and implies [kernel_ok k (view_of vs)], so that concrete states are shown to
    satisfy the invariant by evaluation.  [blank] is the state before any initialisation, on
    the concrete platform. *)
From S2P Require Import Prelude Effects Types Platform LinkedLists Kernel Invariant RefPlatform.

(** ** Finite views *)

Fixpoint view_of (vs : list (listid * list addr)) (l : listid) : option (list addr) :=
  match vs with
  | [] => None
  | (l', ts) :: vs => if decide (l' = l) then Some ts else view_of vs l
  end.

Lemma view_of_elem vs l ts : view_of vs l = Some ts -> (l, ts) ∈ vs.
Proof.
  induction vs as [|[l' ts'] vs IH]; simpl; [done|]. case_decide; subst.
  - intros [= ->]. by left.
  - intros ?. right. by apply IH.
Qed.

#[export] Instance linked_dec h a ns z : Decision (linked h a ns z).
Proof. revert a. induction ns as [|n ns IH]; intros a; simpl; [apply _|]. pose proof (IH n). apply _. Defined.

Definition dll_check (h : ListHeap) (l : listid) (ts : list addr) : Prop :=
  linked h (NRoot l) (nodes_of l ts) (NRoot l) /\ count h l = Z.of_nat (length ts) /\ NoDup ts.
#[export] Instance dll_check_dec h l ts : Decision (dll_check h l ts).
Proof. unfold dll_check. apply _. Defined.

Lemma dll_check_sound h l ts : dll_check h l ts -> is_dll h l (nodes_of l ts).
Proof.
  intros (Hl & Hc & Hnd). split; [done| | |].
  - unfold nodes_of. by rewrite length_fmap.
  - apply NoDup_fmap; [|done]. by intros ?? [=].
  - apply Forall_forall. intros n Hn. by apply elem_of_nodes in Hn as (t & -> & _).
Qed.

Definition lists_check (h : ListHeap) (vs : list (listid * list addr)) : Prop :=
  Forall (fun v => dll_check h v.1 v.2) vs /\
  Forall (fun v => Forall (fun v' => v.1 <> v'.1 -> link_of v.1 = link_of v'.1 ->
    Forall (fun t => t ∉ v'.2) v.2) vs) vs.
#[export] Instance lists_check_dec h vs : Decision (lists_check h vs).
Proof. unfold lists_check. apply _. Defined.

Lemma lists_check_sound h vs : lists_check h vs -> lists_ok h (view_of vs).
Proof.
  intros [Hd Hdis]. rewrite !Forall_forall in *. split.
  - intros l ts Hl. apply view_of_elem in Hl. apply dll_check_sound. exact (Hd _ Hl).
  - intros l l' ts ts' t Hl Hl' Ht Ht' Hf. destruct (decide (l = l')) as [|Hne]; [done|]. exfalso.
    apply view_of_elem in Hl, Hl'. specialize (Hdis _ Hl). cbn [fst snd] in Hdis. rewrite Forall_forall in Hdis.
    specialize (Hdis _ Hl' Hne Hf). rewrite Forall_forall in Hdis. by apply (Hdis t).
Qed.

(** ** The invariant *)

Section check.
Context `{PL : Platform}.

Definition members (vs : list (listid * list addr)) (l : listid) : list addr := default [] (view_of vs l).

Definition delayed_check (k : Kernel) (vs : list (listid * list addr)) (t : addr) : Prop :=
  state (tcbs k t) = SERTOS_TASK_STATE_BLOCKED /\ 0 <= priority (tcbs k t) < MAXP /\
  0 < delay_ticks (tcbs k t) < 2 ^ 32 /\
  match wait_list (tcbs k t) with
  | Some l => link_of l = FEvent /\ t ∈ members vs l
  | None => True
  end.
#[export] Instance delayed_check_dec k vs t : Decision (delayed_check k vs t).
Proof. unfold delayed_check. destruct (wait_list (tcbs k t)); apply _. Defined.

Definition waiting_check (k : Kernel) (vs : list (listid * list addr)) (l : listid) (t : addr) : Prop :=
  state (tcbs k t) = SERTOS_TASK_STATE_BLOCKED /\ 0 <= priority (tcbs k t) < MAXP /\
  wait_list (tcbs k t) = Some l /\
  (delay_ticks (tcbs k t) = 0 \/ t ∈ members vs LDelay).

Definition member_check (k : Kernel) (vs : list (listid * list addr)) (l : listid) (t : addr) : Prop :=
  match l with
  | LReady p => ready_task k p t
  | LDelay => delayed_check k vs t
  | _ => if decide (link_of l = FEvent) then waiting_check k vs l t else True
  end.
#[export] Instance member_check_dec k vs l t : Decision (member_check k vs l t).
Proof. unfold member_check, ready_task, waiting_check. destruct l; simpl; apply _. Defined.

Definition kernel_check (k : Kernel) (vs : list (listid * list addr)) : Prop :=
  lists_check (heap k) vs /\
  bitmap_size (s_ready_bitmap k) = MAXP /\
  Forall (fun p => bitmap_bit (s_ready_bitmap k) p = bool_decide (members vs (LReady p) <> []) /\
                   is_Some (view_of vs (LReady p))) (seqZ 0 MAXP) /\
  is_Some (view_of vs LDelay) /\ is_Some (view_of vs LRegistry) /\
  view_of vs LSuspended = Some [] /\
  Forall (fun v => Forall (member_check k vs v.1) v.2) vs.
#[export] Instance kernel_check_dec k vs : Decision (kernel_check k vs).
Proof. unfold kernel_check. apply _. Defined.

Lemma elem_of_members vs l t : t ∈ members vs l -> exists ts, view_of vs l = Some ts /\ t ∈ ts.
Proof. unfold members. destruct (view_of vs l); simpl; [eauto|set_solver]. Qed.

Lemma kernel_check_sound k vs : kernel_check k vs -> kernel_ok k (view_of vs).
Proof.
  intros (Hl & Hs & Hb & Hd & Hr & Hsu & Hm). rewrite Forall_forall in Hb. rewrite Forall_forall in Hm.
  assert (Hin : forall l ts t, view_of vs l = Some ts -> t ∈ ts -> member_check k vs l t).
  { intros l ts t Hts Ht. apply view_of_elem in Hts. specialize (Hm _ Hts). cbn [fst snd] in Hm.
    rewrite Forall_forall in Hm. by apply Hm. }
  assert (Hq : forall p, 0 <= p < MAXP -> p ∈ seqZ 0 MAXP) by (intros; apply elem_of_seqZ; lia).
  split; try done.
  - by apply lists_check_sound.
  - split; [done|]. intros p ts Hp Hts. destruct (Hb p (Hq p Hp)) as [-> _].
    unfold members. by rewrite Hts.
  - intros p Hp. by apply Hb, Hq.
  - intros p ts t Hts Ht. by apply (Hin (LReady p) ts).
  - intros ts t Hts Ht. destruct (Hin _ _ _ Hts Ht) as (?&?&?&Hw). unfold delayed_task.
    split_and!; try done; try lia. intros l Hwl. rewrite Hwl in Hw. destruct Hw as [? Hx].
    split; [done|]. by apply elem_of_members.
  - intros l ts t Hf Hts Ht. pose proof (Hin _ _ _ Hts Ht) as Hc.
    assert (waiting_check k vs l t) as (?&?&?&Hw).
    { unfold member_check in Hc. destruct l; simpl in *; done. }
    unfold waiting_task. split_and!; try done; try lia. destruct Hw as [?|Hx]; [by left|right].
    by apply elem_of_members.
Qed.
End check.

(** ** Concrete kernels *)

Definition blank_tcb : SertosTaskControlBlock :=
  mkTCB None None 0 None SERTOS_TASK_STATE_READY 0 0 0 None None None None false 0 None 0 0 0.

Definition blank (host : bool) : @Kernel (ref_platform host) :=
  @mkKernel (ref_platform host)
    (mkListHeap (fun _ => mkNode None None) (fun _ => 0))
    (fun _ => blank_tcb) (fun _ => mkSem 0 0 false 0) (fun _ => mkMutex None 0 0 false 0)
    (fun _ => mkTimer None 0 0 false false None None false 0)
    (fun _ => mkQueue rb_zero 0 0 None false 0) (fun _ => mkStream rb_zero 0 None false 0)
    (fun _ => 0) (mkRefPool [] 64) (mkRefPort 0 0 0 false)
    (fun _ => false, 0) None false 0 false 0 0 false None None false false 0.

(** Hooks and callbacks that do nothing. *)
Definition no_callbacks host : @Callbacks (ref_platform host) :=
  {| call_hook := fun _ => mret tt; call_timer_callback := fun _ _ _ => mret tt |}.

(** The state a computation ends in, or the state it started from if it is stuck. *)
Definition after {S A} (m : M S A) (s : S) : S :=
  match exec m s with Some (_, s') => s' | None => s end.
Definition result {S A} (m : M S A) (s : S) : option A := fst <$> exec m s.

(** The state at the first context switch, with the interference [env] before it. *)
Fixpoint at_switch {S A} (env : list (S -> S)) (o : outcome S A) : option S :=
  match o with
  | Pause PYield s _ => Some s
  | Pause _ s k =>
      match env with
      | [] => at_switch [] (k s)
      | e :: env' => at_switch env' (k (e s))
      end
  | _ => None
  end.
Definition until_switch {S A} (m : M S A) (s : S) : S := default s (at_switch [] (m s)).

Lemma some_pair {A B} (o : option (A * B)) (a : A) (b : B) :
  fst <$> o = Some a -> o = Some (a, default b (snd <$> o)).
Proof. destruct o as [[a' b']|]; simpl; intros [=]. by subst. Qed.

Lemma exec_after {S A} (m : M S A) (s : S) (a : A) :
  result m s = Some a -> exec m s = Some (a, after m s).
Proof. unfold result, after. destruct (exec m s) as [[b s']|]; simpl; intros [=]. by subst. Qed.

(** The view with ready queues [qs] (the others being empty), delay list [ds], registry [rs]
    and further lists [vs]. *)
Definition sched_view (qs : list (Z * list addr)) (ds rs : list addr)
    (vs : list (listid * list addr)) : list (listid * list addr) :=
  vs ++ map (fun q => (LReady q.1, q.2)) qs ++
  map (fun p => (LReady p, [])) (filter (fun p => p ∉ qs.*1) (seqZ 0 MAXP)) ++
  [(LSuspended, []); (LDelay, ds); (LRegistry, rs)].
