(* ===== verification/SchedCore.v ===== *)
(** Ready queues, delay list, task registry and IPC wait lists
    (src/sertos_scheduler.c, the parts that do not switch contexts). *)
From S2P Require Import Prelude Effects Types Platform LinkedLists Kernel.

Section sched_core.
Context `{PL : Platform}.

(** ** Ready queues *)

Definition sertos_scheduler_add_ready (tcb : ptr) : M Kernel SertosStatus :=
  match tcb with
  | None => mret SERTOS_STATUS_ERROR_INVALID_PARAM
  | Some t =>
      p ← rd_tcb t priority;
      if SERTOS_CONFIG_MAX_PRIORITIES <=? p then mret SERTOS_STATUS_ERROR_INVALID_PARAM
      else
        upd_heap (linked_list_insert_tail_direct (LReady p) (NLink FState t));;
        modify (set s_ready_bitmap (bitmap_set_bit p));;
        upd_tcb t (set state (fun _ => SERTOS_TASK_STATE_READY));;
        mret SERTOS_STATUS_OK
  end.

Definition sertos_scheduler_remove_ready (tcb : ptr) : M Kernel SertosStatus :=
  match tcb with
  | None => mret SERTOS_STATUS_ERROR_INVALID_PARAM
  | Some t =>
      p ← rd_tcb t priority;
      if SERTOS_CONFIG_MAX_PRIORITIES <=? p then mret SERTOS_STATUS_ERROR_INVALID_PARAM
      else
        pv ← rd_prev (NLink FState t);
        nx ← rd_next (NLink FState t);
        when (bool_decide (pv <> None) && bool_decide (nx <> None)) (
          upd_heap (linked_list_remove_direct (LReady p) (NLink FState t));;
          e ← gets (fun k => linked_list_is_empty (LReady p) (heap k));
          when e (modify (set s_ready_bitmap (bitmap_clear_bit p))));;
        mret SERTOS_STATUS_OK
  end.

Definition sertos_scheduler_select_next_task : M Kernel ptr :=
  hp ← gets (fun k => bitmap_find_last_set (s_ready_bitmap k));
  match hp with
  | None => mret None
  | Some highest_prio =>
      h ← gets (fun k => linked_list_peek_head (LReady highest_prio) (heap k));
      match h with
      | None => mret None
      | Some head_node => t ← unless_none (container_of FState head_node); mret (Some t)
      end
  end.

(** ** IPC wait lists *)

Definition sertos_scheduler_wait_list_remove (wl : option listid) (tcb : ptr) : M Kernel unit :=
  match wl, tcb with
  | Some l, Some t =>
      nx ← rd_next (NLink FEvent t);
      if decide (nx = None) then mret tt
      else
        upd_heap (linked_list_remove_direct l (NLink FEvent t));;
        upd_heap (fun h => set_next (NLink FEvent t) None h);;
        upd_heap (fun h => set_prev (NLink FEvent t) None h)
  | _, _ => mret tt
  end.

(** The walk of [insert_wait_list_priority] from [curr]. *)
Fixpoint insert_wait_list_loop (fuel : nat) (wl : listid) (t : addr) (curr : option node) :
    M Kernel unit :=
  match curr with
  | None => upd_heap (linked_list_insert_tail_direct wl (NLink FEvent t))
  | Some c =>
      match fuel with
      | O => stuck OutOfFuel
      | S fuel =>
          iter_task ← unless_none (container_of FEvent c);
          pt ← rd_tcb t priority;
          pi ← rd_tcb iter_task priority;
          if pi <? pt then
            upd_heap (fun h => set_next (NLink FEvent t) (Some c) h);;
            pv ← rd_prev c;
            upd_heap (fun h => set_prev (NLink FEvent t) pv h);;
            before ← unless_none pv;
            upd_heap (fun h => set_next before (Some (NLink FEvent t)) h);;
            upd_heap (fun h => set_prev c (Some (NLink FEvent t)) h);;
            upd_heap (fun h => h <| count ::= fun m => <[wl := m wl + 1]> m |>)
          else
            nx ← rd_next c;
            insert_wait_list_loop fuel wl t (if decide (nx = Some (NRoot wl)) then None else nx)
      end
  end.

Definition insert_wait_list_priority (wl : listid) (t : addr) : M Kernel unit :=
  curr ← gets (fun k => linked_list_peek_head wl (heap k));
  insert_wait_list_loop loop_fuel wl t curr.

Definition sertos_scheduler_wait_list_unblock_highest (wl : option listid) : M Kernel ptr :=
  match wl with
  | None => mret None
  | Some l =>
      h ← gets (fun k => linked_list_peek_head l (heap k));
      match h with
      | None => mret None
      | Some hd =>
          task ← unless_none (container_of FEvent hd);
          sertos_scheduler_wait_list_remove (Some l) (Some task);;
          d ← rd_tcb task delay_ticks;
          when (0 <? d) (
            upd_heap (linked_list_remove_direct LDelay (NLink FState task));;
            upd_tcb task (set delay_ticks (fun _ => 0)));;
          upd_tcb task (set wait_list (fun _ => None));;
          sertos_scheduler_add_ready (Some task);;
          mret (Some task)
      end
  end.

(** [do { unblocked = unblock_highest(wl); } while (unblocked != NULL)] *)
Fixpoint unblock_all (fuel : nat) (l : listid) : M Kernel unit :=
  match fuel with
  | O => stuck OutOfFuel
  | S fuel =>
      unblocked ← sertos_scheduler_wait_list_unblock_highest (Some l);
      match unblocked with None => mret tt | Some _ => unblock_all fuel l end
  end.

(** ** Delay list *)

Fixpoint process_delayed_loop (fuel : nat) (curr : option node) (task_unblocked : bool) :
    M Kernel bool :=
  match curr with
  | None => mret task_unblocked
  | Some curr_node =>
      match fuel with
      | O => stuck OutOfFuel
      | S fuel =>
          nx ← rd_next curr_node;
          let next_node := if decide (nx = Some (NRoot LDelay)) then None else nx in
          task ← unless_none (container_of FState curr_node);
          d ← rd_tcb task delay_ticks;
          when (0 <? d) (upd_tcb task (set delay_ticks (fun d => d - 1)));;
          d' ← rd_tcb task delay_ticks;
          if d' =? 0 then
            upd_heap (linked_list_remove_direct LDelay curr_node);;
            wl ← rd_tcb task wait_list;
            when (bool_decide (wl <> None)) (
              sertos_scheduler_wait_list_remove wl (Some task);;
              upd_tcb task (set wait_list (fun _ => None)));;
            sertos_scheduler_add_ready (Some task);;
            process_delayed_loop fuel next_node true
          else process_delayed_loop fuel next_node task_unblocked
      end
  end.

Definition process_delayed_tasks : M Kernel bool :=
  curr ← gets (fun k => linked_list_peek_head LDelay (heap k));
  process_delayed_loop loop_fuel curr false.

(** ** Time slicing *)

Definition process_time_slicing : M Kernel unit :=
  enabled ← gets s_time_slicing_enabled;
  current ← gets sertos_current_tcb;
  match current with
  | Some t =>
      if (enabled : bool) then
        p ← rd_tcb t priority;
        c ← gets (fun k => count (heap k) (LReady p));
        when (1 <? c) (
          upd_heap (linked_list_remove_direct (LReady p) (NLink FState t));;
          upd_heap (linked_list_insert_tail_direct (LReady p) (NLink FState t)))
      else mret tt
  | None => mret tt
  end.

(** ** Task registry *)

Definition sertos_scheduler_register_task (tcb : ptr) : M Kernel unit :=
  match tcb with
  | None => mret tt
  | Some t => upd_heap (linked_list_insert_tail_direct LRegistry (NLink FRegistry t))
  end.

Definition sertos_scheduler_unregister_task (tcb : ptr) : M Kernel unit :=
  match tcb with
  | None => mret tt
  | Some t =>
      nx ← rd_next (NLink FRegistry t);
      when (bool_decide (nx <> None)) (
        upd_heap (linked_list_remove_direct LRegistry (NLink FRegistry t));;
        upd_heap (fun h => set_next (NLink FRegistry t) None h);;
        upd_heap (fun h => set_prev (NLink FRegistry t) None h))
  end.

(** The walk of [visit_list_state_nodes] from [n]; a visitor may update its context. *)
Fixpoint visit_loop {C} (fuel : nat) (l : listid) (visit : addr -> C -> M Kernel C)
    (n : option node) (ctx : C) : M Kernel C :=
  if decide (n = Some (NRoot l)) then mret ctx
  else
    match fuel with
    | O => stuck OutOfFuel
    | S fuel =>
        nd ← unless_none n;
        task ← unless_none (container_of FRegistry nd);
        ctx' ← visit task ctx;
        nx ← rd_next nd;
        visit_loop fuel l visit nx ctx'
    end.

Definition visit_list_state_nodes {C} (l : listid) (visit : addr -> C -> M Kernel C) (ctx : C) :
    M Kernel C :=
  n ← rd_next (NRoot l);
  visit_loop loop_fuel l visit n ctx.

Definition sertos_scheduler_visit_all_tasks {C} (visit : option (addr -> C -> M Kernel C)) (ctx : C) :
    M Kernel C :=
  match visit with
  | None => mret ctx
  | Some v =>
      crit_status ← sertos_port_enter_critical;
      ctx' ← visit_list_state_nodes LRegistry v ctx;
      sertos_port_exit_critical crit_status;;
      mret ctx'
  end.

Definition sertos_scheduler_get_idle_tcb : ptr := Some s_idle_tcb.
Definition sertos_scheduler_get_current_tcb : M Kernel ptr := gets sertos_current_tcb.
Definition sertos_scheduler_set_current_tcb (tcb : ptr) : M Kernel unit :=
  modify (set sertos_current_tcb (fun _ => tcb)).

End sched_core.
