(* ===== verification/SchedCoreSpec.v ===== *)
(** Specifications of the scheduler's list operations, over views. *)
From S2P Require Import Prelude Effects Types Platform LinkedLists Kernel Invariant SchedCore.

Section spec.
Context `{PL : Platform} `{!PlatformLaws}.
Implicit Types (k : Kernel) (V : lview) (P : protocol Kernel) (t : addr) (ts : list addr).

(** ** Ready queues *)

Lemma bits_ok_set b V p ts :
  bits_ok b V -> 0 <= p < MAXP -> ts <> [] ->
  bits_ok (bitmap_set_bit p b) (<[LReady p := Some ts]> V).
Proof.
  intros [Hs Hb] Hp Hts. destruct (bitmap_set_law b p) as [Hs' Hb']; [by rewrite Hs|].
  split; [congruence|]. intros q ts' Hq. rewrite Hb'. destruct (decide (p = q)) as [<-|Hne].
  - rewrite fn_lookup_insert. intros [= <-]. rewrite Z.eqb_refl. by rewrite bool_decide_true.
  - rewrite fn_lookup_insert_ne by congruence. intros Hl. rewrite (Hb _ _ Hq Hl).
    by rewrite (proj2 (Z.eqb_neq q p)) by congruence.
Qed.

Lemma bits_ok_clear b V p :
  bits_ok b V -> 0 <= p < MAXP -> bits_ok (bitmap_clear_bit p b) (<[LReady p := Some []]> V).
Proof.
  intros [Hs Hb] Hp. destruct (bitmap_clear_law b p) as [Hs' Hb']; [by rewrite Hs|].
  split; [congruence|]. intros q ts' Hq. rewrite Hb'. destruct (decide (p = q)) as [<-|Hne].
  - rewrite fn_lookup_insert. intros [= <-]. by rewrite Z.eqb_refl.
  - rewrite fn_lookup_insert_ne by congruence. intros Hl. rewrite (Hb _ _ Hq Hl).
    by rewrite (proj2 (Z.eqb_neq q p)) by congruence.
Qed.

Lemma bits_ok_nonempty b V p ts ts' :
  bits_ok b V -> V (LReady p) = Some ts -> ts <> [] -> ts' <> [] ->
  bits_ok b (<[LReady p := Some ts']> V).
Proof.
  intros [Hs Hb] Hl Hts Hts'. split; [done|]. intros q tq Hq. destruct (decide (p = q)) as [<-|Hne].
  - rewrite fn_lookup_insert. intros [= <-]. rewrite (Hb _ _ Hq Hl). by rewrite !bool_decide_true.
  - rewrite fn_lookup_insert_ne by congruence. by apply Hb.
Qed.

(** Lists other than ready queues do not matter to the bitmap. *)
Lemma bits_ok_other b V l o : (forall p, l <> LReady p) -> bits_ok b V -> bits_ok b (<[l := o]> V).
Proof.
  intros Hl [Hs Hb]. split; [done|]. intros p ts Hp. rewrite fn_lookup_insert_ne by done. by apply Hb.
Qed.

#[export] Instance bits_ok_proper b : Proper (pointwise_relation listid eq ==> iff) (bits_ok b).
Proof.
  intros V V' HV. split; intros [Hs Hb]; (split; [done|]); intros p ts Hp.
  - rewrite <-(HV _). by apply Hb.
  - rewrite (HV _). by apply Hb.
Qed.

Lemma wp_add_ready P k V t p ts (Q : SertosStatus -> Kernel -> Prop) :
  lists_ok (heap k) V -> bits_ok (s_ready_bitmap k) V ->
  priority (tcbs k t) = p -> 0 <= p < MAXP -> V (LReady p) = Some ts -> detached V FState t ->
  (forall h b, lists_ok h (<[LReady p := Some (ts ++ [t])]> V) ->
     bits_ok b (<[LReady p := Some (ts ++ [t])]> V) ->
     Q SERTOS_STATUS_OK
       (k <| heap := h |> <| s_ready_bitmap := b |>
          <| tcbs ::= alter (set state (fun _ => SERTOS_TASK_STATE_READY)) t |>)) ->
  wp P (sertos_scheduler_add_ready (Some t)) k Q.
Proof.
  intros HV Hb Hpr Hp Hts Hd HQ. unfold sertos_scheduler_add_ready.
  ksteps. rewrite Hpr. rewrite (proj2 (Z.leb_gt _ _)) by lia. ksteps.
  apply (HQ (linked_list_insert_tail_direct (LReady p) (NLink FState t) (heap k))
            (bitmap_set_bit p (s_ready_bitmap k))).
  - by apply lists_ok_insert_tail.
  - apply bits_ok_set; [done..|]. by destruct ts.
Qed.

Lemma wp_remove_ready P k V t p ts1 ts2 (Q : SertosStatus -> Kernel -> Prop) :
  lists_ok (heap k) V -> bits_ok (s_ready_bitmap k) V ->
  priority (tcbs k t) = p -> 0 <= p < MAXP -> V (LReady p) = Some (ts1 ++ t :: ts2) ->
  (forall h b, lists_ok h (<[LReady p := Some (ts1 ++ ts2)]> V) ->
     bits_ok b (<[LReady p := Some (ts1 ++ ts2)]> V) ->
     Q SERTOS_STATUS_OK (k <| heap := h |> <| s_ready_bitmap := b |>)) ->
  wp P (sertos_scheduler_remove_ready (Some t)) k Q.
Proof.
  intros HV Hb Hpr Hp Hts HQ. unfold sertos_scheduler_remove_ready.
  pose proof (member_next _ _ _ _ _ _ HV Hts) as Hn.
  destruct (member_prev _ _ _ _ _ _ HV Hts) as [pv Hpv]. simpl in Hn, Hpv.
  pose proof (lists_ok_remove _ _ _ _ _ _ HV Hts) as HV'. simpl in HV'.
  ksteps. rewrite Hpr. rewrite (proj2 (Z.leb_gt _ _)) by lia. ksteps.
  rewrite Hn, Hpv, !bool_decide_true by done. cbn [andb]. ksteps.
  rewrite (is_empty_ok _ _ (LReady p) (ts1 ++ ts2) HV') by apply fn_lookup_insert.
  destruct (bool_decide_reflect (ts1 ++ ts2 = [])) as [He|He]; ksteps.
  - apply (HQ (linked_list_remove_direct (LReady p) (NLink FState t) (heap k))
              (bitmap_clear_bit p (s_ready_bitmap k))); rewrite He in *; [done|].
    by apply bits_ok_clear.
  - apply (HQ (linked_list_remove_direct (LReady p) (NLink FState t) (heap k))
              (s_ready_bitmap k)); [done|].
    eapply bits_ok_nonempty; [done|done| |done]. by destruct ts1.
Qed.

Lemma wp_select P k V (Q : ptr -> Kernel -> Prop) :
  lists_ok (heap k) V -> bits_ok (s_ready_bitmap k) V ->
  (forall p, 0 <= p < MAXP -> is_Some (V (LReady p))) ->
  (forall r, selected V r -> Q r k) ->
  wp P sertos_scheduler_select_next_task k Q.
Proof.
  intros HV [Hs Hb] Hq HQ. unfold sertos_scheduler_select_next_task. ksteps.
  pose proof (bitmap_find_last_set_law (s_ready_bitmap k)) as Hlaw. rewrite Hs in Hlaw.
  destruct (bitmap_find_last_set (s_ready_bitmap k)) as [p|]; wp_steps.
  - destruct Hlaw as (Hp & Hbit & Hhi). destruct (Hq p Hp) as [ts Hts].
    rewrite (Hb p ts Hp Hts) in Hbit. apply bool_decide_eq_true in Hbit.
    destruct ts as [|t ts]; [done|].
    rewrite (peek_head_ok _ _ _ _ HV Hts). simpl. wp_steps.
    apply HQ. exists p, ts. split_and!; [lia|lia|done|]. intros q Hqr.
    destruct (Hq q) as [tq Htq]; [lia|].
    pose proof (Hhi q ltac:(lia)) as Hz. rewrite (Hb q tq ltac:(lia) Htq) in Hz.
    apply bool_decide_eq_false in Hz. destruct tq; [done|]. by destruct Hz.
  - apply HQ. intros q Hqr. destruct (Hq q) as [tq Htq]; [lia|].
    pose proof (Hlaw q ltac:(lia)) as Hz. rewrite (Hb q tq ltac:(lia) Htq) in Hz.
    apply bool_decide_eq_false in Hz. destruct tq; [done|]. by destruct Hz.
Qed.

(** ** Wait lists *)

Lemma wp_wait_list_remove P k V l ts1 t ts2 (Q : unit -> Kernel -> Prop) :
  lists_ok (heap k) V -> link_of l = FEvent -> V l = Some (ts1 ++ t :: ts2) ->
  (forall h, lists_ok h (<[l := Some (ts1 ++ ts2)]> V) -> Q tt (k <| heap := h |>)) ->
  wp P (sertos_scheduler_wait_list_remove (Some l) (Some t)) k Q.
Proof.
  intros HV Hl Hts HQ. unfold sertos_scheduler_wait_list_remove.
  pose proof (member_next _ _ _ _ _ _ HV Hts) as Hn.
  pose proof (lists_ok_remove _ _ _ _ _ _ HV Hts) as HV'.
  pose proof (detached_remove _ _ _ _ _ _ HV Hts) as Hd. rewrite Hl in *.
  ksteps. rewrite Hn. rewrite decide_False by done. ksteps.
  apply (HQ (set_prev (NLink FEvent t) None (set_next (NLink FEvent t) None
          (linked_list_remove_direct l (NLink FEvent t) (heap k))))).
  unfold set_prev, set_next. by repeat apply lists_ok_set_cell.
Qed.

Lemma decide_next_of l ts :
  (if decide (Some (next_of l ts) = Some (NRoot l)) then None else Some (next_of l ts)) =
  NLink (link_of l) <$> head ts.
Proof. unfold next_of. destruct ts; case_decide; try done; congruence. Qed.

Lemma wp_insert_wait_list_loop P k V wl t (Q : unit -> Kernel -> Prop) ts2 :
  lists_ok (heap k) V -> link_of wl = FEvent -> detached V FEvent t ->
  forall fuel ts1, (length ts2 <= fuel)%nat -> V wl = Some (ts1 ++ ts2) ->
  (forall h, lists_ok h
     (<[wl := Some (ts1 ++ insert_by_priority (fun x => priority (tcbs k x)) t ts2)]> V) ->
     Q tt (k <| heap := h |>)) ->
  wp P (insert_wait_list_loop fuel wl t (NLink FEvent <$> head ts2)) k Q.
Proof.
  intros HV Hl Hd. induction ts2 as [|c ts2 IH]; intros fuel ts1 Hf Hts HQ.
  - assert (Hend : forall f, insert_wait_list_loop f wl t (NLink FEvent <$> head []) =
        upd_heap (linked_list_insert_tail_direct wl (NLink FEvent t))) by (by intros []).
    rewrite Hend. ksteps. rewrite app_nil_r in Hts.
    apply (HQ (linked_list_insert_tail_direct wl (NLink FEvent t) (heap k))).
    simpl. rewrite <-Hl. apply lists_ok_insert_tail; [done..|]. by rewrite Hl.
  - destruct fuel as [|fuel]; simpl in Hf; [lia|].
    destruct (member_prev _ _ _ _ _ _ HV Hts) as [pv Hpv].
    pose proof (member_next _ _ _ _ _ _ HV Hts) as Hn.
    pose proof (lists_ok_link_before _ _ _ _ _ _ t pv HV Hts) as HV'. rewrite Hl in *.
    cbn [insert_wait_list_loop head fmap option_fmap option_map container_of].
    rewrite decide_True by done. ksteps.
    destruct (Z.ltb_spec (priority (tcbs k c)) (priority (tcbs k t))) as [Hlt|Hge]; ksteps.
    + rewrite prev_set_next, Hpv. ksteps.
      apply (HQ (link_before wl (NLink FEvent t) pv (NLink FEvent c) (heap k))).
      simpl. rewrite (proj2 (Z.ltb_lt _ _)) by done. by apply HV'.
    + rewrite Hn. pose proof (decide_next_of wl ts2) as Hnx. rewrite Hl in Hnx. rewrite Hnx.
      apply (IH fuel (ts1 ++ [c])); [lia|by rewrite <-app_assoc|].
      intros h Hh. apply HQ. simpl. rewrite (proj2 (Z.ltb_ge _ _)) by done.
      by rewrite <-app_assoc in Hh.
Qed.

Lemma wp_insert_wait_list P k V wl t ts (Q : unit -> Kernel -> Prop) :
  lists_ok (heap k) V -> link_of wl = FEvent -> detached V FEvent t ->
  V wl = Some ts -> (length ts <= loop_fuel)%nat ->
  (forall h, lists_ok h
     (<[wl := Some (insert_by_priority (fun x => priority (tcbs k x)) t ts)]> V) ->
     Q tt (k <| heap := h |>)) ->
  wp P (insert_wait_list_priority wl t) k Q.
Proof.
  intros HV Hl Hd Hts Hf HQ. unfold insert_wait_list_priority. ksteps.
  rewrite (peek_head_ok _ _ _ _ HV Hts), Hl. by apply (wp_insert_wait_list_loop _ _ V _ _ _ _ HV Hl Hd _ []).
Qed.

(** ** Waking a blocked task *)

Lemma wake_view_ready t p V ts :
  V (LReady p) = Some ts -> wake_view t p V (LReady p) = Some (ts ++ [t]).
Proof. intros Hl. unfold wake_view. rewrite Hl. by rewrite decide_True. Qed.

Lemma wake_view_ready_ne t p q V : q <> p -> wake_view t p V (LReady q) = V (LReady q).
Proof. intros Hne. unfold wake_view. destruct (V (LReady q)); [|done]. by rewrite decide_False. Qed.

Lemma wake_view_delay t p V ds : V LDelay = Some ds -> wake_view t p V LDelay = Some (drop t ds).
Proof. intros Hl. unfold wake_view. by rewrite Hl. Qed.

Lemma wake_view_wait t p V l ts :
  link_of l = FEvent -> V l = Some ts -> wake_view t p V l = Some (drop t ts).
Proof. intros Hf Hl. unfold wake_view. rewrite Hl. by destruct l. Qed.

Lemma wake_view_same t p V l :
  link_of l <> FEvent -> (forall q, l <> LReady q) -> l <> LDelay -> wake_view t p V l = V l.
Proof.
  intros Hf Hr Hd. unfold wake_view. destruct (V l); [|done]. destruct l; try done; by destruct (Hr p0).
Qed.

Lemma wake_view_is_Some t p V l : is_Some (wake_view t p V l) <-> is_Some (V l).
Proof. unfold wake_view. destruct (V l); split; by intros [? [=]]. Qed.

(** A blocked task that is not delayed is in no state list. *)
Lemma blocked_detached k V t ds :
  kernel_ok k V -> state (tcbs k t) = SERTOS_TASK_STATE_BLOCKED ->
  V LDelay = Some ds -> t ∉ ds -> detached V FState t.
Proof.
  intros Hk Hst Hds Ht l ts Hl Hf Hin. destruct l; try done.
  - destruct (ok_ready _ _ Hk _ _ _ Hl Hin) as (_ & _ & [Hs|Hs] & _); congruence.
  - congruence.
  - rewrite (ok_suspended _ _ Hk) in Hl. simplify_eq. by apply not_elem_of_nil in Hin.
Qed.

(** A delayed task waits on no list but the one it points to. *)
Lemma blocked_waits k V t l ts :
  kernel_ok k V -> link_of l = FEvent -> V l = Some ts -> t ∈ ts -> wait_list (tcbs k t) = Some l.
Proof. intros Hk Hf Hl Hin. by destruct (ok_waiting _ _ Hk _ _ _ Hf Hl Hin) as (_&_&?&_). Qed.

(** The removals and the insertion that wake a task amount to [wake_view]. *)
Lemma wake_view_updates V V1 t p ts ds :
  V (LReady p) = Some ts -> V LDelay = Some ds ->
  V1 LDelay = Some (drop t ds) ->
  (forall q, V1 (LReady q) = V (LReady q)) ->
  (forall l, link_of l = FEvent -> V1 l = drop t <$> V l) ->
  (forall l, link_of l <> FEvent -> link_of l <> FState -> V1 l = V l) ->
  V1 LSuspended = V LSuspended ->
  pointwise_relation listid eq (<[LReady p := Some (ts ++ [t])]> V1) (wake_view t p V).
Proof.
  intros Hts Hds Hd Hr He Ho Hs l. destruct (decide (LReady p = l)) as [<-|Hne].
  { rewrite fn_lookup_insert. by erewrite wake_view_ready. }
  rewrite fn_lookup_insert_ne by done. destruct (decide (link_of l = FEvent)) as [Hf|Hf].
  { rewrite He by done. destruct (V l) as [ws|] eqn:Hl; simpl.
    - by erewrite wake_view_wait.
    - unfold wake_view. by rewrite Hl. }
  destruct (decide (l = LDelay)) as [->|Hnd]; [by erewrite wake_view_delay|].
  destruct l; simpl in *; try done;
    try (rewrite wake_view_same by done; by auto).
  rewrite wake_view_ready_ne by congruence. apply Hr.
Qed.

Lemma kernel_ok_wake k V t p h b :
  kernel_ok k V -> state (tcbs k t) = SERTOS_TASK_STATE_BLOCKED ->
  priority (tcbs k t) = p -> 0 <= p < MAXP ->
  lists_ok h (wake_view t p V) -> bits_ok b (wake_view t p V) ->
  kernel_ok (k <| heap := h |> <| s_ready_bitmap := b |> <| tcbs ::= alter wake_tcb t |>)
    (wake_view t p V).
Proof.
  intros Hk Hst Hpr Hp Hh Hb.
  assert (Htcb : forall x, x <> t -> alter wake_tcb t (tcbs k) x = tcbs k x).
  { intros x Hx. by apply fn_lookup_alter_ne. }
  destruct (ok_delay_list _ _ Hk) as [ds Hds].
  split; rsimpl; try done.
  - intros q Hq. apply wake_view_is_Some. by apply (ok_queues k).
  - apply wake_view_is_Some. by apply (ok_delay_list k).
  - apply wake_view_is_Some. by apply (ok_registry_list k).
  - rewrite wake_view_same by done. by apply (ok_suspended k).
  - intros q ts x. unfold ready_task. rsimpl.
    destruct (decide (x = t)) as [->|Hx].
    + rewrite fn_lookup_alter. destruct (decide (q = p)) as [->|Hne].
      * intros _ _. simpl. rewrite Hpr. split_and!; auto; lia.
      * rewrite wake_view_ready_ne by done. intros Hl Hin.
        destruct (ok_ready _ _ Hk _ _ _ Hl Hin) as (_ & _ & [Hs|Hs] & _); congruence.
    + rewrite Htcb by done. destruct (decide (q = p)) as [->|Hne].
      * destruct (ok_queues _ _ Hk p Hp) as [ts' Hts']. erewrite wake_view_ready by done.
        intros [= <-]. rewrite elem_of_app, list_elem_of_singleton. intros [Hin|?]; [|done].
        by apply (ok_ready _ _ Hk _ _ _ Hts').
      * rewrite wake_view_ready_ne by done. by apply (ok_ready k).
  - intros ts x. erewrite wake_view_delay by done. intros [= <-]. rewrite elem_of_drop.
    intros [Hx Hin]. destruct (ok_delayed _ _ Hk _ _ Hds Hin) as (?&?&?&Hw).
    unfold delayed_task. rsimpl. rewrite Htcb by done. split_and!; try done; [lia..|].
    intros l Hl. destruct (Hw l Hl) as (Hf & ws & Hws & Hxw). split; [done|].
    exists (drop t ws). rewrite elem_of_drop. by erewrite wake_view_wait.
  - intros l ts x Hf. destruct (V l) as [ws|] eqn:Hl.
    2: { unfold wake_view. by rewrite Hl. }
    erewrite wake_view_wait by done. intros [= <-]. rewrite elem_of_drop. intros [Hx Hin].
    destruct (ok_waiting _ _ Hk _ _ _ Hf Hl Hin) as (?&?&?&Hd).
    unfold waiting_task. rsimpl. rewrite Htcb by done. split_and!; try done; [lia..|].
    destruct Hd as [?|(ds' & Hds' & Hxd)]; [by left|right]. exists (drop t ds').
    rewrite elem_of_drop. by erewrite wake_view_delay.
Qed.

(** Decrementing a delay that does not expire. *)
Lemma kernel_ok_delay_dec k V t ds :
  kernel_ok k V -> V LDelay = Some ds -> t ∈ ds -> 1 < delay_ticks (tcbs k t) ->
  kernel_ok (k <| tcbs ::= alter (set delay_ticks (fun d => d - 1)) t |>) V.
Proof.
  intros Hk Hds Ht Hd. set (f := set delay_ticks (fun d => d - 1)).
  assert (Hf : forall x, state (alter f t (tcbs k) x) = state (tcbs k x) /\
    priority (alter f t (tcbs k) x) = priority (tcbs k x) /\
    wait_list (alter f t (tcbs k) x) = wait_list (tcbs k x)).
  { intros x. destruct (decide (t = x)) as [<-|Hne]; [by rewrite fn_lookup_alter|].
    by rewrite fn_lookup_alter_ne. }
  destruct (ok_delayed _ _ Hk _ _ Hds Ht) as (_&_&Hrange&_).
  destruct Hk as [Hl Hb Hq Hdl Hr Hs Hrd Hdd Hw]. split; rsimpl; try done.
  - intros p ts x Hp Hx. unfold ready_task. rsimpl.
    destruct (Hf x) as (-> & -> & ->). destruct (Hrd p ts x Hp Hx) as (?&?&?&?&Hz).
    split_and!; try done; try lia. destruct (decide (t = x)) as [<-|Hne]; [lia|].
    by rewrite fn_lookup_alter_ne.
  - intros ts x Hts Hx. unfold delayed_task. rsimpl. destruct (Hf x) as (-> & -> & ->).
    destruct (Hdd _ _ Hts Hx) as (?&?&Hrx&?). split_and!; try done; try lia;
      (destruct (decide (t = x)) as [<-|Hne]; [rewrite fn_lookup_alter; simpl; lia|]);
      rewrite fn_lookup_alter_ne by done; lia.
  - intros l ts x Hfl Hts Hx. unfold waiting_task. rsimpl. destruct (Hf x) as (-> & -> & ->).
    destruct (Hw _ _ _ Hfl Hts Hx) as (?&?&?&[Hz|Hin]); split_and!; try done; try lia; [|by right].
    left. destruct (decide (t = x)) as [<-|Hne]; [lia|]. by rewrite fn_lookup_alter_ne.
Qed.

(** The last step of waking a task: [add_ready], once it has left the other lists. *)
Lemma wp_add_ready_wake P k k1 V V1 t f h ds rs (Q : SertosStatus -> Kernel -> Prop) :
  k1 = k <| heap := h |> <| tcbs ::= alter f t |> ->
  kernel_ok k V -> state (tcbs k t) = SERTOS_TASK_STATE_BLOCKED ->
  0 <= priority (tcbs k t) < MAXP ->
  V (LReady (priority (tcbs k t))) = Some rs -> V LDelay = Some ds ->
  lists_ok h V1 -> V1 LDelay = Some (drop t ds) ->
  (forall q, V1 (LReady q) = V (LReady q)) ->
  (forall l, link_of l = FEvent -> V1 l = drop t <$> V l) ->
  (forall l, link_of l <> FEvent -> link_of l <> FState -> V1 l = V l) ->
  V1 LSuspended = V LSuspended ->
  priority (f (tcbs k t)) = priority (tcbs k t) ->
  (f (tcbs k t)) <| state := SERTOS_TASK_STATE_READY |> = wake_tcb (tcbs k t) ->
  (forall h b,
      let V' := wake_view t (priority (tcbs k t)) V in
      let k' := k <| heap := h |> <| s_ready_bitmap := b |> <| tcbs ::= alter wake_tcb t |> in
      kernel_ok k' V' -> Q SERTOS_STATUS_OK k') ->
  wp P (sertos_scheduler_add_ready (Some t)) k1 Q.
Proof.
  intros -> Hk Hst Hp Hrs Hds Hh Hd1 Hr1 He1 Ho1 Hs1 Hpf Hf HQ.
  pose proof (wake_view_updates V V1 t _ rs ds Hrs Hds Hd1 Hr1 He1 Ho1 Hs1) as Heq.
  apply (wp_add_ready _ _ V1 _ (priority (tcbs k t)) rs); rsimpl.
  - done.
  - destruct (ok_bits _ _ Hk) as [Hbs Hb]. split; [done|]. intros q tq Hq. rewrite Hr1. by apply Hb.
  - by rewrite fn_lookup_alter.
  - done.
  - by rewrite Hr1.
  - intros l ts Hl Hfl Hin. destruct l; try done.
    + rewrite Hr1 in Hl. destruct (ok_ready _ _ Hk _ _ _ Hl Hin) as (_&_&[?|?]&_); congruence.
    + rewrite Hd1 in Hl. simplify_eq. by apply elem_of_drop in Hin as [? _].
    + rewrite Hs1, (ok_suspended _ _ Hk) in Hl. simplify_eq. by apply not_elem_of_nil in Hin.
  - intros h2 b2 Hh2 Hb2. rewrite Heq in Hh2, Hb2.
    pose proof (kernel_ok_wake _ _ _ _ _ _ Hk Hst eq_refl Hp Hh2 Hb2) as Hk'.
    apply HQ in Hk'. revert Hk'. match goal with |- Q _ ?a -> Q _ ?b => enough (a = b) as ->; [done|] end.
    transitivity (k <| heap := h2 |> <| s_ready_bitmap := b2 |> <| tcbs ::= fun m =>
      alter (set state (fun _ => SERTOS_TASK_STATE_READY)) t (alter f t m) |>); [|done].
    apply set_tcbs_ext. rsimpl. rewrite alter_alter. apply alter_ext_at. by rewrite Hf.
Qed.

Lemma kernel_ok_wake_head k V l t ts :
  kernel_ok k V -> link_of l = FEvent -> V l = Some (t :: ts) ->
  state (tcbs k t) = SERTOS_TASK_STATE_BLOCKED /\ 0 <= priority (tcbs k t) < MAXP /\
  exists ds rs, V LDelay = Some ds /\ V (LReady (priority (tcbs k t))) = Some rs /\
    (delay_ticks (tcbs k t) = 0 /\ t ∉ ds \/ 0 < delay_ticks (tcbs k t) /\ t ∈ ds).
Proof.
  intros Hk Hf Hl. destruct (ok_waiting _ _ Hk _ _ t Hf Hl) as (Hst&Hp&Hw&Hd); [by left|].
  destruct (ok_delay_list _ _ Hk) as [ds Hds]. destruct (ok_queues _ _ Hk _ Hp) as [rs Hrs].
  split_and!; [done|lia|lia|]. exists ds, rs. split_and!; [done|done|].
  destruct (decide (t ∈ ds)) as [Hin|Hni].
  - right. destruct (ok_delayed _ _ Hk _ _ Hds Hin) as (_&_&?&_). split; [lia|done].
  - left. split; [|done]. destruct Hd as [?|(?&?&?)]; [done|]. by simplify_eq.
Qed.

(** The two ways a view changes when a waiting task leaves its wait list. *)
Lemma wait_list_left k V l t ts l' :
  kernel_ok k V -> link_of l = FEvent -> V l = Some (t :: ts) -> link_of l' = FEvent ->
  (<[l := Some ts]> V) l' = drop t <$> V l'.
Proof.
  intros Hk Hf Hl Hf'. pose proof (lists_ok_nodup _ _ _ _ (ok_lists _ _ Hk) Hl) as Hnd.
  destruct (decide (l = l')) as [<-|Hne].
  - rewrite fn_lookup_insert, Hl. simpl. f_equal. symmetry. by apply (drop_mid t [] ts).
  - rewrite fn_lookup_insert_ne by done. destruct (V l') as [ws|] eqn:Hws; [|done]. simpl.
    f_equal. symmetry. apply drop_notin. intros Hin.
    pose proof (blocked_waits _ _ _ _ _ Hk Hf' Hws Hin).
    assert (Hx : t ∈ t :: ts) by by left.
    pose proof (blocked_waits _ _ _ _ _ Hk Hf Hl Hx). congruence.
Qed.

Lemma wp_unblock_highest P k V l ts (Q : ptr -> Kernel -> Prop) :
  kernel_ok k V -> link_of l = FEvent -> V l = Some ts ->
  match ts with
  | [] => Q None k
  | t :: _ => forall h b,
      let V' := wake_view t (priority (tcbs k t)) V in
      let k' := k <| heap := h |> <| s_ready_bitmap := b |> <| tcbs ::= alter wake_tcb t |> in
      kernel_ok k' V' -> Q (Some t) k'
  end ->
  wp P (sertos_scheduler_wait_list_unblock_highest (Some l)) k Q.
Proof.
  intros Hk Hf Hl HQ. unfold sertos_scheduler_wait_list_unblock_highest.
  pose proof (ok_lists _ _ Hk) as HV. ksteps. rewrite (peek_head_ok _ _ _ _ HV Hl).
  destruct ts as [|t ts]; cbn [head fmap option_fmap option_map]; [by ksteps|].
  destruct (kernel_ok_wake_head _ _ _ _ _ Hk Hf Hl) as (Hst & Hp & ds & rs & Hds & Hrs & Hd).
  rewrite Hf. cbn [container_of]. rewrite decide_True by done. ksteps.
  apply (wp_wait_list_remove _ _ V _ [] t ts); [done|done|done|]. intros h1 Hh1. ksteps.
  assert (Hne : forall l', link_of l' <> FEvent -> l <> l') by congruence.
  destruct Hd as [[Hd0 Hni]|[Hd Hin]].
  - rewrite (proj2 (Z.ltb_ge _ _)) by lia. ksteps.
    eapply (wp_add_ready_wake _ k _ V (<[l := Some ts]> V) t (set wait_list (fun _ => None)) h1 ds rs);
      [reflexivity|done|done|done|done|done|done| | | | | |done| |].
    + rewrite fn_lookup_insert_ne by (apply Hne; done). by rewrite drop_notin.
    + intros q. by rewrite fn_lookup_insert_ne by (apply Hne; done).
    + intros l' Hf'. by apply (wait_list_left k).
    + intros l' Hf' _. by rewrite fn_lookup_insert_ne by (apply Hne; done).
    + by rewrite fn_lookup_insert_ne by (apply Hne; done).
    + unfold wake_tcb. destruct (tcbs k t). simpl in *. by subst.
    + intros h b V' k' Hk'. ksteps. by apply HQ.
  - rewrite (proj2 (Z.ltb_lt _ _)) by lia. ksteps.
    apply list_elem_of_split in Hin as (ds1 & ds2 & ->).
    pose proof (lists_ok_nodup _ _ _ _ HV Hds) as Hnd.
    assert (Hds1 : (<[l := Some ts]> V) LDelay = Some (ds1 ++ t :: ds2))
      by by rewrite fn_lookup_insert_ne by (apply Hne; done).
    eapply (wp_add_ready_wake _ k _ V
      (<[LDelay := Some (ds1 ++ ds2)]> (<[l := Some ts]> V)) t
      (fun c => set wait_list (fun _ => None) (set delay_ticks (fun _ => 0) c))
      (linked_list_remove_direct LDelay (NLink FState t) h1) (ds1 ++ t :: ds2) rs);
      [ |done|done|done|done|done| | | | | | |done|done|].
    + etransitivity; [|apply (set_tcbs_ext (fun m => alter (set wait_list (fun _ => None)) t
        (alter (set delay_ticks (fun _ => 0)) t m)))]; [done|]. apply alter_alter.
    + by apply lists_ok_remove with (l := LDelay).
    + rewrite fn_lookup_insert. by rewrite drop_mid.
    + intros q. rewrite fn_lookup_insert_ne by done. by rewrite fn_lookup_insert_ne by (apply Hne; done).
    + intros l' Hf'. rewrite fn_lookup_insert_ne by (intros <-; done). by apply (wait_list_left k).
    + intros l' Hf' Hf''. rewrite fn_lookup_insert_ne by (intros <-; done).
      by rewrite fn_lookup_insert_ne by (apply Hne; done).
    + rewrite fn_lookup_insert_ne by done. by rewrite fn_lookup_insert_ne by (apply Hne; done).
    + intros h b V' k' Hk'. ksteps. by apply HQ.
Qed.
End spec.
