(* ===== verification/DelaySpec.v ===== *)
(** The delay list, one tick later: specification of [process_delayed_tasks], and of waking
    every waiter of a list. *)
From S2P Require Import Prelude Effects Types Platform LinkedLists Kernel Invariant SchedCore.
From S2P Require Import SchedCoreSpec.

(** The state in which only the list memory, the ready bitmap and the TCBs differ from [k]. *)
Definition resched `{PL : Platform} (k : Kernel) (h : ListHeap) (b : Bitmap)
    (f : (addr -> SertosTaskControlBlock) -> addr -> SertosTaskControlBlock) : Kernel :=
  k <| heap := h |> <| s_ready_bitmap := b |> <| tcbs ::= f |>.

Lemma resched_id `{PL : Platform} (k : Kernel) f : f (tcbs k) = tcbs k -> resched k (heap k) (s_ready_bitmap k) f = k.
Proof. unfold resched. intros Hf. destruct k. simpl in *. unfold set. simpl. by rewrite Hf. Qed.

Section spec.
Context `{PL : Platform} `{!PlatformLaws}.
Implicit Types (k : Kernel) (V : lview) (P : protocol Kernel) (t : addr) (ts : list addr).

(** ** One delayed task expires *)

Lemma delayed_facts k V t ds :
  kernel_ok k V -> V LDelay = Some ds -> t ∈ ds ->
  delayed_task k V t /\ exists rs, V (LReady (priority (tcbs k t))) = Some rs.
Proof.
  intros Hk Hds Hin. pose proof (ok_delayed _ _ Hk _ _ Hds Hin) as Hd. split; [done|].
  destruct Hd as (_ & Hp & _). by apply (ok_queues _ _ Hk).
Qed.

(** A delayed task that waits on nothing is in no wait list. *)
Lemma unlisted_drop k V t l :
  kernel_ok k V -> wait_list (tcbs k t) = None -> link_of l = FEvent -> V l = drop t <$> V l.
Proof.
  intros Hk Hw Hf. destruct (V l) as [ws|] eqn:Hl; [|done]. simpl. f_equal. symmetry.
  apply drop_notin. intros Hin. pose proof (blocked_waits _ _ _ _ _ Hk Hf Hl Hin). congruence.
Qed.

(** The wait list a task points to is the only one it is in. *)
Lemma listed_drop k V t l ws1 ws2 l' :
  kernel_ok k V -> wait_list (tcbs k t) = Some l -> link_of l = FEvent ->
  V l = Some (ws1 ++ t :: ws2) -> link_of l' = FEvent ->
  (<[l := Some (ws1 ++ ws2)]> V) l' = drop t <$> V l'.
Proof.
  intros Hk Hw Hf Hl Hf'. pose proof (lists_ok_nodup _ _ _ _ (ok_lists _ _ Hk) Hl) as Hnd.
  destruct (decide (l = l')) as [<-|Hne].
  - rewrite fn_lookup_insert, Hl. simpl. by rewrite drop_mid.
  - rewrite fn_lookup_insert_ne by done. destruct (V l') as [ws|] eqn:Hws; [|done]. simpl.
    f_equal. symmetry. apply drop_notin. intros Hin.
    pose proof (blocked_waits _ _ _ _ _ Hk Hf' Hws Hin). congruence.
Qed.

(** The rest of an iteration of [process_delayed_tasks] on an expired task, going on with [m]. *)
Definition expire_task {B} (t : addr) (m : M Kernel B) : M Kernel B :=
  upd_heap (linked_list_remove_direct LDelay (NLink FState t));;
  wl ← rd_tcb t wait_list;
  when (bool_decide (wl <> None)) (
    sertos_scheduler_wait_list_remove wl (Some t);;
    upd_tcb t (set wait_list (fun _ => None)));;
  sertos_scheduler_add_ready (Some t);;
  m.

Lemma wp_expire_task {B} P k V t ds1 ds2 f (m : M Kernel B) (Q : B -> Kernel -> Prop) :
  kernel_ok k V -> V LDelay = Some (ds1 ++ t :: ds2) ->
  f = set delay_ticks (fun _ => 0) ->
  (forall h b, let k' := resched k h b (alter wake_tcb t) in
     kernel_ok k' (wake_view t (priority (tcbs k t)) V) -> wp P m k' Q) ->
  wp P (expire_task t m) (k <| tcbs ::= alter f t |>) Q.
Proof.
  intros Hk Hds -> HQ. pose proof (ok_lists _ _ Hk) as HV.
  destruct (delayed_facts k V t _ Hk Hds) as [(Hst & Hp & Hd & Hwl) [rs Hrs]]; [set_solver|].
  pose proof (lists_ok_nodup _ _ _ _ HV Hds) as Hnd.
  pose proof (lists_ok_remove _ _ _ _ _ _ HV Hds) as HV1. cbn [link_of] in HV1.
  unfold expire_task. ksteps. rewrite fn_lookup_alter. rsimpl.
  destruct (wait_list (tcbs k t)) as [l|] eqn:Hw.
  - destruct (Hwl l eq_refl) as (Hf & ws & Hws & Hin).
    apply list_elem_of_split in Hin as (ws1 & ws2 & ->).
    assert (Hnd' : LDelay <> l) by ne_lists.
    rewrite bool_decide_true by done. ksteps.
    apply (wp_wait_list_remove _ _ (<[LDelay := Some (ds1 ++ ds2)]> V) _ ws1 t ws2); [done|done| |].
    { by rewrite fn_lookup_insert_ne. }
    intros h1 Hh1. ksteps.
    eapply (wp_add_ready_wake _ k _ V
      (<[l := Some (ws1 ++ ws2)]> (<[LDelay := Some (ds1 ++ ds2)]> V)) t
      (fun c => set wait_list (fun _ => None) (set delay_ticks (fun _ => 0) c)) h1 _ rs);
      [ |done|done|done|done|exact Hds|exact Hh1| | | | | |done|done|].
    + etransitivity; [|apply (set_tcbs_ext (fun m => alter (set wait_list (fun _ => None)) t
        (alter (set delay_ticks (fun _ => 0)) t m)))]; [done|]. apply alter_alter.
    + rewrite fn_lookup_insert_ne by done. rewrite fn_lookup_insert. by rewrite drop_mid.
    + intros q. by rewrite !fn_lookup_insert_ne by ne_lists.
    + intros l' Hf'. rewrite <-(listed_drop k V t l ws1 ws2 l') by done.
      destruct (decide (l = l')) as [<-|]; [by rewrite !fn_lookup_insert|].
      by rewrite !fn_lookup_insert_ne by ne_lists.
    + intros l' Hf' Hf''. by rewrite !fn_lookup_insert_ne by ne_lists.
    + by rewrite !fn_lookup_insert_ne by ne_lists.
    + intros h b V' k' Hk'. ksteps. by apply HQ.
  - rewrite bool_decide_false by auto. ksteps.
    eapply (wp_add_ready_wake _ k _ V (<[LDelay := Some (ds1 ++ ds2)]> V) t
      (set delay_ticks (fun _ => 0)) _ _ rs);
      [reflexivity|done|done|done|done|exact Hds|exact HV1| | | | | |done| |].
    + rewrite fn_lookup_insert. by rewrite drop_mid.
    + intros q. by rewrite fn_lookup_insert_ne.
    + intros l' Hf'. rewrite fn_lookup_insert_ne by ne_lists. by apply (unlisted_drop k).
    + intros l' Hf' Hf''. by rewrite fn_lookup_insert_ne by ne_lists.
    + by rewrite fn_lookup_insert_ne.
    + unfold wake_tcb. destruct (tcbs k t). simpl in *. by subst.
    + intros h b V' k' Hk'. ksteps. by apply HQ.
Qed.

(** ** The whole list *)

Lemma tick_view_ext e e' pr pr' ds V :
  (forall t, t ∈ ds -> e t = e' t /\ pr t = pr' t) -> tick_view e pr ds V = tick_view e' pr' ds V.
Proof.
  unfold tick_view. revert V. induction ds as [|t ds IH]; intros V Hext; simpl; [done|].
  destruct (Hext t) as [-> ->]; [set_solver|]. apply IH. set_solver.
Qed.

Lemma tick_view_cons e pr t ds V :
  tick_view e pr (t :: ds) V = tick_view e pr ds (if e t then wake_view t (pr t) V else V).
Proof. done. Qed.

Definition tick_tcbs (ds : list addr) (m : addr -> SertosTaskControlBlock) :=
  foldl (fun m t => alter tick_tcb t m) m ds.

Lemma tick_step_expire k V t ds h b :
  expires k t = true -> t ∉ ds ->
  let k1 := resched k h b (alter wake_tcb t) in
  forall h' b', resched k1 h' b' (tick_tcbs ds) = resched k h' b' (tick_tcbs (t :: ds)) /\
  tick_view (expires k1) (fun x => priority (tcbs k1 x)) ds (wake_view t (priority (tcbs k t)) V) =
  tick_view (expires k) (fun x => priority (tcbs k x)) (t :: ds) V /\
  existsb (expires k) (t :: ds) = true.
Proof.
  intros He Ht k1 h' b'. split_and!.
  - transitivity (k <| heap := h' |> <| s_ready_bitmap := b' |>
      <| tcbs ::= fun m => tick_tcbs ds (alter wake_tcb t m) |>); [done|].
    apply set_tcbs_ext. unfold tick_tcbs. cbn [foldl]. f_equal. apply alter_ext_at. unfold tick_tcb. rsimpl. unfold expires in He. by rewrite He.
  - rewrite tick_view_cons, He. apply tick_view_ext.
    intros x Hx. unfold expires, k1, resched. rsimpl.
    rewrite !fn_lookup_alter_ne by set_solver. done.
  - simpl. by rewrite He.
Qed.

Lemma tick_step_wait k V t ds :
  expires k t = false -> t ∉ ds ->
  let k1 := k <| tcbs ::= alter (set delay_ticks (fun d => d - 1)) t |> in
  forall h b, resched k1 h b (tick_tcbs ds) = resched k h b (tick_tcbs (t :: ds)) /\
  tick_view (expires k1) (fun x => priority (tcbs k1 x)) ds V =
  tick_view (expires k) (fun x => priority (tcbs k x)) (t :: ds) V /\
  existsb (expires k) (t :: ds) = existsb (expires k1) ds.
Proof.
  intros He Ht k1 h b.
  assert (Hx : forall x, x ∈ ds -> expires k x = expires k1 x /\
    priority (tcbs k x) = priority (tcbs k1 x)).
  { intros x Hx. unfold expires, k1. rsimpl. by rewrite !fn_lookup_alter_ne by set_solver. }
  split_and!.
  - transitivity (k <| heap := h |> <| s_ready_bitmap := b |> <| tcbs ::= fun m =>
      tick_tcbs ds (alter (set delay_ticks (fun d => d - 1)) t m) |>); [done|].
    apply set_tcbs_ext. unfold tick_tcbs. cbn [foldl]. f_equal. apply alter_ext_at. unfold tick_tcb.
    unfold expires in He. rsimpl. by rewrite He.
  - rewrite tick_view_cons, He. symmetry. by apply tick_view_ext.
  - simpl. rewrite He. simpl. clear Ht. induction ds as [|x ds IH]; [done|]. simpl.
    destruct (Hx x) as [<- _]; [set_solver|]. f_equal. apply IH. set_solver.
Qed.

Lemma wp_process_delayed_loop P fuel ds k V kept b (Q : bool -> Kernel -> Prop) :
  kernel_ok k V -> V LDelay = Some (kept ++ ds) -> (length ds <= fuel)%nat ->
  (forall h bm, let k' := resched k h bm (tick_tcbs ds) in
     kernel_ok k' (tick_view (expires k) (fun t => priority (tcbs k t)) ds V) ->
     Q (b || existsb (expires k) ds) k') ->
  wp P (process_delayed_loop fuel (NLink FState <$> head ds) b) k Q.
Proof.
  revert fuel k V kept b. induction ds as [|t ds IH]; intros fuel k V kept b Hk Hds Hf HQ.
  - specialize (HQ (heap k) (s_ready_bitmap k)). cbn zeta in HQ.
    rewrite resched_id in HQ by done. cbn [existsb] in HQ. rewrite orb_false_r in HQ.
    destruct fuel; simpl; wp_steps; by apply HQ.
  - destruct fuel as [|fuel]; simpl in Hf; [lia|]. cbn [process_delayed_loop head fmap option_fmap option_map].
    pose proof (ok_lists _ _ Hk) as HV. pose proof (lists_ok_nodup _ _ _ _ HV Hds) as Hnd.
    assert (Ht : t ∉ ds) by (apply NoDup_app in Hnd as (_&_&Hnd); by apply NoDup_cons in Hnd as [? _]).
    destruct (delayed_facts k V t _ Hk Hds) as [(Hst & Hp & Hd & Hwl) _]; [set_solver|].
    pose proof (member_next _ _ _ _ _ _ HV Hds) as Hn. cbn [link_of] in Hn.
    ksteps. rewrite Hn, (decide_next_of LDelay ds). cbn [container_of link_of]. rewrite decide_True by done.
    ksteps. rewrite (proj2 (Z.ltb_lt _ _)) by lia. ksteps. rewrite fn_lookup_alter. rsimpl.
    destruct (expires k t) eqn:He; pose proof He as He'; unfold expires in He'.
    + assert (delay_ticks (tcbs k t) = 1) as Hd1 by lia.
      replace (delay_ticks (tcbs k t) - 1) with 0 by lia. cbn [Z.eqb].
      replace (k <| tcbs ::= alter (set delay_ticks (fun d => d - 1)) t |>)
        with (k <| tcbs ::= alter (set delay_ticks (fun _ => 0)) t |>).
      2: { apply set_tcbs_ext, alter_ext_at. unfold set. rewrite Hd1. done. }
      eapply (wp_expire_task _ k V t kept ds _ (process_delayed_loop fuel (NLink FState <$> head ds) true));
        [done|done|done|].
      intros h1 b1 k1 Hk1.
      apply (IH fuel k1 (wake_view t (priority (tcbs k t)) V) kept); [done| |lia|].
      { erewrite wake_view_delay by done. by rewrite drop_mid. }
      intros h2 b2 k2 Hk2. destruct (tick_step_expire k V t ds h1 b1 He Ht h2 b2) as (Hr & Hv & Hb).
      unfold k2, k1 in *. rewrite Hr, Hv in Hk2. rewrite Hr.
      apply HQ in Hk2. by rewrite Hb, orb_true_r in Hk2.
    + rewrite (proj2 (Z.eqb_neq _ _)) by lia.
      set (k1 := k <| tcbs ::= _ |>).
      apply (IH fuel k1 V (kept ++ [t])); [|by rewrite <-app_assoc|lia|].
      { eapply kernel_ok_delay_dec; [done|done|set_solver|lia]. }
      intros h2 b2 k2 Hk2. destruct (tick_step_wait k V t ds He Ht h2 b2) as (Hr & Hv & Hb).
      unfold k2, k1 in *. rewrite Hr, Hv in Hk2. rewrite Hr.
      apply HQ in Hk2. by rewrite Hb in Hk2.
Qed.

Lemma wp_process_delayed P k V ds (Q : bool -> Kernel -> Prop) :
  kernel_ok k V -> V LDelay = Some ds -> (length ds <= loop_fuel)%nat ->
  (forall h bm, let k' := resched k h bm (tick_tcbs ds) in
     kernel_ok k' (tick_view (expires k) (fun t => priority (tcbs k t)) ds V) ->
     Q (existsb (expires k) ds) k') ->
  wp P process_delayed_tasks k Q.
Proof.
  intros Hk Hds Hf HQ. unfold process_delayed_tasks. ksteps.
  rewrite (peek_head_ok _ _ _ _ (ok_lists _ _ Hk) Hds).
  by apply (wp_process_delayed_loop _ _ _ _ V []).
Qed.

(** ** The view after a tick, list by list *)

Section tick_view.
Context (e : addr -> bool) (pr : addr -> Z).

Lemma tick_view_ready ds V p rs :
  V (LReady p) = Some rs ->
  tick_view e pr ds V (LReady p) = Some (rs ++ filter (fun t => e t /\ pr t = p) ds).
Proof.
  revert V rs. induction ds as [|t ds IH]; intros V rs Hrs; [by rewrite app_nil_r|].
  rewrite tick_view_cons. destruct (e t) eqn:He.
  - destruct (decide (pr t = p)) as [<-|Hne].
    + rewrite (IH _ (rs ++ [t])) by by apply wake_view_ready.
      rewrite filter_cons_True by by rewrite He. by rewrite <-app_assoc.
    + rewrite (IH _ rs) by by rewrite wake_view_ready_ne by done.
      by rewrite filter_cons_False by naive_solver.
  - rewrite (IH _ rs) by done. by rewrite filter_cons_False by (rewrite He; naive_solver).
Qed.

Lemma tick_view_drop (P : listid -> Prop) :
  (forall V l us t p, P l -> V l = Some us -> wake_view t p V l = Some (drop t us)) ->
  forall l, P l -> forall ds V us, V l = Some us ->
  tick_view e pr ds V l = Some (filter (fun t => ~ (t ∈ ds /\ e t)) us).
Proof.
  intros Hw l Hl ds. induction ds as [|t ds IH]; intros V us Hus.
  - rewrite filter_id; [done|]. intros x _ [? _]. set_solver.
  - rewrite tick_view_cons. destruct (e t) eqn:He.
    + rewrite (IH _ (drop t us)) by by apply Hw. f_equal. unfold drop.
      rewrite list_filter_filter. apply filter_ext_in. intros x _.
      destruct (decide (x = t)) as [->|Hne]; [rewrite He; set_solver|set_solver].
    + rewrite (IH _ us) by done. f_equal. apply filter_ext_in. intros x _.
      destruct (decide (x = t)) as [->|Hne]; [rewrite He; naive_solver|set_solver].
Qed.

Lemma tick_view_delay ds V :
  V LDelay = Some ds -> tick_view e pr ds V LDelay = Some (filter (fun t => ~ e t) ds).
Proof.
  intros Hds. erewrite (tick_view_drop (fun l => l = LDelay)); [|by intros; subst; apply wake_view_delay|done|done].
  f_equal. apply filter_ext_in. naive_solver.
Qed.

Lemma tick_view_wait ds V l ws :
  link_of l = FEvent -> V l = Some ws ->
  tick_view e pr ds V l = Some (filter (fun t => ~ (t ∈ ds /\ e t)) ws).
Proof.
  intros Hf Hws. apply (tick_view_drop (fun l => link_of l = FEvent)); [|done|done].
  intros. by apply wake_view_wait.
Qed.
End tick_view.

Lemma tick_tcbs_in ds m t : NoDup ds -> t ∈ ds -> tick_tcbs ds m t = tick_tcb (m t).
Proof. apply foldl_alter_in. Qed.
Lemma tick_tcbs_notin ds m t : t ∉ ds -> tick_tcbs ds m t = m t.
Proof. apply foldl_alter_notin. Qed.

(** ** Waking every waiter of a list *)

Definition wake_tcbs (ts : list addr) (m : addr -> SertosTaskControlBlock) :=
  foldl (fun m t => alter wake_tcb t m) m ts.
Definition wake_all_view (pr : addr -> Z) (ts : list addr) (V : lview) : lview :=
  tick_view (fun _ => true) pr ts V.

Lemma wp_unblock_all P fuel k V l ts (Q : unit -> Kernel -> Prop) :
  kernel_ok k V -> link_of l = FEvent -> V l = Some ts -> (length ts < fuel)%nat ->
  (forall h b, let k' := resched k h b (wake_tcbs ts) in
     kernel_ok k' (wake_all_view (fun t => priority (tcbs k t)) ts V) -> Q tt k') ->
  wp P (unblock_all fuel l) k Q.
Proof.
  intros Hk Hf. revert fuel k V Hk Q. induction ts as [|t ts IH]; intros fuel k V Hk Q Hl Hfuel HQ.
  - destruct fuel as [|fuel]; [simpl in Hfuel; lia|]. cbn [unblock_all]. wp_steps.
    apply (wp_unblock_highest _ _ V _ []); [done|done|done|]. wp_steps.
    specialize (HQ (heap k) (s_ready_bitmap k)). cbn zeta in HQ. rewrite resched_id in HQ by done.
    by apply HQ.
  - destruct fuel as [|fuel]; [simpl in Hfuel; lia|]. cbn [unblock_all]. wp_steps.
    pose proof (lists_ok_nodup _ _ _ _ (ok_lists _ _ Hk) Hl) as Hnd.
    apply (wp_unblock_highest _ _ V _ (t :: ts)); [done|done|done|]. intros h b V1 k1 Hk1. wp_steps.
    assert (Hext : forall x, x ∈ ts -> priority (tcbs k1 x) = priority (tcbs k x)).
    { intros x Hx. apply NoDup_cons in Hnd as [? _]. unfold k1. rsimpl.
      by rewrite fn_lookup_alter_ne by set_solver. }
    apply (IH fuel k1 V1); [done| |simpl in Hfuel; lia|].
    { unfold V1. erewrite wake_view_wait by done. f_equal. by apply (drop_mid t [] ts). }
    intros h2 b2 k2 Hk2.
    assert (Hr : k2 = resched k h2 b2 (wake_tcbs (t :: ts))) by done.
    assert (Hv : wake_all_view (fun x => priority (tcbs k1 x)) ts V1 =
      wake_all_view (fun x => priority (tcbs k x)) (t :: ts) V).
    { unfold wake_all_view. rewrite tick_view_cons. apply tick_view_ext. intros x Hx. split; [done|by apply Hext]. }
    rewrite Hv, Hr in Hk2. rewrite Hr. by apply HQ.
Qed.
End spec.
