(* ===== verification/TaskInfo.v ===== *)
(** Reading a task: the accessors of src/sertos_task.c that change nothing. *)
From S2P Require Import Prelude Effects Types Platform LinkedLists Kernel.

Section task_info.
Context `{PL : Platform}.

(** [handle == NULL || handle->magic != SERTOS_TASK_MAGIC_WORD], negated. *)
Definition task_magic_ok (k : Kernel) (t : addr) : bool := magic (tcbs k t) =? SERTOS_TASK_MAGIC_WORD.

Definition sertos_task_get_state (handle : ptr) : M Kernel SertosTaskState :=
  match handle with
  | None => mret SERTOS_TASK_STATE_TERMINATED
  | Some t =>
      ok ← gets (fun k => task_magic_ok k t);
      if (ok : bool) then rd_tcb t state else mret SERTOS_TASK_STATE_TERMINATED
  end.

Definition sertos_task_get_current : M Kernel ptr := gets sertos_current_tcb.

Definition sertos_task_get_name (handle : ptr) : M Kernel string :=
  match handle with
  | None => mret "Unknown"%string
  | Some t =>
      ok ← gets (fun k => task_magic_ok k t);
      if (ok : bool) then nm ← rd_tcb t name; mret (default "Unknown"%string nm)
      else mret "Unknown"%string
  end.

Definition sertos_task_get_priority (handle : ptr) : M Kernel Z :=
  match handle with
  | None => mret 0
  | Some t =>
      ok ← gets (fun k => task_magic_ok k t);
      if (ok : bool) then rd_tcb t priority else mret 0
  end.

(** The [while] of [get_stack_high_water_mark]: [n] bytes are left of [handle->stack_size]. *)
Fixpoint painted_bytes (m : Mem) (byte_ptr : addr) (n : nat) : Z :=
  match n with
  | O => 0
  | S n =>
      if m byte_ptr =? SERTOS_TASK_STACK_FILL_BYTE then 1 + painted_bytes m (byte_ptr + 1) n
      else 0
  end.

Definition sertos_task_get_stack_high_water_mark (handle : ptr) : M Kernel Z :=
  match handle with
  | None => mret 0
  | Some t =>
      ok ← gets (fun k => task_magic_ok k t);
      if (ok : bool) then
        base ← rd_tcb t stack_base;
        size ← rd_tcb t stack_size;
        gets (fun k => painted_bytes (mem k) (uintptr base) (Z.to_nat size))
      else mret 0
  end.

(** The members of a TCB before [magic]; the two list nodes are in the list memory, and the
    pointer [name] is stood for by the string at it. *)
Record TcbPrefix : Type := mkTcbPrefix {
  pre_stack : ptr * ptr * Z * ptr;
  pre_sched : SertosTaskState * Z * Z * Z;
  pre_entry : ptr * ptr * option string;
  pre_nodes : LinkedListNode * LinkedListNode;
  pre_wait_list : option listid;
  pre_static : bool }.

Definition fields_before_magic (k : Kernel) (t : addr) : TcbPrefix :=
  let tcb := tcbs k t in
  mkTcbPrefix (stack_ptr tcb, stack_base tcb, stack_size tcb, stack_limit tcb)
    (state tcb, priority tcb, base_priority tcb, delay_ticks tcb)
    (entry_func tcb, param tcb, name tcb)
    (cells (heap k) (NLink FState t), cells (heap k) (NLink FEvent t))
    (wait_list tcb) (is_statically_allocated tcb).

(** [crc_32_calculate] is modules/crc; [object_bytes] is how the compiler lays out the
    members before [offsetof(SertosTaskControlBlock, magic)]. *)
Section crc.
Context (crc_32_calculate : list Z -> Z) (object_bytes : TcbPrefix -> list Z).

Definition sertos_task_compute_crc (tcb : ptr) : M Kernel Z :=
  match tcb with
  | None => mret 0
  | Some t => gets (fun k => crc_32_calculate (object_bytes (fields_before_magic k t)))
  end.
End crc.

End task_info.
