(* ===== verification/Stats.v ===== *)
(** Runtime statistics (src/sertos_stats.c). *)
From S2P Require Import Prelude Effects Types Platform LinkedLists Kernel SchedCore TaskInfo.

Section stats.
Context `{PL : Platform}.

(** The context of [sum_visitor]. *)
Record StatsSumContext : Type := mkSum { sum_total : Z; sum_count : Z }.
#[export] Instance Sum_eta : Eta StatsSumContext := fun s => mkSum (sum_total s) (sum_count s).

(** The context of [fill_visitor]; [arr] holds the [written] records. *)
Record StatsFillContext : Type := mkFill {
  fill_arr : list SertosTaskStats;
  fill_capacity : Z;
  fill_written : Z;
  fill_total : Z }.
#[export] Instance Fill_eta : Eta StatsFillContext := fun s =>
  mkFill (fill_arr s) (fill_capacity s) (fill_written s) (fill_total s).

Definition compute_percent_x100 (part total : Z) : Z :=
  if total =? 0 then 0 else u32 (u64 (part * 10000) / total).

Definition reset_visitor (t : addr) (now : Z) : M Kernel Z :=
  upd_tcb t (set run_time_total (fun _ => 0));;
  upd_tcb t (set run_time_last_entry (fun _ => now));;
  upd_tcb t (set switch_in_count (fun _ => 0));;
  mret now.

Definition sum_visitor (t : addr) (ctx : StatsSumContext) : M Kernel StatsSumContext :=
  rt ← rd_tcb t run_time_total;
  mret (ctx <| sum_total ::= fun s => u64 (s + rt) |> <| sum_count ::= fun c => u32 (c + 1) |>).

Definition fill_visitor (t : addr) (ctx : StatsFillContext) : M Kernel StatsFillContext :=
  rt ← rd_tcb t run_time_total;
  let ctx := ctx <| fill_total ::= fun s => u64 (s + rt) |> in
  if fill_written ctx <? fill_capacity ctx then
    tcb ← gets (fun k => tcbs k t);
    hw ← sertos_task_get_stack_high_water_mark (Some t);
    let rec := {| ts_name := name tcb; ts_priority := priority tcb; ts_state := state tcb;
                  ts_run_time := run_time_total tcb; ts_cpu_percent_x100 := 0;
                  ts_switch_in_count := switch_in_count tcb; ts_stack_high_water := hw |} in
    mret (ctx <| fill_arr ::= fun l => l ++ [rec] |> <| fill_written ::= fun w => w + 1 |>)
  else mret ctx.

Definition sertos_stats_set_enabled (enabled : bool) : M Kernel unit :=
  modify (set s_stats_enabled (fun _ => enabled)).
Definition sertos_stats_is_enabled : M Kernel bool := gets s_stats_enabled.

(** [sertos_scheduler_get_tick_count] (src/sertos_scheduler.c). *)
Definition sertos_scheduler_get_tick_count : M Kernel Z :=
  gets (fun k => u32 (atomic_load_acquire (s_system_ticks k))).

(** The run-time counter of a port may be derived from the tick count. *)
Definition runtime_counter : M Kernel Z :=
  ticks ← sertos_scheduler_get_tick_count;
  sertos_port_runtime_counter ticks.

Definition sertos_stats_on_switch (prev next : ptr) : M Kernel unit :=
  enabled ← gets s_stats_enabled;
  if negb enabled then mret tt
  else
    now ← runtime_counter;
    match prev with
    | Some p =>
        last ← rd_tcb p run_time_last_entry;
        let delta := u32 (now - last) in
        upd_tcb p (set run_time_total (fun r => u64 (r + delta)))
    | None => mret tt
    end;;
    match next with
    | Some n =>
        upd_tcb n (set run_time_last_entry (fun _ => now));;
        when (bool_decide (prev <> next)) (
          upd_tcb n (set switch_in_count (fun c => u32 (c + 1)));;
          modify (set s_total_switches (fun c => u32 (c + 1))))
    | None => mret tt
    end.

Definition sertos_stats_reset : M Kernel unit :=
  now ← runtime_counter;
  sertos_scheduler_visit_all_tasks (Some reset_visitor) now;;
  modify (set s_total_switches (fun _ => 0)).

(** What is stored through the out-parameter is part of the result; [out] says that the
    pointer is not NULL. *)
Definition system_stats_zero : SertosSystemStats := mkSystemStats 0 0 0 0 0 0.
Definition task_stats_zero : SertosTaskStats := mkTaskStats None 0 SERTOS_TASK_STATE_READY 0 0 0 0.

Definition sertos_stats_get_system (out : bool) : M Kernel (SertosStatus * option SertosSystemStats) :=
  if negb out then mret (SERTOS_STATUS_ERROR_NULL_PTR, None)
  else
    enabled ← gets s_stats_enabled;
    if negb enabled then mret (SERTOS_STATUS_ERROR_NOT_INITIALIZED, Some system_stats_zero)
    else
      sum ← sertos_scheduler_visit_all_tasks (Some sum_visitor) (mkSum 0 0);
      idle ← unless_none sertos_scheduler_get_idle_tcb;
      rt ← rd_tcb idle run_time_total;
      sw ← gets s_total_switches;
      ticks ← sertos_scheduler_get_tick_count;
      mret (SERTOS_STATUS_OK, Some (mkSystemStats (sum_total sum) rt
        (compute_percent_x100 rt (sum_total sum)) sw ticks (sum_count sum))).

(** The records written to [out_array], in order; their number is the C result. *)
Definition sertos_stats_get_tasks (out_array : bool) (capacity : Z) :
    M Kernel (Z * list SertosTaskStats) :=
  enabled ← gets s_stats_enabled;
  if negb out_array || (capacity =? 0) || negb enabled then mret (0, [])
  else
    fill ← sertos_scheduler_visit_all_tasks (Some fill_visitor) (mkFill [] capacity 0 0);
    mret (fill_written fill,
      (fun r => r <| ts_cpu_percent_x100 := compute_percent_x100 (ts_run_time r) (fill_total fill) |>)
        <$> fill_arr fill).

Definition sertos_stats_get_task (handle : ptr) (out : bool) :
    M Kernel (SertosStatus * option SertosTaskStats) :=
  match handle with
  | None => mret (SERTOS_STATUS_ERROR_NULL_PTR, None)
  | Some t =>
      if negb out then mret (SERTOS_STATUS_ERROR_NULL_PTR, None)
      else
        enabled ← gets s_stats_enabled;
        if negb enabled then mret (SERTOS_STATUS_ERROR_NOT_INITIALIZED, Some task_stats_zero)
        else
          r ← sertos_stats_get_system true;
          match r with
          | (SERTOS_STATUS_OK, Some sys) =>
              tcb ← gets (fun k => tcbs k t);
              hw ← sertos_task_get_stack_high_water_mark (Some t);
              mret (SERTOS_STATUS_OK, Some {|
                ts_name := name tcb; ts_priority := priority tcb; ts_state := state tcb;
                ts_run_time := run_time_total tcb;
                ts_cpu_percent_x100 := compute_percent_x100 (run_time_total tcb) (ss_total_run_time sys);
                ts_switch_in_count := switch_in_count tcb; ts_stack_high_water := hw |})
          | (status, _) => mret (status, None)
          end
  end.

Definition sertos_stats_get_cpu_load_x100 : M Kernel Z :=
  r ← sertos_stats_get_system true;
  match r with
  | (SERTOS_STATUS_OK, Some sys) => mret (u32 (10000 - ss_idle_percent_x100 sys))
  | _ => mret 0
  end.

End stats.
