(* ===== verification/Timer.v ===== *)
(** Software timers (src/sertos_timer.c). *)
From S2P Require Import Prelude Effects Types Platform LinkedLists Kernel SchedCore.

Section timer.
Context `{PL : Platform} `{!Callbacks}.

Definition timer_magic_ok (k : Kernel) (t : addr) : bool := tm_magic (timers k t) =? SERTOS_TIMER_MAGIC_WORD.

Definition sertos_timer_init : M Kernel unit :=
  upd_heap (linked_list_init LTimers);;
  modify (set s_timer_subsystem_initialized (fun _ => true)).

(** The handle stored through [out_handle] is part of the result. *)
Definition sertos_timer_create_static (config : option SertosTimerConfig) (timer : ptr)
    (out_handle : bool) : M Kernel (SertosStatus * ptr) :=
  match config, timer, out_handle with
  | Some config, Some t, true =>
      if (tcfg_period config =? 0) || is_null (tcfg_callback config) then
        mret (SERTOS_STATUS_ERROR_INVALID_PARAM, None)
      else
        initialized ← gets s_timer_subsystem_initialized;
        when (negb initialized) sertos_timer_init;;
        upd_timer t (fun _ => {|
          tm_name := Some (default "Timer"%string (tcfg_name config));
          tm_period_ticks := tcfg_period config;
          tm_remaining_ticks := tcfg_period config;
          tm_is_periodic := tcfg_is_periodic config;
          tm_is_active := false;
          tm_callback := tcfg_callback config;
          tm_param := tcfg_param config;
          tm_is_static := true;
          tm_magic := SERTOS_TIMER_MAGIC_WORD |});;
        upd_heap (fun h => set_next (NLink FTimer t) None h);;
        upd_heap (fun h => set_prev (NLink FTimer t) None h);;
        mret (SERTOS_STATUS_OK, Some t)
  | _, _, _ => mret (SERTOS_STATUS_ERROR_NULL_PTR, None)
  end.

Definition sertos_timer_create (config : option SertosTimerConfig) (out_handle : bool) :
    M Kernel (SertosStatus * ptr) :=
  if negb out_handle then mret (SERTOS_STATUS_ERROR_NULL_PTR, None)
  else
    timer ← malloc sizeof_SertosTimer;
    match timer with
    | None => mret (SERTOS_STATUS_ERROR_NO_MEMORY, None)
    | Some t =>
        r ← sertos_timer_create_static config (Some t) true;
        if decide (r.1 = SERTOS_STATUS_OK) then
          upd_timer t (set tm_is_static (fun _ => false));;
          mret r
        else
          mfree (Some t);;
          mret r
    end.

Definition sertos_timer_delete (handle : ptr) : M Kernel SertosStatus :=
  match handle with
  | None => mret SERTOS_STATUS_ERROR_INVALID_PARAM
  | Some t =>
      ok ← gets (fun k => timer_magic_ok k t);
      if negb ok then mret SERTOS_STATUS_ERROR_INVALID_PARAM
      else
        crit_status ← sertos_port_enter_critical;
        active ← rd_timer t tm_is_active;
        when active (
          upd_heap (linked_list_remove_direct LTimers (NLink FTimer t));;
          upd_timer t (set tm_is_active (fun _ => false)));;
        upd_timer t (set tm_magic (fun _ => 0));;
        static ← rd_timer t tm_is_static;
        when (negb static) (mfree (Some t));;
        sertos_port_exit_critical crit_status;;
        mret SERTOS_STATUS_OK
  end.

Definition sertos_timer_start (handle : ptr) : M Kernel SertosStatus :=
  match handle with
  | None => mret SERTOS_STATUS_ERROR_INVALID_PARAM
  | Some t =>
      ok ← gets (fun k => timer_magic_ok k t);
      if negb ok then mret SERTOS_STATUS_ERROR_INVALID_PARAM
      else
        crit_status ← sertos_port_enter_critical;
        active ← rd_timer t tm_is_active;
        when active (upd_heap (linked_list_remove_direct LTimers (NLink FTimer t)));;
        period ← rd_timer t tm_period_ticks;
        upd_timer t (set tm_remaining_ticks (fun _ => period));;
        upd_timer t (set tm_is_active (fun _ => true));;
        upd_heap (linked_list_insert_tail_direct LTimers (NLink FTimer t));;
        sertos_port_exit_critical crit_status;;
        mret SERTOS_STATUS_OK
  end.

Definition sertos_timer_stop (handle : ptr) : M Kernel SertosStatus :=
  match handle with
  | None => mret SERTOS_STATUS_ERROR_INVALID_PARAM
  | Some t =>
      ok ← gets (fun k => timer_magic_ok k t);
      if negb ok then mret SERTOS_STATUS_ERROR_INVALID_PARAM
      else
        crit_status ← sertos_port_enter_critical;
        active ← rd_timer t tm_is_active;
        if negb active then
          sertos_port_exit_critical crit_status;;
          mret SERTOS_STATUS_OK
        else
          upd_heap (linked_list_remove_direct LTimers (NLink FTimer t));;
          upd_heap (fun h => set_next (NLink FTimer t) None h);;
          upd_heap (fun h => set_prev (NLink FTimer t) None h);;
          upd_timer t (set tm_is_active (fun _ => false));;
          sertos_port_exit_critical crit_status;;
          mret SERTOS_STATUS_OK
  end.

Definition sertos_timer_reset (handle : ptr) : M Kernel SertosStatus := sertos_timer_start handle.

Definition sertos_timer_change_period (handle : ptr) (new_period : Z) : M Kernel SertosStatus :=
  match handle with
  | None => mret SERTOS_STATUS_ERROR_INVALID_PARAM
  | Some t =>
      ok ← gets (fun k => timer_magic_ok k t);
      if negb ok then mret SERTOS_STATUS_ERROR_INVALID_PARAM
      else if new_period =? 0 then mret SERTOS_STATUS_ERROR_INVALID_PARAM
      else
        upd_timer t (set tm_period_ticks (fun _ => new_period));;
        sertos_timer_reset (Some t)
  end.

Definition sertos_timer_is_active (handle : ptr) : M Kernel bool :=
  match handle with
  | None => mret false
  | Some t =>
      ok ← gets (fun k => timer_magic_ok k t);
      if (ok : bool) then rd_timer t tm_is_active else mret false
  end.

(** What [sertos_timer_tick] does to the timer [t] at the list node [c]. *)
Definition timer_tick_one (c : node) (t : addr) : M Kernel unit :=
  r ← rd_timer t tm_remaining_ticks;
  when (0 <? r) (upd_timer t (set tm_remaining_ticks (fun r => r - 1)));;
  r' ← rd_timer t tm_remaining_ticks;
  when (r' =? 0) (
    periodic ← rd_timer t tm_is_periodic;
    (if (periodic : bool) then
       period ← rd_timer t tm_period_ticks;
       upd_timer t (set tm_remaining_ticks (fun _ => period))
     else
       upd_heap (linked_list_remove_direct LTimers c);;
       upd_heap (fun h => set_next (NLink FTimer t) None h);;
       upd_heap (fun h => set_prev (NLink FTimer t) None h);;
       upd_timer t (set tm_is_active (fun _ => false)));;
    cb ← rd_timer t tm_callback;
    match cb with
    | Some f => p ← rd_timer t tm_param; call_timer_callback f t p
    | None => mret tt
    end).

(** The walk of [sertos_timer_tick] from [curr]. *)
Fixpoint timer_tick_loop (fuel : nat) (curr : option node) : M Kernel unit :=
  match curr with
  | None => mret tt
  | Some c =>
      match fuel with
      | O => stuck OutOfFuel
      | S fuel =>
          nx ← rd_next c;
          let next_node := if decide (nx = Some (NRoot LTimers)) then None else nx in
          timer ← unless_none (container_of FTimer c);
          timer_tick_one c timer;;
          timer_tick_loop fuel next_node
      end
  end.

Definition sertos_timer_tick : M Kernel unit :=
  initialized ← gets s_timer_subsystem_initialized;
  if negb initialized then mret tt
  else
    curr ← gets (fun k => linked_list_peek_head LTimers (heap k));
    timer_tick_loop loop_fuel curr.

End timer.
