(* ===== verification/Scheduler.v ===== *)
(** Context switching, the tick, the preemption lock, delays and blocking
    (src/sertos_scheduler.c). *)
From S2P Require Import Prelude Effects Types Platform LinkedLists Kernel SchedCore TaskInfo Stats.
From S2P Require Import Timer.

Section scheduler.
Context `{PL : Platform} `{!Callbacks}.

(** ** Queries *)

Definition sertos_scheduler_is_locked : M Kernel bool := gets (fun k => 0 <? s_lock_nesting k).
Definition sertos_scheduler_is_running : M Kernel bool := gets s_is_running.
Definition sertos_scheduler_is_time_slicing_enabled : M Kernel bool := gets s_time_slicing_enabled.
Definition sertos_scheduler_get_tick_rate_hz : M Kernel Z :=
  gets (fun k => if 0 <? s_tick_rate_hz k then s_tick_rate_hz k else SERTOS_CONFIG_TICK_RATE_HZ).

(** ** Context switch *)

Definition sertos_scheduler_perform_switch : M Kernel ptr :=
  prev_task ← gets sertos_current_tcb;
  next_task ← sertos_scheduler_select_next_task;
  match next_task with
  | Some n =>
      match prev_task with
      | Some p =>
          st ← rd_tcb p state;
          when (bool_decide (st = SERTOS_TASK_STATE_RUNNING))
            (upd_tcb p (set state (fun _ => SERTOS_TASK_STATE_READY)))
      | None => mret tt
      end;;
      modify (set sertos_current_tcb (fun _ => Some n));;
      upd_tcb n (set state (fun _ => SERTOS_TASK_STATE_RUNNING));;
      sertos_stats_on_switch prev_task (Some n)
  | None => mret tt
  end;;
  gets sertos_current_tcb.

Definition sertos_scheduler_switch_context : M Kernel unit :=
  nesting ← gets s_lock_nesting;
  if 0 <? nesting then modify (set s_reschedule_pending (fun _ => true))
  else
    crit ← sertos_port_enter_critical;
    next_task ← sertos_scheduler_select_next_task;
    match next_task with
    | None => sertos_port_exit_critical crit
    | Some n =>
        current ← gets sertos_current_tcb;
        if decide (Some n <> current) then
          when port_host (sertos_scheduler_perform_switch;; mret tt);;
          sertos_port_exit_critical crit;;
          sertos_port_yield
        else sertos_port_exit_critical crit
    end.

Definition sertos_scheduler_reschedule : M Kernel unit :=
  running ← gets s_is_running;
  if negb running then mret tt
  else
    crit ← sertos_port_enter_critical;
    next_task ← sertos_scheduler_select_next_task;
    current ← gets sertos_current_tcb;
    higher ← gets (fun k =>
      match next_task, current with
      | Some n, None => true
      | Some n, Some c => priority (tcbs k c) <? priority (tcbs k n)
      | None, _ => false
      end);
    if (higher : bool) then
      sertos_port_exit_critical crit;;
      sertos_scheduler_switch_context
    else sertos_port_exit_critical crit.

Definition sertos_scheduler_start : M Kernel unit :=
  modify (set s_is_running (fun _ => true));;
  sertos_port_runtime_counter_init;;
  hz ← gets s_tick_rate_hz;
  status ← sertos_port_tick_init hz;
  if decide (status <> SERTOS_STATUS_OK) then modify (set s_is_running (fun _ => false))
  else
    sertos_scheduler_perform_switch;;
    sertos_port_start_first_task.

Definition sertos_scheduler_stop : M Kernel unit :=
  modify (set s_is_running (fun _ => false));;
  sertos_port_stop_scheduler.

(** ** Tick, yield and the preemption lock *)

Definition sertos_scheduler_tick : M Kernel unit :=
  crit_status ← sertos_port_enter_critical;
  ticks ← gets (fun k => atomic_load_relaxed (s_system_ticks k));
  modify (set s_system_ticks (atomic_store_relaxed (wrap port_size_bits (ticks + 1))));;
  need_reschedule ← process_delayed_tasks;
  process_time_slicing;;
  sertos_timer_tick;;
  hook ← gets s_tick_hook;
  match hook with Some f => call_hook f | None => mret tt end;;
  sertos_port_exit_critical crit_status;;
  slicing ← gets s_time_slicing_enabled;
  when (need_reschedule || slicing) sertos_scheduler_switch_context.

Definition sertos_scheduler_yield : M Kernel unit :=
  crit_status ← sertos_port_enter_critical;
  process_time_slicing;;
  sertos_port_exit_critical crit_status;;
  sertos_scheduler_switch_context.

Definition sertos_scheduler_lock : M Kernel unit :=
  crit_status ← sertos_port_enter_critical;
  modify (set s_lock_nesting (fun n => u32 (n + 1)));;
  sertos_port_exit_critical crit_status.

Definition sertos_scheduler_unlock : M Kernel unit :=
  crit_status ← sertos_port_enter_critical;
  nesting ← gets s_lock_nesting;
  switch_needed ←
    (if 0 <? nesting then
       modify (set s_lock_nesting (fun n => n - 1));;
       nesting' ← gets s_lock_nesting;
       pending ← gets s_reschedule_pending;
       if (nesting' =? 0) && pending then
         modify (set s_reschedule_pending (fun _ => false));;
         mret true
       else mret false
     else mret false);
  sertos_port_exit_critical crit_status;;
  when switch_needed sertos_scheduler_switch_context.

(** ** Delays *)

Definition sertos_scheduler_delay (ticks : Z) : M Kernel SertosStatus :=
  if ticks =? 0 then
    sertos_scheduler_yield;;
    mret SERTOS_STATUS_OK
  else
    running ← gets s_is_running;
    current ← gets sertos_current_tcb;
    if negb running || is_null current then mret SERTOS_STATUS_ERROR_NOT_INITIALIZED
    else
      crit_status ← sertos_port_enter_critical;
      current ← gets sertos_current_tcb;
      sertos_scheduler_remove_ready current;;
      t ← unless_none current;
      upd_tcb t (set state (fun _ => SERTOS_TASK_STATE_BLOCKED));;
      upd_tcb t (set delay_ticks (fun _ => ticks));;
      upd_heap (linked_list_insert_tail_direct LDelay (NLink FState t));;
      sertos_port_exit_critical crit_status;;
      sertos_scheduler_switch_context;;
      mret SERTOS_STATUS_OK.

(** SERTOS_MS_TO_TICKS (inc/sertos_scheduler.h), at the tick rate [hz]. *)
Definition SERTOS_MS_TO_TICKS (hz ms : Z) : Z := u32 (u64 (u64 (ms * hz) + 999) / 1000).
(** SERTOS_TICKS_TO_MS (inc/sertos_scheduler.h), at the tick rate [hz], which is not 0. *)
Definition SERTOS_TICKS_TO_MS (hz ticks : Z) : Z := u32 (u64 (ticks * 1000) / hz).

Definition sertos_scheduler_delay_ms (ms : Z) : M Kernel SertosStatus :=
  if ms =? 0 then
    sertos_scheduler_yield;;
    mret SERTOS_STATUS_OK
  else
    hz ← sertos_scheduler_get_tick_rate_hz;
    sertos_scheduler_delay (SERTOS_MS_TO_TICKS hz ms).

(** [*last_wake_time] is passed by value; the value stored is part of the result. *)
Definition sertos_scheduler_delay_until (last_wake_time : option Z) (period : Z) :
    M Kernel (SertosStatus * option Z) :=
  match last_wake_time with
  | None => mret (SERTOS_STATUS_ERROR_NULL_PTR, None)
  | Some last =>
      if period =? 0 then mret (SERTOS_STATUS_ERROR_INVALID_PARAM, Some last)
      else
        now ← sertos_scheduler_get_tick_count;
        let elapsed := u32 (now - last) in
        let last' := u32 (last + period) in
        status ←
          (if elapsed <? period then sertos_scheduler_delay (u32 (period - elapsed))
           else sertos_scheduler_yield;; mret SERTOS_STATUS_OK);
        mret (status, Some last')
  end.

(** ** Blocking on an IPC object *)

Definition sertos_scheduler_wait_list_block (wl : option listid) (timeout : Z) : M Kernel SertosStatus :=
  match wl with
  | None => mret SERTOS_STATUS_ERROR_NULL_PTR
  | Some l =>
      running ← gets s_is_running;
      current ← gets sertos_current_tcb;
      match current with
      | None => mret SERTOS_STATUS_ERROR_NOT_INITIALIZED
      | Some current =>
          if negb running then mret SERTOS_STATUS_ERROR_NOT_INITIALIZED
          else
            crit_status ← sertos_port_enter_critical;
            sertos_scheduler_remove_ready (Some current);;
            upd_tcb current (set state (fun _ => SERTOS_TASK_STATE_BLOCKED));;
            upd_tcb current (set wait_list (fun _ => Some l));;
            insert_wait_list_priority l current;;
            (if decide (timeout <> SERTOS_WAIT_FOREVER) then
               upd_tcb current (set delay_ticks (fun _ => timeout));;
               upd_heap (linked_list_insert_tail_direct LDelay (NLink FState current))
             else
               upd_tcb current (set delay_ticks (fun _ => 0));;
               upd_heap (fun h => set_next (NLink FState current) None h);;
               upd_heap (fun h => set_prev (NLink FState current) None h));;
            sertos_port_exit_critical crit_status;;
            sertos_scheduler_switch_context;;
            d ← rd_tcb current delay_ticks;
            wl' ← rd_tcb current wait_list;
            if bool_decide (timeout <> SERTOS_WAIT_FOREVER) && (d =? 0) && bool_decide (wl' = None)
            then mret SERTOS_STATUS_ERROR_TIMEOUT
            else mret SERTOS_STATUS_OK
      end
  end.

End scheduler.
