(* ===== verification/Task.v ===== *)
(** Task lifecycle (src/sertos_task.c) and scheduler initialisation
    (src/sertos_scheduler.c, [sertos_scheduler_init_with_config]). *)
From S2P Require Import Prelude Effects Types Platform LinkedLists Kernel SchedCore TaskInfo Stats.
From S2P Require Import Timer Scheduler.

(** ** The state machine *)

(** The [s_task_transitions] table: current state, event, next state (the guard and action
    columns are NULL in every row). *)
Definition s_task_transitions : list (SertosTaskState * Z * SertosTaskState) := [
  (SERTOS_TASK_STATE_READY,     1, SERTOS_TASK_STATE_RUNNING);
  (SERTOS_TASK_STATE_RUNNING,   2, SERTOS_TASK_STATE_READY);
  (SERTOS_TASK_STATE_RUNNING,   3, SERTOS_TASK_STATE_BLOCKED);
  (SERTOS_TASK_STATE_BLOCKED,   4, SERTOS_TASK_STATE_READY);
  (SERTOS_TASK_STATE_READY,     5, SERTOS_TASK_STATE_SUSPENDED);
  (SERTOS_TASK_STATE_RUNNING,   5, SERTOS_TASK_STATE_SUSPENDED);
  (SERTOS_TASK_STATE_BLOCKED,   5, SERTOS_TASK_STATE_SUSPENDED);
  (SERTOS_TASK_STATE_SUSPENDED, 6, SERTOS_TASK_STATE_READY);
  (SERTOS_TASK_STATE_READY,     7, SERTOS_TASK_STATE_TERMINATED);
  (SERTOS_TASK_STATE_RUNNING,   7, SERTOS_TASK_STATE_TERMINATED);
  (SERTOS_TASK_STATE_BLOCKED,   7, SERTOS_TASK_STATE_TERMINATED);
  (SERTOS_TASK_STATE_SUSPENDED, 7, SERTOS_TASK_STATE_TERMINATED)].

Definition sertos_task_is_valid_transition (from to : SertosTaskState) : bool :=
  if decide (from = to) then false
  else existsb (fun r => bool_decide (r.1.1 = from) && bool_decide (r.2 = to)) s_task_transitions.

Section task.
Context `{PL : Platform} `{!Callbacks}.

(** ** Creation *)

Definition validate_task_config (config : option SertosTaskConfig) : SertosStatus :=
  match config with
  | None => SERTOS_STATUS_ERROR_NULL_PTR
  | Some c =>
      if is_null (cfg_entry_func c) then SERTOS_STATUS_ERROR_INVALID_PARAM
      else if SERTOS_CONFIG_MAX_PRIORITIES <=? cfg_priority c then SERTOS_STATUS_ERROR_INVALID_PARAM
      else if cfg_stack_size c <? SERTOS_CONFIG_MINIMAL_STACK_SIZE then SERTOS_STATUS_ERROR_INVALID_PARAM
      else match cfg_stack_buffer c with
           | Some b =>
               if negb (b mod SERTOS_STACK_ALIGNMENT_BYTES =? 0) then SERTOS_STATUS_ERROR_INVALID_PARAM
               else SERTOS_STATUS_OK
           | None => SERTOS_STATUS_OK
           end
  end.

(** The aligned top of a stack, as [uintptr_t] arithmetic. *)
Definition stack_top_of (base size : Z) : Z :=
  Z.land (wrap port_size_bits (base + size))
         (wrap port_size_bits (Z.lnot (SERTOS_STACK_ALIGNMENT_BYTES - 1))).

Definition init_tcb_and_stack (t : addr) (config : SertosTaskConfig) (is_static : bool) :
    M Kernel unit :=
  let stack_base_addr := uintptr (cfg_stack_buffer config) in
  let stack_top := of_uintptr (stack_top_of stack_base_addr (cfg_stack_size config)) in
  modify (set mem (mem_fill stack_base_addr (cfg_stack_size config) SERTOS_TASK_STACK_FILL_BYTE));;
  r ← gets (fun k => sertos_port_stack_init stack_top (cfg_stack_buffer config)
              (cfg_entry_func config) (cfg_param config) (mem k));
  modify (set mem (fun _ => r.2));;
  upd_tcb t (fun _ => {|
    stack_ptr := r.1;
    stack_base := cfg_stack_buffer config;
    stack_size := cfg_stack_size config;
    stack_limit := cfg_stack_buffer config;
    state := SERTOS_TASK_STATE_READY;
    priority := cfg_priority config;
    base_priority := cfg_priority config;
    delay_ticks := 0;
    entry_func := cfg_entry_func config;
    param := cfg_param config;
    name := Some (default "Task"%string (cfg_name config));
    wait_list := None;
    is_statically_allocated := is_static;
    magic := SERTOS_TASK_MAGIC_WORD;
    port_context := None;
    run_time_total := 0;
    run_time_last_entry := 0;
    switch_in_count := 0 |});;
  upd_heap (set_cell (NLink FState t) (mkNode None None));;
  upd_heap (set_cell (NLink FEvent t) (mkNode None None));;
  upd_heap (set_cell (NLink FRegistry t) (mkNode None None));;
  sertos_port_task_create_hook t.

Definition sertos_task_create_static (config : option SertosTaskConfig) (tcb : ptr)
    (out_handle : bool) : M Kernel (SertosStatus * ptr) :=
  match tcb with
  | None => mret (SERTOS_STATUS_ERROR_NULL_PTR, None)
  | Some t =>
      if negb out_handle then mret (SERTOS_STATUS_ERROR_NULL_PTR, None)
      else
        match config with
        | None => mret (SERTOS_STATUS_ERROR_INVALID_PARAM, None)
        | Some c =>
            if is_null (cfg_stack_buffer c) then mret (SERTOS_STATUS_ERROR_INVALID_PARAM, None)
            else
              let status := validate_task_config (Some c) in
              if decide (status <> SERTOS_STATUS_OK) then mret (status, None)
              else
                init_tcb_and_stack t c true;;
                crit_status ← sertos_port_enter_critical;
                status ← sertos_scheduler_add_ready (Some t);
                when (bool_decide (status = SERTOS_STATUS_OK)) (sertos_scheduler_register_task (Some t));;
                sertos_port_exit_critical crit_status;;
                if decide (status = SERTOS_STATUS_OK) then
                  running ← sertos_scheduler_is_running;
                  when running sertos_scheduler_reschedule;;
                  mret (status, Some t)
                else mret (status, None)
        end
  end.

Definition sertos_task_create (config : option SertosTaskConfig) (out_handle : bool) :
    M Kernel (SertosStatus * ptr) :=
  if negb out_handle then mret (SERTOS_STATUS_ERROR_NULL_PTR, None)
  else
    let status := validate_task_config config in
    match config with
    | None => mret (status, None)
    | Some c =>
        if decide (status <> SERTOS_STATUS_OK) then mret (status, None)
        else
          tcb ← malloc sizeof_SertosTaskControlBlock;
          match tcb with
          | None => mret (SERTOS_STATUS_ERROR_NO_MEMORY, None)
          | Some t =>
              stack_buf ← malloc (cfg_stack_size c);
              match stack_buf with
              | None =>
                  mfree (Some t);;
                  mret (SERTOS_STATUS_ERROR_NO_MEMORY, None)
              | Some b =>
                  init_tcb_and_stack t (c <| cfg_stack_buffer := Some b |>) false;;
                  status ← sertos_scheduler_add_ready (Some t);
                  if decide (status <> SERTOS_STATUS_OK) then
                    mfree (Some b);;
                    mfree (Some t);;
                    mret (status, None)
                  else
                    crit_status ← sertos_port_enter_critical;
                    sertos_scheduler_register_task (Some t);;
                    sertos_port_exit_critical crit_status;;
                    running ← sertos_scheduler_is_running;
                    when running sertos_scheduler_reschedule;;
                    mret (SERTOS_STATUS_OK, Some t)
              end
          end
    end.

(** ** Deletion, suspension, resumption, priority *)

(** [handle == NULL ? current : handle], if it is a task that may go to state [to]. *)
Definition task_arg (handle : ptr) : M Kernel ptr :=
  match handle with None => sertos_scheduler_get_current_tcb | Some t => mret (Some t) end.
Definition task_may (t : addr) (to : SertosTaskState) : M Kernel bool :=
  gets (fun k => task_magic_ok k t && sertos_task_is_valid_transition (state (tcbs k t)) to).

Definition sertos_task_delete (handle : ptr) : M Kernel SertosStatus :=
  tcb ← task_arg handle;
  match tcb with
  | None => mret SERTOS_STATUS_ERROR_INVALID_PARAM
  | Some t =>
      ok ← task_may t SERTOS_TASK_STATE_TERMINATED;
      if negb ok then mret SERTOS_STATUS_ERROR_INVALID_PARAM
      else
        crit_status ← sertos_port_enter_critical;
        current ← sertos_scheduler_get_current_tcb;
        let is_current := bool_decide (Some t = current) in
        st ← rd_tcb t state;
        when (bool_decide (st = SERTOS_TASK_STATE_READY))
          (sertos_scheduler_remove_ready (Some t);; mret tt);;
        sertos_scheduler_unregister_task (Some t);;
        upd_tcb t (set state (fun _ => SERTOS_TASK_STATE_TERMINATED));;
        sertos_port_task_delete_hook t;;
        static ← rd_tcb t is_statically_allocated;
        when (negb static) (
          base ← rd_tcb t stack_base;
          mfree base;;
          mfree (Some t));;
        sertos_port_exit_critical crit_status;;
        running ← sertos_scheduler_is_running;
        when (is_current && running) sertos_scheduler_yield;;
        mret SERTOS_STATUS_OK
  end.

Definition sertos_task_suspend (handle : ptr) : M Kernel SertosStatus :=
  tcb ← task_arg handle;
  match tcb with
  | None => mret SERTOS_STATUS_ERROR_INVALID_PARAM
  | Some t =>
      ok ← task_may t SERTOS_TASK_STATE_SUSPENDED;
      if negb ok then mret SERTOS_STATUS_ERROR_INVALID_PARAM
      else
        crit_status ← sertos_port_enter_critical;
        current ← sertos_scheduler_get_current_tcb;
        let is_current := bool_decide (Some t = current) in
        st ← rd_tcb t state;
        when (bool_decide (st = SERTOS_TASK_STATE_READY))
          (sertos_scheduler_remove_ready (Some t);; mret tt);;
        upd_tcb t (set state (fun _ => SERTOS_TASK_STATE_SUSPENDED));;
        sertos_port_exit_critical crit_status;;
        running ← sertos_scheduler_is_running;
        when (is_current && running) sertos_scheduler_yield;;
        mret SERTOS_STATUS_OK
  end.

Definition sertos_task_resume (handle : ptr) : M Kernel SertosStatus :=
  match handle with
  | None => mret SERTOS_STATUS_ERROR_INVALID_PARAM
  | Some t =>
      ok ← task_may t SERTOS_TASK_STATE_READY;
      if negb ok then mret SERTOS_STATUS_ERROR_INVALID_PARAM
      else
        crit_status ← sertos_port_enter_critical;
        status ← sertos_scheduler_add_ready (Some t);
        sertos_port_exit_critical crit_status;;
        running ← sertos_scheduler_is_running;
        when (bool_decide (status = SERTOS_STATUS_OK) && running) sertos_scheduler_reschedule;;
        mret status
  end.

Definition sertos_task_set_priority (handle : ptr) (new_priority : Z) : M Kernel SertosStatus :=
  if SERTOS_CONFIG_MAX_PRIORITIES <=? new_priority then mret SERTOS_STATUS_ERROR_INVALID_PARAM
  else
    tcb ← task_arg handle;
    match tcb with
    | None => mret SERTOS_STATUS_ERROR_INVALID_PARAM
    | Some t =>
        ok ← gets (fun k => task_magic_ok k t);
        if negb ok then mret SERTOS_STATUS_ERROR_INVALID_PARAM
        else
          crit_status ← sertos_port_enter_critical;
          st ← rd_tcb t state;
          let was_ready := bool_decide (st = SERTOS_TASK_STATE_READY) in
          when was_ready (sertos_scheduler_remove_ready (Some t);; mret tt);;
          upd_tcb t (set priority (fun _ => new_priority));;
          upd_tcb t (set base_priority (fun _ => new_priority));;
          when was_ready (sertos_scheduler_add_ready (Some t);; mret tt);;
          sertos_port_exit_critical crit_status;;
          running ← sertos_scheduler_is_running;
          when running sertos_scheduler_reschedule;;
          mret SERTOS_STATUS_OK
    end.

(** ** Scheduler initialisation *)

(** The [for] over the ready queues: [n] of them are left, from [i]. *)
Fixpoint init_ready_queues (n : nat) (i : Z) : M Kernel unit :=
  match n with
  | O => mret tt
  | S n => upd_heap (linked_list_init (LReady i));; init_ready_queues n (i + 1)
  end.

Definition sertos_scheduler_init_with_config (config : option SertosConfig) : M Kernel SertosStatus :=
  match bitmap_init bitmap_zero_storage SERTOS_CONFIG_MAX_PRIORITIES with
  | None => mret SERTOS_STATUS_ERROR_INVALID_PARAM
  | Some b =>
      modify (set s_ready_bitmap (fun _ => b));;
      init_ready_queues (Z.to_nat SERTOS_CONFIG_MAX_PRIORITIES) 0;;
      upd_heap (linked_list_init LDelay);;
      upd_heap (linked_list_init LSuspended);;
      upd_heap (linked_list_init LRegistry);;
      modify (set sertos_current_tcb (fun _ => None));;
      modify (set s_is_running (fun _ => false));;
      modify (set s_lock_nesting (fun _ => 0));;
      modify (set s_reschedule_pending (fun _ => false));;
      modify (set s_system_ticks (fun _ => atomic_init_size_t 0));;
      idle_stack ←
        match config with
        | Some c =>
            modify (set s_tick_rate_hz (fun _ =>
              if 0 <? tick_rate_hz c then tick_rate_hz c else SERTOS_CONFIG_TICK_RATE_HZ));;
            modify (set s_time_slicing_enabled (fun _ => enable_time_slicing c));;
            modify (set s_tick_hook (fun _ => tick_hook c));;
            modify (set s_idle_hook (fun _ => idle_hook c));;
            sertos_stats_set_enabled (enable_runtime_stats c);;
            match idle_task_stack c with
            | Some st =>
                if SERTOS_CONFIG_MINIMAL_STACK_SIZE <=? idle_task_stack_size c
                then mret (st, idle_task_stack_size c)
                else mret (s_idle_stack, SERTOS_CONFIG_IDLE_TASK_STACK_SIZE)
            | None => mret (s_idle_stack, SERTOS_CONFIG_IDLE_TASK_STACK_SIZE)
            end
        | None =>
            modify (set s_tick_rate_hz (fun _ => SERTOS_CONFIG_TICK_RATE_HZ));;
            modify (set s_time_slicing_enabled (fun _ => negb (SERTOS_CONFIG_TIME_SLICING =? 0)));;
            modify (set s_tick_hook (fun _ => None));;
            modify (set s_idle_hook (fun _ => None));;
            sertos_stats_set_enabled false;;
            mret (s_idle_stack, SERTOS_CONFIG_IDLE_TASK_STACK_SIZE)
        end;
      let idle_cfg := {|
        cfg_name := Some "Idle"%string; cfg_entry_func := Some idle_task_entry_addr;
        cfg_param := None; cfg_priority := 0;
        cfg_stack_buffer := Some idle_stack.1; cfg_stack_size := idle_stack.2 |} in
      r ← sertos_task_create_static (Some idle_cfg) (Some s_idle_tcb) true;
      sertos_stats_reset;;
      mret r.1
  end.

Definition sertos_scheduler_init : M Kernel SertosStatus := sertos_scheduler_init_with_config None.

(** One turn of the idle task's loop; [wfi] does nothing to the kernel's state. *)
Definition idle_task_step : M Kernel unit :=
  hook ← gets s_idle_hook;
  match hook with Some f => call_hook f | None => mret tt end;;
  when port_host sertos_port_yield.

End task.
