(* ===== verification/Sem.v ===== *)
(** Counting and binary semaphores (src/sertos_sem.c). *)
From S2P Require Import Prelude Effects Types Platform LinkedLists Kernel SchedCore Scheduler.

Section sem.
Context `{PL : Platform} `{!Callbacks}.

Definition sem_magic_ok (k : Kernel) (a : addr) : bool := sem_magic (sems k a) =? SERTOS_SEM_MAGIC_WORD.

Definition sertos_sem_create_counting_static (sem : ptr) (initial_count max_count : Z)
    (out_handle : bool) : M Kernel (SertosStatus * ptr) :=
  match sem, out_handle with
  | Some a, true =>
      if (max_count =? 0) || (max_count <? initial_count) then
        mret (SERTOS_STATUS_ERROR_INVALID_PARAM, None)
      else
        upd_sem a (fun s => s <| sem_count := initial_count |> <| sem_max_count := max_count |>);;
        upd_heap (linked_list_init (LSemWait a));;
        upd_sem a (fun s => s <| sem_is_static := true |> <| sem_magic := SERTOS_SEM_MAGIC_WORD |>);;
        mret (SERTOS_STATUS_OK, Some a)
  | _, _ => mret (SERTOS_STATUS_ERROR_NULL_PTR, None)
  end.

Definition sertos_sem_create_binary_static (sem : ptr) (initial_state : bool) (out_handle : bool) :
    M Kernel (SertosStatus * ptr) :=
  sertos_sem_create_counting_static sem (if initial_state then 1 else 0) 1 out_handle.

Definition sertos_sem_create_counting (initial_count max_count : Z) (out_handle : bool) :
    M Kernel (SertosStatus * ptr) :=
  if negb out_handle then mret (SERTOS_STATUS_ERROR_NULL_PTR, None)
  else
    sem ← malloc sizeof_SertosSemaphore;
    match sem with
    | None => mret (SERTOS_STATUS_ERROR_NO_MEMORY, None)
    | Some a =>
        r ← sertos_sem_create_counting_static (Some a) initial_count max_count true;
        if decide (r.1 <> SERTOS_STATUS_OK) then
          mfree (Some a);;
          mret r
        else
          upd_sem a (set sem_is_static (fun _ => false));;
          mret r
    end.

Definition sertos_sem_create_binary (initial_state : bool) (out_handle : bool) :
    M Kernel (SertosStatus * ptr) :=
  sertos_sem_create_counting (if initial_state then 1 else 0) 1 out_handle.

Definition sertos_sem_delete (handle : ptr) : M Kernel SertosStatus :=
  match handle with
  | None => mret SERTOS_STATUS_ERROR_INVALID_PARAM
  | Some a =>
      ok ← gets (fun k => sem_magic_ok k a);
      if negb ok then mret SERTOS_STATUS_ERROR_INVALID_PARAM
      else
        crit_status ← sertos_port_enter_critical;
        upd_sem a (set sem_magic (fun _ => 0));;
        unblock_all loop_fuel (LSemWait a);;
        static ← rd_sem a sem_is_static;
        when (negb static) (mfree (Some a));;
        sertos_port_exit_critical crit_status;;
        running ← sertos_scheduler_is_running;
        when running sertos_scheduler_reschedule;;
        mret SERTOS_STATUS_OK
  end.

Definition sertos_sem_take (handle : ptr) (timeout : Z) : M Kernel SertosStatus :=
  match handle with
  | None => mret SERTOS_STATUS_ERROR_INVALID_PARAM
  | Some a =>
      ok ← gets (fun k => sem_magic_ok k a);
      if negb ok then mret SERTOS_STATUS_ERROR_INVALID_PARAM
      else
        crit_status ← sertos_port_enter_critical;
        c ← rd_sem a sem_count;
        if 0 <? c then
          upd_sem a (set sem_count (fun c => c - 1));;
          sertos_port_exit_critical crit_status;;
          mret SERTOS_STATUS_OK
        else if timeout =? SERTOS_NO_WAIT then
          sertos_port_exit_critical crit_status;;
          mret SERTOS_STATUS_ERROR_TIMEOUT
        else
          sertos_port_exit_critical crit_status;;
          sertos_scheduler_wait_list_block (Some (LSemWait a)) timeout
  end.

Definition sertos_sem_give (handle : ptr) : M Kernel SertosStatus :=
  match handle with
  | None => mret SERTOS_STATUS_ERROR_INVALID_PARAM
  | Some a =>
      ok ← gets (fun k => sem_magic_ok k a);
      if negb ok then mret SERTOS_STATUS_ERROR_INVALID_PARAM
      else
        crit_status ← sertos_port_enter_critical;
        unblocked ← sertos_scheduler_wait_list_unblock_highest (Some (LSemWait a));
        match unblocked with
        | Some _ =>
            sertos_port_exit_critical crit_status;;
            running ← sertos_scheduler_is_running;
            when running sertos_scheduler_reschedule;;
            mret SERTOS_STATUS_OK
        | None =>
            c ← rd_sem a sem_count;
            mx ← rd_sem a sem_max_count;
            if c <? mx then
              upd_sem a (set sem_count (fun c => c + 1));;
              sertos_port_exit_critical crit_status;;
              mret SERTOS_STATUS_OK
            else
              sertos_port_exit_critical crit_status;;
              mret SERTOS_STATUS_ERROR_RESOURCE_BUSY
        end
  end.

(** The flag stored through [out_higher_prio_woken] is part of the result. *)
Definition sertos_sem_give_from_isr (handle : ptr) (out_higher_prio_woken : bool) :
    M Kernel (SertosStatus * option bool) :=
  match handle with
  | None => mret (SERTOS_STATUS_ERROR_INVALID_PARAM, None)
  | Some a =>
      ok ← gets (fun k => sem_magic_ok k a);
      if negb ok then mret (SERTOS_STATUS_ERROR_INVALID_PARAM, None)
      else
        let out b := if out_higher_prio_woken then Some b else None in
        crit_status ← sertos_port_enter_critical;
        unblocked ← sertos_scheduler_wait_list_unblock_highest (Some (LSemWait a));
        match unblocked with
        | Some u =>
            current ← sertos_scheduler_get_current_tcb;
            higher ← gets (fun k =>
              match current with
              | Some c => priority (tcbs k c) <? priority (tcbs k u)
              | None => false
              end);
            sertos_port_exit_critical crit_status;;
            mret (SERTOS_STATUS_OK, out higher)
        | None =>
            c ← rd_sem a sem_count;
            mx ← rd_sem a sem_max_count;
            if c <? mx then
              upd_sem a (set sem_count (fun c => c + 1));;
              sertos_port_exit_critical crit_status;;
              mret (SERTOS_STATUS_OK, out false)
            else
              sertos_port_exit_critical crit_status;;
              mret (SERTOS_STATUS_ERROR_RESOURCE_BUSY, out false)
        end
  end.

Definition sertos_sem_get_count (handle : ptr) : M Kernel Z :=
  match handle with
  | None => mret 0
  | Some a =>
      ok ← gets (fun k => sem_magic_ok k a);
      if (ok : bool) then rd_sem a sem_count else mret 0
  end.

End sem.
