(* ===== verification/Mutex.v ===== *)
(** Recursive mutexes with priority inheritance (src/sertos_mutex.c). *)
From S2P Require Import Prelude Effects Types Platform LinkedLists Kernel SchedCore Scheduler.

Section mutex.
Context `{PL : Platform} `{!Callbacks}.

Definition mutex_magic_ok (k : Kernel) (a : addr) : bool := mtx_magic (mutexes k a) =? SERTOS_MUTEX_MAGIC_WORD.

(** [tcb->priority = p], moving the task between ready queues when it is ready. *)
Definition move_to_priority (t : addr) (p : Z) : M Kernel unit :=
  st ← rd_tcb t state;
  let was_ready := bool_decide (st = SERTOS_TASK_STATE_READY) in
  when was_ready (sertos_scheduler_remove_ready (Some t);; mret tt);;
  upd_tcb t (set priority (fun _ => p));;
  when was_ready (sertos_scheduler_add_ready (Some t);; mret tt).

Definition apply_priority_inheritance (a : addr) (current : addr) : M Kernel unit :=
  o ← rd_mutex a mtx_owner;
  owner ← unless_none o;
  pc ← rd_tcb current priority;
  po ← rd_tcb owner priority;
  when (po <? pc) (move_to_priority owner pc).

Definition restore_owner_priority (a : addr) (current : addr) : M Kernel unit :=
  pc ← rd_tcb current priority;
  orig ← rd_mutex a mtx_original_owner_priority;
  when (negb (pc =? orig)) (move_to_priority current orig).

Definition sertos_mutex_create_static (mutex : ptr) (out_handle : bool) :
    M Kernel (SertosStatus * ptr) :=
  match mutex, out_handle with
  | Some a, true =>
      upd_mutex a (fun m => m <| mtx_owner := None |> <| mtx_lock_count := 0 |>
                              <| mtx_original_owner_priority := 0 |>);;
      upd_heap (linked_list_init (LMutexWait a));;
      upd_mutex a (fun m => m <| mtx_is_static := true |> <| mtx_magic := SERTOS_MUTEX_MAGIC_WORD |>);;
      mret (SERTOS_STATUS_OK, Some a)
  | _, _ => mret (SERTOS_STATUS_ERROR_NULL_PTR, None)
  end.

Definition sertos_mutex_create (out_handle : bool) : M Kernel (SertosStatus * ptr) :=
  if negb out_handle then mret (SERTOS_STATUS_ERROR_NULL_PTR, None)
  else
    mutex ← malloc sizeof_SertosMutex;
    match mutex with
    | None => mret (SERTOS_STATUS_ERROR_NO_MEMORY, None)
    | Some a =>
        r ← sertos_mutex_create_static (Some a) true;
        if decide (r.1 <> SERTOS_STATUS_OK) then
          mfree (Some a);;
          mret r
        else
          upd_mutex a (set mtx_is_static (fun _ => false));;
          mret r
    end.

Definition sertos_mutex_delete (handle : ptr) : M Kernel SertosStatus :=
  match handle with
  | None => mret SERTOS_STATUS_ERROR_INVALID_PARAM
  | Some a =>
      ok ← gets (fun k => mutex_magic_ok k a);
      if negb ok then mret SERTOS_STATUS_ERROR_INVALID_PARAM
      else
        crit_status ← sertos_port_enter_critical;
        o ← rd_mutex a mtx_owner;
        match o with Some owner => restore_owner_priority a owner | None => mret tt end;;
        upd_mutex a (set mtx_magic (fun _ => 0));;
        unblock_all loop_fuel (LMutexWait a);;
        static ← rd_mutex a mtx_is_static;
        when (negb static) (mfree (Some a));;
        sertos_port_exit_critical crit_status;;
        running ← sertos_scheduler_is_running;
        when running sertos_scheduler_reschedule;;
        mret SERTOS_STATUS_OK
  end.

Definition sertos_mutex_lock (handle : ptr) (timeout : Z) : M Kernel SertosStatus :=
  match handle with
  | None => mret SERTOS_STATUS_ERROR_INVALID_PARAM
  | Some a =>
      ok ← gets (fun k => mutex_magic_ok k a);
      if negb ok then mret SERTOS_STATUS_ERROR_INVALID_PARAM
      else
        current ← sertos_scheduler_get_current_tcb;
        match current with
        | None => mret SERTOS_STATUS_ERROR_NOT_INITIALIZED
        | Some c =>
            crit_status ← sertos_port_enter_critical;
            owner ← rd_mutex a mtx_owner;
            if decide (owner = None) then
              upd_mutex a (set mtx_owner (fun _ => Some c));;
              upd_mutex a (set mtx_lock_count (fun _ => 1));;
              p ← rd_tcb c priority;
              upd_mutex a (set mtx_original_owner_priority (fun _ => p));;
              sertos_port_exit_critical crit_status;;
              mret SERTOS_STATUS_OK
            else if decide (owner = Some c) then
              upd_mutex a (set mtx_lock_count (fun n => u32 (n + 1)));;
              sertos_port_exit_critical crit_status;;
              mret SERTOS_STATUS_OK
            else
              apply_priority_inheritance a c;;
              if timeout =? SERTOS_NO_WAIT then
                sertos_port_exit_critical crit_status;;
                mret SERTOS_STATUS_ERROR_TIMEOUT
              else
                sertos_port_exit_critical crit_status;;
                status ← sertos_scheduler_wait_list_block (Some (LMutexWait a)) timeout;
                when (bool_decide (status = SERTOS_STATUS_OK)) (
                  upd_mutex a (set mtx_owner (fun _ => Some c));;
                  upd_mutex a (set mtx_lock_count (fun _ => 1));;
                  bp ← rd_tcb c base_priority;
                  upd_mutex a (set mtx_original_owner_priority (fun _ => bp)));;
                mret status
        end
  end.

(** The part of [sertos_mutex_unlock] that looks for the next owner. *)
Definition hand_over (a : addr) : M Kernel unit :=
  next_owner ← sertos_scheduler_wait_list_unblock_highest (Some (LMutexWait a));
  match next_owner with
  | Some o =>
      upd_mutex a (set mtx_owner (fun _ => Some o));;
      upd_mutex a (set mtx_lock_count (fun _ => 1));;
      bp ← rd_tcb o base_priority;
      upd_mutex a (set mtx_original_owner_priority (fun _ => bp))
  | None => upd_mutex a (set mtx_owner (fun _ => None))
  end.

Definition sertos_mutex_unlock (handle : ptr) : M Kernel SertosStatus :=
  match handle with
  | None => mret SERTOS_STATUS_ERROR_INVALID_PARAM
  | Some a =>
      ok ← gets (fun k => mutex_magic_ok k a);
      if negb ok then mret SERTOS_STATUS_ERROR_INVALID_PARAM
      else
        current ← sertos_scheduler_get_current_tcb;
        owner ← rd_mutex a mtx_owner;
        match current with
        | None => mret SERTOS_STATUS_ERROR_INVALID_PARAM
        | Some c =>
            if decide (owner <> Some c) then mret SERTOS_STATUS_ERROR_INVALID_PARAM
            else
              crit_status ← sertos_port_enter_critical;
              upd_mutex a (set mtx_lock_count (fun n => u32 (n - 1)));;
              n ← rd_mutex a mtx_lock_count;
              if 0 <? n then
                sertos_port_exit_critical crit_status;;
                mret SERTOS_STATUS_OK
              else
                restore_owner_priority a c;;
                hand_over a;;
                sertos_port_exit_critical crit_status;;
                running ← sertos_scheduler_is_running;
                when running sertos_scheduler_reschedule;;
                mret SERTOS_STATUS_OK
        end
  end.

Definition sertos_mutex_get_owner (handle : ptr) : M Kernel ptr :=
  match handle with
  | None => mret None
  | Some a =>
      ok ← gets (fun k => mutex_magic_ok k a);
      if (ok : bool) then rd_mutex a mtx_owner else mret None
  end.

End mutex.
