(* ===== verification/Queue.v ===== *)
(** Message queues (src/sertos_queue.c). *)
From S2P Require Import Prelude Effects Types Platform LinkedLists Kernel SchedCore Scheduler.

Definition SERTOS_QUEUE_MAGIC_WORD : Z := 0x51554555.

(** ** Sizes *)

(** The [while] of [next_power_of_two] at [w]-bit [size_t], from [p]. *)
Fixpoint next_power_of_two_loop (w : Z) (fuel : nat) (p value : Z) : option Z :=
  match fuel with
  | O => None
  | S fuel => if p <? value then next_power_of_two_loop w fuel (wrap w (Z.shiftl p 1)) value else Some p
  end.
Definition next_power_of_two (w : Z) (fuel : nat) (value : Z) : option Z :=
  next_power_of_two_loop w fuel 2 value.

Section queue.
Context `{PL : Platform} `{!Callbacks}.

Definition queue_magic_ok (k : Kernel) (a : addr) : bool := q_magic (queues k a) =? SERTOS_QUEUE_MAGIC_WORD.

Definition queue_free_bytes (rb : RingBuffer) : Z :=
  let cap := ring_buffer_capacity rb in
  let cnt := ring_buffer_count rb in
  if cnt <? cap then cap - cnt else 0.

(** The [for] of [queue_peek_bytes]: [n] bytes left, from index [i]. *)
Fixpoint queue_peek_loop (rb : RingBuffer) (dest : addr) (tail i : Z) (n : nat) (m : Mem) : Mem :=
  match n with
  | O => m
  | S n =>
      let src := rb_buffer rb + Z.land (wrap port_size_bits (tail + i)) (rb_mask rb) in
      queue_peek_loop rb dest tail (i + 1) n (<[dest + i := m src]> m)
  end.
Definition queue_peek_bytes (rb : RingBuffer) (dest : addr) (count : Z) (m : Mem) : Mem :=
  queue_peek_loop rb dest (rb_tail rb) 0 (Z.to_nat count) m.

(** ** Creation and deletion *)

Definition sertos_queue_create_static (queue storage_buffer : ptr) (storage_size item_size : Z)
    (out_handle : bool) : M Kernel (SertosStatus * ptr) :=
  match queue, storage_buffer, out_handle with
  | Some a, Some st, true =>
      if (item_size =? 0) || (storage_size <? 2) then mret (SERTOS_STATUS_ERROR_INVALID_PARAM, None)
      else
        match ring_buffer_init st storage_size with
        | None => mret (SERTOS_STATUS_ERROR_INVALID_PARAM, None)
        | Some rb =>
            upd_queue a (fun q => q <| q_ring_buf := rb |> <| q_item_size := item_size |>
              <| q_max_items := ring_buffer_capacity rb / item_size |>
              <| q_storage_buffer := Some st |>);;
            upd_heap (linked_list_init (LQueueSend a));;
            upd_heap (linked_list_init (LQueueRecv a));;
            upd_queue a (fun q => q <| q_is_static := true |> <| q_magic := SERTOS_QUEUE_MAGIC_WORD |>);;
            mret (SERTOS_STATUS_OK, Some a)
        end
  | _, _, _ => mret (SERTOS_STATUS_ERROR_NULL_PTR, None)
  end.

Definition sertos_queue_create (item_size max_items : Z) (out_handle : bool) :
    M Kernel (SertosStatus * ptr) :=
  if negb out_handle then mret (SERTOS_STATUS_ERROR_NULL_PTR, None)
  else if (item_size =? 0) || (max_items =? 0) then mret (SERTOS_STATUS_ERROR_INVALID_PARAM, None)
  else
    let needed_bytes := wrap port_size_bits (wrap port_size_bits (item_size * max_items) + 1) in
    match next_power_of_two port_size_bits loop_fuel needed_bytes with
    | None => stuck OutOfFuel
    | Some power_capacity =>
        queue ← malloc sizeof_SertosQueue;
        match queue with
        | None => mret (SERTOS_STATUS_ERROR_NO_MEMORY, None)
        | Some a =>
            storage ← malloc power_capacity;
            match storage with
            | None =>
                mfree (Some a);;
                mret (SERTOS_STATUS_ERROR_NO_MEMORY, None)
            | Some st =>
                r ← sertos_queue_create_static (Some a) (Some st) power_capacity item_size true;
                if decide (r.1 <> SERTOS_STATUS_OK) then
                  mfree (Some st);;
                  mfree (Some a);;
                  mret r
                else
                  upd_queue a (set q_is_static (fun _ => false));;
                  mret r
            end
        end
    end.

Definition sertos_queue_delete (handle : ptr) : M Kernel SertosStatus :=
  match handle with
  | None => mret SERTOS_STATUS_ERROR_INVALID_PARAM
  | Some a =>
      ok ← gets (fun k => queue_magic_ok k a);
      if negb ok then mret SERTOS_STATUS_ERROR_INVALID_PARAM
      else
        crit_status ← sertos_port_enter_critical;
        upd_queue a (set q_magic (fun _ => 0));;
        unblock_all loop_fuel (LQueueSend a);;
        unblock_all loop_fuel (LQueueRecv a);;
        static ← rd_queue a q_is_static;
        when (negb static) (
          st ← rd_queue a q_storage_buffer;
          mfree st;;
          mfree (Some a));;
        sertos_port_exit_critical crit_status;;
        running ← sertos_scheduler_is_running;
        when running sertos_scheduler_reschedule;;
        mret SERTOS_STATUS_OK
  end.

(** ** Blocking transfers *)

Definition queue_write (a : addr) (item : addr) : M Kernel unit :=
  size ← rd_queue a q_item_size;
  r ← gets (fun k => ring_buffer_write item size (q_ring_buf (queues k a)) (mem k));
  upd_queue a (set q_ring_buf (fun _ => r.1.2));;
  modify (set mem (fun _ => r.2)).

Definition queue_read (a : addr) (item : addr) : M Kernel unit :=
  size ← rd_queue a q_item_size;
  r ← gets (fun k => ring_buffer_read item size (q_ring_buf (queues k a)) (mem k));
  upd_queue a (set q_ring_buf (fun _ => r.1.2));;
  modify (set mem (fun _ => r.2)).

(** The [while] of the blocking operations, entered with interrupts masked: wait on [wl] as
    long as [blocked] holds, then go on with the critical status in hand.  [fuel] bounds the
    number of times the task is woken in vain. *)
Fixpoint queue_wait_loop (fuel : nat) (a : addr) (blocked : SertosQueue -> bool) (wl : listid)
    (timeout crit_status : Z) (k : Z -> M Kernel SertosStatus) : M Kernel SertosStatus :=
  b ← rd_queue a blocked;
  if negb b then k crit_status
  else
    match fuel with
    | O => stuck OutOfFuel
    | S fuel =>
        if timeout =? SERTOS_NO_WAIT then
          sertos_port_exit_critical crit_status;;
          mret SERTOS_STATUS_ERROR_TIMEOUT
        else
          sertos_port_exit_critical crit_status;;
          status ← sertos_scheduler_wait_list_block (Some wl) timeout;
          if decide (status <> SERTOS_STATUS_OK) then mret status
          else
            crit_status ← sertos_port_enter_critical;
            queue_wait_loop fuel a blocked wl timeout crit_status k
    end.

Definition queue_full (q : SertosQueue) : bool := queue_free_bytes (q_ring_buf q) <? q_item_size q.
Definition queue_empty (q : SertosQueue) : bool := ring_buffer_count (q_ring_buf q) <? q_item_size q.

(** [handle == NULL || item == NULL || magic] of the transfer operations. *)
Definition queue_args (handle item : ptr) : M Kernel (option (addr * addr)) :=
  match handle, item with
  | Some a, Some i =>
      ok ← gets (fun k => queue_magic_ok k a);
      mret (if (ok : bool) then Some (a, i) else None)
  | _, _ => mret None
  end.

Definition sertos_queue_send (handle item : ptr) (timeout : Z) : M Kernel SertosStatus :=
  args ← queue_args handle item;
  match args with
  | None => mret SERTOS_STATUS_ERROR_INVALID_PARAM
  | Some (a, i) =>
      crit_status ← sertos_port_enter_critical;
      queue_wait_loop loop_fuel a queue_full (LQueueSend a) timeout crit_status (fun crit_status =>
        queue_write a i;;
        unblocked ← sertos_scheduler_wait_list_unblock_highest (Some (LQueueRecv a));
        sertos_port_exit_critical crit_status;;
        running ← sertos_scheduler_is_running;
        when (bool_decide (unblocked <> None) && running) sertos_scheduler_reschedule;;
        mret SERTOS_STATUS_OK)
  end.

Definition sertos_queue_receive (handle item : ptr) (timeout : Z) : M Kernel SertosStatus :=
  args ← queue_args handle item;
  match args with
  | None => mret SERTOS_STATUS_ERROR_INVALID_PARAM
  | Some (a, i) =>
      crit_status ← sertos_port_enter_critical;
      queue_wait_loop loop_fuel a queue_empty (LQueueRecv a) timeout crit_status (fun crit_status =>
        queue_read a i;;
        unblocked ← sertos_scheduler_wait_list_unblock_highest (Some (LQueueSend a));
        sertos_port_exit_critical crit_status;;
        running ← sertos_scheduler_is_running;
        when (bool_decide (unblocked <> None) && running) sertos_scheduler_reschedule;;
        mret SERTOS_STATUS_OK)
  end.

Definition sertos_queue_peek (handle item : ptr) (timeout : Z) : M Kernel SertosStatus :=
  args ← queue_args handle item;
  match args with
  | None => mret SERTOS_STATUS_ERROR_INVALID_PARAM
  | Some (a, i) =>
      crit_status ← sertos_port_enter_critical;
      queue_wait_loop loop_fuel a queue_empty (LQueueRecv a) timeout crit_status (fun crit_status =>
        rb ← rd_queue a q_ring_buf;
        size ← rd_queue a q_item_size;
        modify (set mem (queue_peek_bytes rb i size));;
        sertos_port_exit_critical crit_status;;
        mret SERTOS_STATUS_OK)
  end.

(** ** Interrupt-context transfers; the flag stored through [out] is part of the result *)

Definition higher_prio_woken (unblocked : ptr) : M Kernel bool :=
  current ← sertos_scheduler_get_current_tcb;
  gets (fun k =>
    match unblocked, current with
    | Some u, Some c => priority (tcbs k c) <? priority (tcbs k u)
    | _, _ => false
    end).

Definition sertos_queue_send_from_isr (handle item : ptr) (out : bool) :
    M Kernel (SertosStatus * option bool) :=
  args ← queue_args handle item;
  match args with
  | None => mret (SERTOS_STATUS_ERROR_INVALID_PARAM, None)
  | Some (a, i) =>
      let woken b := if out then Some b else None in
      crit_status ← sertos_port_enter_critical;
      full ← rd_queue a queue_full;
      if (full : bool) then
        sertos_port_exit_critical crit_status;;
        mret (SERTOS_STATUS_ERROR_RESOURCE_BUSY, woken false)
      else
        queue_write a i;;
        unblocked ← sertos_scheduler_wait_list_unblock_highest (Some (LQueueRecv a));
        higher ← higher_prio_woken unblocked;
        sertos_port_exit_critical crit_status;;
        mret (SERTOS_STATUS_OK, woken higher)
  end.

Definition sertos_queue_receive_from_isr (handle item : ptr) (out : bool) :
    M Kernel (SertosStatus * option bool) :=
  args ← queue_args handle item;
  match args with
  | None => mret (SERTOS_STATUS_ERROR_INVALID_PARAM, None)
  | Some (a, i) =>
      let woken b := if out then Some b else None in
      crit_status ← sertos_port_enter_critical;
      empty ← rd_queue a queue_empty;
      if (empty : bool) then
        sertos_port_exit_critical crit_status;;
        mret (SERTOS_STATUS_ERROR_RESOURCE_BUSY, woken false)
      else
        queue_read a i;;
        unblocked ← sertos_scheduler_wait_list_unblock_highest (Some (LQueueSend a));
        higher ← higher_prio_woken unblocked;
        sertos_port_exit_critical crit_status;;
        mret (SERTOS_STATUS_OK, woken higher)
  end.

(** ** Queries and reset *)

Definition sertos_queue_get_count (handle : ptr) : M Kernel Z :=
  match handle with
  | None => mret 0
  | Some a =>
      ok ← gets (fun k => queue_magic_ok k a);
      if (ok : bool) then rd_queue a (fun q => ring_buffer_count (q_ring_buf q) / q_item_size q)
      else mret 0
  end.

Definition sertos_queue_get_spaces_available (handle : ptr) : M Kernel Z :=
  match handle with
  | None => mret 0
  | Some a =>
      ok ← gets (fun k => queue_magic_ok k a);
      if (ok : bool) then rd_queue a (fun q => queue_free_bytes (q_ring_buf q) / q_item_size q)
      else mret 0
  end.

Definition sertos_queue_reset (handle : ptr) : M Kernel SertosStatus :=
  match handle with
  | None => mret SERTOS_STATUS_ERROR_INVALID_PARAM
  | Some a =>
      ok ← gets (fun k => queue_magic_ok k a);
      if negb ok then mret SERTOS_STATUS_ERROR_INVALID_PARAM
      else
        crit_status ← sertos_port_enter_critical;
        upd_queue a (set q_ring_buf ring_buffer_clear);;
        sertos_port_exit_critical crit_status;;
        mret SERTOS_STATUS_OK
  end.

End queue.
