(* ===== verification/StreamBuffer.v ===== *)
(** Stream buffers (src/sertos_stream_buffer.c). *)
From S2P Require Import Prelude Effects Types Platform LinkedLists Kernel SchedCore Scheduler.

Definition SERTOS_STREAM_BUFFER_MAGIC_WORD : Z := 0x53545242.

(** [next_power_of_two] of this file (a copy of the queue's). *)
Fixpoint stream_next_power_of_two_loop (w : Z) (fuel : nat) (p value : Z) : option Z :=
  match fuel with
  | O => None
  | S fuel =>
      if p <? value then stream_next_power_of_two_loop w fuel (wrap w (Z.shiftl p 1)) value
      else Some p
  end.
Definition stream_next_power_of_two (w : Z) (fuel : nat) (value : Z) : option Z :=
  stream_next_power_of_two_loop w fuel 2 value.

Section stream_buffer.
Context `{PL : Platform} `{!Callbacks}.

Definition stream_magic_ok (b : SertosStreamBuffer) : bool := sb_magic b =? SERTOS_STREAM_BUFFER_MAGIC_WORD.

(** [Some a] when [handle] is the valid stream buffer [a]. *)
Definition is_valid_handle (handle : ptr) : M Kernel (option addr) :=
  match handle with
  | None => mret None
  | Some a => ok ← rd_stream a stream_magic_ok; mret (if (ok : bool) then Some a else None)
  end.

Definition is_send_params_valid (handle data : ptr) (length : Z) : M Kernel (option (addr * addr)) :=
  v ← is_valid_handle handle;
  mret match v, data with
       | Some a, Some d => if 0 <? length then Some (a, d) else None
       | _, _ => None
       end.

Definition is_recv_params_valid (handle buffer : ptr) (max_length : Z) :
    M Kernel (option (addr * addr)) :=
  v ← is_valid_handle handle;
  mret match v, buffer with
       | Some a, Some d => if 0 <? max_length then Some (a, d) else None
       | _, _ => None
       end.

Definition notify_unblocked_task (unblocked : ptr) : M Kernel unit :=
  running ← sertos_scheduler_is_running;
  when (bool_decide (unblocked <> None) && running) sertos_scheduler_reschedule.

(** [flag] is the value of [*out_higher_prio_woken], if the pointer is not NULL. *)
Definition update_higher_prio_woken (unblocked : ptr) (flag : option bool) : M Kernel (option bool) :=
  match unblocked, flag with
  | Some u, Some b =>
      current ← sertos_scheduler_get_current_tcb;
      higher ← gets (fun k =>
        match current with Some c => priority (tcbs k c) <? priority (tcbs k u) | None => false end);
      mret (Some (if (higher : bool) then true else b))
  | _, _ => mret flag
  end.

Definition stream_buffer_free_bytes (rb : RingBuffer) : Z :=
  let cap := ring_buffer_capacity rb in
  let cnt := ring_buffer_count rb in
  if cnt <? cap then cap - cnt else 0.

(** ** Creation and deletion *)

Definition sertos_stream_buffer_create_static (stream_buf storage_buffer : ptr)
    (storage_size trigger_level_bytes : Z) (out_handle : bool) : M Kernel (SertosStatus * ptr) :=
  match stream_buf, storage_buffer, out_handle with
  | Some a, Some st, true =>
      if storage_size <? 2 then mret (SERTOS_STATUS_ERROR_INVALID_PARAM, None)
      else
        match ring_buffer_init st storage_size with
        | None => mret (SERTOS_STATUS_ERROR_INVALID_PARAM, None)
        | Some rb =>
            upd_stream a (set sb_ring_buf (fun _ => rb));;
            let trigger_level_bytes := if trigger_level_bytes =? 0 then 1 else trigger_level_bytes in
            if ring_buffer_capacity rb <? trigger_level_bytes then
              mret (SERTOS_STATUS_ERROR_INVALID_PARAM, None)
            else
              upd_stream a (fun b => b <| sb_trigger_level_bytes := trigger_level_bytes |>
                                       <| sb_storage_buffer := Some st |>);;
              upd_heap (linked_list_init (LStreamSend a));;
              upd_heap (linked_list_init (LStreamRecv a));;
              upd_stream a (fun b => b <| sb_is_static := true |>
                                       <| sb_magic := SERTOS_STREAM_BUFFER_MAGIC_WORD |>);;
              mret (SERTOS_STATUS_OK, Some a)
        end
  | _, _, _ => mret (SERTOS_STATUS_ERROR_NULL_PTR, None)
  end.

Definition sertos_stream_buffer_create (buffer_size trigger_level_bytes : Z) (out_handle : bool) :
    M Kernel (SertosStatus * ptr) :=
  if negb out_handle then mret (SERTOS_STATUS_ERROR_NULL_PTR, None)
  else if buffer_size =? 0 then mret (SERTOS_STATUS_ERROR_INVALID_PARAM, None)
  else
    let needed_bytes := wrap port_size_bits (buffer_size + 1) in
    match stream_next_power_of_two port_size_bits loop_fuel needed_bytes with
    | None => stuck OutOfFuel
    | Some power_capacity =>
        stream_buf ← malloc sizeof_SertosStreamBuffer;
        match stream_buf with
        | None => mret (SERTOS_STATUS_ERROR_NO_MEMORY, None)
        | Some a =>
            storage ← malloc power_capacity;
            match storage with
            | None =>
                mfree (Some a);;
                mret (SERTOS_STATUS_ERROR_NO_MEMORY, None)
            | Some st =>
                r ← sertos_stream_buffer_create_static (Some a) (Some st) power_capacity
                      trigger_level_bytes true;
                if decide (r.1 <> SERTOS_STATUS_OK) then
                  mfree (Some st);;
                  mfree (Some a);;
                  mret r
                else
                  upd_stream a (set sb_is_static (fun _ => false));;
                  mret r
            end
        end
    end.

Definition sertos_stream_buffer_delete (handle : ptr) : M Kernel SertosStatus :=
  v ← is_valid_handle handle;
  match v with
  | None => mret SERTOS_STATUS_ERROR_INVALID_PARAM
  | Some a =>
      crit_status ← sertos_port_enter_critical;
      upd_stream a (set sb_magic (fun _ => 0));;
      unblock_all loop_fuel (LStreamSend a);;
      unblock_all loop_fuel (LStreamRecv a);;
      static ← rd_stream a sb_is_static;
      when (negb static) (
        st ← rd_stream a sb_storage_buffer;
        mfree st;;
        mfree (Some a));;
      sertos_port_exit_critical crit_status;;
      running ← sertos_scheduler_is_running;
      when running sertos_scheduler_reschedule;;
      mret SERTOS_STATUS_OK
  end.

(** ** Transfers *)

Definition stream_write (a : addr) (data : addr) (length : Z) : M Kernel Z :=
  r ← gets (fun k => ring_buffer_write data length (sb_ring_buf (streams k a)) (mem k));
  upd_stream a (set sb_ring_buf (fun _ => r.1.2));;
  modify (set mem (fun _ => r.2));;
  mret r.1.1.

Definition stream_read (a : addr) (buffer : addr) (max_length : Z) : M Kernel Z :=
  r ← gets (fun k => ring_buffer_read buffer max_length (sb_ring_buf (streams k a)) (mem k));
  upd_stream a (set sb_ring_buf (fun _ => r.1.2));;
  modify (set mem (fun _ => r.2));;
  mret r.1.1.

(** Wake the first reader when the trigger level is reached. *)
Definition wake_reader_at_trigger (a : addr) : M Kernel ptr :=
  reached ← rd_stream a (fun b => sb_trigger_level_bytes b <=? ring_buffer_count (sb_ring_buf b));
  if (reached : bool) then sertos_scheduler_wait_list_unblock_highest (Some (LStreamRecv a))
  else mret None.

(** The [while] of [sertos_stream_buffer_send], entered with interrupts masked; [k] is what
    follows it. *)
Fixpoint stream_send_loop (fuel : nat) (a : addr) (timeout crit_status : Z)
    (k : Z -> M Kernel Z) : M Kernel Z :=
  free ← rd_stream a (fun b => stream_buffer_free_bytes (sb_ring_buf b));
  if negb (free =? 0) then k crit_status
  else
    match fuel with
    | O => stuck OutOfFuel
    | S fuel =>
        if timeout =? SERTOS_NO_WAIT then
          sertos_port_exit_critical crit_status;;
          mret 0
        else
          sertos_port_exit_critical crit_status;;
          status ← sertos_scheduler_wait_list_block (Some (LStreamSend a)) timeout;
          crit_status ← sertos_port_enter_critical;
          ok ← rd_stream a stream_magic_ok;
          if bool_decide (status <> SERTOS_STATUS_OK) || negb ok then
            sertos_port_exit_critical crit_status;;
            mret 0
          else stream_send_loop fuel a timeout crit_status k
    end.

Definition sertos_stream_buffer_send (handle data : ptr) (length timeout : Z) : M Kernel Z :=
  args ← is_send_params_valid handle data length;
  match args with
  | None => mret 0
  | Some (a, d) =>
      crit_status ← sertos_port_enter_critical;
      stream_send_loop loop_fuel a timeout crit_status (fun crit_status =>
        bytes_sent ← stream_write a d length;
        unblocked ← wake_reader_at_trigger a;
        sertos_port_exit_critical crit_status;;
        notify_unblocked_task unblocked;;
        mret bytes_sent)
  end.

(** The [while] of [sertos_stream_buffer_receive]; [k] is what follows it, also after [break]. *)
Fixpoint stream_receive_loop (fuel : nat) (a : addr) (timeout crit_status : Z)
    (k : Z -> M Kernel Z) : M Kernel Z :=
  short ← rd_stream a (fun b => ring_buffer_count (sb_ring_buf b) <? sb_trigger_level_bytes b);
  if negb short then k crit_status
  else
    match fuel with
    | O => stuck OutOfFuel
    | S fuel =>
        if timeout =? SERTOS_NO_WAIT then k crit_status
        else
          sertos_port_exit_critical crit_status;;
          status ← sertos_scheduler_wait_list_block (Some (LStreamRecv a)) timeout;
          crit_status ← sertos_port_enter_critical;
          ok ← rd_stream a stream_magic_ok;
          if negb ok then
            sertos_port_exit_critical crit_status;;
            mret 0
          else if bool_decide (status <> SERTOS_STATUS_OK) then k crit_status
          else stream_receive_loop fuel a timeout crit_status k
    end.

Definition sertos_stream_buffer_receive (handle buffer : ptr) (max_length timeout : Z) : M Kernel Z :=
  args ← is_recv_params_valid handle buffer max_length;
  match args with
  | None => mret 0
  | Some (a, d) =>
      crit_status ← sertos_port_enter_critical;
      stream_receive_loop loop_fuel a timeout crit_status (fun crit_status =>
        bytes_received ← stream_read a d max_length;
        unblocked ← (if 0 <? bytes_received
                     then sertos_scheduler_wait_list_unblock_highest (Some (LStreamSend a))
                     else mret None);
        sertos_port_exit_critical crit_status;;
        notify_unblocked_task unblocked;;
        mret bytes_received)
  end.

Definition sertos_stream_buffer_send_from_isr (handle data : ptr) (length : Z) (out : bool) :
    M Kernel (Z * option bool) :=
  let flag := if out then Some false else None in
  args ← is_send_params_valid handle data length;
  match args with
  | None => mret (0, flag)
  | Some (a, d) =>
      crit_status ← sertos_port_enter_critical;
      bytes_sent ← stream_write a d length;
      flag' ←
        (if 0 <? bytes_sent then
           unblocked ← wake_reader_at_trigger a;
           update_higher_prio_woken unblocked flag
         else mret flag);
      sertos_port_exit_critical crit_status;;
      mret (bytes_sent, flag')
  end.

Definition sertos_stream_buffer_receive_from_isr (handle buffer : ptr) (max_length : Z) (out : bool) :
    M Kernel (Z * option bool) :=
  let flag := if out then Some false else None in
  args ← is_recv_params_valid handle buffer max_length;
  match args with
  | None => mret (0, flag)
  | Some (a, d) =>
      crit_status ← sertos_port_enter_critical;
      bytes_recv ← stream_read a d max_length;
      flag' ←
        (if 0 <? bytes_recv then
           unblocked ← sertos_scheduler_wait_list_unblock_highest (Some (LStreamSend a));
           update_higher_prio_woken unblocked flag
         else mret flag);
      sertos_port_exit_critical crit_status;;
      mret (bytes_recv, flag')
  end.

(** ** Trigger level, reset and queries *)

Definition sertos_stream_buffer_set_trigger_level (handle : ptr) (trigger_level_bytes : Z) :
    M Kernel SertosStatus :=
  v ← is_valid_handle handle;
  match v with
  | None => mret SERTOS_STATUS_ERROR_INVALID_PARAM
  | Some a =>
      let trigger_level_bytes := if trigger_level_bytes =? 0 then 1 else trigger_level_bytes in
      cap ← rd_stream a (fun b => ring_buffer_capacity (sb_ring_buf b));
      if cap <? trigger_level_bytes then mret SERTOS_STATUS_ERROR_INVALID_PARAM
      else
        crit_status ← sertos_port_enter_critical;
        upd_stream a (set sb_trigger_level_bytes (fun _ => trigger_level_bytes));;
        unblocked ← wake_reader_at_trigger a;
        sertos_port_exit_critical crit_status;;
        notify_unblocked_task unblocked;;
        mret SERTOS_STATUS_OK
  end.

Definition sertos_stream_buffer_reset (handle : ptr) : M Kernel SertosStatus :=
  v ← is_valid_handle handle;
  match v with
  | None => mret SERTOS_STATUS_ERROR_INVALID_PARAM
  | Some a =>
      crit_status ← sertos_port_enter_critical;
      upd_stream a (set sb_ring_buf ring_buffer_clear);;
      unblock_all loop_fuel (LStreamSend a);;
      sertos_port_exit_critical crit_status;;
      running ← sertos_scheduler_is_running;
      when running sertos_scheduler_reschedule;;
      mret SERTOS_STATUS_OK
  end.

Definition sertos_stream_buffer_bytes_available (handle : ptr) : M Kernel Z :=
  v ← is_valid_handle handle;
  match v with
  | None => mret 0
  | Some a => rd_stream a (fun b => ring_buffer_count (sb_ring_buf b))
  end.

Definition sertos_stream_buffer_spaces_available (handle : ptr) : M Kernel Z :=
  v ← is_valid_handle handle;
  match v with
  | None => mret 0
  | Some a => rd_stream a (fun b => stream_buffer_free_bytes (sb_ring_buf b))
  end.

Definition sertos_stream_buffer_is_empty (handle : ptr) : M Kernel bool :=
  v ← is_valid_handle handle;
  match v with
  | None => mret true
  | Some a => rd_stream a (fun b => ring_buffer_is_empty (sb_ring_buf b))
  end.

Definition sertos_stream_buffer_is_full (handle : ptr) : M Kernel bool :=
  v ← is_valid_handle handle;
  match v with
  | None => mret false
  | Some a => rd_stream a (fun b => ring_buffer_is_full (sb_ring_buf b))
  end.

End stream_buffer.
