(* ===== verification/CortexM3.v ===== *)
(** The Cortex-M3 port (src/port/arm/cortex-m3/). *)
From S2P Require Import Prelude Effects Types Platform PortFrame PortCritical CortexM Kernel.
From S2P Require Import Scheduler.

Definition CortexM3StackFrame : list slot :=
  [F_r4; F_r5; F_r6; F_r7; F_r8; F_r9; F_r10; F_r11; F_exc_return;
   F_r0; F_r1; F_r2; F_r3; F_r12; F_lr; F_pc; F_xpsr].

(** The assignments to [*frame], in order. *)
Definition initial_fields (entry param : ptr) : list (slot * Z) :=
  [(F_r4, 0x04040404); (F_r5, 0x05050505); (F_r6, 0x06060606); (F_r7, 0x07070707);
   (F_r8, 0x08080808); (F_r9, 0x09090909); (F_r10, 0x10101010); (F_r11, 0x11111111);
   (F_exc_return, CORTEX_M_EXC_RETURN_THREAD_PSP);
   (F_r0, u32 (uintptr param)); (F_r1, 0); (F_r2, 0); (F_r3, 0); (F_r12, 0); (F_lr, 0);
   (F_pc, u32 (uintptr entry)); (F_xpsr, CORTEX_M_DEFAULT_XPSR)].

Definition sertos_port_stack_init (stack_top stack_limit entry param : ptr) (m : Mem) : ptr * Mem :=
  match stack_top with
  | None => (None, m)
  | Some top =>
      let frame := frame_base 32 top (sizeof 4 CortexM3StackFrame) in
      (of_uintptr frame, assign 4 CortexM3StackFrame frame (initial_fields entry param) m)
  end.

Definition sertos_port_yield : CortexM -> CortexM := pend_switch.
Definition sertos_port_enter_critical : CortexM -> Z * CortexM := primask_enter.
Definition sertos_port_exit_critical : Z -> CortexM -> CortexM := primask_exit.
Definition sertos_port_tick_clock_hz : Z := 25000000.
Definition sertos_port_runtime_counter : Z -> CortexM -> Z * CortexM := dwt_counter.
Definition sertos_port_runtime_counter_init : CortexM -> CortexM := dwt_counter_init.
Definition sertos_port_tick_init : Z -> CortexM -> SertosStatus * CortexM :=
  systick_init sertos_port_tick_clock_hz.
Definition sertos_port_task_create_hook (tcb : addr) (port_context : ptr) (c : CortexM) : ptr * CortexM :=
  (port_context, c).
Definition sertos_port_task_delete_hook (tcb : addr) (port_context : ptr) (c : CortexM) : ptr * CortexM :=
  (port_context, c).
Definition SysTick_Handler `{PL : Platform} `{!Callbacks} : M Kernel unit :=
  running ← sertos_scheduler_is_running;
  when running sertos_scheduler_tick.
Definition sertos_port_stop_scheduler : CortexM -> CortexM := request_reset.

(** port_context.s *)
Definition SVC_Handler : list instr :=
  [LdrTcb R0 0; Ldmia R0 [R4; R5; R6; R7; R8; R9; R10; R11; LR]; MsrPsp R0; Isb;
   MovImm R1 2; MsrControl R1; Isb; Cpsie].
Definition PendSV_save : list instr :=
  [Cpsid; MrsPsp R0; Isb; Stmdb R0 [R4; R5; R6; R7; R8; R9; R10; R11; LR]; StrTcb R0].
Definition PendSV_restore : list instr :=
  [LdrTcb R2 0; Ldmia R2 [R4; R5; R6; R7; R8; R9; R10; R11; LR]; MsrPsp R2; Isb; Cpsie].

Definition port : CortexPort := {|
  stack_frame := CortexM3StackFrame;
  saved_regs := [R4; R5; R6; R7; R8; R9; R10; R11; LR];
  core_fpu := false;
  core_stack_init := sertos_port_stack_init;
  core_yield := sertos_port_yield;
  core_enter_critical := sertos_port_enter_critical;
  core_exit_critical := sertos_port_exit_critical;
  core_tick_clock_hz := sertos_port_tick_clock_hz;
  core_tick_init := sertos_port_tick_init;
  core_runtime_counter := sertos_port_runtime_counter;
  core_runtime_counter_init := sertos_port_runtime_counter_init;
  core_stop_scheduler := sertos_port_stop_scheduler;
  core_svc := SVC_Handler;
  core_save := PendSV_save;
  core_restore := PendSV_restore |}.

#[local] Existing Instance port.
Lemma m3_port_laws : CortexPortLaws.
Proof.
  split; [by apply primask_critical|done| |reflexivity|solve_save|solve_restore].
  solve_frame (take 9 CortexM3StackFrame) initial_fields.
Qed.
