(* ===== verification/SchedulerSpec.v ===== *)
(** Specifications of context switching, the preemption lock and the blocking operations. *)
From S2P Require Import Prelude Effects Types Platform LinkedLists Kernel Invariant SchedCore.
From S2P Require Import SchedCoreSpec TaskInfo Stats Timer Scheduler.

Section spec.
Context `{PL : Platform} `{!PlatformLaws} `{!Callbacks}.
Implicit Types (k : Kernel) (V : lview) (P : protocol Kernel) (t : addr) (ts : list addr).

(** ** States that the invariant does not tell apart *)

Definition runnable (s : SertosTaskState) : Prop :=
  s = SERTOS_TASK_STATE_READY \/ s = SERTOS_TASK_STATE_RUNNING.

(** Two TCBs that differ at most in being ready or running, and in what no list depends on. *)
Record tcb_compat (c c' : SertosTaskControlBlock) : Prop := Tcb_compat {
  compat_priority : priority c' = priority c;
  compat_delay : delay_ticks c' = delay_ticks c;
  compat_wait : wait_list c' = wait_list c;
  compat_state : state c' = state c \/ runnable (state c) /\ runnable (state c');
  compat_base : base_priority c' = base_priority c }.

#[export] Instance tcb_compat_refl : Reflexive tcb_compat.
Proof. intros c. split; auto. Qed.

#[export] Instance tcb_compat_trans : Transitive tcb_compat.
Proof.
  intros a b c [H1 H2 H3 H4 ?] [H5 H6 H7 H8 ?]. split; [congruence..| |congruence].
  destruct H4 as [H4|[? ?]], H8 as [H8|[? ?]]; rewrite ?H4, ?H8 in *; auto.
Qed.

(** Nothing but the states of runnable tasks, the run-time accounting and the current task
    changed. *)
Record only_dispatch k k' : Prop := Only_dispatch {
  od_heap : heap k' = heap k;
  od_bitmap : s_ready_bitmap k' = s_ready_bitmap k;
  od_tcbs : forall t, tcb_compat (tcbs k t) (tcbs k' t);
  od_sems : sems k' = sems k;
  od_mutexes : mutexes k' = mutexes k;
  od_timers : timers k' = timers k;
  od_queues : queues k' = queues k;
  od_streams : streams k' = streams k;
  od_mem : mem k' = mem k;
  od_running : s_is_running k' = s_is_running k;
  od_ticks : s_system_ticks k' = s_system_ticks k;
  od_slicing : s_time_slicing_enabled k' = s_time_slicing_enabled k;
  od_hook : s_tick_hook k' = s_tick_hook k;
  od_timers_on : s_timer_subsystem_initialized k' = s_timer_subsystem_initialized k }.

#[export] Instance only_dispatch_refl : Reflexive only_dispatch.
Proof. by split. Qed.

#[export] Instance only_dispatch_trans : Transitive only_dispatch.
Proof. intros k1 k2 k3 [] []. split; try congruence. intros t. by transitivity (tcbs k2 t). Qed.

Lemma kernel_ok_compat k k' V : only_dispatch k k' -> kernel_ok k V -> kernel_ok k' V.
Proof.
  intros [Hh Hb Ht _ _ _ _ _ _ _ _] [Hl Hbo Hq Hd Hr Hs Hrd Hdd Hw].
  split; rewrite ?Hh, ?Hb; try done.
  - intros p ts t Hp Hin. destruct (Hrd p ts t Hp Hin) as (?&?&Hst&?&?). destruct (Ht t) as [Ep Ed Ew Es].
    unfold ready_task. rewrite Ep, Ed, Ew. split_and!; try done; try lia.
    destruct Es as [->|[_ ?]]; [done|done].
  - intros ts t Hts Hin. destruct (Hdd ts t Hts Hin) as (Hst&?&?&?). destruct (Ht t) as [Ep Ed Ew Es].
    unfold delayed_task. rewrite Ep, Ed, Ew. split_and!; try done; try lia.
    destruct Es as [->|[Hx _]]; [done|]. destruct Hx; congruence.
  - intros l ts t Hf Hts Hin. destruct (Hw l ts t Hf Hts Hin) as (Hst&?&?&?).
    destruct (Ht t) as [Ep Ed Ew Es].
    unfold waiting_task. rewrite Ep, Ed, Ew. split_and!; try done; try lia.
    destruct Es as [->|[Hx _]]; [done|]. destruct Hx; congruence.
Qed.

Lemma kernel_ok_same k k' V :
  heap k' = heap k -> s_ready_bitmap k' = s_ready_bitmap k -> tcbs k' = tcbs k ->
  kernel_ok k V -> kernel_ok k' V.
Proof.
  intros Hh Hb Ht [Hl Hbo Hq Hd Hr Hs Hrd Hdd Hw].
  split; rewrite ?Hh, ?Hb; try done; unfold ready_task, delayed_task, waiting_task; by rewrite Ht.
Qed.

Lemma od_port k f : only_dispatch k (k <| port ::= f |>).
Proof. by split. Qed.
Lemma od_current k c : only_dispatch k (k <| sertos_current_tcb := c |>).
Proof. by split. Qed.
Lemma od_pending k b : only_dispatch k (k <| s_reschedule_pending := b |>).
Proof. by split. Qed.
Lemma od_flags k n b c :
  only_dispatch k (k <| s_lock_nesting := n |> <| s_reschedule_pending := b |> <| sertos_current_tcb := c |>).
Proof. by split. Qed.
Lemma od_switches k f : only_dispatch k (k <| s_total_switches ::= f |>).
Proof. by split. Qed.
Lemma od_tcb k t f : tcb_compat (tcbs k t) (f (tcbs k t)) -> only_dispatch k (k <| tcbs ::= alter f t |>).
Proof.
  intros Hf. split; try done. intros x. simpl. destruct (decide (t = x)) as [<-|Hne].
  - by rewrite fn_lookup_alter.
  - by rewrite fn_lookup_alter_ne.
Qed.

(** ** Critical sections and switches

    A calm protocol lets nothing happen around critical sections; a context switch may resume
    the task in any state the protocol relies on. *)
Class Calm P : Prop := calm : forall p k, p <> PYield ->
  guar P p k /\ forall k', rely P p k k' -> k' = k.

#[export] Instance quiet_calm : Calm quiet.
Proof. by split. Qed.

(** Switching away in states satisfying [G], resumed in states satisfying [R]. *)
Definition across_switch (G R : Kernel -> Prop) : protocol Kernel :=
  Protocol (fun p k k' => if decide (p = PYield) then R k' else k' = k)
           (fun p k => if decide (p = PYield) then G k else True).

#[export] Instance across_switch_calm G R : Calm (across_switch G R).
Proof. intros p k Hp. destruct p; naive_solver. Qed.

#[export] Instance serving_calm sv : Calm (serving sv).
Proof. by intros [] k Hp. Qed.

Lemma wp_enter P `{!Calm P} k (Q : Z -> Kernel -> Prop) :
  (forall c f, Q c (k <| port ::= f |>)) -> wp P sertos_port_enter_critical k Q.
Proof.
  intros HQ. unfold sertos_port_enter_critical. wp_steps.
  destruct (calm PEnter k ltac:(done)) as [Hg Hr]. apply wp_yield; [done|].
  intros s' Hs. rewrite (Hr s' Hs).
  wp_steps. apply HQ with (f := fun _ => (port_enter_critical (port k)).2).
Qed.

Lemma wp_exit P `{!Calm P} k c (Q : unit -> Kernel -> Prop) :
  (forall f, Q tt (k <| port ::= f |>)) -> wp P (sertos_port_exit_critical c) k Q.
Proof.
  intros HQ. unfold sertos_port_exit_critical. wp_steps.
  destruct (calm PExit (k <| port ::= port_exit_critical c |>) ltac:(done)) as [Hg Hr].
  apply wp_yield; [done|]. intros s' Hs. by rewrite (Hr s' Hs).
Qed.

Lemma wp_port_yield P k (Q : unit -> Kernel -> Prop) :
  (forall f, guar P PYield (k <| port ::= f |>) /\
     forall k', rely P PYield (k <| port ::= f |>) k' -> Q tt k') ->
  wp P sertos_port_yield k Q.
Proof.
  intros HQ. unfold sertos_port_yield. wp_steps. destruct (HQ port_yield). by apply wp_yield.
Qed.

(** ** Run-time accounting of a switch *)

Record accounted k k' : Prop := Accounted {
  acc_dispatch : only_dispatch k k';
  acc_current : sertos_current_tcb k' = sertos_current_tcb k;
  acc_states : forall t, state (tcbs k' t) = state (tcbs k t);
  acc_nesting : s_lock_nesting k' = s_lock_nesting k;
  acc_pending : s_reschedule_pending k' = s_reschedule_pending k }.

Lemma accounted_tcb k k' t f :
  (forall c, tcb_compat c (f c)) -> (forall c, state (f c) = state c) ->
  accounted k k' -> accounted k (k' <| tcbs ::= alter f t |>).
Proof.
  intros Hc Hs []. split; try done.
  - transitivity k'; [done|]. by apply od_tcb.
  - intros x. simpl. destruct (decide (t = x)) as [<-|Hne].
    + rewrite fn_lookup_alter. by rewrite Hs.
    + by rewrite fn_lookup_alter_ne.
Qed.

Lemma wp_stats_on_switch P k prev nxt (Q : unit -> Kernel -> Prop) :
  (forall k', accounted k k' -> Q tt k') -> wp P (sertos_stats_on_switch prev nxt) k Q.
Proof.
  intros HQ. unfold sertos_stats_on_switch, runtime_counter, sertos_scheduler_get_tick_count,
    sertos_port_runtime_counter. wp_steps.
  destruct (s_stats_enabled k); cbn [negb]; [|wp_steps; by apply HQ]. wp_steps.
  set (now := (port_runtime_counter _ _).1). set (k1 := k <| port := _ |>).
  assert (H1 : accounted k k1) by done. clearbody k1.
  assert (Hnext : forall k2, accounted k k2 -> wp P (match nxt with
    | Some n =>
        upd_tcb n (set run_time_last_entry (fun _ => now));;
        when (bool_decide (prev <> nxt)) (
          upd_tcb n (set switch_in_count (fun c => u32 (c + 1)));;
          modify (set s_total_switches (fun c => u32 (c + 1))))
    | None => mret tt
    end) k2 Q).
  { intros k2 H2. destruct nxt as [n|]; [|wp_steps; by apply HQ]. ksteps.
    assert (H3 : accounted k (k2 <| tcbs ::= alter (set run_time_last_entry (fun _ => now)) n |>)).
    { apply accounted_tcb; [|done|done]. intros c. split; auto. }
    apply wp_when; intros _; [|by apply HQ]. ksteps. apply HQ.
    eapply (accounted_tcb _ _ n (set switch_in_count (fun c => u32 (c + 1)))) in H3;
      [|intros c; split; auto|done].
    destruct H3 as [[] ????]. by split. }
  destruct prev as [p|]; [|wp_steps; by apply Hnext]. ksteps. apply Hnext.
  apply accounted_tcb; [|done|done]. intros c. split; auto.
Qed.

(** ** Dispatching *)

(** What [perform_switch] leaves: the selected task is current and running, the task that ran
    before is ready, every other task's state is as before. *)
Record dispatched k V (n : addr) k' : Prop := Dispatched {
  dis_only : only_dispatch k k';
  dis_current : sertos_current_tcb k' = Some n;
  dis_state : state (tcbs k' n) = SERTOS_TASK_STATE_RUNNING;
  dis_prev : forall p, sertos_current_tcb k = Some p -> p <> n ->
    state (tcbs k p) = SERTOS_TASK_STATE_RUNNING -> state (tcbs k' p) = SERTOS_TASK_STATE_READY;
  dis_others : forall t, t <> n -> sertos_current_tcb k <> Some t ->
    state (tcbs k' t) = state (tcbs k t);
  dis_blocked : forall t, t <> n -> state (tcbs k t) <> SERTOS_TASK_STATE_RUNNING ->
    state (tcbs k' t) = state (tcbs k t);
  dis_nesting : s_lock_nesting k' = s_lock_nesting k;
  dis_pending : s_reschedule_pending k' = s_reschedule_pending k }.

Lemma selected_ready k V n :
  kernel_ok k V -> selected V (Some n) -> runnable (state (tcbs k n)).
Proof.
  intros Hk (p & ts & Hp & Hts & _). destruct (ok_ready _ _ Hk _ _ n Hts) as (_&_&?&_); [by left|done].
Qed.

Lemma wp_perform_switch P k V (Q : ptr -> Kernel -> Prop) :
  kernel_ok k V ->
  (forall n k', selected V (Some n) -> dispatched k V n k' -> Q (Some n) k') ->
  (selected V None -> Q (sertos_current_tcb k) k) ->
  wp P sertos_scheduler_perform_switch k Q.
Proof.
  intros Hk HQ Hnone. unfold sertos_scheduler_perform_switch. wp_steps.
  apply (wp_select _ _ V); [apply Hk|apply Hk|apply Hk|]. intros r Hr.
  destruct r as [n|]; [|wp_steps; by apply Hnone].
  pose proof (selected_ready _ _ _ Hk Hr) as Hn. apply wp_bind.
  assert (Hrest : forall k1, only_dispatch k k1 -> sertos_current_tcb k1 = sertos_current_tcb k ->
    (forall p, sertos_current_tcb k = Some p -> state (tcbs k p) = SERTOS_TASK_STATE_RUNNING ->
       state (tcbs k1 p) = SERTOS_TASK_STATE_READY) ->
    (forall t, sertos_current_tcb k <> Some t \/ state (tcbs k t) <> SERTOS_TASK_STATE_RUNNING ->
       state (tcbs k1 t) = state (tcbs k t)) ->
    s_lock_nesting k1 = s_lock_nesting k -> s_reschedule_pending k1 = s_reschedule_pending k ->
    wp P (modify (set sertos_current_tcb (fun _ => Some n));;
      upd_tcb n (set state (fun _ => SERTOS_TASK_STATE_RUNNING));;
      sertos_stats_on_switch (sertos_current_tcb k) (Some n)) k1
      (fun _ k2 => wp P (gets sertos_current_tcb) k2 Q)).
  { intros k1 H1 Hcur Hprev Hoth Hnest Hpend. ksteps. apply wp_stats_on_switch.
    set (k2 := k1 <| sertos_current_tcb := _ |> <| tcbs ::= _ |>). intros k3 [H3 Hc3 Hs3 Hn3 Hp3].
    assert (Hst : forall t, t <> n -> state (tcbs k3 t) = state (tcbs k1 t)).
    { intros t Ht. rewrite Hs3. simpl. by rewrite fn_lookup_alter_ne. }
    assert (H2 : only_dispatch k1 k2).
    { transitivity (k1 <| sertos_current_tcb := Some n |>); [by apply od_current|]. apply od_tcb.
      split; try done. right. split; [|by right]. simpl.
      destruct (od_tcbs _ _ H1 n) as [_ _ _ [->|[_ ?]]]; done. }
    wp_steps. rewrite Hc3. apply HQ; [done|]. split.
    - transitivity k1; [done|]. by transitivity k2.
    - by rewrite Hc3.
    - rewrite Hs3. simpl. by rewrite fn_lookup_alter.
    - intros p Hp Hne Hrun. rewrite Hst by done. by apply Hprev.
    - intros t Hne Hcr. rewrite Hst by done. apply Hoth. by left.
    - intros t Hne Hcr. rewrite Hst by done. apply Hoth. by right.
    - by rewrite Hn3.
    - by rewrite Hp3. }
  destruct (sertos_current_tcb k) as [p|] eqn:Hcur; apply wp_bind; [|by apply wp_ret, Hrest; auto].
  ksteps. apply wp_when; intros Hb.
  - apply bool_decide_eq_true in Hb. apply wp_modify, Hrest; try done.
    + apply od_tcb. split; try done. right. simpl. rewrite Hb. split; [by right|by left].
    + intros p' [= <-] _. simpl. by rewrite fn_lookup_alter.
    + intros t Hne. simpl. rewrite fn_lookup_alter_ne; [done|]. intros ->. by destruct Hne as [[]|[]].
  - apply bool_decide_eq_false in Hb. apply Hrest; try done. intros p' [= <-] ?. done.
Qed.

(** Selection is a function of the view. *)
Lemma selected_unique V r r' : selected V r -> selected V r' -> r = r'.
Proof.
  intros Hr Hr'. destruct r as [n|], r' as [n'|]; simpl in *; try done.
  - destruct Hr as (p & ts & Hp & Hts & Hhi), Hr' as (p' & ts' & Hp' & Hts' & Hhi').
    destruct (Z.lt_trichotomy p p') as [Hlt|[->|Hlt]].
    + specialize (Hhi p' ltac:(lia)). congruence.
    + congruence.
    + specialize (Hhi' p ltac:(lia)). congruence.
  - destruct Hr as (p & ts & Hp & Hts & _). specialize (Hr' p Hp). congruence.
  - destruct Hr' as (p & ts & Hp & Hts & _). specialize (Hr p Hp). congruence.
Qed.

(** What a context switch request leaves when the scheduler is not locked and [r] is the
    task selected: on a host port the switch is made at once, on a processor it is left to the
    switch interrupt, which runs [perform_switch]. *)
Record switched k V (r : ptr) k' : Prop := Switched {
  sw_only : only_dispatch k k';
  sw_nesting : s_lock_nesting k' = s_lock_nesting k;
  sw_pending : s_reschedule_pending k' = s_reschedule_pending k;
  sw_same : r = None \/ r = sertos_current_tcb k \/ port_host = false ->
    sertos_current_tcb k' = sertos_current_tcb k /\ tcbs k' = tcbs k;
  sw_switch : forall n, r = Some n -> r <> sertos_current_tcb k -> port_host = true ->
    dispatched k V n k' }.

Lemma switched_port k V r f : r = None \/ r = sertos_current_tcb k \/ port_host = false ->
  switched k V r (k <| port ::= f |>).
Proof.
  intros Hr. split; try done. intros n -> Hne Hh. exfalso.
  destruct Hr as [?|[?|?]]; congruence.
Qed.

Lemma dispatched_port_pre k V n k' f : dispatched (k <| port ::= f |>) V n k' -> dispatched k V n k'.
Proof. intros [Ho Hc Hs Hp Hot Hb Hn Hpe]. split; try done. transitivity (k <| port ::= f |>); [by split|done]. Qed.

Lemma dispatched_port_post k V n k' g : dispatched k V n k' -> dispatched k V n (k' <| port ::= g |>).
Proof. intros [Ho Hc Hs Hp Hot Hb Hn Hpe]. split; try done. transitivity k'; [done|by split]. Qed.

(** What the requester continues with: at once when there is nothing to switch to, otherwise
    when it is resumed. *)
Definition after_switch P (r : ptr) k k' (Q : unit -> Kernel -> Prop) : Prop :=
  if decide (r = None \/ r = sertos_current_tcb k) then Q tt k'
  else guar P PYield k' /\ forall k'', rely P PYield k' k'' -> Q tt k''.

Lemma wp_switch_context P `{!Calm P} k V (Q : unit -> Kernel -> Prop) :
  kernel_ok k V ->
  (0 < s_lock_nesting k -> Q tt (k <| s_reschedule_pending := true |>)) ->
  (s_lock_nesting k <= 0 -> forall r k', selected V r -> switched k V r k' -> after_switch P r k k' Q) ->
  wp P sertos_scheduler_switch_context k Q.
Proof.
  intros Hk Hlocked HQ. unfold sertos_scheduler_switch_context. wp_steps.
  destruct (Z.ltb_spec 0 (s_lock_nesting k)) as [Hn|Hn]; wp_steps; [by apply Hlocked|].
  specialize (HQ Hn). apply wp_enter; [done|]. intros c f. wp_steps.
  assert (Hk1 : kernel_ok (k <| port ::= f |>) V) by (eapply kernel_ok_compat, Hk; by split).
  apply (wp_select _ _ V); [apply Hk1|apply Hk1|apply Hk1|]. intros r Hr.
  destruct r as [n|]; wp_steps.
  2: { apply wp_exit; [done|]. intros g. specialize (HQ None _ Hr (switched_port k V None (fun p => g (f p)) (or_introl eq_refl))).
       unfold after_switch in HQ. by rewrite decide_True in HQ by by left. }
  change (sertos_current_tcb (k <| port ::= f |>)) with (sertos_current_tcb k).
  case_decide as Hne; wp_steps.
  - assert (Hrest : forall k1, switched k V (Some n) k1 ->
      wp P (sertos_port_exit_critical c) k1 (fun _ k2 => wp P sertos_port_yield k2 Q)).
    { intros k1 Hsw. apply wp_exit; [done|]. intros g. apply wp_port_yield. intros g'.
      assert (Hsw' : switched k V (Some n) (k1 <| port ::= g |> <| port ::= g' |>)).
      { destruct Hsw as [[] ?? Hsame Hswi]. split; try done.
        intros m Hm Hm' Hh. by apply dispatched_port_post, dispatched_port_post, Hswi. }
      specialize (HQ _ _ Hr Hsw'). unfold after_switch in HQ.
      rewrite decide_False in HQ; [done|]. by intros [?|?]. }
    apply wp_when; intros Hh.
    + wp_steps. apply (wp_perform_switch _ _ V); [done| |].
      * intros m k1 Hm Hd. pose proof (selected_unique _ _ _ Hr Hm) as [= <-]. wp_steps.
        apply Hrest. pose proof (dispatched_port_pre _ _ _ _ _ Hd) as Hd'.
        destruct Hd' as [[] ???????]. split; try done.
        -- intros [?|[?|?]]; congruence.
        -- intros m [= <-] _ _. by eapply dispatched_port_pre.
      * intros Hnone. by pose proof (selected_unique _ _ _ Hr Hnone).
    + wp_steps. apply Hrest. apply switched_port. by right; right.
  - apply wp_exit; [done|]. intros g.
    specialize (HQ _ _ Hr (switched_port k V (Some n) (fun p => g (f p)) (or_intror (or_introl Hne)))).
    unfold after_switch in HQ. by rewrite decide_True in HQ by by right.
Qed.

(** What the machine does with a request for a context switch: a host port has made the switch
    when it is asked to let the other task run; a processor takes the switch interrupt (PendSV,
    the trap of a machine software interrupt), whose handler runs [perform_switch]. *)
Definition switch_taken k : option Kernel :=
  if port_host then Some k else snd <$> exec sertos_scheduler_perform_switch k.

(** On either kind of machine the selected task is dispatched then. *)
Lemma switched_taken k V n k' :
  kernel_ok k V -> selected V (Some n) -> switched k V (Some n) k' -> sertos_current_tcb k <> Some n ->
  exists k2, switch_taken k' = Some k2 /\ dispatched k V n k2.
Proof.
  intros Hk Hr [Ho Hn Hp Hsame Hsw] Hne. unfold switch_taken. destruct port_host eqn:Hh.
  - exists k'. split; [done|]. by apply Hsw.
  - destruct (Hsame ltac:(auto)) as [Hcur Ht].
    destruct (proj1 (wp_exec sertos_scheduler_perform_switch k' (fun _ k2 => dispatched k' V n k2)))
      as (r & k2 & He & [Ho2 ? ? Hpr Hot Hbl ??]).
    { apply (wp_perform_switch _ _ V); [by eapply kernel_ok_compat| |].
      - intros m k2 Hm. by pose proof (selected_unique _ _ _ Hr Hm) as [= <-].
      - intros Hm. by pose proof (selected_unique _ _ _ Hr Hm). }
    exists k2. rewrite He. split; [done|]. rewrite Ht in *. rewrite Hcur in *. split; try done; [by transitivity k'|congruence..].
Qed.

(** Without interference. *)
Lemma after_switch_quiet r k k' (Q : unit -> Kernel -> Prop) : Q tt k' -> after_switch quiet r k k' Q.
Proof. intros HQ. unfold after_switch. case_decide; [done|]. split; [done|]. by intros ? ->. Qed.

(** ** The preemption lock *)

Lemma wp_lock k (Q : unit -> Kernel -> Prop) :
  (forall f, Q tt (k <| port ::= f |> <| s_lock_nesting ::= fun n => u32 (n + 1) |>)) ->
  wp quiet sertos_scheduler_lock k Q.
Proof.
  intros HQ. unfold sertos_scheduler_lock. wp_steps. apply wp_enter; [apply _|]. intros c f. wp_steps.
  apply wp_exit; [apply _|]. intros g. exact (HQ (fun p => g (f p))).
Qed.

Lemma wp_unlock P `{!Calm P} k V (Q : unit -> Kernel -> Prop) :
  kernel_ok k V -> 0 <= s_lock_nesting k ->
  (s_lock_nesting k = 1 -> s_reschedule_pending k = true ->
   forall r k', selected V r ->
   switched (k <| s_lock_nesting := 0 |> <| s_reschedule_pending := false |>) V r k' ->
   after_switch P r k k' Q) ->
  (s_lock_nesting k <> 1 \/ s_reschedule_pending k = false ->
   forall f, Q tt (k <| port ::= f |> <| s_lock_nesting := Z.max 0 (s_lock_nesting k - 1) |>)) ->
  wp P sertos_scheduler_unlock k Q.
Proof.
  intros Hk Hn Hlast Hother. unfold sertos_scheduler_unlock. wp_steps. apply wp_enter; [done|]. intros c f.
  wp_steps. rsimpl.
  destruct (Z.ltb_spec 0 (s_lock_nesting k)) as [Hpos|Hz]; wp_steps; rsimpl.
  - destruct (Z.eqb_spec (s_lock_nesting k - 1) 0) as [H1|H1];
      destruct (s_reschedule_pending k) eqn:Hp; cbn [andb]; wp_steps.
    + apply wp_exit; [done|]. intros g. wp_steps.
      apply (wp_switch_context _ _ V).
      * eapply kernel_ok_compat, Hk. by split.
      * simpl. lia.
      * intros _ r k' Hr Hsw. apply (Hlast ltac:(lia) eq_refl r k' Hr).
        destruct Hsw as [[] Hnn Hpp Hs Hd]. split; try done.
        -- rewrite Hnn. simpl. lia.
        -- intros n Hn1 Hn2 Hn3. destruct (Hd n Hn1 Hn2 Hn3) as [[] ???? ? Hq1 Hq2].
           split; try done. rewrite Hq1. simpl. lia.
    + apply wp_exit; [done|]. intros g. wp_steps.
      specialize (Hother (or_intror eq_refl) (fun p => g (f p))). rewrite Z.max_r in Hother by lia. exact Hother.
    + apply wp_exit; [done|]. intros g. wp_steps.
      assert (s_lock_nesting k <> 1) as Hne by lia.
      specialize (Hother (or_introl Hne) (fun p => g (f p))). rewrite Z.max_r in Hother by lia. exact Hother.
    + apply wp_exit; [done|]. intros g. wp_steps.
      specialize (Hother (or_intror eq_refl) (fun p => g (f p))). rewrite Z.max_r in Hother by lia. exact Hother.
  - apply wp_exit; [done|]. intros g. wp_steps.
    assert (s_lock_nesting k <> 1) as Hne by lia.
    specialize (Hother (or_introl Hne) (fun p => g (f p))).
    replace (Z.max 0 (s_lock_nesting k - 1)) with (s_lock_nesting k) in Hother by lia.
    destruct k. exact Hother.
Qed.

(** ** Rescheduling *)

(** The selected task outranks the current one, or there is no current one. *)
Definition outranks k (r : ptr) : bool :=
  match r, sertos_current_tcb k with
  | Some n, Some c => priority (tcbs k c) <? priority (tcbs k n)
  | Some n, None => true
  | None, _ => false
  end.

Lemma outranks_not_current k n : outranks k (Some n) = true -> Some n <> sertos_current_tcb k.
Proof.
  unfold outranks. destruct (sertos_current_tcb k) as [c|]; [|done]. intros Hlt [= <-].
  apply Z.ltb_lt in Hlt. lia.
Qed.

Lemma set_port_id k : k <| port ::= fun p => p |> = k.
Proof. by destruct k. Qed.

Lemma wp_reschedule P `{!Calm P} k V (Q : unit -> Kernel -> Prop) :
  kernel_ok k V ->
  (s_is_running k = false \/ (exists r, selected V r /\ outranks k r = false) ->
   forall f, Q tt (k <| port ::= f |>)) ->
  (s_is_running k = true -> forall n, selected V (Some n) -> outranks k (Some n) = true ->
   (0 < s_lock_nesting k -> forall f, Q tt (k <| port ::= f |> <| s_reschedule_pending := true |>)) /\
   (s_lock_nesting k <= 0 -> forall k', switched k V (Some n) k' ->
      guar P PYield k' /\ forall k'', rely P PYield k' k'' -> Q tt k'')) ->
  wp P sertos_scheduler_reschedule k Q.
Proof.
  intros Hk Hno Hsw. unfold sertos_scheduler_reschedule. wp_steps.
  destruct (s_is_running k) eqn:Hrun; cbn [negb]; wp_steps.
  2: { rewrite <-(set_port_id k). apply Hno. by left. }
  apply wp_enter; [done|]. intros c f. wp_steps.
  assert (Hk1 : kernel_ok (k <| port ::= f |>) V) by (eapply kernel_ok_compat, Hk; by split).
  apply (wp_select _ _ V); [apply Hk1|apply Hk1|apply Hk1|]. intros r Hr. wp_steps. rsimpl.
  match goal with |- wp _ (if ?b then _ else _) _ _ =>
    replace b with (outranks k r) by (unfold outranks; destruct r; [by destruct (sertos_current_tcb k)|done]) end.
  destruct (outranks k r) eqn:Ho.
  - destruct r as [n|]; [|done]. destruct (Hsw eq_refl n Hr Ho) as [Hlock Hgo]. wp_steps.
    apply wp_exit; [done|]. intros g.
    apply (wp_switch_context _ _ V); [eapply kernel_ok_compat, Hk; by split| |].
    + intros Hn. exact (Hlock Hn (fun p => g (f p))).
    + intros Hn r' k' Hr' Hs. pose proof (selected_unique _ _ _ Hr Hr') as <-.
      pose proof (outranks_not_current _ _ Ho) as Hne. unfold after_switch.
      rewrite decide_False by (by intros [?|?]). apply Hgo; [done|].
      destruct Hs as [[] ?? Hsame Hswi]. split; try done.
      intros m Hm Hm' Hh. apply (dispatched_port_pre k V m k' (fun p => g (f p))). by apply Hswi.
  - apply wp_exit; [done|]. intros g. apply (Hno ltac:(by right; exists r) (fun p => g (f p))).
Qed.

Lemma wp_reschedule_quiet k V (Q : unit -> Kernel -> Prop) :
  kernel_ok k V -> (forall k', only_dispatch k k' -> Q tt k') ->
  wp quiet sertos_scheduler_reschedule k Q.
Proof.
  intros Hk HQ. apply (wp_reschedule _ _ V); [done| |].
  - intros _ f. apply HQ, od_port.
  - intros _ n _ _. split.
    + intros _ f. apply HQ. by split.
    + intros _ k' Hsw. split; [done|]. intros k'' ->. apply HQ, Hsw.
Qed.

(** [if (sertos_scheduler_is_running()) sertos_scheduler_reschedule();] *)
Lemma wp_reschedule_if_running k V (b : bool) (Q : unit -> Kernel -> Prop) :
  kernel_ok k V -> (forall k', only_dispatch k k' -> Q tt k') ->
  wp quiet (when b sertos_scheduler_reschedule) k Q.
Proof.
  intros Hk HQ. apply wp_when; intros _; [by apply (wp_reschedule_quiet _ V)|]. by apply HQ.
Qed.
End spec.
