(* ===== verification/BlockSpec.v ===== *)
(** Specifications of the operations that block the running task. *)
From S2P Require Import Prelude Effects Types Platform LinkedLists Kernel Invariant SchedCore.
From S2P Require Import SchedCoreSpec DelaySpec TaskInfo Stats Timer Scheduler SchedulerSpec.

(** [t] is a member of the list [l]. *)
Definition member (V : lview) (l : listid) (t : addr) : Prop := exists ts, V l = Some ts /\ t ∈ ts.

Lemma member_insert V l ts l' t :
  member (<[l := Some ts]> V) l' t <-> (l = l' /\ t ∈ ts) \/ (l <> l' /\ member V l' t).
Proof.
  unfold member. destruct (decide (l = l')) as [<-|Hne].
  - rewrite fn_lookup_insert. naive_solver.
  - rewrite fn_lookup_insert_ne by done. naive_solver.
Qed.

Lemma member_same V V' l t : V' l = V l -> (member V' l t <-> member V l t).
Proof. unfold member. by intros ->. Qed.

Section spec.
Context `{PL : Platform} `{!PlatformLaws} `{!Callbacks}.
Implicit Types (k : Kernel) (V : lview) (P : protocol Kernel) (t c : addr) (ts : list addr).

(** A task leaves its ready queue to wait, as [f] records in its TCB. *)
Record blocks k V c (f : SertosTaskControlBlock -> SertosTaskControlBlock) V' : Prop := Blocks {
  bl_state : state (f (tcbs k c)) = SERTOS_TASK_STATE_BLOCKED;
  bl_priority : priority (f (tcbs k c)) = priority (tcbs k c);
  bl_delay : 0 <= delay_ticks (f (tcbs k c)) < 2 ^ 32;
  bl_event : forall l, wait_list (f (tcbs k c)) = Some l -> link_of l = FEvent /\ member V' l c;
  bl_ready : forall q x, member V' (LReady q) x -> member V (LReady q) x /\ x <> c;
  bl_delayed : forall x, member V' LDelay x <->
    member V LDelay x \/ x = c /\ 0 < delay_ticks (f (tcbs k c));
  bl_waiting : forall l x, link_of l = FEvent -> member V' l x <->
    member V l x \/ x = c /\ wait_list (f (tcbs k c)) = Some l;
  bl_defined : forall l, is_Some (V l) -> is_Some (V' l);
  bl_suspended : V' LSuspended = V LSuspended;
  bl_timers : V' LTimers = V LTimers;
  bl_waits : forall l, link_of l = FEvent -> V' l = V l \/ exists ws, V l = Some ws /\
    V' l = Some (insert_by_priority (fun x => priority (tcbs k x)) c ws);
  bl_stays : forall q x, member V (LReady q) x -> x <> c -> member V' (LReady q) x }.

Lemma kernel_ok_blocks k V c f V' h b p :
  kernel_ok k V -> member V (LReady p) c -> blocks k V c f V' ->
  lists_ok h V' -> bits_ok b V' -> kernel_ok (resched k h b (alter f c)) V'.
Proof.
  intros Hk (ts & Hts & Hc) [Hst Hpr Hd He Hr Hdl Hw Hdef Hs] Hh Hb.
  destruct (ok_ready _ _ Hk _ _ _ Hts Hc) as (Hp & Hpc & Hrun & Hwl & Hdc).
  assert (Hne : forall x, x <> c -> alter f c (tcbs k) x = tcbs k x) by (intros; by apply fn_lookup_alter_ne).
  assert (Heq : alter f c (tcbs k) c = f (tcbs k c)) by apply fn_lookup_alter.
  unfold resched. split; rsimpl; try done.
  - intros q Hq. by apply Hdef, (ok_queues k).
  - by apply Hdef, (ok_delay_list k).
  - by apply Hdef, (ok_registry_list k).
  - rewrite Hs. apply Hk.
  - intros q us x Hus Hx. destruct (Hr q x) as [(us' & Hus' & Hx') Hxc]; [by exists us|].
    unfold ready_task. rsimpl. rewrite Hne by done. by apply (ok_ready k V Hk q us').
  - intros us x Hus Hx. unfold delayed_task. rsimpl.
    destruct (proj1 (Hdl x)) as [(us' & Hus' & Hx')|[-> Hpos]]; [by exists us| |].
    + destruct (ok_delayed _ _ Hk _ _ Hus' Hx') as (Hbx & ? & ? & Hwx).
      assert (Hxc : x <> c) by (intros ->; destruct Hrun; congruence).
      rewrite Hne by done. split_and!; try done; try lia.
      intros l Hl. destruct (Hwx l Hl) as [Hf Hm]. split; [done|]. apply Hw; [done|]. by left.
    + rewrite Heq, Hpr. split_and!; try done; try lia.
  - intros l us x Hf Hus Hx. unfold waiting_task. rsimpl.
    destruct (proj1 (Hw l x Hf)) as [(us' & Hus' & Hx')|[-> Hwc]]; [by exists us| |].
    + destruct (ok_waiting _ _ Hk _ _ _ Hf Hus' Hx') as (Hbx & ? & ? & Hdx).
      assert (Hxc : x <> c) by (intros ->; destruct Hrun; congruence).
      rewrite Hne by done. split_and!; try done; try lia.
      destruct Hdx as [?|Hm]; [by left|right]. apply Hdl. by left.
    + rewrite Heq, Hpr. split_and!; try done; try lia.
      destruct (decide (delay_ticks (f (tcbs k c)) = 0)) as [?|?]; [by left|right].
      apply Hdl. right. split; [done|lia].
Qed.

(** A runnable task waits for nothing. *)
Lemma ready_detached k V p t f :
  kernel_ok k V -> member V (LReady p) t -> f = FState \/ f = FEvent ->
  forall l us, V l = Some us -> link_of l = f -> l <> LReady p -> t ∉ us.
Proof.
  intros Hk (ts & Hts & Ht) Hf l us Hl Hlf Hne Hin.
  destruct (ok_ready _ _ Hk _ _ _ Hts Ht) as (_ & _ & Hrun & _).
  destruct (decide (f = FEvent)) as [->|HnE].
  - destruct (ok_waiting _ _ Hk _ _ _ Hlf Hl Hin) as (Hb & _). destruct Hrun; congruence.
  - destruct Hf as [->|?]; [|done].
    apply Hne. by eapply (ok_disjoint _ _ (ok_lists _ _ Hk)).
Qed.

(** ** [sertos_scheduler_delay] *)

Definition delay_view (c : addr) (p : Z) (ts ds : list addr) (V : lview) : lview :=
  <[LDelay := Some (ds ++ [c])]> (<[LReady p := Some ts]> V).

Definition delay_tcb (n : Z) (t : SertosTaskControlBlock) : SertosTaskControlBlock :=
  t <| state := SERTOS_TASK_STATE_BLOCKED |> <| delay_ticks := n |>.

Lemma blocks_delay k V c p ts1 ts2 ds n :
  kernel_ok k V -> V (LReady p) = Some (ts1 ++ c :: ts2) -> V LDelay = Some ds ->
  0 < n < 2 ^ 32 -> blocks k V c (delay_tcb n) (delay_view c p (ts1 ++ ts2) ds V).
Proof.
  intros Hk Hts Hds Hn. pose proof (lists_ok_nodup _ _ _ _ (ok_lists _ _ Hk) Hts) as Hnd.
  assert (Hc : member V (LReady p) c) by (eexists; split; [done|set_solver]).
  destruct (ok_ready _ _ Hk _ _ c Hts) as (Hp & Hpc & Hrun & Hwl & Hdc); [set_solver|].
  assert (Hmid : forall x, x ∈ ts1 ++ ts2 -> x ∈ ts1 ++ c :: ts2 /\ x <> c).
  { intros x Hx. split; [set_solver|]. intros ->. apply NoDup_app in Hnd as (_ & Hd & Hnd).
    apply NoDup_cons in Hnd as [? _]. apply elem_of_app in Hx as [Hx|Hx]; [|done].
    apply (Hd c Hx). by left. }
  split; try done; unfold delay_view.
  - simpl. lia.
  - intros l Hl. simpl in Hl. congruence.
  - intros q x. rewrite member_insert. intros [[? _]|[_ Hm]]; [done|].
    apply member_insert in Hm as [[[= <-] Hx]|[Hne Hm]].
    + apply Hmid in Hx as [? ?]. split; [by eexists|done].
    + split; [done|]. intros ->. destruct Hm as (us & Hus & Hx).
      by eapply (ready_detached k V p c FState Hk Hc (or_introl eq_refl) (LReady q)).
  - intros x. rewrite member_insert, elem_of_app, list_elem_of_singleton. unfold member at 2. simpl.
    rewrite Hds. split; [intros [[_ [?|?]]|[? _]]|intros [(?&[= <-]&?)|[? _]]]; eauto; try done.
    right. split; [done|lia].
  - intros l x Hf. assert (LDelay <> l /\ LReady p <> l) as [? ?] by (split; by intros <-).
    rewrite (member_same V); [|by rewrite !fn_lookup_insert_ne]. simpl. rewrite Hwl. naive_solver.
  - intros l Hl. destruct (decide (LDelay = l)) as [<-|]; [by rewrite fn_lookup_insert|].
    rewrite fn_lookup_insert_ne by done. destruct (decide (LReady p = l)) as [<-|]; [by rewrite fn_lookup_insert|].
    by rewrite fn_lookup_insert_ne.
  - intros l Hf. left. by rewrite !fn_lookup_insert_ne by (by intros <-).
  - intros q x (us & Hus & Hx) Hxc. apply member_insert. right. split; [done|]. apply member_insert.
    destruct (decide (LReady p = LReady q)) as [[= <-]|?]; [left|right; split; [done|by exists us]].
    split; [done|]. simplify_eq. set_solver.
Qed.

Lemma wp_delay P `{!Calm P} k V c p ts1 ts2 ds n (Q : SertosStatus -> Kernel -> Prop) :
  kernel_ok k V -> s_is_running k = true -> sertos_current_tcb k = Some c ->
  V (LReady p) = Some (ts1 ++ c :: ts2) -> V LDelay = Some ds -> 0 < n < 2 ^ 32 ->
  (forall h b f, let k1 := resched (k <| port ::= f |>) h b (alter (delay_tcb n) c) in
     kernel_ok k1 (delay_view c p (ts1 ++ ts2) ds V) ->
     wp P sertos_scheduler_switch_context k1 (fun _ k' => Q SERTOS_STATUS_OK k')) ->
  wp P (sertos_scheduler_delay n) k Q.
Proof.
  intros Hk Hrun Hcur Hts Hds Hn HQ. unfold sertos_scheduler_delay.
  rewrite (proj2 (Z.eqb_neq _ _)) by lia. wp_steps. rewrite Hrun, Hcur. cbn [negb orb is_null].
  wp_steps. apply wp_enter; [done|]. intros cr f. wp_steps. rsimpl. rewrite Hcur.
  assert (Hk1 : kernel_ok (k <| port ::= f |>) V) by (eapply kernel_ok_compat, Hk; by split).
  destruct (ok_ready _ _ Hk _ _ c Hts) as (Hp & Hpc & _); [set_solver|].
  apply (wp_remove_ready _ _ V _ p ts1 ts2); [apply Hk1|apply Hk1|done|done|done|].
  intros h b Hh Hb. ksteps. apply wp_exit; [done|]. intros g. ksteps.
  assert (Hd : detached (<[LReady p := Some (ts1 ++ ts2)]> V) FState c).
  { by apply (detached_remove _ _ (LReady p) _ _ _ (ok_lists _ _ Hk)). }
  eapply (lists_ok_insert_tail h _ LDelay ds c) in Hh; [|by rewrite fn_lookup_insert_ne|done].
  pose proof (kernel_ok_blocks k V c _ _ _ b p Hk ltac:(eexists; split; [done|set_solver])
    (blocks_delay k V c p ts1 ts2 ds n Hk Hts Hds Hn) Hh
    (bits_ok_other _ _ LDelay _ ltac:(done) Hb)) as Hkb.
  specialize (HQ (linked_list_insert_tail_direct LDelay (NLink FState c) h) b (fun q => g (f q))).
  cbn zeta in HQ. match goal with |- wp _ _ ?k1 _ => match type of HQ with _ -> wp _ _ ?k2 _ =>
    replace k1 with k2 end end.
  - eapply wp_mono; [apply HQ|].
    + eapply kernel_ok_compat, Hkb. by split.
    + intros [] k' Hq. by wp_steps.
  - unfold resched. cbn. transitivity (k <| port ::= fun q => g (f q) |>
      <| heap := linked_list_insert_tail_direct LDelay (NLink FState c) h |> <| s_ready_bitmap := b |>
      <| tcbs ::= fun m => alter (set delay_ticks (fun _ => n)) c
           (alter (set state (fun _ => SERTOS_TASK_STATE_BLOCKED)) c m) |>); [|done].
    apply set_tcbs_ext. by rewrite alter_alter.
Qed.

(** ** [sertos_scheduler_wait_list_block] *)

Lemma insert_by_priority_ext f g c ts :
  (forall x, f x = g x) -> insert_by_priority f c ts = insert_by_priority g c ts.
Proof. intros Hfg. induction ts as [|x ts IH]; simpl; [done|]. by rewrite !Hfg, IH. Qed.

Lemma elem_of_insert_by_priority f c ts x : x ∈ insert_by_priority f c ts <-> x = c \/ x ∈ ts.
Proof. induction ts as [|y ts IH]; simpl; [set_solver|]. case_match; set_solver. Qed.

Lemma insert_by_priority_sorted prio t ts :
  by_priority prio ts -> by_priority prio (insert_by_priority prio t ts).
Proof.
  induction ts as [|x ts IH]; simpl.
  - intros _. split; [|done]. intros y Hy. set_solver.
  - intros [Hx Hts]. destruct (Z.ltb_spec (prio x) (prio t)) as [Hlt|Hge]; simpl.
    + split; [|done]. intros y. rewrite elem_of_cons. intros [->|Hy]; [lia|]. specialize (Hx y Hy). lia.
    + split; [|by apply IH]. intros y. rewrite elem_of_insert_by_priority. intros [->|Hy]; [lia|]. by apply Hx.
Qed.

Lemma by_priority_filter prio (Q : addr -> Prop) `{!forall x, Decision (Q x)} ts :
  by_priority prio ts -> by_priority prio (filter Q ts).
Proof.
  induction ts as [|t ts IH]; [done|]. intros [Ht Hts]. rewrite filter_cons. case_decide; [|by apply IH].
  split; [|by apply IH]. intros x [_ Hx]%list_elem_of_filter. by apply Ht.
Qed.

Lemma by_priority_ext f g ts : (forall x, f x = g x) -> by_priority f ts -> by_priority g ts.
Proof.
  intros Hfg. induction ts as [|t ts IH]; [done|]. intros [Ht Hts]. split; [|by apply IH].
  intros x Hx. rewrite <-!Hfg. by apply Ht.
Qed.

Definition block_view (c : addr) (p : Z) (ts : list addr) (l : listid) (ws ds : list addr)
    (timeout : Z) (V : lview) : lview :=
  let V2 := <[l := Some ws]> (<[LReady p := Some ts]> V) in
  if decide (timeout <> SERTOS_WAIT_FOREVER) then <[LDelay := Some (ds ++ [c])]> V2 else V2.

Definition block_tcb (l : listid) (timeout : Z) (t : SertosTaskControlBlock) : SertosTaskControlBlock :=
  t <| state := SERTOS_TASK_STATE_BLOCKED |> <| wait_list := Some l |>
    <| delay_ticks := if decide (timeout <> SERTOS_WAIT_FOREVER) then timeout else 0 |>.

Lemma member_mid k V p ts1 c ts2 x :
  kernel_ok k V -> V (LReady p) = Some (ts1 ++ c :: ts2) -> x ∈ ts1 ++ ts2 ->
  member V (LReady p) x /\ x <> c.
Proof.
  intros Hk Hts Hx. pose proof (lists_ok_nodup _ _ _ _ (ok_lists _ _ Hk) Hts) as Hnd.
  split; [eexists; split; [done|set_solver]|]. intros ->.
  apply NoDup_app in Hnd as (_ & Hd & Hnd). apply NoDup_cons in Hnd as [? _].
  apply elem_of_app in Hx as [Hx|Hx]; [|done]. apply (Hd c Hx). by left.
Qed.

Lemma block_view_stays V c p ts1 ts2 l ws ds timeout q x :
  V (LReady p) = Some (ts1 ++ c :: ts2) -> link_of l = FEvent -> member V (LReady q) x -> x <> c ->
  member (block_view c p (ts1 ++ ts2) l ws ds timeout V)
    (LReady q) x.
Proof.
  intros Hts Hf Hx Hxc. unfold block_view.
  assert (LReady q <> l /\ LDelay <> l) as [??] by (split; ne_lists).
  assert (member (<[l := Some ws]>
    (<[LReady p := Some (ts1 ++ ts2)]> V)) (LReady q) x).
  { apply member_insert. right. split; [done|]. apply member_insert.
    destruct (decide (LReady p = LReady q)) as [Heq|?]; [left|by right].
    split; [done|]. destruct Hx as (us & Hus & Hin). rewrite <-Heq, Hts in Hus. simplify_eq. set_solver. }
  case_decide; [|done]. apply member_insert. by right.
Qed.

Lemma blocks_block k V c p ts1 ts2 l ws ds timeout :
  let prio x := priority (tcbs k x) in
  kernel_ok k V -> V (LReady p) = Some (ts1 ++ c :: ts2) -> V LDelay = Some ds ->
  link_of l = FEvent -> V l = Some ws -> 0 < timeout < 2 ^ 32 ->
  blocks k V c (block_tcb l timeout)
    (block_view c p (ts1 ++ ts2) l (insert_by_priority prio c ws) ds timeout V).
Proof.
  intros prio Hk Hts Hds Hf Hws Hn.
  assert (Hc : member V (LReady p) c) by (eexists; split; [done|set_solver]).
  assert (Hld : LDelay <> l /\ (forall q, LReady q <> l)) by (split; intros; intros Heq; by rewrite <-Heq in Hf).
  destruct Hld as [Hld Hlr].
  set (V2 := <[l := Some (insert_by_priority prio c ws)]> (<[LReady p := Some (ts1 ++ ts2)]> V)).
  assert (Hbv : forall l', l' <> LDelay -> block_view c p (ts1 ++ ts2) l (insert_by_priority prio c ws) ds timeout V l' = V2 l').
  { intros l' Hl'. unfold block_view. case_decide; [|done]. by rewrite fn_lookup_insert_ne. }
  assert (HV2 : forall l', l' <> l -> (forall q, l' <> LReady q) -> V2 l' = V l').
  { intros l' ? Hq. unfold V2. by rewrite !fn_lookup_insert_ne by (done || by intros <-; eapply Hq). }
  split; try done.
  - simpl. unfold SERTOS_WAIT_FOREVER. case_decide; lia.
  - simpl. intros l' [= <-]. split; [done|]. rewrite (member_same V2) by (apply Hbv; done).
    unfold V2. rewrite member_insert. left. rewrite elem_of_insert_by_priority. auto.
  - intros q x. rewrite (member_same V2) by (apply Hbv; done). unfold V2.
    rewrite member_insert. intros [[Heq _]|[_ Hm]]; [by destruct (Hlr q)|].
    apply member_insert in Hm as [[[= <-] Hx]|[Hne Hm]]; [by apply (member_mid k V p ts1 c ts2)|].
    split; [done|]. intros ->. destruct Hm as (us & Hus & Hx).
    by eapply (ready_detached k V p c FState Hk Hc (or_introl eq_refl) (LReady q)).
  - intros x. unfold block_view. simpl. fold V2. case_decide as Ht.
    + rewrite member_insert, elem_of_app, list_elem_of_singleton. unfold member at 2. rewrite Hds.
      split; [intros [[_ [?|?]]|[? _]]|intros [(?&[= <-]&?)|[? _]]]; eauto; try done.
      right. split; [done|lia].
    + rewrite (member_same V) by (apply HV2; done). split; [by left|]. intros [?|[_ ?]]; [done|lia].
  - intros l' x Hf'. assert (Hl1 : l' <> LDelay) by (by intros ->).
    rewrite (member_same V2) by (by apply Hbv). simpl. unfold V2.
    rewrite member_insert, elem_of_insert_by_priority.
    assert (Hl2 : LReady p <> l') by (by intros <-).
    rewrite (member_same V) by (by apply fn_lookup_insert_ne). unfold member.
    destruct (decide (l = l')) as [<-|Hne]; [rewrite Hws|]; naive_solver.
  - intros l' Hl'. unfold block_view. fold V2.
    assert (is_Some (V2 l')).
    { unfold V2, insert, fn_insert. repeat case_decide; eauto. }
    case_decide; [|done]. unfold insert, fn_insert. case_decide; eauto.
  - rewrite Hbv by done. apply HV2; [by intros <-|done].
  - rewrite Hbv by done. apply HV2; [by intros <-|done].
  - intros l' Hl'. rewrite Hbv by by intros ->. destruct (decide (l' = l)) as [->|Hne]; [right|left].
    + exists ws. split; [done|]. apply fn_lookup_insert.
    + apply HV2; [done|by intros q ->].
  - intros q x. by eapply block_view_stays.
Qed.

(** The lists, once the task is where it waits. *)
Lemma lists_ok_block_finite h V c p ts l ws ds :
  lists_ok h (<[l := Some ws]> (<[LReady p := Some ts]> V)) -> link_of l = FEvent ->
  V LDelay = Some ds -> detached (<[LReady p := Some ts]> V) FState c ->
  lists_ok (linked_list_insert_tail_direct LDelay (NLink FState c) h)
    (<[LDelay := Some (ds ++ [c])]> (<[l := Some ws]> (<[LReady p := Some ts]> V))).
Proof.
  intros Hh Hf Hds Hd. apply (lists_ok_insert_tail h _ LDelay); [done| |].
  - assert (l <> LDelay) by ne_lists. by rewrite !fn_lookup_insert_ne.
  - apply detached_insert; [done|]. rewrite Hf. done.
Qed.

Lemma lists_ok_block_forever h V c p ts l ws :
  lists_ok h (<[l := Some ws]> (<[LReady p := Some ts]> V)) -> link_of l = FEvent ->
  detached (<[LReady p := Some ts]> V) FState c ->
  lists_ok (set_prev (NLink FState c) None (set_next (NLink FState c) None h))
    (<[l := Some ws]> (<[LReady p := Some ts]> V)).
Proof.
  intros Hh Hf Hd. assert (Hd' : detached (<[l := Some ws]> (<[LReady p := Some ts]> V)) FState c).
  { apply detached_insert; [done|]. rewrite Hf. done. }
  by apply lists_ok_set_cell, Hd'; apply lists_ok_set_cell.
Qed.

Definition block_result (timeout : Z) (t : SertosTaskControlBlock) : SertosStatus :=
  if bool_decide (timeout <> SERTOS_WAIT_FOREVER) && (delay_ticks t =? 0) && bool_decide (wait_list t = None)
  then SERTOS_STATUS_ERROR_TIMEOUT else SERTOS_STATUS_OK.

(** The end of the call, once the task is where it waits. *)
Lemma wp_block_end P `{!Calm P} k V c p l V' timeout h b f cr d (Q : SertosStatus -> Kernel -> Prop) :
  kernel_ok k V -> member V (LReady p) c -> blocks k V c (block_tcb l timeout) V' -> bits_ok b V' ->
  (forall h b f, let k1 := resched (k <| port ::= f |>) h b (alter (block_tcb l timeout) c) in
     kernel_ok k1 V' -> wp P sertos_scheduler_switch_context k1
       (fun _ k' => Q (block_result timeout (tcbs k' c)) k')) ->
  lists_ok h V' -> d = (if decide (timeout <> SERTOS_WAIT_FOREVER) then timeout else 0) ->
  wp P (sertos_port_exit_critical cr;; sertos_scheduler_switch_context;;
    d ← rd_tcb c delay_ticks;
    wl' ← rd_tcb c wait_list;
    if bool_decide (timeout <> SERTOS_WAIT_FOREVER) && (d =? 0) && bool_decide (wl' = None)
    then mret SERTOS_STATUS_ERROR_TIMEOUT else mret SERTOS_STATUS_OK)
    (k <| port ::= f |> <| heap := h |> <| s_ready_bitmap := b |> <| tcbs ::= fun m =>
       alter (set delay_ticks (fun _ => d)) c (alter (set wait_list (fun _ => Some l)) c
         (alter (set state (fun _ => SERTOS_TASK_STATE_BLOCKED)) c m)) |>) Q.
Proof.
  intros Hk Hc Hbl Hb HQ Hh Hd. wp_steps. apply wp_exit; [done|]. intros g. wp_steps.
  pose proof (kernel_ok_blocks k V c _ _ h b p Hk Hc Hbl Hh Hb) as Hkb.
  specialize (HQ h b (fun q => g (f q))). cbn zeta in HQ.
  match goal with |- wp _ _ ?k1 _ => match type of HQ with _ -> wp _ _ ?k2 _ =>
    replace k1 with k2 end end.
  - eapply wp_mono; [apply HQ; eapply kernel_ok_compat, Hkb; by split|].
    intros [] k' Hq. ksteps. unfold block_result in Hq. case_match; by wp_steps.
  - unfold resched. transitivity (k <| port ::= fun q => g (f q) |> <| heap := h |>
      <| s_ready_bitmap := b |> <| tcbs ::= fun m =>
       alter (set delay_ticks (fun _ => d)) c (alter (set wait_list (fun _ => Some l)) c
         (alter (set state (fun _ => SERTOS_TASK_STATE_BLOCKED)) c m)) |>); [|done].
    apply set_tcbs_ext. rewrite !alter_alter. subst d. done.
Qed.

Lemma wp_wait_list_block P `{!Calm P} k V c p ts1 ts2 ds l ws timeout (Q : SertosStatus -> Kernel -> Prop) :
  kernel_ok k V -> s_is_running k = true -> sertos_current_tcb k = Some c ->
  V (LReady p) = Some (ts1 ++ c :: ts2) -> V LDelay = Some ds ->
  link_of l = FEvent -> V l = Some ws -> (length ws <= loop_fuel)%nat -> 0 < timeout < 2 ^ 32 ->
  (forall h b f, let k1 := resched (k <| port ::= f |>) h b (alter (block_tcb l timeout) c) in
     kernel_ok k1 (block_view c p (ts1 ++ ts2) l
       (insert_by_priority (fun x => priority (tcbs k x)) c ws) ds timeout V) ->
     wp P sertos_scheduler_switch_context k1
       (fun _ k' => Q (block_result timeout (tcbs k' c)) k')) ->
  wp P (sertos_scheduler_wait_list_block (Some l) timeout) k Q.
Proof.
  intros Hk Hrun Hcur Hts Hds Hf Hws Hfuel Hn HQ. unfold sertos_scheduler_wait_list_block.
  wp_steps. rewrite Hcur, Hrun. cbn [negb]. wp_steps. apply wp_enter; [done|]. intros cr f. wp_steps.
  assert (Hk1 : kernel_ok (k <| port ::= f |>) V) by (eapply kernel_ok_compat, Hk; by split).
  destruct (ok_ready _ _ Hk _ _ c Hts) as (Hp & Hpc & _); [set_solver|].
  assert (Hc : member V (LReady p) c) by (eexists; split; [done|set_solver]).
  assert (Hlr : LReady p <> l) by ne_lists.
  apply (wp_remove_ready _ _ V _ p ts1 ts2); [apply Hk1|apply Hk1|done|done|done|].
  intros h b Hh Hb. ksteps.
  assert (HdS : detached (<[LReady p := Some (ts1 ++ ts2)]> V) FState c).
  { by apply (detached_remove _ _ (LReady p) _ _ _ (ok_lists _ _ Hk)). }
  assert (HdE : detached (<[LReady p := Some (ts1 ++ ts2)]> V) FEvent c).
  { apply detached_insert; [|done]. intros l' us Hl' Hf'.
    apply (ready_detached k V p c FEvent Hk Hc (or_intror eq_refl) l' us Hl' Hf'). ne_lists. }
  apply (wp_insert_wait_list _ _ (<[LReady p := Some (ts1 ++ ts2)]> V) l c ws);
    [done|done|done|by rewrite fn_lookup_insert_ne|done|].
  intros h2 Hh2. rewrite (insert_by_priority_ext _ (fun x => priority (tcbs k x))) in Hh2.
  2: { intros x. rsimpl. destruct (decide (c = x)) as [<-|]; [by rewrite !fn_lookup_alter|].
       by rewrite !fn_lookup_alter_ne. }
  set (ws' := insert_by_priority _ c ws) in *.
  pose proof (blocks_block k V c p ts1 ts2 l ws ds timeout
    Hk Hts Hds Hf Hws Hn) as Hbl.
  assert (Hb2 : bits_ok b (block_view c p (ts1 ++ ts2) l ws' ds timeout V)).
  { unfold block_view. case_decide; repeat (apply bits_ok_other; [intros q; ne_lists|]); done. }
  pose proof (fun h3 d => wp_block_end P k V c p l _ timeout h3 b f cr d Q Hk Hc Hbl Hb2
    HQ) as Hfin.
  unfold block_view in Hfin. case_decide as Ht; ksteps.
  - eapply wp_bind_inv, (Hfin _ timeout); [|done]. by apply lists_ok_block_finite.
  - eapply wp_bind_inv, (Hfin _ 0); [|done]. by apply lists_ok_block_forever.
Qed.

Lemma ready_detached_event k V p t :
  kernel_ok k V -> member V (LReady p) t -> detached V FEvent t.
Proof.
  intros Hk Ht l us Hl Hf. apply (ready_detached k V p t FEvent Hk Ht (or_intror eq_refl) l us Hl Hf).
  ne_lists.
Qed.
End spec.

(** ** Switching away from a blocked task *)

Section switch.
Context `{PL : Platform} `{!PlatformLaws} `{!Callbacks}.
Implicit Types (k : Kernel) (V : lview) (P : protocol Kernel) (t c : addr) (ts : list addr).

Lemma selected_exists k V : kernel_ok k V -> exists r, selected V r.
Proof.
  intros Hk. destruct (proj1 (wp_exec sertos_scheduler_select_next_task k (fun r _ => selected V r)))
    as (r & _ & _ & Hr); [|by exists r].
  apply (wp_select _ _ V); [apply Hk|apply Hk|apply Hk|]. done.
Qed.

(** Another task is ready. *)
Definition other_ready V c : Prop := exists q x, 0 <= q < MAXP /\ member V (LReady q) x /\ x <> c.

Lemma selected_other k V c r q x :
  kernel_ok k V -> selected V r -> state (tcbs k c) = SERTOS_TASK_STATE_BLOCKED ->
  0 <= q < MAXP -> member V (LReady q) x -> exists n, r = Some n /\ n <> c.
Proof.
  intros Hk Hr Hc Hq (us & Hus & Hx). destruct r as [n|].
  - exists n. split; [done|]. intros ->. destruct (selected_ready _ _ _ Hk Hr); congruence.
  - specialize (Hr q Hq). simplify_eq. by apply not_elem_of_nil in Hx.
Qed.

(** The state a blocked task leaves the processor in. *)
Record off_processor k V c k' : Prop := Off_processor {
  off_only : only_dispatch k k';
  off_current : port_host = true -> exists n, n <> c /\ selected V (Some n) /\
    sertos_current_tcb k' = Some n /\ state (tcbs k' n) = SERTOS_TASK_STATE_RUNNING;
  off_state : state (tcbs k' c) = state (tcbs k c) }.

Lemma wp_switch_away G R k V c q x (Q : unit -> Kernel -> Prop) :
  kernel_ok k V -> s_lock_nesting k <= 0 -> sertos_current_tcb k = Some c ->
  state (tcbs k c) = SERTOS_TASK_STATE_BLOCKED -> 0 <= q < MAXP -> member V (LReady q) x ->
  (forall k', off_processor k V c k' -> G k') -> (forall k', R k' -> Q tt k') ->
  wp (across_switch G R) sertos_scheduler_switch_context k Q.
Proof.
  intros Hk Hn Hcur Hst Hq Hx HG HR. apply (wp_switch_context _ _ V); [done|lia|].
  intros _ r k' Hr Hsw. destruct (selected_other _ _ _ _ _ _ Hk Hr Hst Hq Hx) as (n & -> & Hnc).
  unfold after_switch. rewrite decide_False by (rewrite Hcur; intros [?|?]; congruence).
  split; [|exact HR]. apply HG. destruct Hsw as [Ho _ _ Hsame Hswi]. split; [done| |].
  - intros Hh. destruct (Hswi n eq_refl ltac:(congruence) Hh) as [_ Hc Hs _ _ _ _ _]. eauto.
  - destruct (od_tcbs _ _ Ho c) as [_ _ _ [?|[Hx' _]]]; [done|]. destruct Hx'; congruence.
Qed.

(** What holds of the kernel while [c] waits on [l]. *)
Record blocked_away k V c l ws timeout k' V' : Prop := Blocked_away {
  ba_ok : kernel_ok k' V';
  ba_state : state (tcbs k' c) = SERTOS_TASK_STATE_BLOCKED;
  ba_waits : V' l = Some (insert_by_priority (fun x => priority (tcbs k x)) c ws);
  ba_not_ready : forall q, ~ member V' (LReady q) c;
  ba_delayed : member V' LDelay c <-> timeout <> SERTOS_WAIT_FOREVER;
  ba_ticks : timeout <> SERTOS_WAIT_FOREVER -> delay_ticks (tcbs k' c) = timeout;
  ba_current : port_host = true -> sertos_current_tcb k' <> Some c;
  ba_others : forall x, x <> c -> tcb_compat (tcbs k x) (tcbs k' x);
  ba_ready : forall q x, member V (LReady q) x -> x <> c -> member V' (LReady q) x;
  ba_objects : sems k' = sems k /\ mutexes k' = mutexes k /\ queues k' = queues k /\
    streams k' = streams k /\ mem k' = mem k }.

(** A task that has been woken, by the clock or by a release, finds no ticks and no wait list in
    its TCB; being dispatched does not change that. *)
Definition woken k c : Prop := delay_ticks (tcbs k c) = 0 /\ wait_list (tcbs k c) = None.

Lemma woken_wake k c tcb : tcbs k c = wake_tcb tcb -> woken k c.
Proof. unfold woken. by intros ->. Qed.
Lemma woken_dispatch k k' c : only_dispatch k k' -> woken k c -> woken k' c.
Proof. intros Ho [Hd Hw]. destruct (od_tcbs _ _ Ho c) as [_ Ed Ew _]. split; congruence. Qed.

Lemma block_result_woken timeout k c :
  woken k c -> block_result timeout (tcbs k c) =
    if decide (timeout = SERTOS_WAIT_FOREVER) then SERTOS_STATUS_OK else SERTOS_STATUS_ERROR_TIMEOUT.
Proof.
  intros [Hd Hw]. unfold block_result. rewrite Hd, Hw.
  destruct (decide (timeout = SERTOS_WAIT_FOREVER)) as [->|Hne]; [done|].
  by rewrite bool_decide_true by done.
Qed.

(** The premises under which the running task blocks. *)
Record can_block k V c l ws timeout : Prop := Can_block {
  cb_ok : kernel_ok k V;
  cb_current : current_ok k V c;
  cb_running : s_is_running k = true;
  cb_unlocked : s_lock_nesting k = 0;
  cb_other : other_ready V c;
  cb_event : link_of l = FEvent;
  cb_waiters : V l = Some ws;
  cb_fuel : (length ws <= loop_fuel)%nat;
  cb_timeout : 0 < timeout < 2 ^ 32 }.

Lemma wp_block_away G R k V c l ws timeout (Q : SertosStatus -> Kernel -> Prop) :
  can_block k V c l ws timeout ->
  (forall k' V', blocked_away k V c l ws timeout k' V' -> G k') ->
  (forall k', R k' -> Q (block_result timeout (tcbs k' c)) k') ->
  wp (across_switch G R) (sertos_scheduler_wait_list_block (Some l) timeout) k Q.
Proof.
  intros [Hk (Hcur & Hrun & ts & Hts & Hin) Hr Hn (q & x & Hq & Hx & Hxc) Hf Hws Hfu Ht] HG HR.
  apply list_elem_of_split in Hin as (ts1 & ts2 & ->).
  destruct (ok_delay_list _ _ Hk) as [ds Hds]. set (p := priority (tcbs k c)) in *.
  apply (wp_wait_list_block _ k V c p ts1 ts2 ds l ws); [done..|].
  intros h b f k1 Hk1. pose proof (blocks_block k V c p ts1 ts2 l ws ds timeout
    Hk Hts Hds Hf Hws Ht) as [Hst Hpr Hd He Hready Hdl Hw Hdef Hsu Htm _ Hstay].
  pose proof (Hstay q x Hx Hxc) as Hx1.
  set (V1 := block_view _ _ _ _ _ _ _ _) in *.
  assert (Hc1 : tcbs k1 c = block_tcb l timeout (tcbs k c)) by apply fn_lookup_alter.
  destruct (ok_ready _ _ Hk _ _ c Hts) as (Hp & _ & Hrb & _); [set_solver|].
  apply (wp_switch_away _ _ _ V1 c q x); [done|unfold k1; simpl; lia|done|by rewrite Hc1|done|done| |exact HR].
  intros k2 [Ho Hcu Hst2]. destruct (od_tcbs _ _ Ho c) as [_ Hd2 _ _].
  apply (HG _ V1). split.
  - by eapply kernel_ok_compat.
  - by rewrite Hst2, Hc1.
  - unfold V1, block_view. assert (LDelay <> l) by ne_lists.
    case_decide; [rewrite fn_lookup_insert_ne by done|]; by rewrite fn_lookup_insert.
  - intros q' Hm. by apply Hready in Hm as [_ ?].
  - rewrite Hdl. simpl. split.
    + intros [(us & Hus & Hin)|[_ Hpos]]; [|case_decide; [done|lia]].
      destruct (ok_delayed _ _ Hk _ _ Hus Hin) as (Hb & _). destruct Hrb; congruence.
    + intros Hne. right. rewrite decide_True by done. split; [done|lia].
  - intros Hne. rewrite Hd2, Hc1. simpl. by rewrite decide_True.
  - intros Hh. destruct (Hcu Hh) as (n & Hnc & _ & -> & _). congruence.
  - intros y Hyc. destruct (od_tcbs _ _ Ho y) as [E1 E2 E3 E4 E5].
    assert (Hy : tcbs k1 y = tcbs k y) by by apply fn_lookup_alter_ne.
    rewrite Hy in E1, E2, E3, E4, E5. by split.
  - intros q' y Hy Hyc. by apply Hstay.
  - by rewrite (od_sems _ _ Ho), (od_mutexes _ _ Ho), (od_queues _ _ Ho), (od_streams _ _ Ho), (od_mem _ _ Ho).
Qed.
End switch.

(** ** Time slicing, yielding *)

Section slicing.
Context `{PL : Platform} `{!PlatformLaws} `{!Callbacks}.
Implicit Types (k : Kernel) (V : lview) (P : protocol Kernel) (t c : addr) (ts : list addr).

(** The order of a ready queue does not matter to the invariant. *)
Lemma kernel_ok_reorder k V p ts ts' h :
  kernel_ok k V -> V (LReady p) = Some ts -> ts ≡ₚ ts' ->
  lists_ok h (<[LReady p := Some ts']> V) ->
  kernel_ok (k <| heap := h |>) (<[LReady p := Some ts']> V).
Proof.
  intros Hk Hts Hperm Hh.
  assert (Hne : forall l, (forall q, l <> LReady q) -> (<[LReady p := Some ts']> V) l = V l).
  { intros l Hl. by rewrite fn_lookup_insert_ne by (intros <-; by eapply Hl). }
  destruct Hk as [Hl [Hbs Hb] Hq Hd Hr Hs Hrd Hdd Hw]. split; rsimpl; try done; try by rewrite Hne.
  - split; [done|]. intros q us Hqr. destruct (decide (LReady p = LReady q)) as [[= <-]|Hne'].
    + rewrite fn_lookup_insert. intros [= <-]. rewrite (Hb _ _ Hqr Hts). apply bool_decide_ext.
      split; intros Hn Hz; apply Hn; subst; [by apply Permutation_nil_r in Hperm|by apply Permutation_nil_l in Hperm].
    + rewrite fn_lookup_insert_ne by done. by apply Hb.
  - intros q Hqr. unfold insert, fn_insert. case_decide; [by eexists|by apply Hq].
  - intros q us t. destruct (decide (LReady p = LReady q)) as [[= <-]|Hne'].
    + rewrite fn_lookup_insert. intros [= <-]. rewrite <-Hperm. by apply Hrd.
    + rewrite fn_lookup_insert_ne by done. by apply Hrd.
  - intros us t. rewrite Hne by done. intros Hus Ht. destruct (Hdd us t Hus Ht) as (?&?&?&Hwl).
    split_and!; try done; try lia. intros l Hll. destruct (Hwl l Hll) as [Hf ?]. split; [done|].
    rewrite Hne; [done|ne_lists].
  - intros l us t Hf. rewrite Hne by ne_lists. intros Hus Ht.
    destruct (Hw l us t Hf Hus Ht) as (?&?&?&Hdx). split_and!; try done; try lia.
Qed.

Lemma wp_process_time_slicing P k V c p ts1 ts2 (Q : unit -> Kernel -> Prop) :
  kernel_ok k V -> sertos_current_tcb k = Some c -> V (LReady p) = Some (ts1 ++ c :: ts2) ->
  (s_time_slicing_enabled k = true -> ts1 ++ ts2 <> [] ->
   forall h, kernel_ok (k <| heap := h |>) (<[LReady p := Some (ts1 ++ ts2 ++ [c])]> V) ->
     Q tt (k <| heap := h |>)) ->
  (s_time_slicing_enabled k = false \/ ts1 ++ ts2 = [] -> Q tt k) ->
  wp P process_time_slicing k Q.
Proof.
  intros Hk Hcur Hts Hrot Hno. unfold process_time_slicing. pose proof (ok_lists _ _ Hk) as HV.
  destruct (ok_ready _ _ Hk _ _ c Hts) as (Hp & Hpc & _); [set_solver|].
  wp_steps. rewrite Hcur. destruct (s_time_slicing_enabled k) eqn:Hen; [|wp_steps; by auto].
  ksteps. rewrite Hpc, (lists_ok_count _ _ _ _ HV Hts), length_app. cbn [length].
  destruct (decide (ts1 ++ ts2 = [])) as [He|He].
  - apply app_eq_nil in He as [-> ->]. apply wp_when; [done|by auto].
  - rewrite (proj2 (Z.ltb_lt _ _)).
    2: { destruct ts1, ts2; simpl; try done; lia. }
    ksteps. pose proof (lists_ok_remove _ _ _ _ _ _ HV Hts) as Hh1. cbn [link_of] in Hh1.
    pose proof (detached_remove _ _ _ _ _ _ HV Hts) as Hd. cbn [link_of] in Hd.
    eapply (lists_ok_insert_tail _ _ (LReady p) (ts1 ++ ts2) c) in Hh1; [|by apply fn_lookup_insert|done].
    rewrite <-app_assoc in Hh1. cbn [link_of] in Hh1.
    match goal with |- Q tt ?k' => change k' with (k <| heap := linked_list_insert_tail_direct (LReady p) (NLink FState c) (linked_list_remove_direct (LReady p) (NLink FState c) (heap k)) |>) end.
    apply Hrot; [done|done|]. eapply kernel_ok_reorder; [done|done| |].
    + by rewrite (Permutation_cons_append ts2 c).
    + assert (Heq : pointwise_relation listid eq
        (<[LReady p:=Some (ts1 ++ ts2 ++ [c])]> (<[LReady p:=Some (ts1 ++ ts2)]> V))
        (<[LReady p:=Some (ts1 ++ ts2 ++ [c])]> V)).
      { intros l. unfold insert, fn_insert. by case_decide. }
      by rewrite Heq in Hh1.
Qed.
End slicing.
