(* ===== verification/TaskSpec.v ===== *)
(** Specifications of task creation and of scheduler initialisation. *)
From S2P Require Import Prelude Effects Types Platform LinkedLists Kernel Invariant SchedCore.
From S2P Require Import SchedCoreSpec DelaySpec TaskInfo Stats Timer Scheduler Task SchedulerSpec.
From S2P Require Import BlockSpec.

Section spec.
Context `{PL : Platform} `{!PlatformLaws} `{!Callbacks}.
Implicit Types (k : Kernel) (V : lview) (P : protocol Kernel) (t : addr) (ts : list addr).

(** ** Tasks outside every list *)

(** A task that is in no state list and no wait list. *)
Definition outside V t : Prop := detached V FState t /\ detached V FEvent t.

Lemma outside_ne k V t x l ts :
  outside V t -> V l = Some ts -> x ∈ ts -> link_of l = FState \/ link_of l = FEvent -> t <> x.
Proof. intros [HS HE] Hl Hx [Hf|Hf] ->; [by eapply HS|by eapply HE]. Qed.

(** Their TCBs do not matter to the invariant. *)
Lemma kernel_ok_outside k V t f h :
  kernel_ok k V -> outside V t -> lists_ok h V -> kernel_ok (k <| heap := h |> <| tcbs ::= alter f t |>) V.
Proof.
  intros [Hl Hb Hq Hd Hr Hs Hrd Hdd Hw] Hout Hh. split; rsimpl; try done.
  - intros p ts x Hts Hx. unfold ready_task. rsimpl.
    rewrite fn_lookup_alter_ne by (apply (outside_ne k V t x _ ts Hout Hts Hx); by left).
    by apply (Hrd p ts).
  - intros ts x Hts Hx. unfold delayed_task. rsimpl.
    rewrite fn_lookup_alter_ne by (apply (outside_ne k V t x _ ts Hout Hts Hx); by left).
    by apply (Hdd ts).
  - intros l ts x Hf Hts Hx. unfold waiting_task. rsimpl.
    rewrite fn_lookup_alter_ne by (apply (outside_ne k V t x _ ts Hout Hts Hx); by right).
    by apply (Hw l ts).
Qed.

(** Lists that hold no task state may change freely. *)
Lemma kernel_ok_aux k V l ts h :
  kernel_ok k V -> link_of l = FRegistry \/ link_of l = FTimer -> lists_ok h (<[l := Some ts]> V) ->
  kernel_ok (k <| heap := h |>) (<[l := Some ts]> V).
Proof.
  intros Hk Hl Hh.
  assert (Hne : forall l', link_of l' = FState \/ link_of l' = FEvent -> (<[l := Some ts]> V) l' = V l').
  { intros l' Hl'. rewrite fn_lookup_insert_ne; [done|]. intros ->. destruct Hl, Hl'; congruence. }
  destruct Hk as [_ [Hbs Hb] Hq Hd Hr Hs Hrd Hdd Hw]. split; rsimpl; try done.
  - split; [done|]. intros p us Hp. rewrite Hne by (by left). by apply Hb.
  - intros p Hp. rewrite Hne by (by left). by apply Hq.
  - rewrite Hne by (by left). done.
  - unfold insert, fn_insert. by case_decide.
  - rewrite Hne by (by left). done.
  - intros p us x. rewrite Hne by (by left). by apply Hrd.
  - intros us x. rewrite Hne by (by left). intros Hus Hx. destruct (Hdd us x Hus Hx) as (?&?&?&Hwl).
    split_and!; try done; try lia. intros l' Hl'. destruct (Hwl l' Hl'). rewrite Hne by (by right). done.
  - intros l' us x Hf. rewrite Hne by (by right). intros Hus Hx.
    destruct (Hw l' us x Hf Hus Hx) as (?&?&?&Hdx). split_and!; try done; try lia.
    by rewrite Hne by (by left).
Qed.

(** A task outside every list becomes ready. *)
Lemma kernel_ok_add k V t p ts h b :
  kernel_ok k V -> outside V t -> 0 <= p < MAXP -> V (LReady p) = Some ts ->
  priority (tcbs k t) = p -> wait_list (tcbs k t) = None -> delay_ticks (tcbs k t) = 0 ->
  lists_ok h (<[LReady p := Some (ts ++ [t])]> V) -> bits_ok b (<[LReady p := Some (ts ++ [t])]> V) ->
  kernel_ok (resched k h b (alter (set state (fun _ => SERTOS_TASK_STATE_READY)) t))
    (<[LReady p := Some (ts ++ [t])]> V).
Proof.
  intros Hk Hout Hp Hts Hpt Hwt Hdt Hh Hb.
  assert (Hne : forall l, (forall q, l <> LReady q) -> (<[LReady p := Some (ts ++ [t])]> V) l = V l).
  { intros l Hl. by rewrite fn_lookup_insert_ne by (intros <-; by eapply Hl). }
  destruct Hk as [_ _ Hq Hd Hr Hs Hrd Hdd Hw]. unfold resched. split; rsimpl; try done; try by rewrite Hne.
  - intros q Hqr. unfold insert, fn_insert. case_decide; [by eexists|by apply Hq].
  - intros q us x Hus Hx. unfold ready_task. rsimpl. destruct (decide (t = x)) as [<-|Hx'].
    + rewrite fn_lookup_alter. destruct (decide (LReady p = LReady q)) as [[= <-]|Hqp].
      * simpl. split_and!; auto; lia.
      * rewrite fn_lookup_insert_ne in Hus by done. exfalso. by eapply (proj1 Hout).
    + rewrite fn_lookup_alter_ne by done. destruct (decide (LReady p = LReady q)) as [[= <-]|Hqp].
      * rewrite fn_lookup_insert in Hus. simplify_eq. eapply Hrd; [exact Hts|set_solver].
      * rewrite fn_lookup_insert_ne in Hus by done. by apply (Hrd q us).
  - intros us x. rewrite Hne by done. intros Hus Hx. unfold delayed_task. rsimpl.
    rewrite fn_lookup_alter_ne by (apply (outside_ne k V t x _ us Hout Hus Hx); by left).
    destruct (Hdd us x Hus Hx) as (?&?&?&Hwl). split_and!; try done; try lia.
    intros l Hl. destruct (Hwl l Hl). rewrite Hne by ne_lists. done.
  - intros l us x Hf. rewrite Hne by ne_lists. intros Hus Hx. unfold waiting_task. rsimpl.
    rewrite fn_lookup_alter_ne by (apply (outside_ne k V t x _ us Hout Hus Hx); by right).
    by apply (Hw l us).
Qed.

(** ** Creating a task *)

(** The memory and the TCB [init_tcb_and_stack] makes of a configuration. *)
Definition painted (m : Mem) (c : SertosTaskConfig) : Mem :=
  mem_fill (uintptr (cfg_stack_buffer c)) (cfg_stack_size c) SERTOS_TASK_STACK_FILL_BYTE m.
Definition initial_frame (m : Mem) (c : SertosTaskConfig) : ptr * Mem :=
  sertos_port_stack_init
    (of_uintptr (stack_top_of (uintptr (cfg_stack_buffer c)) (cfg_stack_size c)))
    (cfg_stack_buffer c) (cfg_entry_func c) (cfg_param c) (painted m c).
Definition new_tcb (m : Mem) (c : SertosTaskConfig) (is_static : bool) : SertosTaskControlBlock := {|
  stack_ptr := (initial_frame m c).1; stack_base := cfg_stack_buffer c; stack_size := cfg_stack_size c;
  stack_limit := cfg_stack_buffer c; state := SERTOS_TASK_STATE_READY; priority := cfg_priority c;
  base_priority := cfg_priority c; delay_ticks := 0; entry_func := cfg_entry_func c;
  param := cfg_param c; name := Some (default "Task"%string (cfg_name c)); wait_list := None;
  is_statically_allocated := is_static; magic := SERTOS_TASK_MAGIC_WORD; port_context := None;
  run_time_total := 0; run_time_last_entry := 0; switch_in_count := 0 |}.

Lemma stack_top_of_spec base size :
  port_size_bits = 32 -> 0 <= base -> 0 <= size -> base + size < 2 ^ 32 ->
  stack_top_of base size = 8 * ((base + size) / 8).
Proof.
  intros Hbits Hb Hs Hend. unfold stack_top_of. rewrite Hbits. unfold wrap at 1 2.
  rewrite (Z.mod_small (base + size)) by lia. apply land_align8; lia.
Qed.

Lemma aligned_top_bounds base size :
  0 <= base -> 0 <= size ->
  let top := 8 * ((base + size) / 8) in 8 * (top / 8) = top /\ base + size - 8 < top <= base + size.
Proof.
  intros Hb Hs top. split; [unfold top; f_equal; rewrite Z.mul_comm; by apply Z.div_mul|].
  pose proof (Z.div_mod (base + size) 8). pose proof (Z.mod_pos_bound (base + size) 8). lia.
Qed.

(** Everything the creation of a task leaves alone. *)
Record same_globals k k' : Prop := Same_globals {
  sg_current : sertos_current_tcb k' = sertos_current_tcb k;
  sg_running : s_is_running k' = s_is_running k;
  sg_nesting : s_lock_nesting k' = s_lock_nesting k;
  sg_pending : s_reschedule_pending k' = s_reschedule_pending k;
  sg_ticks : s_system_ticks k' = s_system_ticks k;
  sg_rate : s_tick_rate_hz k' = s_tick_rate_hz k;
  sg_slicing : s_time_slicing_enabled k' = s_time_slicing_enabled k;
  sg_stats : s_stats_enabled k' = s_stats_enabled k;
  sg_sems : sems k' = sems k;
  sg_mutexes : mutexes k' = mutexes k;
  sg_timers : timers k' = timers k }.

Lemma wp_init_tcb_and_stack P k V t cfg is_static (Q : unit -> Kernel -> Prop) :
  kernel_ok k V -> outside V t -> detached V FRegistry t ->
  (forall k' pc, kernel_ok k' V -> same_globals k k' ->
     tcbs k' t = (new_tcb (mem k) cfg is_static) <| port_context := pc |> ->
     (forall x, x <> t -> tcbs k' x = tcbs k x) -> mem k' = (initial_frame (mem k) cfg).2 -> Q tt k') ->
  wp P (init_tcb_and_stack t cfg is_static) k Q.
Proof.
  intros Hk Hout Hreg HQ. unfold init_tcb_and_stack, sertos_port_task_create_hook. ksteps.
  apply (HQ _ (port_task_create_hook t None (port k)).1).
  - match goal with |- kernel_ok ?k' _ => set (h := heap k') end.
    assert (Hh : lists_ok h V).
    { subst h. rsimpl. destruct Hout. repeat apply lists_ok_set_cell; try done. apply Hk. }
    eapply kernel_ok_same; [| | |apply (kernel_ok_outside k V t (fun _ =>
      (new_tcb (mem k) cfg is_static) <| port_context := (port_task_create_hook t None (port k)).1 |>)
      h Hk Hout Hh)]; [done|done|]. rsimpl. rewrite fn_lookup_alter, alter_alter. by apply alter_ext_at.
  - done.
  - rsimpl. by rewrite !fn_lookup_alter.
  - intros x Hx. rsimpl. by rewrite !fn_lookup_alter_ne.
  - done.
Qed.

(** The lists after [t] of priority [p] was created. *)
Definition created_view t p ts rs V : lview :=
  <[LRegistry := Some (rs ++ [t])]> (<[LReady p := Some (ts ++ [t])]> V).

Definition valid_config (cfg : SertosTaskConfig) : Prop :=
  cfg_stack_buffer cfg <> None /\ validate_task_config (Some cfg) = SERTOS_STATUS_OK /\ 0 <= cfg_priority cfg.

Lemma valid_config_priority cfg : valid_config cfg -> 0 <= cfg_priority cfg < MAXP.
Proof.
  intros (_ & Hv & ?). split; [done|]. unfold validate_task_config in Hv.
  destruct (is_null (cfg_entry_func cfg)); [done|].
  destruct (Z.leb_spec SERTOS_CONFIG_MAX_PRIORITIES (cfg_priority cfg)); done.
Qed.

Lemma valid_config_size cfg : valid_config cfg -> SERTOS_CONFIG_MINIMAL_STACK_SIZE <= cfg_stack_size cfg.
Proof.
  intros (_ & Hv & _). unfold validate_task_config in Hv.
  destruct (is_null (cfg_entry_func cfg)); [done|]. destruct (SERTOS_CONFIG_MAX_PRIORITIES <=? cfg_priority cfg); [done|].
  destruct (Z.ltb_spec (cfg_stack_size cfg) SERTOS_CONFIG_MINIMAL_STACK_SIZE); done.
Qed.

Lemma same_globals_trans k1 k2 k3 : same_globals k1 k2 -> same_globals k2 k3 -> same_globals k1 k3.
Proof. intros [] []. split; congruence. Qed.

Lemma wp_create_static P `{!Calm P} k V t cfg ts rs (Q : SertosStatus * ptr -> Kernel -> Prop) :
  kernel_ok k V -> outside V t -> detached V FRegistry t -> valid_config cfg ->
  V (LReady (cfg_priority cfg)) = Some ts -> V LRegistry = Some rs ->
  (forall k' pc, kernel_ok k' (created_view t (cfg_priority cfg) ts rs V) -> same_globals k k' ->
     tcbs k' t = (new_tcb (mem k) cfg true) <| port_context := pc |> ->
     (forall x, x <> t -> tcbs k' x = tcbs k x) -> mem k' = (initial_frame (mem k) cfg).2 ->
     wp P (running ← sertos_scheduler_is_running; when running sertos_scheduler_reschedule) k'
       (fun _ k'' => Q (SERTOS_STATUS_OK, Some t) k'')) ->
  wp P (sertos_task_create_static (Some cfg) (Some t) true) k Q.
Proof.
  intros Hk Hout Hreg Hcfg Hts Hrs HQ. pose proof (valid_config_priority _ Hcfg) as Hp.
  destruct Hcfg as (Hbuf & Hval & _). unfold sertos_task_create_static. cbn [negb].
  destruct (cfg_stack_buffer cfg) as [b0|] eqn:Hb0; [|done]. cbn [is_null].
  rewrite Hval. rewrite decide_False by auto. wp_steps.
  eapply wp_init_tcb_and_stack; [done|done|done|]. intros k1 pc Hk1 Hsg Ht1 Hx1 Hm1. wp_steps.
  apply wp_enter; [done|]. intros cr f. wp_steps.
  assert (Hk2 : kernel_ok (k1 <| port ::= f |>) V) by (eapply kernel_ok_compat, Hk1; by split).
  apply (wp_add_ready _ _ V _ (cfg_priority cfg) ts); [apply Hk2|apply Hk2| |done|done|apply Hout|].
  { rsimpl. by rewrite Ht1. }
  intros h b Hh Hb.
  pose proof (kernel_ok_add (k1 <| port ::= f |>) V t (cfg_priority cfg) ts h b Hk2 Hout Hp Hts) as Hk3.
  rsimpl_in Hk3. rewrite Ht1 in Hk3. specialize (Hk3 eq_refl eq_refl eq_refl Hh Hb).
  rewrite bool_decide_true by done. wp_steps. unfold sertos_scheduler_register_task. ksteps.
  apply wp_exit; [done|]. intros g. wp_steps. rewrite decide_True by done. apply wp_bind.
  assert (Hreg' : detached (<[LReady (cfg_priority cfg) := Some (ts ++ [t])]> V) FRegistry t).
  { by apply detached_insert. }
  pose proof (lists_ok_insert_tail h _ LRegistry rs t Hh) as Hh4. cbn [link_of] in Hh4.
  rewrite fn_lookup_insert_ne in Hh4 by done. specialize (Hh4 Hrs Hreg').
  pose proof (kernel_ok_aux _ _ LRegistry (rs ++ [t]) _ Hk3 (or_introl eq_refl) Hh4) as Hk4.
  unfold sertos_scheduler_is_running. wp_steps.
  match goal with |- wp _ _ ?k' _ => specialize (HQ k' pc) end.
  apply (wp_mono P _ _ (fun _ k'' => Q (SERTOS_STATUS_OK, Some t) k''));
    [|intros [] k' Hq; wp_steps; exact Hq].
  match type of HQ with _ -> _ -> _ -> _ -> _ -> ?G => cut G end.
  { intros HG. apply wp_bind_inv, wp_gets_inv in HG. exact HG. }
  apply HQ.
  - eapply kernel_ok_compat, Hk4. by split.
  - destruct Hsg. by split.
  - rsimpl. rewrite fn_lookup_alter, Ht1. done.
  - intros x Hx. rsimpl. rewrite fn_lookup_alter_ne by done. by apply Hx1.
  - done.
Qed.

(** Before the scheduler runs. *)
Lemma create_static_exec k V t cfg ts rs :
  kernel_ok k V -> outside V t -> detached V FRegistry t -> valid_config cfg ->
  s_is_running k = false -> V (LReady (cfg_priority cfg)) = Some ts -> V LRegistry = Some rs ->
  exists k' pc, exec (sertos_task_create_static (Some cfg) (Some t) true) k =
      Some ((SERTOS_STATUS_OK, Some t), k') /\
    kernel_ok k' (created_view t (cfg_priority cfg) ts rs V) /\ same_globals k k' /\
    tcbs k' t = (new_tcb (mem k) cfg true) <| port_context := pc |> /\
    (forall x, x <> t -> tcbs k' x = tcbs k x) /\ mem k' = (initial_frame (mem k) cfg).2.
Proof.
  intros Hk Hout Hreg Hcfg Hrun Hts Hrs.
  destruct (proj1 (wp_exec (sertos_task_create_static (Some cfg) (Some t) true) k
    (fun r k' => r = (SERTOS_STATUS_OK, Some t) /\ exists pc,
      kernel_ok k' (created_view t (cfg_priority cfg) ts rs V) /\ same_globals k k' /\
      tcbs k' t = (new_tcb (mem k) cfg true) <| port_context := pc |> /\
      (forall x, x <> t -> tcbs k' x = tcbs k x) /\ mem k' = (initial_frame (mem k) cfg).2)))
    as (r & k' & He & -> & pc & Hr); [|by exists k', pc].
  apply (wp_create_static _ k V t cfg ts rs); [done..|].
  intros k' pc Hk' Hsg Ht Hx Hm. unfold sertos_scheduler_is_running. wp_steps.
  rewrite (sg_running _ _ Hsg), Hrun. wp_steps. split; [done|]. by exists pc.
Qed.

(** ** Initialisation *)

Definition empty_lists (n : nat) (i : Z) (V : lview) : lview := fun l =>
  match l with
  | LReady p => if decide (i <= p < i + Z.of_nat n) then Some [] else V l
  | _ => V l
  end.

Lemma wp_init_ready_queues P n i k V (Q : unit -> Kernel -> Prop) :
  lists_ok (heap k) V ->
  (forall h, lists_ok h (empty_lists n i V) -> Q tt (k <| heap := h |>)) ->
  wp P (init_ready_queues n i) k Q.
Proof.
  revert i k V. induction n as [|n IH]; intros i k V HV HQ; cbn [init_ready_queues].
  - wp_steps. replace k with (k <| heap := heap k |>) by by destruct k. apply HQ.
    assert (Heq : pointwise_relation listid eq (empty_lists 0 i V) V).
    { intros l. unfold empty_lists. destruct l; try done. rewrite decide_False; [done|lia]. }
    by rewrite Heq.
  - ksteps. eapply IH; [rsimpl; by apply (lists_ok_init _ V (LReady i))|].
    intros h Hh. assert (Heq : pointwise_relation listid eq
      (empty_lists n (i + 1) (<[LReady i := Some []]> V)) (empty_lists (S n) i V)).
    { intros l. unfold empty_lists. destruct l as [p| | | | | | | | | |]; try done.
      destruct (decide (p = i)) as [->|Hne].
      - rewrite decide_False by lia. rewrite fn_lookup_insert. by rewrite decide_True by lia.
      - rewrite fn_lookup_insert_ne by congruence.
        destruct (decide (i + 1 <= p < i + 1 + Z.of_nat n)), (decide (i <= p < i + Z.of_nat (S n))); done || lia. }
    rewrite Heq in Hh. by apply (HQ h).
Qed.

(** The lists a fresh kernel starts with. *)
Definition fresh_view : lview := fun l =>
  match l with
  | LReady p => if decide (0 <= p < MAXP) then Some [] else None
  | LDelay | LSuspended | LRegistry => Some []
  | _ => None
  end.

Lemma wp_reset_visit P fuel k V l ts1 ts2 now (Q : Z -> Kernel -> Prop) :
  lists_ok (heap k) V -> V l = Some (ts1 ++ ts2) -> link_of l = FRegistry ->
  (length ts2 <= fuel)%nat ->
  (forall k', heap k' = heap k -> s_ready_bitmap k' = s_ready_bitmap k -> same_globals k k' ->
     mem k' = mem k -> s_stats_enabled k' = s_stats_enabled k ->
     (forall x, tcbs k' x = if decide (x ∈ ts2) then
        (tcbs k x) <| run_time_total := 0 |> <| run_time_last_entry := now |> <| switch_in_count := 0 |>
        else tcbs k x) -> Q now k') ->
  NoDup ts2 ->
  wp P (visit_loop fuel l reset_visitor (Some (next_of l ts2)) now) k Q.
Proof.
  revert fuel k ts1. induction ts2 as [|t ts2 IH]; intros fuel k ts1 HV Hl Hf Hfu HQ Hnd.
  - destruct fuel; cbn [visit_loop next_of]; rewrite decide_True by done; wp_steps; by apply HQ.
  - destruct fuel as [|fuel]; [simpl in Hfu; lia|]. cbn [visit_loop next_of].
    rewrite decide_False by done. cbn [unless_none]. wp_steps. cbn [container_of].
    rewrite Hf, decide_True by done. unfold reset_visitor. ksteps.
    pose proof (member_next _ _ _ _ _ _ HV Hl) as Hn. rewrite Hf in Hn. rewrite Hn.
    apply NoDup_cons in Hnd as [Hni Hnd].
    eapply (IH fuel _ (ts1 ++ [t])); [exact HV|by rewrite <-app_assoc|done|simpl in Hfu; lia| |done].
    intros k' Hh Hb Hsg Hm Hs Ht. rsimpl_in Hh. rsimpl_in Hb. apply HQ; try done.
    + destruct Hsg. by split.
    + intros x. rewrite Ht. rsimpl. rewrite !alter_alter. destruct (decide (t = x)) as [<-|Hne].
      * rewrite fn_lookup_alter. rewrite decide_False by done. by rewrite decide_True by (by left).
      * rewrite fn_lookup_alter_ne by done.
        destruct (decide (x ∈ ts2)), (decide (x ∈ t :: ts2)); set_solver.
Qed.

Lemma lists_ok_none h : lists_ok h (fun _ => None).
Proof. by split. Qed.

Lemma kernel_ok_fresh k :
  lists_ok (heap k) fresh_view -> bitmap_size (s_ready_bitmap k) = MAXP ->
  (forall p, bitmap_bit (s_ready_bitmap k) p = false) -> kernel_ok k fresh_view.
Proof.
  intros Hh Hs Hb. unfold fresh_view in *. split; try done.
  - split; [done|]. intros p ts Hp. rewrite decide_True by done. intros [= <-]. by rewrite Hb.
  - intros p Hp. rewrite decide_True by done. by eexists.
  - intros p ts t. case_decide; [|done]. intros [= <-] Hin. by apply not_elem_of_nil in Hin.
  - intros ts t [= <-] Hin. by apply not_elem_of_nil in Hin.
  - intros l ts t Hf Hl. by destruct l.
Qed.

Lemma fresh_lists h :
  lists_ok h (empty_lists (Z.to_nat SERTOS_CONFIG_MAX_PRIORITIES) 0 (fun _ => None)) ->
  lists_ok (linked_list_init LRegistry (linked_list_init LSuspended (linked_list_init LDelay h))) fresh_view.
Proof.
  intros Hh. apply (lists_ok_init _ _ LDelay), (lists_ok_init _ _ LSuspended), (lists_ok_init _ _ LRegistry) in Hh.
  assert (Heq : pointwise_relation listid eq fresh_view
    (<[LRegistry := Some []]> (<[LSuspended := Some []]> (<[LDelay := Some []]>
      (empty_lists (Z.to_nat SERTOS_CONFIG_MAX_PRIORITIES) 0 (fun _ => None)))))).
  { intros l. unfold fresh_view, insert, fn_insert, empty_lists. destruct l; by repeat case_decide. }
  by rewrite Heq.
Qed.

(** The idle task's stack, and the settings, a configuration asks for. *)
Definition idle_stack_of (config : option SertosConfig) : Z * Z :=
  match config with
  | Some c =>
      match idle_task_stack c with
      | Some st => if SERTOS_CONFIG_MINIMAL_STACK_SIZE <=? idle_task_stack_size c
                   then (st, idle_task_stack_size c)
                   else (s_idle_stack, SERTOS_CONFIG_IDLE_TASK_STACK_SIZE)
      | None => (s_idle_stack, SERTOS_CONFIG_IDLE_TASK_STACK_SIZE)
      end
  | None => (s_idle_stack, SERTOS_CONFIG_IDLE_TASK_STACK_SIZE)
  end.
Definition tick_rate_of (config : option SertosConfig) : Z :=
  match config with
  | Some c => if 0 <? tick_rate_hz c then tick_rate_hz c else SERTOS_CONFIG_TICK_RATE_HZ
  | None => SERTOS_CONFIG_TICK_RATE_HZ
  end.
Definition time_slicing_of (config : option SertosConfig) : bool :=
  match config with Some c => enable_time_slicing c | None => true end.
Definition stats_enabled_of (config : option SertosConfig) : bool :=
  match config with Some c => enable_runtime_stats c | None => false end.
Definition idle_config (stack : Z * Z) : SertosTaskConfig := {|
  cfg_name := Some "Idle"%string; cfg_entry_func := Some idle_task_entry_addr; cfg_param := None;
  cfg_priority := 0; cfg_stack_buffer := Some stack.1; cfg_stack_size := stack.2 |}.

Lemma idle_config_valid config :
  (idle_stack_of config).1 mod SERTOS_STACK_ALIGNMENT_BYTES = 0 -> valid_config (idle_config (idle_stack_of config)).
Proof.
  intros Hal. split; [done|]. split; [|done]. unfold validate_task_config, idle_config. cbn.
  rewrite (proj2 (Z.ltb_ge _ _)).
  - by rewrite (proj2 (Z.eqb_eq _ _) Hal).
  - unfold idle_stack_of. destruct config as [c|]; [|done]. destruct (idle_task_stack c); [|done].
    by destruct (Z.leb_spec SERTOS_CONFIG_MINIMAL_STACK_SIZE (idle_task_stack_size c)).
Qed.

(** What initialisation establishes, whatever the memory held before. *)
Record initialised (config : option SertosConfig) k' : Prop := Initialised {
  in_ok : kernel_ok k' (created_view s_idle_tcb 0 [] [] fresh_view);
  in_current : sertos_current_tcb k' = None;
  in_running : s_is_running k' = false;
  in_nesting : s_lock_nesting k' = 0;
  in_pending : s_reschedule_pending k' = false;
  in_ticks : atomic_load_relaxed (s_system_ticks k') = 0;
  in_rate : s_tick_rate_hz k' = tick_rate_of config;
  in_slicing : s_time_slicing_enabled k' = time_slicing_of config;
  in_stats : s_stats_enabled k' = stats_enabled_of config;
  in_switches : s_total_switches k' = 0;
  in_idle : stack_base (tcbs k' s_idle_tcb) = Some (idle_stack_of config).1 /\
    state (tcbs k' s_idle_tcb) = SERTOS_TASK_STATE_READY /\
    priority (tcbs k' s_idle_tcb) = 0 /\ magic (tcbs k' s_idle_tcb) = SERTOS_TASK_MAGIC_WORD /\
    name (tcbs k' s_idle_tcb) = Some "Idle"%string }.

Lemma wp_stats_reset P `{!Calm P} k V rs (Q : unit -> Kernel -> Prop) :
  lists_ok (heap k) V -> V LRegistry = Some rs -> (length rs <= loop_fuel)%nat ->
  (forall k', heap k' = heap k -> s_ready_bitmap k' = s_ready_bitmap k -> same_globals k k' ->
     s_total_switches k' = 0 ->
     (forall x, exists a b c, tcbs k' x =
        (tcbs k x) <| run_time_total := a |> <| run_time_last_entry := b |> <| switch_in_count := c |>) ->
     Q tt k') ->
  wp P sertos_stats_reset k Q.
Proof.
  intros HV Hrs Hfu HQ. unfold sertos_stats_reset, runtime_counter, sertos_scheduler_get_tick_count,
    sertos_port_runtime_counter, sertos_scheduler_visit_all_tasks, visit_list_state_nodes.
  wp_steps. apply wp_enter; [done|]. intros c f. ksteps.
  rewrite (root_next _ _ _ _ HV Hrs). eapply (wp_reset_visit _ _ _ V LRegistry [] rs);
    [exact HV|done|done|done| |by eapply lists_ok_nodup].
  intros k' Hh Hb Hsg Hm Hs Ht. wp_steps. apply wp_exit; [done|]. intros g. wp_steps.
  apply HQ; try done.
  - destruct Hsg. by split.
  - intros x. rsimpl. rewrite Ht. rsimpl. case_decide; [by eexists _, _, _|].
    exists (run_time_total (tcbs k x)), (run_time_last_entry (tcbs k x)), (switch_in_count (tcbs k x)).
    by destruct (tcbs k x).
Qed.

(** The second half of the initialisation. *)
Lemma wp_init_idle P `{!Calm P} config k (Q : SertosStatus -> Kernel -> Prop) :
  kernel_ok k fresh_view -> sertos_current_tcb k = None -> s_is_running k = false ->
  s_lock_nesting k = 0 -> s_reschedule_pending k = false ->
  atomic_load_relaxed (s_system_ticks k) = 0 -> s_tick_rate_hz k = tick_rate_of config ->
  s_time_slicing_enabled k = time_slicing_of config -> s_stats_enabled k = stats_enabled_of config ->
  (idle_stack_of config).1 mod SERTOS_STACK_ALIGNMENT_BYTES = 0 -> (1 <= loop_fuel)%nat ->
  (forall k', initialised config k' -> Q SERTOS_STATUS_OK k') ->
  wp P (r ← sertos_task_create_static (Some (idle_config (idle_stack_of config))) (Some s_idle_tcb) true;
        sertos_stats_reset;; mret r.1) k Q.
Proof.
  intros Hk Hcur Hrun Hnest Hpend Htick Hrate Hsl Hstats Hal Hfu HQ.
  assert (Hdet : forall f, detached fresh_view f s_idle_tcb).
  { intros f l ts Hl _. unfold fresh_view in Hl.
    destruct l; repeat case_decide; simplify_eq; apply not_elem_of_nil. }
  wp_steps. apply (wp_create_static _ _ fresh_view _ _ [] [] _ Hk (conj (Hdet _) (Hdet _)) (Hdet _)); [|done|done|
  ]. { by apply idle_config_valid. }
  intros k1 pc Hk1 Hsg Ht _ _. unfold sertos_scheduler_is_running. wp_steps.
  destruct Hsg as [Hc1 Hr1 Hn1 Hp1 Ht1 Hra1 Hs1 Hst1 _ _ _].
  rewrite Hr1, Hrun. wp_steps.
  apply (wp_stats_reset _ _ (created_view s_idle_tcb 0 [] [] fresh_view) [s_idle_tcb]);
    [apply Hk1|done|done|]. intros k2 Hh2 Hb2 [Hc2 Hr2 Hn2 Hp2 Ht2 Hra2 Hs2 Hst2 _ _ _] Htot Htcb.
  wp_steps. apply HQ. split; try congruence.
  - destruct Hk1 as [A B C D E F G H1 I]. split; rewrite ?Hh2, ?Hb2; try done.
    + intros p ts x Hts Hx. destruct (Htcb x) as (?&?&?&Hx').
      unfold ready_task. rewrite Hx'. rsimpl. by apply (G p ts).
    + intros ts x Hts Hx. destruct (Htcb x) as (?&?&?&Hx').
      unfold delayed_task. rewrite Hx'. rsimpl. by apply (H1 ts).
    + intros l ts x Hf Hts Hx. destruct (Htcb x) as (?&?&?&Hx').
      unfold waiting_task. rewrite Hx'. rsimpl. by apply (I l ts).
  - destruct (Htcb s_idle_tcb) as (?&?&?&->). rewrite Ht. done.
Qed.

Lemma wp_init P `{!Calm P} config k (Q : SertosStatus -> Kernel -> Prop) :
  (idle_stack_of config).1 mod SERTOS_STACK_ALIGNMENT_BYTES = 0 -> (1 <= loop_fuel)%nat ->
  (forall k', initialised config k' -> Q SERTOS_STATUS_OK k') ->
  wp P (sertos_scheduler_init_with_config config) k Q.
Proof.
  intros Hal Hfu HQ. unfold sertos_scheduler_init_with_config.
  destruct (bitmap_init_law SERTOS_CONFIG_MAX_PRIORITIES) as (b & Hb & Hbs & Hbits); [done|].
  rewrite Hb. wp_steps. eapply (wp_init_ready_queues _ _ _ _ (fun _ => None)); [apply lists_ok_none|].
  intros h Hh. ksteps.
  assert (Hidle : forall k1, kernel_ok k1 fresh_view -> sertos_current_tcb k1 = None ->
    s_is_running k1 = false -> s_lock_nesting k1 = 0 -> s_reschedule_pending k1 = false ->
    atomic_load_relaxed (s_system_ticks k1) = 0 -> s_tick_rate_hz k1 = tick_rate_of config ->
    s_time_slicing_enabled k1 = time_slicing_of config -> s_stats_enabled k1 = stats_enabled_of config ->
    wp P (r ← sertos_task_create_static (Some (idle_config (idle_stack_of config))) (Some s_idle_tcb) true;
      sertos_stats_reset;; mret r.1) k1 Q) by (intros; by apply (wp_init_idle _ config)).
  set (k1 := k <| s_ready_bitmap := b |> <| heap := _ |> <| heap ::= _ |> <| heap ::= _ |> <| heap ::= _ |>
    <| sertos_current_tcb := _ |> <| s_is_running := _ |> <| s_lock_nesting := _ |>
    <| s_reschedule_pending := _ |> <| s_system_ticks := _ |>).
  assert (Hk1 : kernel_ok k1 fresh_view) by (apply kernel_ok_fresh; [by apply fresh_lists|done|done]).
  assert (Ht1 : atomic_load_relaxed (s_system_ticks k1) = 0) by apply atomic_load_init_law.
  assert (H1 : sertos_current_tcb k1 = None /\ s_is_running k1 = false /\ s_lock_nesting k1 = 0 /\
    s_reschedule_pending k1 = false) by done.
  clearbody k1. destruct H1 as (?&?&?&?).
  destruct config as [c|]; unfold sertos_stats_set_enabled.
  - wp_steps. cbn [idle_stack_of] in *.
    destruct (idle_task_stack c) as [st|]; [destruct (Z.leb_spec SERTOS_CONFIG_MINIMAL_STACK_SIZE (idle_task_stack_size c))|];
      apply wp_ret; apply Hidle; try done; by eapply kernel_ok_same, Hk1.
  - wp_steps. apply wp_bind_inv, (Hidle _); try done. by eapply kernel_ok_same, Hk1.
Qed.

(** ** Suspending and resuming a ready task *)

Lemma leaves_outside k V p ts1 t ts2 :
  kernel_ok k V -> V (LReady p) = Some (ts1 ++ t :: ts2) -> outside (<[LReady p := Some (ts1 ++ ts2)]> V) t.
Proof.
  intros Hk Hts. split; [by apply (detached_remove _ _ (LReady p) _ _ _ (ok_lists _ _ Hk))|].
  apply detached_insert; [|done]. apply (ready_detached_event k V p); [done|].
  eexists. split; [done|set_solver].
Qed.

(** Taken out of its ready queue, a task is of no concern to the invariant. *)
Lemma kernel_ok_leave_ready k V p ts1 t ts2 h b f :
  kernel_ok k V -> V (LReady p) = Some (ts1 ++ t :: ts2) ->
  lists_ok h (<[LReady p := Some (ts1 ++ ts2)]> V) -> bits_ok b (<[LReady p := Some (ts1 ++ ts2)]> V) ->
  kernel_ok (resched k h b (alter f t)) (<[LReady p := Some (ts1 ++ ts2)]> V).
Proof.
  intros Hk Hts Hh Hb. pose proof (leaves_outside _ _ _ _ _ _ Hk Hts) as Hout.
  assert (Hne : forall l, (forall q, l <> LReady q) -> (<[LReady p := Some (ts1 ++ ts2)]> V) l = V l).
  { intros l Hl. by rewrite fn_lookup_insert_ne by (intros <-; by eapply Hl). }
  assert (Hk1 : kernel_ok (k <| heap := h |> <| s_ready_bitmap := b |>) (<[LReady p := Some (ts1 ++ ts2)]> V)).
  { destruct Hk as [_ _ Hq Hd Hr Hs Hrd Hdd Hw]. split; rsimpl; try done; try by rewrite Hne.
    - intros q Hq'. unfold insert, fn_insert. case_decide; [by eexists|by apply Hq].
    - intros q us x Hus Hx. destruct (decide (LReady p = LReady q)) as [Heq|Hqp].
      + injection Heq as <-. rewrite fn_lookup_insert in Hus. simplify_eq.
        apply (Hrd _ _ x Hts). set_solver.
      + rewrite fn_lookup_insert_ne in Hus by done. by apply (Hrd q us).
    - intros us x. rewrite Hne by done. intros Hus Hx. destruct (Hdd us x Hus Hx) as (?&?&?&Hwl).
      split_and!; try done; try lia. intros l Hl. destruct (Hwl l Hl). rewrite Hne by ne_lists. done.
    - intros l us x Hf. rewrite Hne by ne_lists. intros Hus Hx.
      destruct (Hw l us x Hf Hus Hx) as (?&?&?&Hdx). split_and!; try done; try lia. }
  eapply kernel_ok_same, (kernel_ok_outside _ _ t f h Hk1 Hout Hh); done.
Qed.

Lemma wp_suspend_ready P `{!Calm P} k V p ts1 t ts2 (Q : SertosStatus -> Kernel -> Prop) :
  kernel_ok k V -> V (LReady p) = Some (ts1 ++ t :: ts2) -> magic (tcbs k t) = SERTOS_TASK_MAGIC_WORD ->
  state (tcbs k t) = SERTOS_TASK_STATE_READY -> sertos_current_tcb k <> Some t ->
  (forall f h b,
     let k' := resched (k <| port ::= f |>) h b (alter (set state (fun _ => SERTOS_TASK_STATE_SUSPENDED)) t) in
     kernel_ok k' (<[LReady p := Some (ts1 ++ ts2)]> V) -> Q SERTOS_STATUS_OK k') ->
  wp P (sertos_task_suspend (Some t)) k Q.
Proof.
  intros Hk Hts Hm Hst Hcur HQ. unfold sertos_task_suspend, task_arg, task_may, task_magic_ok,
    sertos_scheduler_get_current_tcb, sertos_scheduler_is_running. wp_steps.
  rewrite Hm, Hst, Z.eqb_refl.
  change (sertos_task_is_valid_transition SERTOS_TASK_STATE_READY SERTOS_TASK_STATE_SUSPENDED) with true.
  cbn [andb negb]. wp_steps. apply wp_enter; [done|]. intros c f. ksteps.
  rewrite Hst, bool_decide_true by done. wp_steps.
  assert (Hk1 : kernel_ok (k <| port ::= f |>) V) by (eapply kernel_ok_compat, Hk; by split).
  destruct (ok_ready _ _ Hk _ _ t Hts) as (Hp & Hpt & _); [set_solver|].
  apply (wp_remove_ready _ _ V _ p ts1 ts2); [apply Hk1|apply Hk1|done|done|done|].
  intros h b Hh Hb. ksteps. apply wp_exit; [done|]. intros g. wp_steps.
  rewrite bool_decide_false by (intros ?; by apply Hcur). cbn [andb]. wp_steps.
  pose proof (kernel_ok_leave_ready k V p ts1 t ts2 h b (set state (fun _ => SERTOS_TASK_STATE_SUSPENDED))
    Hk Hts Hh Hb) as Hk2.
  apply (HQ (fun q => g (f q)) h b). by eapply kernel_ok_same, Hk2.
Qed.

Lemma wp_resume P `{!Calm P} k V p ts t (Q : SertosStatus -> Kernel -> Prop) :
  kernel_ok k V -> outside V t -> magic (tcbs k t) = SERTOS_TASK_MAGIC_WORD ->
  state (tcbs k t) = SERTOS_TASK_STATE_SUSPENDED -> priority (tcbs k t) = p -> 0 <= p < MAXP ->
  wait_list (tcbs k t) = None -> delay_ticks (tcbs k t) = 0 -> V (LReady p) = Some ts ->
  (forall f h b,
     let k' := resched (k <| port ::= f |>) h b (alter (set state (fun _ => SERTOS_TASK_STATE_READY)) t) in
     kernel_ok k' (<[LReady p := Some (ts ++ [t])]> V) ->
     wp P (when (s_is_running k) sertos_scheduler_reschedule) k' (fun _ k'' => Q SERTOS_STATUS_OK k'')) ->
  wp P (sertos_task_resume (Some t)) k Q.
Proof.
  intros Hk Hout Hm Hst Hpt Hp Hw Hd Hts HQ. unfold sertos_task_resume, task_may, task_magic_ok,
    sertos_scheduler_is_running. wp_steps.
  rewrite Hm, Hst, Z.eqb_refl.
  change (sertos_task_is_valid_transition SERTOS_TASK_STATE_SUSPENDED SERTOS_TASK_STATE_READY) with true.
  cbn [andb negb]. wp_steps. apply wp_enter; [done|]. intros c f. wp_steps.
  assert (Hk1 : kernel_ok (k <| port ::= f |>) V) by (eapply kernel_ok_compat, Hk; by split).
  apply (wp_add_ready _ _ V _ p ts); [apply Hk1|apply Hk1|done|done|done|apply Hout|].
  intros h b Hh Hb. wp_steps. apply wp_exit; [done|]. intros g. wp_steps.
  rewrite bool_decide_true by done. cbn [andb]. rsimpl.
  pose proof (kernel_ok_add k V t p ts h b Hk Hout Hp Hts Hpt Hw Hd Hh Hb) as Hk2.
  eapply wp_mono.
  - apply (HQ (fun q => g (f q)) h b). by eapply kernel_ok_same, Hk2.
  - intros [] k' Hq. by wp_steps.
Qed.
End spec.
