(* ===== verification/MutexSpec.v ===== *)
(** An abstract specification of mutexes, what it means for a mutex of the kernel to be one, and
    the specifications of priority inheritance and of handing over. *)
From S2P Require Import Prelude Effects Types Platform LinkedLists Kernel Invariant SchedCore.
From S2P Require Import SchedCoreSpec DelaySpec TaskInfo Stats Timer Scheduler Task Mutex.
From S2P Require Import SchedulerSpec BlockSpec TaskSpec.

(** ** Abstract mutexes *)

(** Who owns the mutex, how many times over, and who waits, in order. *)
Record mutex_state : Type := MutexState { holder : option addr; depth : Z; queue : list addr }.

(** Nobody waits for a free mutex; depths fit 32 bits. *)
Definition mutex_ok (m : mutex_state) : Prop :=
  match holder m with
  | None => depth m = 0 /\ queue m = []
  | Some _ => 0 < depth m < 2 ^ 32
  end.

(** Task [c] locks and does not wait. *)
Inductive mutex_locks (c : addr) : mutex_state -> SertosStatus -> mutex_state -> Prop :=
  | lock_free : mutex_locks c (MutexState None 0 []) SERTOS_STATUS_OK (MutexState (Some c) 1 [])
  | lock_nested n ws : n + 1 < 2 ^ 32 ->
      mutex_locks c (MutexState (Some c) n ws) SERTOS_STATUS_OK (MutexState (Some c) (n + 1) ws)
  | lock_refused o n ws : o <> c ->
      mutex_locks c (MutexState (Some o) n ws) SERTOS_STATUS_ERROR_TIMEOUT (MutexState (Some o) n ws).

(** Task [c] unlocks: only the holder may; the last level goes to the first waiter. *)
Inductive mutex_unlocks (c : addr) : mutex_state -> SertosStatus -> mutex_state -> Prop :=
  | unlock_nested n ws : 1 < n ->
      mutex_unlocks c (MutexState (Some c) n ws) SERTOS_STATUS_OK (MutexState (Some c) (n - 1) ws)
  | unlock_hands_over t ws :
      mutex_unlocks c (MutexState (Some c) 1 (t :: ws)) SERTOS_STATUS_OK (MutexState (Some t) 1 ws)
  | unlock_frees :
      mutex_unlocks c (MutexState (Some c) 1 []) SERTOS_STATUS_OK (MutexState None 0 [])
  | unlock_refused m : holder m <> Some c -> mutex_unlocks c m SERTOS_STATUS_ERROR_INVALID_PARAM m.

Lemma mutex_locks_ok c m r m' : mutex_locks c m r m' -> mutex_ok m -> mutex_ok m'.
Proof. unfold mutex_ok. intros []; simpl; lia. Qed.
Lemma mutex_unlocks_ok c m r m' : mutex_unlocks c m r m' -> mutex_ok m -> mutex_ok m'.
Proof. unfold mutex_ok. intros []; simpl; try lia; done. Qed.

Section spec.
Context `{PL : Platform} `{!PlatformLaws} `{!Callbacks}.
Implicit Types (k : Kernel) (V : lview) (P : protocol Kernel) (a t o c : addr) (ts : list addr).

Definition with_priority (p : Z) : SertosTaskControlBlock -> SertosTaskControlBlock :=
  set priority (fun _ => p).

(** A ready task moves from its queue [q] to the tail of queue [p]. *)
Definition moved_view t (q : Z) ts (p : Z) ps V : lview :=
  <[LReady p := Some (ps ++ [t])]> (<[LReady q := Some ts]> V).

Lemma wp_move_ready P k V q ts1 t ts2 p ps (Q : unit -> Kernel -> Prop) :
  kernel_ok k V -> V (LReady q) = Some (ts1 ++ t :: ts2) -> state (tcbs k t) = SERTOS_TASK_STATE_READY ->
  0 <= p < MAXP -> p <> q -> V (LReady p) = Some ps ->
  (forall h b, let k' := resched k h b (alter (with_priority p) t) in
     kernel_ok k' (moved_view t q (ts1 ++ ts2) p ps V) -> Q tt k') ->
  wp P (move_to_priority t p) k Q.
Proof.
  intros Hk Hts Hst Hp Hne Hps HQ. unfold move_to_priority. ksteps. rewrite Hst, bool_decide_true by done.
  wp_steps. destruct (ok_ready _ _ Hk _ _ t Hts) as (Hq & Hpt & _ & Hw & Hd); [set_solver|].
  apply (wp_remove_ready _ _ V _ q ts1 ts2); [apply Hk|apply Hk|done|done|done|].
  intros h b Hh Hb. ksteps.
  set (k1 := resched k h b (alter (with_priority p) t)).
  set (V1 := <[LReady q := Some (ts1 ++ ts2)]> V).
  assert (Hk1 : kernel_ok k1 V1) by by apply (kernel_ok_leave_ready k V q ts1 t ts2).
  assert (Hout : outside V1 t) by by eapply leaves_outside.
  assert (Ht : tcbs k1 t = with_priority p (tcbs k t)) by apply fn_lookup_alter.
  assert (Hps1 : V1 (LReady p) = Some ps) by (unfold V1; rewrite fn_lookup_insert_ne; congruence).
  change (k <| heap := h |> <| s_ready_bitmap := b |> <| tcbs ::= alter (set priority (fun _ => p)) t |>)
    with k1.
  apply (wp_add_ready _ k1 V1 t p ps); [apply Hk1|apply Hk1|by rewrite Ht|done|done|apply Hout|].
  intros h2 b2 Hh2 Hb2. wp_steps.
  pose proof (kernel_ok_add k1 V1 t p ps h2 b2 Hk1 Hout Hp Hps1) as Hk2.
  rewrite !Ht in Hk2. specialize (Hk2 eq_refl Hw Hd Hh2 Hb2).
  specialize (HQ h2 b2). cbn zeta in HQ.
  assert (Heq : resched k h2 b2 (alter (with_priority p) t) =
    resched k1 h2 b2 (alter (set state (fun _ => SERTOS_TASK_STATE_READY)) t)).
  { transitivity (resched k h2 b2 (fun m => alter (set state (fun _ => SERTOS_TASK_STATE_READY)) t
      (alter (with_priority p) t m))); [|done].
    apply set_tcbs_ext. simpl. rewrite alter_alter. apply alter_ext_at.
    revert Hst. unfold with_priority. destruct (tcbs k t). simpl. by intros ->. }
  rewrite Heq in HQ. by apply HQ.
Qed.

(** The priority of a task that is in no ready queue. *)
Lemma kernel_ok_reprioritise k V t p :
  kernel_ok k V -> (forall q, ~ member V (LReady q) t) -> 0 <= p < MAXP ->
  kernel_ok (k <| tcbs ::= alter (with_priority p) t |>) V.
Proof.
  intros [Hl Hb Hq Hd Hr Hs Hrd Hdd Hw] Hnot Hp. split; rsimpl; try done.
  - intros q ts x Hts Hx. unfold ready_task. rsimpl. rewrite fn_lookup_alter_ne; [by apply (Hrd q ts)|].
    intros <-. apply (Hnot q). by exists ts.
  - intros ts x Hts Hx. unfold delayed_task. rsimpl. destruct (decide (t = x)) as [<-|Hne].
    + rewrite fn_lookup_alter. destruct (Hdd ts t Hts Hx) as (?&?&?&?). split_and!; try done; simpl; lia.
    + rewrite fn_lookup_alter_ne by done. by apply (Hdd ts).
  - intros l ts x Hf Hts Hx. unfold waiting_task. rsimpl. destruct (decide (t = x)) as [<-|Hne].
    + rewrite fn_lookup_alter. destruct (Hw l ts t Hf Hts Hx) as (?&?&?&?). split_and!; try done; simpl; lia.
    + rewrite fn_lookup_alter_ne by done. by apply (Hw l ts).
Qed.

(** What inheritance leaves: the owner has at least the priority [pc], in a well-formed kernel
    that is otherwise as before; a ready owner is at the tail of the ready queue [pc]. *)
Record inherited k V o (pc : Z) k' V' : Prop := Inherited {
  ih_ok : kernel_ok k' V';
  ih_eq : k' = resched k (heap k') (s_ready_bitmap k')
                 (alter (with_priority (Z.max (priority (tcbs k o)) pc)) o);
  ih_ready : state (tcbs k o) = SERTOS_TASK_STATE_READY -> priority (tcbs k o) < pc ->
    forall ps, V (LReady pc) = Some ps -> V' (LReady pc) = Some (ps ++ [o]);
  ih_member : forall q x, member V (LReady q) x ->
    member V' (LReady (if decide (x = o) then Z.max (priority (tcbs k o)) pc else q)) x;
  ih_lists : forall l, link_of l <> FState \/ l = LDelay -> V' l = V l }.

Lemma member_moved V t q ts1 ts2 p ps r x :
  V (LReady q) = Some (ts1 ++ t :: ts2) -> V (LReady p) = Some ps -> p <> q ->
  member V (LReady r) x -> member (moved_view t q (ts1 ++ ts2) p ps V) (LReady (if decide (x = t) then p else r)) x.
Proof.
  intros Hts Hps Hne (us & Hus & Hin). unfold moved_view. case_decide as Hx.
  - subst. rewrite member_insert. left. set_solver.
  - rewrite member_insert. destruct (decide (LReady p = LReady r)) as [Heq|Hpr].
    + left. split; [done|]. injection Heq as <-. set_solver.
    + right. split; [done|]. rewrite member_insert. destruct (decide (LReady q = LReady r)) as [Heq|Hqr].
      * left. split; [done|]. injection Heq as <-. set_solver.
      * right. split; [done|]. by exists us.
Qed.

(** The owner is ready in its queue, or it is in no queue at all. *)
Definition placed k V o : Prop :=
  (state (tcbs k o) = SERTOS_TASK_STATE_READY -> member V (LReady (priority (tcbs k o))) o) /\
  (state (tcbs k o) <> SERTOS_TASK_STATE_READY -> forall q, ~ member V (LReady q) o).

Lemma alter_same_priority k o p :
  p = priority (tcbs k o) -> resched k (heap k) (s_ready_bitmap k) (alter (with_priority p) o) = k.
Proof.
  intros ->. apply resched_id, alter_id_at. unfold with_priority. by destruct (tcbs k o).
Qed.

Lemma wp_inherit P k V a c o (Q : unit -> Kernel -> Prop) :
  kernel_ok k V -> mtx_owner (mutexes k a) = Some o -> 0 <= priority (tcbs k c) < MAXP -> placed k V o ->
  (forall k' V', inherited k V o (priority (tcbs k c)) k' V' -> Q tt k') ->
  wp P (apply_priority_inheritance a c) k Q.
Proof.
  intros Hk Ho Hp [Hready Hnot] HQ. unfold apply_priority_inheritance. ksteps. rewrite Ho. ksteps.
  set (pc := priority (tcbs k c)) in *. apply wp_when; intros Hlt.
  - apply Z.ltb_lt in Hlt. assert (Hmax : Z.max (priority (tcbs k o)) pc = pc) by lia.
    destruct (decide (state (tcbs k o) = SERTOS_TASK_STATE_READY)) as [Hst|Hst].
    + destruct (Hready Hst) as (ts & Hts & Hin). apply list_elem_of_split in Hin as (ts1 & ts2 & ->).
      destruct (ok_queues _ _ Hk pc Hp) as [ps Hps].
      apply (wp_move_ready _ k V _ ts1 o ts2 pc ps _ Hk Hts Hst Hp ltac:(lia) Hps).
      intros h b k' Hk'. eapply HQ. split; [exact Hk'|by rewrite Hmax| | |].
      * intros _ _ ps' Hps'. simplify_eq. apply fn_lookup_insert.
      * intros r x Hx. rewrite Hmax. apply member_moved; [done|done|lia|done].
      * intros l Hl. unfold moved_view.
        rewrite !fn_lookup_insert_ne by (intros <-; destruct Hl; done). done.
    + unfold move_to_priority. ksteps. rewrite bool_decide_false by done. ksteps.
      apply (HQ _ V). split; [by apply kernel_ok_reprioritise; auto|by rewrite Hmax|done| |done].
      intros q x Hx. case_decide as Hxo; [|done]. subst. by destruct (Hnot Hst q).
  - apply Z.ltb_ge in Hlt. apply (HQ k V). split; [done| |intros; lia| |done].
    + by rewrite alter_same_priority by lia.
    + intros q x (us & Hus & Hin). case_decide as Hxo; [|by exists us]. subst.
      destruct (ok_ready _ _ Hk _ _ _ Hus Hin) as (_ & <- & _). rewrite Z.max_l by lia. by exists us.
Qed.

(** A release of the last level by an owner that runs at its recorded priority. *)
Lemma wp_restore_same P k a c (Q : unit -> Kernel -> Prop) :
  priority (tcbs k c) = mtx_original_owner_priority (mutexes k a) -> Q tt k ->
  wp P (restore_owner_priority a c) k Q.
Proof. intros He HQ. unfold restore_owner_priority. ksteps. by rewrite He, Z.eqb_refl. Qed.
End spec.

(** ** Kernel mutexes and abstract ones *)

Section refine.
Context `{PL : Platform} `{!PlatformLaws} `{!Callbacks}.
Implicit Types (k : Kernel) (V : lview) (P : protocol Kernel) (a t o c : addr) (m : mutex_state).

(** The mutex at [a] is valid and is [m]. *)
Record mutex_is k V a m : Prop := Mutex_is {
  mi_magic : mtx_magic (mutexes k a) = SERTOS_MUTEX_MAGIC_WORD;
  mi_owner : mtx_owner (mutexes k a) = holder m;
  mi_count : mtx_lock_count (mutexes k a) = depth m;
  mi_waiters : V (LMutexWait a) = Some (queue m) }.

Lemma mutex_is_dispatch k k' V a m : only_dispatch k k' -> mutex_is k V a m -> mutex_is k' V a m.
Proof. intros Ho []. split; rewrite ?(od_mutexes _ _ Ho); done. Qed.

Lemma mutex_magic_ok_true k V a m : mutex_is k V a m -> mutex_magic_ok k a = true.
Proof. intros []. unfold mutex_magic_ok. by apply Z.eqb_eq. Qed.

(** Writing the mutex. *)
Lemma mutex_is_upd k k' V V' a m m' f :
  mutex_is k V a m -> mutexes k' = alter f a (mutexes k) -> V' (LMutexWait a) = Some (queue m') ->
  mtx_magic (f (mutexes k a)) = mtx_magic (mutexes k a) -> mtx_owner (f (mutexes k a)) = holder m' ->
  mtx_lock_count (f (mutexes k a)) = depth m' -> mutex_is k' V' a m'.
Proof. intros [] Hm HV ???. split; rewrite ?Hm, ?fn_lookup_alter; congruence. Qed.

(** The abstract mutex after its last level has been given up. *)
Definition passed_on (ws : list addr) : mutex_state :=
  match ws with
  | [] => MutexState None 0 []
  | t :: ws => MutexState (Some t) 1 ws
  end.

Lemma wp_hand_over P k V a ws (Q : unit -> Kernel -> Prop) :
  kernel_ok k V -> mtx_magic (mutexes k a) = SERTOS_MUTEX_MAGIC_WORD -> mtx_lock_count (mutexes k a) = 0 ->
  V (LMutexWait a) = Some ws ->
  (forall k' V', kernel_ok k' V' -> mutex_is k' V' a (passed_on ws) /\
     (forall t, head ws = Some t -> member V' (LReady (priority (tcbs k t))) t /\
        mtx_original_owner_priority (mutexes k' a) = base_priority (tcbs k t)) -> Q tt k') ->
  wp P (hand_over a) k Q.
Proof.
  intros Hk Hm Hc Hws HQ. unfold hand_over. wp_steps.
  apply (wp_unblock_highest _ _ V (LMutexWait a) ws); [done|done|done|]. destruct ws as [|t ws].
  - ksteps. apply (HQ _ V); [by eapply kernel_ok_same, Hk|]. split; [|done].
    split; rsimpl; rewrite ?fn_lookup_alter; done.
  - intros h b V1 k1 Hk1. ksteps.
    pose proof (lists_ok_nodup _ _ _ _ (ok_lists _ _ Hk) Hws) as Hnd.
    destruct (kernel_ok_wake_head _ _ (LMutexWait a) t ws Hk) as (_ & Hp & _); [done|done|].
    destruct (ok_queues _ _ Hk _ Hp) as [rs Hrs].
    assert (HV1 : V1 (LMutexWait a) = Some ws).
    { unfold V1. erewrite wake_view_wait by done. f_equal. by apply (drop_mid t [] ws). }
    apply (HQ _ V1); [by eapply kernel_ok_same, Hk1|]. split.
    + split; rsimpl; rewrite ?fn_lookup_alter; done.
    + intros t' [= <-]. split.
      * exists (rs ++ [t]). split; [by apply wake_view_ready|set_solver].
      * unfold k1. rsimpl. rewrite fn_lookup_alter. simpl. by rewrite fn_lookup_alter.
Qed.

(** An unlock without interference, by a task that runs at the priority on record. *)
Lemma mutex_unlock_passes k V a c m :
  kernel_ok k V -> mutex_is k V a m -> mutex_ok m -> sertos_current_tcb k = Some c ->
  (holder m = Some c -> priority (tcbs k c) = mtx_original_owner_priority (mutexes k a)) ->
  exists r k' V' m', exec (sertos_mutex_unlock (Some a)) k = Some (r, k') /\ kernel_ok k' V' /\
    mutex_unlocks c m r m' /\ mutex_is k' V' a m' /\ mutex_ok m' /\
    (forall t, holder m = Some c -> holder m' = Some t -> t <> c ->
       runnable (state (tcbs k' t)) /\ member V' (LReady (priority (tcbs k t))) t /\
       mtx_original_owner_priority (mutexes k' a) = base_priority (tcbs k t)).
Proof.
  intros Hk Hm Hok Hc Hpr.
  destruct (proj1 (wp_exec (sertos_mutex_unlock (Some a)) k (fun r k' => exists V' m',
    kernel_ok k' V' /\ mutex_unlocks c m r m' /\ mutex_is k' V' a m' /\
    (forall t, holder m = Some c -> holder m' = Some t -> t <> c ->
       runnable (state (tcbs k' t)) /\ member V' (LReady (priority (tcbs k t))) t /\
       mtx_original_owner_priority (mutexes k' a) = base_priority (tcbs k t)))))
    as (r & k' & He & V' & m' & Hk' & Hl & Hm' & Hn).
  2: { exists r, k', V', m'. split_and!; try done. by eapply mutex_unlocks_ok. }
  unfold sertos_mutex_unlock, sertos_scheduler_get_current_tcb, sertos_scheduler_is_running. wp_steps.
  rewrite (mutex_magic_ok_true _ _ _ _ Hm). cbn [negb]. wp_steps. rewrite Hc. ksteps.
  rewrite (mi_owner _ _ _ _ Hm). destruct (decide (holder m = Some c)) as [Hh|Hh].
  2: { rewrite decide_True by done. wp_steps. exists V, m. split; [done|]. split; [by constructor|]. by split. }
  rewrite decide_False by auto. wp_steps. apply wp_enter; [apply _|]. intros cr f. ksteps.
  specialize (Hpr Hh). destruct m as [ow n ws]. simpl in Hh. subst ow. unfold mutex_ok in Hok. simpl in Hok.
  rewrite fn_lookup_alter. rsimpl. rewrite (mi_count _ _ _ _ Hm). cbn [depth].
  replace (u32 (n - 1)) with (n - 1) by (unfold wrap; rewrite Z.mod_small; lia).
  destruct (Z.ltb_spec 0 (n - 1)) as [Hlt|Hge].
  - ksteps. apply wp_exit; [apply _|]. intros g. wp_steps. exists V, (MutexState (Some c) (n - 1) ws).
    split; [by eapply kernel_ok_same, Hk|]. split; [constructor; lia|]. split; [|by intros t _ [= <-]].
    eapply (mutex_is_upd k); [exact Hm|reflexivity|apply Hm|done|apply Hm|].
    simpl. rewrite (mi_count _ _ _ _ Hm). unfold wrap. simpl. rewrite Z.mod_small; lia.
  - assert (n = 1) as -> by lia. wp_steps. apply wp_restore_same; [by rsimpl; rewrite fn_lookup_alter|].
    wp_steps. set (k1 := k <| port ::= f |> <| mutexes ::= _ |>).
    assert (Hk1 : kernel_ok k1 V) by by eapply kernel_ok_same, Hk.
    apply (wp_hand_over _ _ V _ ws _ Hk1); [unfold k1; rsimpl; rewrite fn_lookup_alter; apply Hm| |apply Hm|].
    { unfold k1. rsimpl. rewrite fn_lookup_alter. simpl. by rewrite (mi_count _ _ _ _ Hm). }
    intros k2 V2 Hk2 [Hm2 Hn2]. wp_steps. apply wp_exit; [apply _|]. intros g. wp_steps.
    apply (wp_reschedule_if_running _ V2); [by eapply kernel_ok_same, Hk2|]. intros k3 Ho. wp_steps.
    assert (Hk3 : kernel_ok k3 V2) by by eapply kernel_ok_compat, kernel_ok_same, Hk2.
    exists V2, (passed_on ws). split; [done|]. split; [by destruct ws; constructor|].
    split; [apply (mutex_is_dispatch _ _ _ _ _ Ho); by destruct Hm2|].
    intros t _ Ht _. destruct ws as [|t' ws]; [done|]. injection Ht as ->.
    destruct (Hn2 t eq_refl) as [(us & Hus & Hin) Hbp].
    destruct (ok_ready _ _ Hk3 _ _ t Hus Hin) as (_&_&?&_).
    split; [done|]. split; [by exists us|]. by rewrite (od_mutexes _ _ Ho).
Qed.
End refine.
