(* ===== verification/SemSpec.v ===== *)
(** An abstract specification of semaphores, and what it means for a semaphore of the kernel to
    be one. *)
From S2P Require Import Prelude Effects Types Platform LinkedLists Kernel Invariant.
From S2P Require Import SchedCore SchedCoreSpec DelaySpec TaskInfo Stats Timer.
From S2P Require Import Scheduler Sem SchedulerSpec BlockSpec.

(** ** Abstract semaphores *)

(** Tokens in stock, how many fit, and who waits, in order. *)
Record sem_state : Type := SemState { tokens : Z; limit : Z; waiters : list addr }.

(** Tokens are in stock only when nobody waits. *)
Definition sem_ok (s : sem_state) : Prop :=
  0 <= tokens s <= limit s /\ (waiters s <> [] -> tokens s = 0).

(** A release goes to the first waiter, or else into stock, or else is refused. *)
Inductive sem_gives : sem_state -> SertosStatus -> sem_state -> Prop :=
  | give_wakes n m t ws : sem_gives (SemState n m (t :: ws)) SERTOS_STATUS_OK (SemState n m ws)
  | give_stores n m : n < m -> sem_gives (SemState n m []) SERTOS_STATUS_OK (SemState (n + 1) m [])
  | give_refused m : sem_gives (SemState m m []) SERTOS_STATUS_ERROR_RESOURCE_BUSY (SemState m m []).

(** An acquisition that does not wait takes a token from stock, or times out. *)
Inductive sem_takes : sem_state -> SertosStatus -> sem_state -> Prop :=
  | take_token n m ws : 0 < n -> sem_takes (SemState n m ws) SERTOS_STATUS_OK (SemState (n - 1) m ws)
  | take_none m ws : sem_takes (SemState 0 m ws) SERTOS_STATUS_ERROR_TIMEOUT (SemState 0 m ws).

Lemma sem_gives_ok s r s' : sem_gives s r s' -> sem_ok s -> sem_ok s'.
Proof. unfold sem_ok. intros []; simpl; intros [? Hw]; split; try lia; try done. intros _. apply Hw. done. Qed.
Lemma sem_takes_ok s r s' : sem_takes s r s' -> sem_ok s -> sem_ok s'.
Proof. unfold sem_ok. intros []; simpl; intros [? Hw]; split; try lia; try done. intros Hn. specialize (Hw Hn). lia. Qed.

Section spec.
Context `{PL : Platform} `{!PlatformLaws} `{!Callbacks}.
Implicit Types (k : Kernel) (V : lview) (a t : addr) (s : sem_state).

(** The semaphore at [a] is valid and is [s]. *)
Record sem_is k V a s : Prop := Sem_is {
  si_magic : sem_magic (sems k a) = SERTOS_SEM_MAGIC_WORD;
  si_count : sem_count (sems k a) = tokens s;
  si_max : sem_max_count (sems k a) = limit s;
  si_waiters : V (LSemWait a) = Some (waiters s) }.

Lemma sem_is_dispatch k k' V a s : only_dispatch k k' -> sem_is k V a s -> sem_is k' V a s.
Proof. intros Ho []. split; rewrite ?(od_sems _ _ Ho); done. Qed.

Lemma sem_magic_ok_true k V a s : sem_is k V a s -> sem_magic_ok k a = true.
Proof. intros []. unfold sem_magic_ok. by apply Z.eqb_eq. Qed.

(** Changing the count. *)
Lemma sem_is_count k V a n m ws f k' :
  sem_is k V a (SemState n m ws) -> sems k' = alter (set sem_count f) a (sems k) ->
  sem_is k' V a (SemState (f n) m ws).
Proof.
  intros [Hm Hc Hx Hw] Hs. simpl in *.
  split; rewrite ?Hs, ?fn_lookup_alter; rsimpl; simpl; congruence.
Qed.

(** A release without interference. *)
Lemma sem_give_gives k V a s :
  kernel_ok k V -> sem_is k V a s -> sem_ok s ->
  exists r k' V' s', exec (sertos_sem_give (Some a)) k = Some (r, k') /\ kernel_ok k' V' /\
    sem_gives s r s' /\ sem_is k' V' a s' /\ sem_ok s' /\
    (forall t, head (waiters s) = Some t -> runnable (state (tcbs k' t)) /\
       member V' (LReady (priority (tcbs k t))) t).
Proof.
  intros Hk Hs Hok.
  destruct (proj1 (wp_exec (sertos_sem_give (Some a)) k (fun r k' => exists V' s',
    kernel_ok k' V' /\ sem_gives s r s' /\ sem_is k' V' a s' /\
    (forall t, head (waiters s) = Some t -> runnable (state (tcbs k' t)) /\
       member V' (LReady (priority (tcbs k t))) t))))
    as (r & k' & He & V' & s' & Hk' & Hg & Hs' & Hw).
  2: { exists r, k', V', s'. split_and!; try done. by eapply sem_gives_ok. }
  unfold sertos_sem_give. wp_steps. rewrite (sem_magic_ok_true _ _ _ _ Hs). cbn [negb]. wp_steps.
  apply wp_enter; [apply _|]. intros c f. wp_steps.
  assert (Hk1 : kernel_ok (k <| port ::= f |>) V) by by eapply kernel_ok_same, Hk.
  destruct Hs as [Hm Hc Hx Hws]. destruct s as [n m ws]. simpl in *.
  apply (wp_unblock_highest _ _ V (LSemWait a) ws); [done|done|done|].
  destruct ws as [|t ws].
  - ksteps. rewrite Hc, Hx. destruct (Z.ltb_spec n m) as [Hlt|Hge]; ksteps;
      (apply wp_exit; [apply _|]; intros g; wp_steps).
    + exists V, (SemState (n + 1) m []). split; [by eapply kernel_ok_same, Hk|].
      split; [by constructor|]. split; [by apply (sem_is_count k V a n m [] (fun c => c + 1))|done].
    + destruct Hok as [Hb _]. simpl in Hb. assert (n = m) as -> by lia.
      exists V, (SemState m m []). split; [by eapply kernel_ok_same, Hk|].
      split; [by constructor|]. split; [|done]. by split.
  - intros h b V1 k1 Hk2. wp_steps. apply wp_exit; [apply _|]. intros g.
    unfold sertos_scheduler_is_running. wp_steps.
    assert (Hk3 : kernel_ok (k1 <| port ::= g |>) V1) by by eapply kernel_ok_same, Hk2.
    apply (wp_reschedule_if_running _ V1); [done|]. intros k2 Ho. wp_steps.
    exists V1, (SemState n m ws). split; [by eapply kernel_ok_compat|]. split; [constructor|].
    pose proof (lists_ok_nodup _ _ _ _ (ok_lists _ _ Hk) Hws) as Hnd. split.
    + apply (sem_is_dispatch _ _ _ _ _ Ho). split; try done.
      unfold V1. erewrite wake_view_wait by done. simpl. f_equal. by apply (drop_mid t [] ws).
    + intros t' [= <-].
      destruct (kernel_ok_wake_head _ _ (LSemWait a) t ws Hk) as (_ & Hp & _); [done|done|].
      destruct (ok_queues _ _ Hk _ Hp) as [rs Hrs].
      assert (Hmem : V1 (LReady (priority (tcbs k t))) = Some (rs ++ [t])) by by apply wake_view_ready.
      assert (Hk4 : kernel_ok k2 V1) by by eapply kernel_ok_compat.
      split; [|exists (rs ++ [t]); split; [done|set_solver]].
      destruct (ok_ready _ _ Hk4 _ _ t Hmem) as (_&_&?&_); [set_solver|done].
Qed.

(** What an acquisition that does not wait changes: the count, if it got a token. *)
Definition taken k a (r : SertosStatus) k' : Prop := exists g,
  k' = if decide (r = SERTOS_STATUS_OK)
       then k <| port ::= g |> <| sems ::= alter (set sem_count (fun n => n - 1)) a |>
       else k <| port ::= g |>.

(** An acquisition that need not wait. *)
Lemma sem_take_takes k V a s timeout :
  kernel_ok k V -> sem_is k V a s -> sem_ok s -> 0 < tokens s \/ timeout = SERTOS_NO_WAIT ->
  exists r k' s', exec (sertos_sem_take (Some a) timeout) k = Some (r, k') /\ kernel_ok k' V /\
    sem_takes s r s' /\ sem_is k' V a s' /\ sem_ok s' /\ taken k a r k'.
Proof.
  intros Hk Hs Hok Hnb.
  destruct (proj1 (wp_exec (sertos_sem_take (Some a) timeout) k (fun r k' => exists s',
    kernel_ok k' V /\ sem_takes s r s' /\ sem_is k' V a s' /\ taken k a r k')))
    as (r & k' & He & s' & Hk' & Hg & Hs' & Ht).
  2: { exists r, k', s'. split_and!; try done. by eapply sem_takes_ok. }
  unfold sertos_sem_take. wp_steps. rewrite (sem_magic_ok_true _ _ _ _ Hs). cbn [negb]. wp_steps.
  apply wp_enter; [apply _|]. intros c f. ksteps.
  destruct Hs as [Hm Hc Hx Hws]. destruct s as [n m ws]. simpl in *. rewrite Hc.
  destruct (Z.ltb_spec 0 n) as [Hlt|Hge]; ksteps.
  - apply wp_exit; [apply _|]. intros g. wp_steps. exists (SemState (n - 1) m ws).
    split; [by eapply kernel_ok_same, Hk|]. split; [by constructor|].
    split; [by apply (sem_is_count k V a n m ws (fun c => c - 1))|]. by exists (fun p => g (f p)).
  - destruct Hnb as [?| ->]; [lia|]. rewrite Z.eqb_refl. ksteps.
    apply wp_exit; [apply _|]. intros g. wp_steps. destruct Hok as [Hb _]. simpl in Hb.
    assert (n = 0) as -> by lia. exists (SemState 0 m ws).
    split; [by eapply kernel_ok_same, Hk|]. split; [by constructor|]. split; [by split|].
    by exists (fun p => g (f p)).
Qed.
End spec.
