(* ===== verification/IpcSpec.v ===== *)
(** What transfers through queues and stream buffers share: the wake-up of the first waiter on
    the other side that ends them, and bytes in memory. *)
From S2P Require Import Prelude Effects Types Platform LinkedLists Kernel Invariant.
From S2P Require Import SchedCore SchedCoreSpec DelaySpec TaskInfo Stats Timer.
From S2P Require Import Scheduler SchedulerSpec BlockSpec.

Lemma length_mem_bytes m a n : length (mem_bytes m a n) = n.
Proof. revert a. induction n as [|n IH]; intros a; simpl; [done|]. by rewrite IH. Qed.

Lemma mem_bytes_ext m m' a n :
  (forall x, a <= x < a + Z.of_nat n -> m' x = m x) -> mem_bytes m' a n = mem_bytes m a n.
Proof.
  revert a. induction n as [|n IH]; intros a Hm; simpl; [done|]. f_equal; [apply Hm; lia|].
  apply IH. intros x Hx. apply Hm. lia.
Qed.

Lemma lookup_mem_bytes m a n j : (j < n)%nat -> mem_bytes m a n !! j = Some (m (a + Z.of_nat j)).
Proof.
  revert a j. induction n as [|n IH]; intros a j Hj; [lia|]. destruct j as [|j]; simpl.
  - do 2 f_equal. lia.
  - rewrite IH by lia. do 2 f_equal. lia.
Qed.

Lemma take_mem_bytes m a n j : (j <= n)%nat -> take j (mem_bytes m a n) = mem_bytes m a j.
Proof.
  revert a j. induction n as [|n IH]; intros a j Hj; [by replace j with O by lia|]. destruct j as [|j]; simpl; [done|].
  by rewrite IH by lia.
Qed.

Section wake.
Context `{PL : Platform} `{!PlatformLaws} `{!Callbacks}.
Implicit Types (k : Kernel) (V : lview).

(** The end of a transfer with result [r]: if [b], the first waiter of [l] is woken. *)
Definition wake_one {A} (b : bool) (l : listid) (crit_status : Z) (r : A) : M Kernel A :=
  unblocked ← (if b then sertos_scheduler_wait_list_unblock_highest (Some l) else mret None);
  sertos_port_exit_critical crit_status;;
  running ← sertos_scheduler_is_running;
  when (bool_decide (unblocked <> None) && running) sertos_scheduler_reschedule;;
  mret r.

(** [t] was the first waiter, and is ready now. *)
Definition served k k' V' (wl : list addr) : Prop :=
  forall t, head wl = Some t -> runnable (state (tcbs k' t)) /\ member V' (LReady (priority (tcbs k t))) t.

(** Waking the first waiter makes it READY and leaves the other wait lists alone. *)
Lemma wake_head_served k V l t wl k2 :
  kernel_ok k V -> link_of l = FEvent -> V l = Some (t :: wl) ->
  let V1 := wake_view t (priority (tcbs k t)) V in
  kernel_ok k2 V1 ->
  served k k2 V1 (t :: wl) /\ V1 l = Some wl /\
  (forall l' us, link_of l' = FEvent -> l' <> l -> V l' = Some us -> V1 l' = Some us).
Proof.
  intros Hk Hf Hl V1 Hk2. pose proof (lists_ok_nodup _ _ _ _ (ok_lists _ _ Hk) Hl) as Hnd. split; [|split].
  - intros t' [= <-]. destruct (kernel_ok_wake_head _ _ l t wl Hk) as (_ & Hp & _); [done|done|].
    destruct (ok_queues _ _ Hk _ Hp) as [rs Hrs].
    assert (Hmem : V1 (LReady (priority (tcbs k t))) = Some (rs ++ [t])) by by apply wake_view_ready.
    split; [|exists (rs ++ [t]); split; [done|set_solver]].
    destruct (ok_ready _ _ Hk2 _ _ t Hmem) as (_&_&?&_); [set_solver|done].
  - unfold V1. erewrite wake_view_wait by done. f_equal. by apply (drop_mid t [] wl).
  - intros l' us Hf' Hne Hus. unfold V1. erewrite wake_view_wait by done. f_equal. apply drop_notin.
    intros Hin. apply Hne. eapply (ok_disjoint _ _ (ok_lists _ _ Hk) l' l us (t :: wl) t); try done; [by left|congruence].
Qed.

Lemma wp_wake_one {A} k V b l wl cs (r : A) (Q : A -> Kernel -> Prop) :
  kernel_ok k V -> link_of l = FEvent -> V l = Some wl ->
  (forall k' V', kernel_ok k' V' -> queues k' = queues k -> streams k' = streams k -> mem k' = mem k ->
     (b = true -> served k k' V' wl) ->
     V' l = Some (if b then tail wl else wl) ->
     (forall l' us, link_of l' = FEvent -> l' <> l -> V l' = Some us -> V' l' = Some us) ->
     Q r k') ->
  wp quiet (wake_one b l cs r) k Q.
Proof.
  intros Hk Hf Hl HQ. unfold wake_one, sertos_scheduler_is_running.
  assert (Hnone : wl = [] \/ b = false -> forall g, Q r (k <| port ::= g |>)).
  { intros He g. apply (HQ _ V); [by eapply kernel_ok_same, Hk|done..| | |done].
    - intros ->. destruct He as [->|]; [intros t [=]|done].
    - destruct He as [->| ->]; [by destruct b|done]. }
  destruct b.
  2:{ wp_steps. apply wp_exit; [apply _|]. intros g. wp_steps. rewrite bool_decide_false by auto.
    cbn [andb when]. wp_steps. apply Hnone. by right. }
  wp_steps. apply (wp_unblock_highest _ _ V l wl); [done|done|done|]. destruct wl as [|t wl].
  - wp_steps. apply wp_exit; [apply _|]. intros g. wp_steps. rewrite bool_decide_false by auto. cbn [andb when].
    wp_steps. apply Hnone. by left.
  - intros h b V1 k1 Hk1. wp_steps. apply wp_exit; [apply _|]. intros g. wp_steps.
    apply (wp_reschedule_if_running _ V1); [by eapply kernel_ok_same, Hk1|]. intros k2 Ho. wp_steps.
    assert (Hk2 : kernel_ok k2 V1) by by eapply kernel_ok_compat, kernel_ok_same, Hk1.
    destruct (wake_head_served k V l t wl k2) as (Hs & Hl1 & Ho1); [done..|].
    apply (HQ k2 V1 Hk2);
      [by rewrite (od_queues _ _ Ho)|by rewrite (od_streams _ _ Ho)|by rewrite (od_mem _ _ Ho)|done..].
Qed.
End wake.
