(* ===== verification/TimerSpec.v ===== *)
(** What the timer operations do to the kernel: the tick over the list of armed timers, arming,
    disarming and changing the period of a timer. *)
From S2P Require Import Prelude Effects Types Platform LinkedLists Kernel Invariant.
From S2P Require Import SchedCore SchedCoreSpec DelaySpec TaskInfo Stats Timer.
From S2P Require Import Scheduler Task SchedulerSpec BlockSpec TaskSpec.

(** Callbacks and hooks that only touch byte memory. *)
Class MemoryCallbacks `{PL : Platform} `{!Callbacks} : Type := {
  timer_effect : addr -> addr -> ptr -> Mem -> Mem;
  hook_effect : addr -> Mem -> Mem;
  timer_effect_spec : forall f t p, call_timer_callback f t p = modify (set mem (timer_effect f t p));
  hook_effect_spec : forall f, call_hook f = modify (set mem (hook_effect f)) }.

(** ** One tick of one timer *)

(** The timer expires at the next tick. *)
Definition ringing (tm : SertosTimer) : bool := tm_remaining_ticks tm <=? 1.
Definition tick_timer (tm : SertosTimer) : SertosTimer :=
  if ringing tm then
    if tm_is_periodic tm then tm <| tm_remaining_ticks := tm_period_ticks tm |>
    else tm <| tm_remaining_ticks := 0 |> <| tm_is_active := false |>
  else tm <| tm_remaining_ticks ::= fun r => r - 1 |>.
(** It is still armed afterwards. *)
Definition stays_armed (tm : SertosTimer) : bool := negb (ringing tm) || tm_is_periodic tm.

Section timers.
Context `{PL : Platform} `{!PlatformLaws} `{!Callbacks}.
Implicit Types (k : Kernel) (V : lview) (t : addr) (ts : list addr).

(** Between one tick and a whole period is left. *)
Definition counting (tm : SertosTimer) : Prop := 0 < tm_remaining_ticks tm <= tm_period_ticks tm.

(** The kernel is well-formed, the timers' list too, and the timers of the list, and no
    others, are marked active... *)
Record timers_linked k V ts : Prop := Timers_linked {
  tl_ok : kernel_ok k V;
  tl_list : V LTimers = Some ts;
  tl_active : forall t, tm_is_active (timers k t) = true <-> t ∈ ts }.

(** ...and each of them counts. *)
Record timers_ok k V ts : Prop := Timers_ok {
  to_linked : timers_linked k V ts;
  to_count : forall t, t ∈ ts -> counting (timers k t) }.

(** Besides memory, only the timers and the pointers of the lists differ. *)
Definition only_timers k k' : Prop :=
  k' = k <| port ::= fun _ => port k' |> <| heap := heap k' |> <| timers := timers k' |> <| mem := mem k' |>.

Lemma only_timers_elim k k' : only_timers k k' ->
  exists p h tms m, k' = k <| port ::= fun _ => p |> <| heap := h |> <| timers := tms |> <| mem := m |>.
Proof. intros ->. by do 4 eexists. Qed.

(** The pointers of a timer outside the list are NULL or stale. *)
Lemma set_node h V t v v' :
  lists_ok h V -> detached V FTimer t ->
  lists_ok (set_prev (NLink FTimer t) v (set_next (NLink FTimer t) v' h)) V.
Proof. intros HV Hd. by apply lists_ok_set_cell, Hd; apply lists_ok_set_cell. Qed.

Section tick.
Context `{!MemoryCallbacks}.

Definition ring_timer (tms : addr -> SertosTimer) (m : Mem) t : Mem :=
  match tm_callback (tms t) with
  | Some f => if ringing (tms t) then timer_effect f t (tm_param (tms t)) m else m
  | None => m
  end.
(** Along the list, in order. *)
Definition ring_timers (tms : addr -> SertosTimer) ts (m : Mem) : Mem := foldl (ring_timer tms) m ts.
Definition tick_timers ts (tms : addr -> SertosTimer) := foldl (fun m t => alter tick_timer t m) tms ts.

Lemma ring_timers_ext tms tms' ts m :
  (forall t, t ∈ ts -> tms t = tms' t) -> ring_timers tms ts m = ring_timers tms' ts m.
Proof.
  revert m. induction ts as [|t ts IH]; intros m Hext; [done|]. unfold ring_timers. cbn [foldl].
  unfold ring_timer at 2 4. rewrite (Hext t) by (by left). apply IH. intros. apply Hext. by right.
Qed.

Definition ticked k (h : ListHeap) ts : Kernel :=
  k <| heap := h |> <| timers ::= tick_timers ts |> <| mem := ring_timers (timers k) ts (mem k) |>.
(** One iteration of the walk. *)
Definition ticked1 k (h : ListHeap) t : Kernel :=
  k <| heap := h |> <| timers ::= alter tick_timer t |> <| mem := ring_timer (timers k) (mem k) t |>.

Lemma ticked_cons k h1 h t ts : t ∉ ts -> ticked (ticked1 k h1 t) h ts = ticked k h (t :: ts).
Proof.
  intros Ht. unfold ticked. change (timers (ticked1 k h1 t)) with (alter tick_timer t (timers k)).
  rewrite (ring_timers_ext (alter tick_timer t (timers k)) (timers k)); [done|].
  intros x Hx. apply fn_lookup_alter_ne. set_solver.
Qed.

Lemma ticked_nil k : ticked k (heap k) [] = k.
Proof. by destruct k. Qed.

(** The callback of an expired timer, once its count and membership are settled. *)
Lemma wp_ring P k t (o : ptr) (Q : unit -> Kernel -> Prop) :
  Q tt (k <| mem := match o with
                    | Some f => timer_effect f t (tm_param (timers k t)) (mem k) | None => mem k end |>) ->
  wp P (match o with
        | Some f => p ← gets (fun k => tm_param (timers k t)); call_timer_callback f t p
        | None => mret tt
        end) k Q.
Proof.
  intros HQ. destruct o as [f|].
  - ksteps. rewrite timer_effect_spec. by wp_steps.
  - wp_steps. destruct k. exact HQ.
Qed.

Lemma ticked1_intro k k' h t :
  k' = k <| heap := h |> <| timers := timers k' |> <| mem := mem k' |> ->
  timers k' = alter tick_timer t (timers k) -> mem k' = ring_timer (timers k) (mem k) t ->
  k' = ticked1 k h t.
Proof. intros -> Ht Hm. unfold ticked1. simpl in *. by rewrite Ht, Hm. Qed.

(** The count of an expiring timer is zero after the decrement, if there is one. *)
Lemma wp_count_down P k t (Q : unit -> Kernel -> Prop) :
  0 <= tm_remaining_ticks (timers k t) <= 1 ->
  Q tt (k <| timers := alter (set tm_remaining_ticks (fun _ => 0)) t (timers k) |>) ->
  wp P (when (0 <? tm_remaining_ticks (timers k t))
    (modify (set timers (alter (set tm_remaining_ticks (fun r => r - 1)) t)))) k Q.
Proof.
  intros Hr HQ. apply wp_when; intros Hlt.
  - wp_steps. assert (tm_remaining_ticks (timers k t) = 1) as Hr1 by lia.
    match goal with |- Q tt ?k' => match type of HQ with Q tt ?k'' => replace k' with k''; [done|] end end.
    unfold set at 1 3. f_equal. apply alter_ext_at. unfold set. simpl. by rewrite Hr1.
  - assert (tm_remaining_ticks (timers k t) = 0) as Hr0 by lia. rewrite alter_id_at in HQ.
    + by destruct k.
    + unfold set. simpl. rewrite <-Hr0. by destruct (timers k t).
Qed.

Lemma wp_tick_one P k V kept t ts (Q : unit -> Kernel -> Prop) :
  kernel_ok k V -> V LTimers = Some (kept ++ t :: ts) -> 0 <= tm_remaining_ticks (timers k t) ->
  (forall h, let V' := <[LTimers := Some (kept ++ (if stays_armed (timers k t) then [t] else []) ++ ts)]> V in
     kernel_ok (k <| heap := h |>) V' -> Q tt (ticked1 k h t)) ->
  wp P (timer_tick_one (NLink FTimer t) t) k Q.
Proof.
  intros Hk Hts Hr HQ. unfold timer_tick_one.
  assert (Hsame : stays_armed (timers k t) = true -> Q tt (ticked1 k (heap k) t)).
  { intros Hs. apply HQ. rewrite Hs. cbn [app]. rewrite fn_insert_id by done. by destruct k. }
  unfold stays_armed, ringing in Hsame, HQ. ksteps.
  destruct (Z.leb_spec (tm_remaining_ticks (timers k t)) 1) as [Hle|Hgt]; cbn [negb orb] in *.
  2: { rewrite (proj2 (Z.ltb_lt _ _)) by lia. ksteps. rewrite fn_lookup_alter. rsimpl.
       rewrite (proj2 (Z.eqb_neq _ _)) by lia. wp_steps.
       match goal with |- Q tt ?k' => replace k' with (ticked1 k (heap k) t); [by apply Hsame|] end.
       symmetry. apply ticked1_intro; [by destruct k| |].
       - apply alter_ext_at. unfold tick_timer, ringing. by rewrite (proj2 (Z.leb_gt _ _)) by lia.
       - unfold ring_timer, ringing. rewrite (proj2 (Z.leb_gt _ _)) by lia. by destruct (tm_callback _). }
  apply wp_count_down; [lia|]. ksteps. rewrite fn_lookup_alter. rsimpl. cbn [Z.eqb when]. ksteps.
  rewrite fn_lookup_alter. rsimpl.
  destruct (tm_is_periodic (timers k t)) eqn:Hp; cbn [app] in *.
  - ksteps. rewrite fn_lookup_alter. rsimpl. apply wp_ring.
    match goal with |- Q tt ?k' => replace k' with (ticked1 k (heap k) t); [by apply Hsame|] end.
    symmetry. apply ticked1_intro; [by destruct k| |].
    + rsimpl. rewrite fn_lookup_alter. rsimpl. rewrite alter_alter. apply alter_ext_at. unfold tick_timer, ringing. rewrite (proj2 (Z.leb_le _ _)), Hp by lia. done.
    + rsimpl. rewrite !fn_lookup_alter. rsimpl. unfold ring_timer, ringing. by rewrite (proj2 (Z.leb_le _ _)) by lia.
  - ksteps. apply wp_ring. pose proof (lists_ok_remove _ _ _ _ _ _ (ok_lists _ _ Hk) Hts) as Hh.
    assert (Hd : detached (<[LTimers := Some (kept ++ ts)]> V) FTimer t).
    { by apply (detached_remove _ _ LTimers _ _ _ (ok_lists _ _ Hk)). }
    match goal with |- Q tt ?k' => replace k' with (ticked1 k (heap k') t) end.
    + apply HQ. rsimpl. apply (kernel_ok_aux k V LTimers); [done|by right|].
      by apply set_node.
    + symmetry. apply ticked1_intro; [by destruct k| |].
      * rsimpl. rewrite !alter_alter. apply alter_ext_at. unfold tick_timer, ringing.
        by rewrite (proj2 (Z.leb_le _ _)), Hp by lia.
      * rsimpl. rewrite !fn_lookup_alter. rsimpl. unfold ring_timer, ringing.
        by rewrite (proj2 (Z.leb_le _ _)) by lia.
Qed.

Lemma wp_timer_tick_loop P fuel k V kept ts (Q : unit -> Kernel -> Prop) :
  kernel_ok k V -> V LTimers = Some (kept ++ ts) -> (length ts <= fuel)%nat ->
  (forall t, t ∈ ts -> 0 <= tm_remaining_ticks (timers k t)) ->
  (forall h, let V' := <[LTimers := Some (kept ++ filter (fun t => stays_armed (timers k t)) ts)]> V in
     kernel_ok (k <| heap := h |>) V' -> Q tt (ticked k h ts)) ->
  wp P (timer_tick_loop fuel (NLink FTimer <$> head ts)) k Q.
Proof.
  revert fuel k V kept. induction ts as [|t ts IH]; intros fuel k V kept Hk Hts Hf Hr HQ.
  - specialize (HQ (heap k)). rewrite ticked_nil in HQ. cbn zeta in HQ. rewrite fn_insert_id in HQ by done.
    assert (k <| heap := heap k |> = k) as Heq by by destruct k. rewrite Heq in HQ.
    destruct fuel; cbn; wp_steps; by apply HQ.
  - destruct fuel as [|fuel]; simpl in Hf; [lia|].
    cbn [timer_tick_loop head fmap option_fmap option_map].
    pose proof (lists_ok_nodup _ _ _ _ (ok_lists _ _ Hk) Hts) as Hnd.
    assert (Ht : t ∉ ts) by (apply NoDup_app in Hnd as (_&_&Hnd); by apply NoDup_cons in Hnd as [? _]).
    pose proof (member_next _ _ _ _ _ _ (ok_lists _ _ Hk) Hts) as Hn. cbn [link_of] in Hn.
    apply wp_bind. unfold rd_next. apply wp_gets. rewrite Hn, (decide_next_of LTimers ts).
    cbn [container_of link_of]. rewrite decide_True by done. apply wp_bind. cbn [unless_none].
    apply wp_ret. apply wp_bind, (wp_tick_one _ k V kept t ts); [done|done|by apply Hr; left|].
    set (kept' := if stays_armed (timers k t) then [t] else []). intros h1 V1 Hk1.
    assert (Hts1 : V1 LTimers = Some ((kept ++ kept') ++ ts)).
    { unfold V1. rewrite fn_lookup_insert. by rewrite app_assoc. }
    assert (Hsame : forall x, x ∈ ts -> timers (ticked1 k h1 t) x = timers k x).
    { intros x Hx. apply fn_lookup_alter_ne. set_solver. }
    apply (IH fuel _ V1 (kept ++ kept')); [by eapply kernel_ok_same, Hk1|done|lia| |].
    { intros x Hx. rewrite Hsame by done. apply Hr. by right. }
    intros h2 V2 Hk2. rewrite ticked_cons by done. apply HQ.
    assert (V2 = <[LTimers := Some (kept ++ filter (fun t => stays_armed (timers k t)) (t :: ts))]> V) as <-.
    { unfold V2, V1. rewrite fn_insert_insert. f_equal. f_equal. rewrite <-app_assoc. f_equal.
      rewrite filter_cons. unfold kept'. rewrite (filter_ext_in _ (fun t => stays_armed (timers k t)) ts).
      - destruct (stays_armed (timers k t)); [by rewrite decide_True|by rewrite decide_False by auto].
      - intros x Hx. by rewrite Hsame. }
    by eapply kernel_ok_same, Hk2.
Qed.


Lemma timers_ok_ticked k V ts h V' :
  timers_ok k V ts -> V' = <[LTimers := Some (filter (fun t => stays_armed (timers k t)) ts)]> V ->
  kernel_ok (k <| heap := h |>) V' ->
  timers_ok (ticked k h ts) V' (filter (fun t => stays_armed (timers k t)) ts) /\
  (forall t, t ∈ ts -> timers (ticked k h ts) t = tick_timer (timers k t)) /\
  (forall t, t ∉ ts -> timers (ticked k h ts) t = timers k t).
Proof.
  intros [[Hk Hts Ha] Hr] -> Hk'. pose proof (lists_ok_nodup _ _ _ _ (ok_lists _ _ Hk) Hts) as Hnd.
  assert (Hin : forall t, t ∈ ts -> timers (ticked k h ts) t = tick_timer (timers k t)).
  { intros t Ht. by apply foldl_alter_in. }
  assert (Hout : forall t, t ∉ ts -> timers (ticked k h ts) t = timers k t).
  { intros t Ht. by apply foldl_alter_notin. }
  split; [|done]. split; [split; [by eapply kernel_ok_same, Hk'|apply fn_lookup_insert|]|].
  - intros t. rewrite list_elem_of_filter. destruct (decide (t ∈ ts)) as [Ht|Ht].
    + rewrite Hin by done. apply Ha in Ht as Hat. revert Hat. unfold tick_timer, stays_armed.
      destruct (ringing _), (tm_is_periodic _); simpl; intros ?; naive_solver.
    + rewrite Hout by done. rewrite Ha. tauto.
  - intros t. rewrite list_elem_of_filter. intros [Hs Ht]. rewrite Hin by done.
    revert Hs. unfold tick_timer, stays_armed, ringing. specialize (Hr t Ht). unfold counting in *.
    destruct (Z.leb_spec (tm_remaining_ticks (timers k t)) 1); simpl; [|lia].
    destruct (tm_is_periodic _); simpl; [lia|done].
Qed.

Lemma wp_timer_tick P k V ts (Q : unit -> Kernel -> Prop) :
  timers_ok k V ts -> s_timer_subsystem_initialized k = true -> (length ts <= loop_fuel)%nat ->
  (forall h, let k' := ticked k h ts in let ts' := filter (fun t => stays_armed (timers k t)) ts in
     timers_ok k' (<[LTimers := Some ts']> V) ts' ->
     (forall t, t ∈ ts -> timers k' t = tick_timer (timers k t)) ->
     (forall t, t ∉ ts -> timers k' t = timers k t) -> Q tt k') ->
  wp P sertos_timer_tick k Q.
Proof.
  intros Ht Hi Hf HQ. pose proof Ht as [[Hk Hts _] Hr]. unfold sertos_timer_tick. wp_steps.
  rewrite Hi. cbn [negb]. wp_steps. rewrite (peek_head_ok _ _ _ _ (ok_lists _ _ Hk) Hts).
  apply (wp_timer_tick_loop _ _ k V [] ts); [done..|intros t Hin; apply Hr in Hin as []; lia|].
  intros h V' Hk'. destruct (timers_ok_ticked k V ts h V') as (?&?&?); [done..|]. by apply HQ.
Qed.
End tick.

(** ** Arming and disarming *)

Definition armed_timer (tm : SertosTimer) : SertosTimer :=
  tm <| tm_remaining_ticks := tm_period_ticks tm |> <| tm_is_active := true |>.

Lemma drop_split t ts : t ∈ ts -> NoDup ts -> exists ts1 ts2, ts = ts1 ++ t :: ts2 /\ drop t ts = ts1 ++ ts2.
Proof.
  intros Ht Hnd. apply list_elem_of_split in Ht as (ts1 & ts2 & ->). exists ts1, ts2.
  split; [done|]. by apply drop_mid.
Qed.

(** The timers' list with [t] unlinked, if it was linked. *)
Lemma wp_unlink_timer P k V ts t b (Q : unit -> Kernel -> Prop) :
  timers_linked k V ts -> b = tm_is_active (timers k t) ->
  (forall h, lists_ok h (<[LTimers := Some (drop t ts)]> V) -> Q tt (k <| heap := h |>)) ->
  wp P (when b
    (modify (set heap (linked_list_remove_direct LTimers (NLink FTimer t))))) k Q.
Proof.
  intros [Hk Hts Ha] -> HQ. pose proof (lists_ok_nodup _ _ _ _ (ok_lists _ _ Hk) Hts) as Hnd.
  apply wp_when; intros Hact.
  - apply Ha in Hact. destruct (drop_split t ts Hact Hnd) as (ts1 & ts2 & Heq & Hd). rewrite Hd in HQ.
    wp_steps. apply HQ. rewrite Heq in Hts. by apply (lists_ok_remove _ _ LTimers _ _ _ (ok_lists _ _ Hk) Hts).
  - assert (t ∉ ts) by (intros Hin; apply Ha in Hin; congruence). specialize (HQ (heap k)).
    rewrite drop_notin, fn_insert_id in HQ by done. destruct k. by apply HQ, Hk.
Qed.

Lemma timers_linked_same k k' V ts :
  heap k' = heap k -> s_ready_bitmap k' = s_ready_bitmap k -> tcbs k' = tcbs k ->
  (forall t, tm_is_active (timers k' t) = tm_is_active (timers k t)) ->
  timers_linked k V ts -> timers_linked k' V ts.
Proof. intros ??? Ht [Hk ??]. split; [by eapply kernel_ok_same, Hk|done|]. intros t. by rewrite Ht. Qed.

Lemma timers_ok_same k k' V ts :
  heap k' = heap k -> s_ready_bitmap k' = s_ready_bitmap k -> tcbs k' = tcbs k -> timers k' = timers k ->
  timers_ok k V ts -> timers_ok k' V ts.
Proof.
  intros ??? Ht [Hl ?]. split; [|by rewrite Ht]. eapply timers_linked_same, Hl; try done. by rewrite Ht.
Qed.

Lemma timers_ok_move k V k' V' ts :
  timers_ok k V ts -> kernel_ok k' V' -> V' LTimers = V LTimers -> timers k' = timers k -> timers_ok k' V' ts.
Proof. intros [[_ Hl Ha] Hr] Hk HV Ht. by split; [split|]; rewrite ?HV, ?Ht. Qed.

(** A timer outside the list is a timer nobody walks over. *)
Lemma detached_timer V t us : t ∉ us -> detached (<[LTimers := Some us]> V) FTimer t.
Proof.
  intros Ht l xs. unfold insert, fn_insert. case_decide as Hl; [by intros [= <-] _|].
  intros Hxs Hf Hin. apply Hl. by destruct l.
Qed.

(** The list and the marks change together. *)
Lemma timers_ok_update k V ts t us f h k' :
  timers_linked k V ts -> (forall x, x ∈ ts -> x <> t -> counting (timers k x)) ->
  heap k' = h -> s_ready_bitmap k' = s_ready_bitmap k -> tcbs k' = tcbs k ->
  timers k' = alter f t (timers k) -> lists_ok h (<[LTimers := Some us]> V) ->
  (forall x, x <> t -> x ∈ us <-> x ∈ ts) -> (tm_is_active (f (timers k t)) = true <-> t ∈ us) ->
  (t ∈ us -> counting (f (timers k t))) ->
  timers_ok k' (<[LTimers := Some us]> V) us.
Proof.
  intros [Hk Hts Ha] Hr Hh Hb Htc Htm Hl Hus Hat Hrt.
  assert (Hne : forall x, x <> t -> timers k' x = timers k x).
  { intros x Hx. rewrite Htm. by apply fn_lookup_alter_ne. }
  assert (Heq : timers k' t = f (timers k t)) by (rewrite Htm; apply fn_lookup_alter).
  split; [split; [|apply fn_lookup_insert|]|].
  - pose proof (kernel_ok_aux k V LTimers us h Hk (or_intror eq_refl) Hl) as Hk'.
    by eapply kernel_ok_same, Hk'.
  - intros x. destruct (decide (x = t)) as [->|Hx]; [by rewrite Heq|].
    rewrite Hne, Hus by done. apply Ha.
  - intros x Hx. destruct (decide (x = t)) as [->|Hxt]; [rewrite Heq; auto|].
    rewrite Hne by done. apply Hr; [by apply Hus|done].
Qed.

Lemma wp_timer_start P `{!Calm P} k V ts t (Q : SertosStatus -> Kernel -> Prop) :
  timers_linked k V ts -> (forall x, x ∈ ts -> x <> t -> counting (timers k x)) ->
  tm_magic (timers k t) = SERTOS_TIMER_MAGIC_WORD -> 0 < tm_period_ticks (timers k t) ->
  (forall k', only_timers k k' -> let us := drop t ts ++ [t] in
     timers_ok k' (<[LTimers := Some us]> V) us ->
     timers k' = alter armed_timer t (timers k) -> Q SERTOS_STATUS_OK k') ->
  wp P (sertos_timer_start (Some t)) k Q.
Proof.
  intros Ht Hr Hm Hp HQ. unfold sertos_timer_start, timer_magic_ok. wp_steps.
  rewrite Hm, Z.eqb_refl. cbn [negb]. wp_steps. apply wp_enter; [done|]. intros c f. ksteps.
  eapply (wp_unlink_timer _ (k <| port ::= f |>) V ts t); [by eapply timers_linked_same, Ht|done|].
  intros h Hh. ksteps. apply wp_exit; [done|]. intros g. wp_steps.
  assert (Hni : t ∉ drop t ts) by (rewrite elem_of_drop; tauto).
  apply (lists_ok_insert_tail _ _ LTimers (drop t ts) t) in Hh;
    [|apply fn_lookup_insert|by apply detached_timer]. rewrite fn_insert_insert in Hh.
  assert (Htm : alter (set tm_is_active (fun _ => true)) t
      (alter (set tm_remaining_ticks (fun _ => tm_period_ticks (timers k t))) t (timers k)) =
    alter armed_timer t (timers k)).
  { rewrite alter_alter. by apply alter_ext_at. }
  eapply HQ; [done| |exact Htm].
  eapply (timers_ok_update k V ts t); [done|done|done|done|done|exact Htm|exact Hh|..].
  - intros x Hx. rewrite elem_of_app, elem_of_drop, list_elem_of_singleton. tauto.
  - simpl. split; [set_solver|done].
  - unfold counting. simpl. lia.
Qed.

(** Changing the period restarts the timer, armed or not. *)
Lemma wp_timer_change_period P `{!Calm P} k V ts t n (Q : SertosStatus -> Kernel -> Prop) :
  timers_ok k V ts -> tm_magic (timers k t) = SERTOS_TIMER_MAGIC_WORD -> 0 < n ->
  (forall k', only_timers k k' -> let us := drop t ts ++ [t] in
     timers_ok k' (<[LTimers := Some us]> V) us ->
     timers k' = alter (fun tm => armed_timer (tm <| tm_period_ticks := n |>)) t (timers k) ->
     Q SERTOS_STATUS_OK k') ->
  wp P (sertos_timer_change_period (Some t) n) k Q.
Proof.
  intros [Ht Hr] Hm Hn HQ. unfold sertos_timer_change_period, sertos_timer_reset, timer_magic_ok. wp_steps.
  rewrite Hm, Z.eqb_refl. cbn [negb]. wp_steps.
  rewrite (proj2 (Z.eqb_neq _ _)) by lia. unfold upd_timer. wp_steps.
  assert (Hne : forall x, x <> t -> alter (set tm_period_ticks (fun _ => n)) t (timers k) x = timers k x).
  { intros x Hx. by apply fn_lookup_alter_ne. }
  apply (wp_timer_start _ _ V ts t).
  - eapply timers_linked_same, Ht; try done. intros x. rsimpl.
    destruct (decide (x = t)) as [->|Hx]; [by rewrite fn_lookup_alter|by rewrite Hne].
  - intros x Hx Hxt. rsimpl. rewrite Hne by done. by apply Hr.
  - rsimpl. by rewrite fn_lookup_alter.
  - rsimpl. rewrite fn_lookup_alter. done.
  - intros k' Ho us Hus Htm. apply HQ; [done|done|]. rewrite Htm. rsimpl. by rewrite alter_alter.
Qed.

Lemma wp_timer_stop P `{!Calm P} k V ts t (Q : SertosStatus -> Kernel -> Prop) :
  timers_ok k V ts -> tm_magic (timers k t) = SERTOS_TIMER_MAGIC_WORD ->
  (forall k', only_timers k k' -> timers_ok k' (<[LTimers := Some (drop t ts)]> V) (drop t ts) ->
     timers k' = alter (set tm_is_active (fun _ => false)) t (timers k) -> Q SERTOS_STATUS_OK k') ->
  wp P (sertos_timer_stop (Some t)) k Q.
Proof.
  intros Ht Hm HQ. unfold sertos_timer_stop, timer_magic_ok. wp_steps.
  rewrite Hm, Z.eqb_refl. cbn [negb]. wp_steps. apply wp_enter; [done|]. intros c f. ksteps.
  pose proof Ht as [[Hk Hts Ha] Hr]. pose proof (lists_ok_nodup _ _ _ _ (ok_lists _ _ Hk) Hts) as Hnd.
  destruct (tm_is_active (timers k t)) eqn:Hact; cbn [negb].
  - pose proof (proj1 (Ha t) Hact) as Hin. ksteps.
    destruct (drop_split t ts Hin Hnd) as (ts1 & ts2 & Heq & Hd). rewrite Heq in Hts.
    apply (lists_ok_remove _ _ LTimers _ _ _ (ok_lists _ _ Hk)) in Hts as Hh.
    rewrite <-Hd in Hh. apply (set_node _ _ t None None) in Hh;
      [|apply detached_timer; rewrite elem_of_drop; tauto].
    apply wp_exit; [done|]. intros g. wp_steps. eapply HQ; [done| |done].
    eapply (timers_ok_update k V ts t _ (set tm_is_active (fun _ => false)));
      [apply Ht|by intros; apply Hr|done|done|done|done|exact Hh|..].
    + intros x Hx. rewrite elem_of_drop. tauto.
    + simpl. rewrite elem_of_drop. naive_solver.
    + rewrite elem_of_drop. tauto.
  - wp_steps. apply wp_exit; [done|]. intros g. wp_steps.
    assert (Hni : t ∉ ts) by (intros Hin; apply Ha in Hin; congruence).
    apply HQ; [by destruct k| |].
    + rewrite drop_notin, fn_insert_id by done. by eapply timers_ok_same, Ht.
    + symmetry. apply alter_id_at. unfold set. rewrite <-Hact. cbn. by destruct (timers k t).
Qed.
End timers.
