(* ===== verification/System.v ===== *)
(** The kernel and its tasks together.

    A [machine] is the kernel and, for every task that is inside a kernel call, what is left of
    the call.  The task that runs makes kernel calls; a call runs up to its end or up to the
    context switch it asks for, and goes on when its task is running again; the tick interrupt
    comes between two such steps.  [sched] is what holds of the kernel between two steps: the
    running task is the head of the highest non-empty ready queue.  A kernel call keeps it if it
    is [Cooperative]; sequences of such calls are, and the machine keeps [sched] if its tasks
    make only such calls and the callbacks of timers and hooks only touch memory. *)
From S2P Require Import Prelude Effects Types Platform LinkedLists Kernel Invariant.
From S2P Require Import SchedCore SchedCoreSpec DelaySpec TaskInfo Stats Timer.
From S2P Require Import Scheduler Sem Mutex Queue StreamBuffer SchedulerSpec BlockSpec SemSpec TimerSpec.

(** All tasks there are and their priorities, and the semaphores, mutexes (each with the priority
    of the tasks that use it), message queues, stream buffers and software timers in use. *)
Class Setup : Type := {
  tasks : list addr;
  task_level : addr -> Z;
  sems_in_use : list addr;
  mutexes_in_use : list addr;
  mutex_level : addr -> Z;
  queues_in_use : list addr;
  streams_in_use : list addr;
  timers_in_use : list addr }.

(** The walks over the lists have the fuel they need. *)
Class SetupFits `{PL : Platform} `{!Setup} : Prop := {
  fits_tasks : (length tasks <= loop_fuel)%nat;
  fits_timers : (length timers_in_use <= loop_fuel)%nat }.

Section system.
Context `{PL : Platform} `{!PlatformLaws} `{!Callbacks} `{!Setup} `{!SetupFits}.
Implicit Types (k : Kernel) (V : lview) (P : protocol Kernel) (t c : addr).

(** ** What holds between two steps *)

(** [x] is ready, delayed or waiting. *)
Definition listed V (x : addr) : Prop :=
  exists l, (link_of l = FState \/ link_of l = FEvent) /\ member V l x.

(** Waiters are in order of priority. *)
Definition waits_sorted k V : Prop := forall l ws,
  link_of l = FEvent -> V l = Some ws -> by_priority (fun x => priority (tcbs k x)) ws.

Lemma waits_sorted_same k V k' V' :
  waits_sorted k V -> (forall x, priority (tcbs k' x) = priority (tcbs k x)) ->
  (forall l, link_of l = FEvent -> V' l = V l) -> waits_sorted k' V'.
Proof.
  intros Hs Hp HV l ws Hl Hws. rewrite HV in Hws by done. eapply by_priority_ext; [|by apply (Hs l)].
  intros x. by rewrite Hp.
Qed.

(** The mutex at [a] is valid; only tasks of its priority wait for it or hold it, and that is the
    priority on record; nobody waits for it while it is free. *)
Record mutex_fine k V a : Prop := Mutex_fine {
  mf_magic : mutex_magic_ok k a = true;
  mf_waiters : exists ws, V (LMutexWait a) = Some ws /\
    forall x, x ∈ ws -> mtx_owner (mutexes k a) <> None /\ task_level x = mutex_level a;
  mf_owner : forall o, mtx_owner (mutexes k a) = Some o ->
    o ∈ tasks /\ task_level o = mutex_level a /\ mtx_original_owner_priority (mutexes k a) = mutex_level a }.

(** Nobody joins the wait list but tasks of the mutex's priority, while it is held. *)
Lemma mutex_fine_update k V k' V' a :
  mutex_fine k V a -> mutexes k' a = mutexes k a -> is_Some (V' (LMutexWait a)) ->
  (forall x, member V' (LMutexWait a) x -> member V (LMutexWait a) x \/
     mtx_owner (mutexes k a) <> None /\ task_level x = mutex_level a) ->
  mutex_fine k' V' a.
Proof.
  intros [Hm (ws & Hws & Hw) Ho] He [ws' Hws'] Hx. unfold mutex_magic_ok in Hm.
  split; unfold mutex_magic_ok; rewrite ?He; [done| |done]. exists ws'. split; [done|]. intros x Hin.
  destruct (Hx x) as [(us & Hus & Hin')|]; [by exists ws'| |done]. simplify_eq. by apply Hw.
Qed.

(** The kernel is well-formed, unlocked and running; the idle task is ready; every task has its
    own priority; waiters are in order of priority; the semaphores, mutexes, queues, streams and
    timers are valid, and the list of armed timers is well-formed. *)
Record settled k V : Prop := Settled {
  st_ok : kernel_ok k V;
  st_idle : member V (LReady 0) s_idle_tcb;
  st_unlocked : s_lock_nesting k = 0;
  st_running : s_is_running k = true;
  st_tasks : forall x, listed V x -> x ∈ tasks;
  st_levels : forall x, x ∈ tasks -> priority (tcbs k x) = task_level x /\ base_priority (tcbs k x) = task_level x;
  st_sorted : waits_sorted k V;
  st_sems : forall a, a ∈ sems_in_use -> exists s, sem_is k V a s /\ sem_ok s;
  st_mutexes : forall a, a ∈ mutexes_in_use -> mutex_fine k V a;
  st_queues : forall a, a ∈ queues_in_use ->
    queue_magic_ok k a = true /\ is_Some (V (LQueueSend a)) /\ is_Some (V (LQueueRecv a));
  st_streams : forall a, a ∈ streams_in_use ->
    stream_magic_ok (streams k a) = true /\ is_Some (V (LStreamSend a)) /\ is_Some (V (LStreamRecv a));
  st_usable : forall t, t ∈ timers_in_use -> s_timer_subsystem_initialized k = true /\
    tm_magic (timers k t) = SERTOS_TIMER_MAGIC_WORD /\ 0 < tm_period_ticks (timers k t);
  st_timers : s_timer_subsystem_initialized k = true -> exists ts, timers_ok k V ts /\ ts ⊆ timers_in_use }.

(** No task but [c] is RUNNING. *)
Definition peers_ready k V c : Prop := forall p ts t,
  V (LReady p) = Some ts -> t ∈ ts -> t <> c -> state (tcbs k t) = SERTOS_TASK_STATE_READY.

(** [c] runs, and is the task that should. *)
Record sched k V c : Prop := Sched {
  sc_settled : settled k V;
  sc_current : current_ok k V c;
  sc_selected : selected V (Some c);
  sc_peers : peers_ready k V c }.

(** Before a context switch: [c] still has the processor, but may have blocked, and another task
    may be the one to run. *)
Record switching k V c : Prop := Switching {
  sw_settled : settled k V;
  sw_tcb : sertos_current_tcb k = Some c;
  sw_state : current_ok k V c \/ state (tcbs k c) = SERTOS_TASK_STATE_BLOCKED;
  sw_peers : peers_ready k V c }.

Definition runs c k : Prop := exists V, sched k V c.
Definition consistent k : Prop := exists c, runs c k.

(** A task lets the others run in such a state: once the switch is made the kernel is consistent. *)
Definition gives_up k : Prop := exists k', switch_taken k = Some k' /\ consistent k'.

(** What a call of [c] may do and rely on: it gives up the processor to a consistent kernel and
    gets it back in one in which [c] runs. *)
Definition turn c : protocol Kernel := across_switch gives_up (runs c).

Definition Cooperative {A} c (m : M Kernel A) : Prop :=
  forall k, runs c k -> wp (turn c) m k (fun _ k' => runs c k').

(** ** The machine *)

Record machine : Type := Machine {
  kern : Kernel;
  suspended : addr -> option (Kernel -> outcome Kernel unit) }.

(** [calls t m]: task [t] may make the call [m]. *)
Context (calls : addr -> M Kernel unit -> Prop).

(** The kernel after a stretch of a call: the switch is made if the call asked for one. *)
Definition settle k (r : option (Kernel -> outcome Kernel unit)) : option Kernel :=
  match r with None => Some k | Some _ => switch_taken k end.

(** The tick interrupt, with the switch it may ask for. *)
Definition tick_taken k : option Kernel := snd <$> run_serving switch_taken (sertos_scheduler_tick k).

(** A call starts or goes on; the tick interrupt comes; on a processor, the switch is made though
    nobody asked for it (the RISC-V trap handler does so at the end of every interrupt). *)
Inductive step : machine -> machine -> Prop :=
  | step_call k w c m k1 r k' :
      sertos_current_tcb k = Some c -> w c = None -> calls c m ->
      proceed (m k) = Some (k1, r) -> settle k1 r = Some k' ->
      step (Machine k w) (Machine k' (<[c := r]> w))
  | step_resume k w c m k1 r k' :
      sertos_current_tcb k = Some c -> w c = Some m ->
      proceed (m k) = Some (k1, r) -> settle k1 r = Some k' ->
      step (Machine k w) (Machine k' (<[c := r]> w))
  | step_tick k w k' :
      tick_taken k = Some k' -> step (Machine k w) (Machine k' w)
  | step_switch k w n k' : port_host = false ->
      exec sertos_scheduler_perform_switch k = Some (n, k') -> step (Machine k w) (Machine k' w).

Inductive steps : machine -> machine -> Prop :=
  | steps_refl m : steps m m
  | steps_step m1 m2 m3 : steps m1 m2 -> step m2 m3 -> steps m1 m3.

(** The kernel is consistent, and every suspended call will keep it so. *)
Definition sound (m : machine) : Prop :=
  consistent (kern m) /\ forall t cont, suspended m t = Some cont -> Cooperative t cont.

(** ** Composing calls *)

Lemma cooperative_ret {A} c (a : A) : Cooperative c (mret a).
Proof. intros k Hk. by apply wp_ret. Qed.

Lemma cooperative_bind {A B} c (m : M Kernel A) (f : A -> M Kernel B) :
  Cooperative c m -> (forall a, Cooperative c (f a)) -> Cooperative c (m ≫= f).
Proof. intros Hm Hf k Hk. apply wp_bind. eapply wp_mono; [by apply Hm|]. intros a k'. apply Hf. Qed.

Lemma turn_refl c p k : p <> PYield -> rely (turn c) p k k.
Proof. intros Hp. simpl. by rewrite decide_False. Qed.

(** One segment of a cooperative call. *)
Lemma cooperative_proceed c (m : M Kernel unit) k :
  runs c k -> Cooperative c m ->
  exists k1 r k', proceed (m k) = Some (k1, r) /\ settle k1 r = Some k' /\ consistent k' /\
    (forall cont, r = Some cont -> Cooperative c cont).
Proof.
  intros Hk Hm. pose proof (wp_proceed _ _ _ _ (turn_refl c) (Hm k Hk)) as Hp.
  destruct (proceed (m k)) as [[k' [cont|]]|]; [| |done].
  - destruct Hp as [Hg Hr]. simpl in Hg, Hr. destruct Hg as (k2 & Hk2 & Hc).
    exists k', (Some cont), k2. split_and!; [done..|]. intros cont' [= <-] k'' Hk''. by apply Hr.
  - destruct Hp as [_ Hk']. exists k', None, k'. split_and!; [done|done|by exists c|done].
Qed.

(** ** Context switches *)

Lemma settled_dispatch k k' V :
  settled k V -> only_dispatch k k' -> s_lock_nesting k' = s_lock_nesting k -> settled k' V.
Proof.
  intros [] Ho Hn. assert (Hk' : kernel_ok k' V) by by eapply kernel_ok_compat.
  split; rewrite ?Hn, ?(od_running _ _ Ho), ?(od_timers_on _ _ Ho), ?(od_timers _ _ Ho); try done.
  - intros x Hx. rewrite (compat_priority _ _ (od_tcbs _ _ Ho x)), (compat_base _ _ (od_tcbs _ _ Ho x)). auto.
  - eapply waits_sorted_same; [done| |done]. intros x. apply Ho.
  - intros a Ha. destruct (st_sems0 a Ha) as (s & Hs & ?). exists s. split; [by eapply sem_is_dispatch|done].
  - intros a Ha. eapply mutex_fine_update; [by apply st_mutexes0|by rewrite (od_mutexes _ _ Ho)| |by left].
    destruct (st_mutexes0 a Ha) as [_ (ws & Hws & _) _]. by exists ws.
  - intros a Ha. unfold queue_magic_ok. rewrite (od_queues _ _ Ho). by apply st_queues0.
  - intros a Ha. rewrite (od_streams _ _ Ho). by apply st_streams0.
  - intros Hon. destruct (st_timers0 Hon) as (ts & Hts & ?). exists ts. split; [|done].
    eapply timers_ok_move; [done..|]. apply Ho.
Qed.

Lemma selected_member V n : selected V (Some n) -> exists p ts, 0 <= p < MAXP /\ V (LReady p) = Some (n :: ts).
Proof. intros (p & ts & Hp & Hts & _). eauto. Qed.

(** The switch gives the processor to the task selected. *)
Lemma dispatched_sched k V c n k' :
  switching k V c -> selected V (Some n) -> dispatched k V n k' -> sched k' V n.
Proof.
  intros [Hs Hcur Hst Hpeer] Hr [Ho Hc Hsn Hprev Hoth _ Hn _]. pose proof (st_ok _ _ Hs) as Hk.
  destruct (selected_member _ _ Hr) as (p & ts & Hpr & Hts).
  destruct (ok_ready _ _ Hk _ _ n Hts) as (_ & Hpn & Hrun & _); [by left|].
  split; [by eapply settled_dispatch| |done|].
  - split_and!; [done|done|]. rewrite (compat_priority _ _ (od_tcbs _ _ Ho n)), Hpn.
    exists (n :: ts). split; [done|by left].
  - intros q us t Hus Ht Htn. destruct (decide (t = c)) as [->|Htc].
    + apply Hprev; [done|done|]. destruct Hst as [(_&?&_)|Hb]; [done|].
      destruct (ok_ready _ _ Hk _ _ c Hus Ht) as (_&_&Hrc&_). destruct Hrc; congruence.
    + rewrite Hoth; [by eapply Hpeer|done|congruence].
Qed.

Lemma settled_selects k V r : settled k V -> selected V r -> exists n, r = Some n.
Proof.
  intros Hs Hr. destruct r as [n|]; [by exists n|]. destruct (st_idle _ _ Hs) as (ts & Hts & Hin).
  rewrite (Hr 0) in Hts by (unfold MAXP; vm_compute; done). simplify_eq. by apply not_elem_of_nil in Hin.
Qed.

(** A request that finds nothing to switch to. *)
Lemma switched_stays k V c k' :
  switching k V c -> selected V (Some c) -> switched k V (Some c) k' -> sched k' V c.
Proof.
  intros [Hs Hcur Hst Hpeer] Hr [Ho Hn Hp Hsame _]. pose proof (st_ok _ _ Hs) as Hk.
  destruct (selected_member _ _ Hr) as (p & ts & Hpr & Hts).
  destruct (ok_ready _ _ Hk _ _ c Hts) as (_ & Hpn & Hrun & _); [by left|].
  destruct (Hsame ltac:(by right; left)) as [Hc' Ht']. split; [by eapply settled_dispatch| |done|].
  - destruct Hst as [(?&?&?)|Hb]; [|by destruct Hrun; congruence].
    unfold current_ok. rewrite Hc', Ht'. by split_and!.
  - unfold peers_ready. by rewrite Ht'.
Qed.

(** A request that is granted: the machine makes the switch, to a consistent kernel. *)
Lemma switched_goes k V c n k1 :
  switching k V c -> selected V (Some n) -> switched k V (Some n) k1 -> n <> c ->
  exists k2, switch_taken k1 = Some k2 /\ sched k2 V n /\ only_dispatch k k2.
Proof.
  intros Hs Hn Hsw Hne. destruct (switched_taken k V n k1) as (k2 & Hk2 & Hd); [apply Hs|done..| |].
  { rewrite (sw_tcb _ _ _ Hs). congruence. }
  exists k2. split; [done|]. split; [by eapply dispatched_sched|apply Hd].
Qed.

Lemma wp_switch P `{!Calm P} k V c (Q : unit -> Kernel -> Prop) :
  switching k V c ->
  (forall k', sched k' V c -> only_dispatch k k' -> Q tt k') ->
  (forall k1 k2 n, switch_taken k1 = Some k2 -> sched k2 V n -> only_dispatch k k2 ->
     guar P PYield k1 /\ forall k'', rely P PYield k1 k'' -> Q tt k'') ->
  wp P sertos_scheduler_switch_context k Q.
Proof.
  intros Hs Hstay Hgo. pose proof (sw_settled _ _ _ Hs) as Hst.
  apply (wp_switch_context _ _ V); [apply Hst|rewrite (st_unlocked _ _ Hst); lia|].
  intros _ r k1 Hr Hsw. destruct (settled_selects _ _ _ Hst Hr) as [n ->].
  unfold after_switch. rewrite (sw_tcb _ _ _ Hs). destruct (decide (n = c)) as [->|Hne].
  - rewrite decide_True by by right. apply Hstay; [by apply (switched_stays k)|apply Hsw].
  - rewrite decide_False by (by intros [?|[=]]).
    destruct (switched_goes _ _ _ _ _ Hs Hr Hsw Hne) as (k2 & ? & ? & ?). by eapply Hgo.
Qed.

Lemma wp_switch_turn k V c :
  switching k V c ->
  wp (turn c) sertos_scheduler_switch_context k (fun _ k' => runs c k').
Proof.
  intros Hs. apply (wp_switch _ _ V c); [done|by exists V|].
  intros k1 k2 n Hk2 Hn _. simpl. split; [|by intros k'' Hk'']. exists k2. split; [done|]. by exists n, V.
Qed.

(** A switch nobody asked for changes nothing that matters. *)
Lemma perform_switch_keeps k V c :
  sched k V c -> exists n k', exec sertos_scheduler_perform_switch k = Some (n, k') /\
    sched k' V c /\ only_dispatch k k'.
Proof.
  intros Hs. pose proof (sc_selected _ _ _ Hs) as Hr.
  destruct (proj1 (wp_exec sertos_scheduler_perform_switch k (fun _ k' => dispatched k V c k')))
    as (n & k' & He & Hd).
  { apply (wp_perform_switch _ _ V); [apply Hs| |].
    - intros m k2 Hm. by pose proof (selected_unique _ _ _ Hr Hm) as [= <-].
    - intros Hm. by pose proof (selected_unique _ _ _ Hr Hm). }
  exists n, k'. split; [done|]. split; [|apply Hd]. eapply dispatched_sched; [|done|done].
  destruct Hs as [Hst Hc _ Hp]. split; [done|apply Hc|by left|done].
Qed.

Lemma sched_switching k V c : sched k V c -> switching k V c.
Proof. intros [Hs Hc _ Hp]. split; [done|apply Hc|by left|done]. Qed.
End system.
