(* ===== verification/SystemSpec.v ===== *)
(** The kernel's calls seen from the scheduler: what keeps [settled], blocking and waking; yield,
    delay, semaphores, and queues with a limited wait are cooperative. *)
From S2P Require Import Prelude Effects Types Platform LinkedLists Kernel Invariant.
From S2P Require Import SchedCore SchedCoreSpec DelaySpec TaskInfo Stats Timer.
From S2P Require Import Scheduler Task Sem Queue StreamBuffer SchedulerSpec BlockSpec SemSpec IpcSpec TimerSpec System.

Section calls.
Context `{PL : Platform} `{!PlatformLaws} `{!Callbacks} `{!MemoryCallbacks} `{!Setup} `{!SetupFits}.
Implicit Types (k : Kernel) (V : lview) (P : protocol Kernel) (t c : addr).

(** ** Keeping [settled] *)

(** The fields of the kernel that [settled] speaks of, besides the lists. *)
Record same_setting k k' : Prop := Same_setting {
  ss_nesting : s_lock_nesting k' = s_lock_nesting k;
  ss_running : s_is_running k' = s_is_running k;
  ss_timers_on : s_timer_subsystem_initialized k' = s_timer_subsystem_initialized k;
  ss_timers : timers k' = timers k;
  ss_sems : sems k' = sems k;
  ss_levels : forall x, priority (tcbs k' x) = priority (tcbs k x) /\
    base_priority (tcbs k' x) = base_priority (tcbs k x);
  ss_queues : forall a, q_magic (queues k' a) = q_magic (queues k a);
  ss_streams : forall a, sb_magic (streams k' a) = sb_magic (streams k a) }.

#[export] Instance same_setting_trans : Transitive same_setting.
Proof.
  intros k1 k2 k3 [A1 A2 A3 A4 A5 A6 A7 A8] [B1 B2 B3 B4 B5 B6 B7 B8].
  split; try congruence; intros x; [|congruence..]. destruct (A6 x), (B6 x). split; congruence.
Qed.

(** Nobody joins a semaphore that has tokens. *)
Definition same_or_empty k V V' a : Prop :=
  V (LSemWait a) = Some [] -> sem_count (sems k a) = 0 \/ V' (LSemWait a) = Some [].

Lemma settled_update k V k' V' :
  settled k V -> same_setting k k' -> kernel_ok k' V' -> member V' (LReady 0) s_idle_tcb ->
  (forall x, listed V' x -> x ∈ tasks) -> (forall l, is_Some (V l) -> is_Some (V' l)) ->
  V' LTimers = V LTimers -> (forall a, a ∈ sems_in_use -> same_or_empty k V V' a) ->
  (forall a, a ∈ mutexes_in_use -> mutex_fine k V a -> mutex_fine k' V' a) ->
  waits_sorted k' V' -> settled k' V'.
Proof.
  intros [] [] Hk Hi Ht Hd HV Hse Hmu Hso. split; try congruence; try done.
  - intros x Hx. destruct (ss_levels0 x) as [-> ->]. by apply st_levels.
  - intros a Ha. destruct (st_sems a Ha) as ([n m ws] & [Hm Hc Hx Hws] & Hok & Hemp). simpl in *.
    destruct (Hd (LSemWait a)) as [ws' Hws']; [by eexists|]. exists (SemState n m ws').
    split; [split; simpl; congruence|]. split; [done|]. simpl. intros Hne.
    destruct (decide (ws = [])) as [->|]; [|by apply Hemp]. specialize (Hse a Ha Hws).
    destruct Hse; [congruence|]. rewrite Hws' in *. by simplify_eq.
  - intros a Ha. by apply Hmu, st_mutexes.
  - intros a Ha. destruct (st_queues a Ha) as (Hm & Hs & Hr). unfold queue_magic_ok in *. rewrite ss_queues0. eauto.
  - intros a Ha. destruct (st_streams a Ha) as (Hm & Hs & Hr). unfold stream_magic_ok in *. rewrite ss_streams0. eauto.
  - intros t. rewrite ss_timers_on0, ss_timers0. apply st_usable.
  - rewrite ss_timers_on0. intros Hon. destruct (st_timers Hon) as (ts & Hts & ?). exists ts.
    split; [by eapply timers_ok_move|done].
Qed.

(** The lists stay. *)
Lemma settled_lists k k' V :
  settled k V -> same_setting k k' -> heap k' = heap k -> s_ready_bitmap k' = s_ready_bitmap k ->
  tcbs k' = tcbs k -> (forall a, a ∈ mutexes_in_use -> mutex_fine k V a -> mutex_fine k' V a) ->
  settled k' V.
Proof.
  intros Hs Hss Hh Hb Ht Hmu. apply (settled_update k V); [done|done| |apply Hs|apply Hs|done|done|by right|done|].
  - eapply kernel_ok_same, Hs; done.
  - eapply waits_sorted_same; [apply Hs|by rewrite Ht|done].
Qed.

Lemma mutex_fine_same k k' V a : mutex_fine k V a -> mutexes k' a = mutexes k a -> mutex_fine k' V a.
Proof.
  intros Hm He. apply (mutex_fine_update k V); [done|done| |by left].
  destruct (mf_waiters _ _ _ Hm) as (ws & Hws & _). by exists ws.
Qed.

Lemma settled_same k k' V :
  settled k V -> same_setting k k' -> heap k' = heap k -> s_ready_bitmap k' = s_ready_bitmap k ->
  tcbs k' = tcbs k -> mutexes k' = mutexes k -> settled k' V.
Proof.
  intros Hs Hss Hh Hb Ht Hm. apply (settled_lists k); [done..|]. intros a _ Ha.
  eapply mutex_fine_same; [done|by rewrite Hm].
Qed.

Lemma sched_lists k k' V c :
  sched k V c -> same_setting k k' -> heap k' = heap k -> s_ready_bitmap k' = s_ready_bitmap k ->
  tcbs k' = tcbs k -> sertos_current_tcb k' = sertos_current_tcb k ->
  (forall a, a ∈ mutexes_in_use -> mutex_fine k V a -> mutex_fine k' V a) -> sched k' V c.
Proof.
  intros [Hs Hc Hsel Hp] Hss Hh Hb Ht Hcur Hm. split; [by eapply settled_lists| |done|].
  - unfold current_ok. by rewrite Hcur, Ht.
  - unfold peers_ready. by rewrite Ht.
Qed.

Lemma sched_same k k' V c :
  sched k V c -> same_setting k k' -> heap k' = heap k -> s_ready_bitmap k' = s_ready_bitmap k ->
  tcbs k' = tcbs k -> sertos_current_tcb k' = sertos_current_tcb k -> mutexes k' = mutexes k ->
  sched k' V c.
Proof.
  intros Hs Hss Hh Hb Ht Hcur Hm. apply (sched_lists k); [done..|]. intros a _ Ha.
  eapply mutex_fine_same; [done|by rewrite Hm].
Qed.

Lemma settled_length k V l ts :
  settled k V -> link_of l = FState \/ link_of l = FEvent -> V l = Some ts -> (length ts <= loop_fuel)%nat.
Proof.
  intros Hs Hl Hts. transitivity (length tasks); [|apply fits_tasks].
  apply submseteq_length, NoDup_submseteq.
  - by eapply lists_ok_nodup; [apply Hs|].
  - intros x Hx. apply (st_tasks _ _ Hs). exists l. split; [done|by exists ts].
Qed.

(** The running task is the head of its queue. *)
Lemma sched_head k V c : sched k V c -> exists ts, V (LReady (priority (tcbs k c))) = Some (c :: ts).
Proof.
  intros [Hs _ (p & ts & Hp & Hts & _) _].
  destruct (ok_ready _ _ (st_ok _ _ Hs) _ _ c Hts) as (_ & <- & _); [by left|]. by exists ts.
Qed.

Lemma sched_listed k V c : sched k V c -> c ∈ tasks.
Proof.
  intros Hs. destruct (sched_head _ _ _ Hs) as [ts Hts]. apply (st_tasks _ _ (sc_settled _ _ _ Hs)).
  eexists. split; [|by exists (c :: ts); split; [|by left]]. by left.
Qed.

Lemma sched_fuel k V c : sched k V c -> exists n, loop_fuel = S n.
Proof.
  intros Hs. pose proof fits_tasks as Hfit. pose proof (sched_listed _ _ _ Hs) as Hc.
  destruct loop_fuel as [|n]; [|by exists n].
  destruct tasks; [by apply not_elem_of_nil in Hc|simpl in Hfit; lia].
Qed.

(** ** Blocking calls *)

Lemma blocks_sorted k V c f V' h b g :
  waits_sorted k V -> (forall l, link_of l = FEvent -> V' l = V l \/ exists ws, V l = Some ws /\
    V' l = Some (insert_by_priority (fun x => priority (tcbs k x)) c ws)) ->
  priority (f (tcbs k c)) = priority (tcbs k c) ->
  waits_sorted (resched (k <| port ::= g |>) h b (alter f c)) V'.
Proof.
  intros Hs HV Hp l us Hl Hus. apply (by_priority_ext (fun x => priority (tcbs k x))).
  - intros x. unfold resched. rsimpl. destruct (decide (c = x)) as [<-|]; [by rewrite fn_lookup_alter|].
    by rewrite fn_lookup_alter_ne.
  - destruct (HV l Hl) as [Heq|(ws & Hws & Heq)]; rewrite Heq in Hus.
    + by apply (Hs l).
    + simplify_eq. by apply insert_by_priority_sorted, (Hs l).
Qed.

Lemma blocks_switching k V c f V' h b g :
  sched k V c -> c <> s_idle_tcb -> blocks k V c f V' ->
  (forall a, a ∈ sems_in_use -> wait_list (f (tcbs k c)) = Some (LSemWait a) -> sem_count (sems k a) = 0) ->
  (forall a, a ∈ mutexes_in_use -> wait_list (f (tcbs k c)) = Some (LMutexWait a) ->
     mtx_owner (mutexes k a) <> None /\ task_level c = mutex_level a) ->
  base_priority (f (tcbs k c)) = base_priority (tcbs k c) ->
  let k1 := resched (k <| port ::= g |>) h b (alter f c) in
  kernel_ok k1 V' -> switching k1 V' c.
Proof.
  intros Hs Hi [Hst Hpr Hd He Hr Hdl Hw Hdef Hsu Htm Hwt Hstay] Hsem Hmut Hbase k1 Hk1.
  pose proof (sched_listed _ _ _ Hs) as Hct. destruct Hs as [Hs [Hcur _] _ Hp].
  assert (Hlist : forall x, listed V' x -> x ∈ tasks).
  { intros x (l & Hl & Hx). cut (listed V x \/ x = c); [intros [?| ->]; [by apply (st_tasks _ _ Hs)|done]|].
    destruct (decide (link_of l = FEvent)) as [Hev|Hne].
    - apply Hw in Hx as [Hx|[-> _]]; [left|by right|done]. exists l. by split; [right|].
    - destruct Hl as [Hl|]; [|done]. destruct l; try done.
      + apply Hr in Hx as [Hx _]. left. by exists (LReady p); split; [left|].
      + apply Hdl in Hx as [Hx|[-> _]]; [left|by right]. by exists LDelay; split; [left|].
      + left. exists LSuspended. split; [by left|]. unfold member in *. by rewrite <-Hsu. }
  split; [|done| |].
  - apply (settled_update k V); [done| |done|apply Hstay; [apply Hs|done]|done..| | |].
    1:{ split; try done. intros x. unfold k1, resched. rsimpl. destruct (decide (c = x)) as [<-|];
          [by rewrite fn_lookup_alter|by rewrite fn_lookup_alter_ne]. }
    3:{ eapply blocks_sorted; [apply Hs|exact Hwt|exact Hpr]. }
    2:{ intros a Ha Hfine. apply (mutex_fine_update k V); [done|done| |].
        - apply Hdef. destruct (mf_waiters _ _ _ Hfine) as (ws & Hws & _). by exists ws.
        - intros x [Hx|[-> Hx]]%Hw; [by left| |done]. right. by apply Hmut. }
    intros a Ha Hemp. destruct (decide (wait_list (f (tcbs k c)) = Some (LSemWait a))) as [Hwl|Hwl]; [auto|right].
    destruct (Hdef (LSemWait a)) as [[|x us] Hus]; [by eexists|done|].
    destruct (proj1 (Hw (LSemWait a) x eq_refl)) as [(vs & Hvs & Hin)|[-> ?]]; [exists (x :: us); split; [done|by left]| |done].
    rewrite Hemp in Hvs. simplify_eq. by apply not_elem_of_nil in Hin.
  - right. unfold k1, resched. rsimpl. by rewrite fn_lookup_alter.
  - intros p ts t Hts Ht Htc. destruct (Hr p t) as [(us & Hus & Hin) _]; [by exists ts|].
    unfold k1, resched. rsimpl. rewrite fn_lookup_alter_ne by done. by eapply Hp.
Qed.

(** A limited wait reports a timeout whatever ended it. *)
Lemma runs_woken c k : runs c k -> woken k c.
Proof.
  intros [V Hs]. destruct (sched_head _ _ _ Hs) as [ts Hts].
  destruct (ok_ready _ _ (st_ok _ _ (sc_settled _ _ _ Hs)) _ _ c Hts) as (_&_&_&?&?); [by left|done].
Qed.

Lemma runs_no_wait k c : runs c k -> wait_list (tcbs k c) = None.
Proof. intros Hr. by destruct (runs_woken c k Hr). Qed.

Lemma cooperative_delay c n :
  c <> s_idle_tcb -> 0 < n < 2 ^ 32 -> Cooperative c (sertos_scheduler_delay n).
Proof.
  intros Hi Hn k [V Hs]. destruct (sched_head _ _ _ Hs) as [ts Hts].
  pose proof (st_ok _ _ (sc_settled _ _ _ Hs)) as Hk.
  destruct (ok_delay_list _ _ Hk) as [ds Hds].
  apply (wp_delay _ k V c (priority (tcbs k c)) [] ts ds n); [done|apply Hs|apply Hs|done|done|done|].
  intros h b f k1 Hk1. apply (wp_switch_turn _ (delay_view c (priority (tcbs k c)) ts ds V)).
  eapply blocks_switching; [done|done|by apply (blocks_delay k V c (priority (tcbs k c)) [])| | |done|done];
    intros a _ Hw; simpl in Hw; by rewrite (runs_no_wait k c) in Hw by by exists V.
Qed.

Lemma wp_block_turn c l timeout k V :
  sched k V c -> c <> s_idle_tcb -> link_of l = FEvent -> is_Some (V l) -> 0 < timeout < 2 ^ 32 ->
  (forall a, l = LSemWait a -> sem_count (sems k a) = 0) ->
  (forall a, l = LMutexWait a -> mtx_owner (mutexes k a) <> None /\ task_level c = mutex_level a) ->
  wp (turn c) (sertos_scheduler_wait_list_block (Some l) timeout) k
    (fun r k' => runs c k' /\ (timeout <> SERTOS_WAIT_FOREVER -> r <> SERTOS_STATUS_OK)).
Proof.
  intros Hs Hi Hf [ws Hws] Hn Hsem Hmut. destruct (sched_head _ _ _ Hs) as [ts Hts].
  pose proof (st_ok _ _ (sc_settled _ _ _ Hs)) as Hk.
  destruct (ok_delay_list _ _ Hk) as [ds Hds].
  apply (wp_wait_list_block _ k V c (priority (tcbs k c)) [] ts ds l ws);
    [done|apply Hs|apply Hs|done..| |done|].
  { eapply settled_length; [apply Hs|by right|done]. }
  intros h b f k1 Hk1. eapply wp_mono; [eapply wp_switch_turn|].
  - eapply blocks_switching; [done|done|by apply (blocks_block k V c (priority (tcbs k c)) [])| | |done|exact Hk1];
      intros a _ Hw; simpl in Hw; simplify_eq; auto.
  - intros [] k' Hk'. split; [done|]. intros Ht. rewrite block_result_woken by by apply runs_woken.
    by rewrite decide_False.
Qed.

(** ** Waking tasks *)

(** Tasks joined the ready queues behind those that were there. *)
Record wakes k V k' V' : Prop := Wakes {
  wk_setting : same_setting k k';
  wk_ok : kernel_ok k' V';
  wk_current : sertos_current_tcb k' = sertos_current_tcb k;
  wk_queues : forall p us, V' (LReady p) = Some us -> exists rs es,
    V (LReady p) = Some rs /\ us = rs ++ es /\
    (forall x, x ∈ rs -> tcbs k' x = tcbs k x) /\ (forall x, x ∈ es -> state (tcbs k' x) = SERTOS_TASK_STATE_READY);
  wk_listed : forall x, listed V' x -> listed V x;
  wk_defined : forall l, is_Some (V l) -> is_Some (V' l);
  wk_timers : V' LTimers = V LTimers;
  wk_waiters : forall l x, link_of l = FEvent -> member V' l x -> member V l x;
  wk_mutexes : forall a, a ∈ mutexes_in_use -> mutex_fine k V a -> mutex_fine k' V' a;
  wk_sorted : waits_sorted k V -> waits_sorted k' V' }.

Lemma wakes_queue k V k' V' p rs :
  wakes k V k' V' -> V (LReady p) = Some rs -> exists es, V' (LReady p) = Some (rs ++ es) /\
    (forall x, x ∈ rs -> tcbs k' x = tcbs k x) /\ (forall x, x ∈ es -> state (tcbs k' x) = SERTOS_TASK_STATE_READY).
Proof.
  intros Hw Hrs. destruct (wk_defined _ _ _ _ Hw (LReady p)) as [us Hus]; [by eexists|].
  destruct (wk_queues _ _ _ _ Hw _ _ Hus) as (rs' & es & Hrs' & -> & ? & ?). simplify_eq. eauto.
Qed.

(** The running task stays at the head of its queue; it may be outranked now. *)
Lemma wakes_switching k V k' V' c :
  sched k V c -> wakes k V k' V' ->
  switching k' V' c /\ tcbs k' c = tcbs k c /\ current_ok k' V' c /\
  exists ts, V' (LReady (priority (tcbs k' c))) = Some (c :: ts).
Proof.
  intros Hs Hw. destruct (sched_head _ _ _ Hs) as [ts Hts].
  destruct (wakes_queue _ _ _ _ _ _ Hw Hts) as (es & Hus & Hsame & _).
  assert (Htc : tcbs k' c = tcbs k c) by (apply Hsame; by left).
  assert (Hcur : current_ok k' V' c).
  { destruct Hs as [_ (Hcur & Hrun & _) _ _]. unfold current_ok. rewrite Htc, (wk_current _ _ _ _ Hw).
    split_and!; [done|done|]. exists (c :: ts ++ es). split; [done|by left]. }
  split; [|split; [done|split; [done|rewrite Htc; by exists (ts ++ es)]]].
  destruct Hs as [Hs _ _ Hp]. pose proof Hw as [Hss Hk Hc Hq Hl Hd HV Hem Hmu Hso].
  split; [|apply Hcur|by left|].
  - apply (settled_update k V); [done..| | |done|done| |done|apply Hso, Hs].
    + destruct (st_idle _ _ Hs) as (us0 & His & Hin). destruct (wakes_queue _ _ _ _ _ _ Hw His) as (fs & Hfs & _).
      exists (us0 ++ fs). split; [done|set_solver].
    + intros x Hx. by apply (st_tasks _ _ Hs), Hl.
    + intros a _ Ha. right. destruct (Hd (LSemWait a)) as [[|x vs] Hvs]; [by eexists|done|].
      destruct (Hem (LSemWait a) x) as (ws & Hws & Hin); [done|exists (x :: vs); split; [done|by left]|].
      rewrite Ha in Hws. simplify_eq. by apply not_elem_of_nil in Hin.
  - intros p us x Hx Hin Hne. destruct (Hq p us Hx) as (rs & fs & Hrs & -> & Hsm & Hrd).
    apply elem_of_app in Hin as [Hin|Hin]; [|by apply Hrd]. rewrite Hsm by done. by eapply Hp.
Qed.

(** If the selected task does not outrank the running one, it is the running one. *)
Lemma not_outranked k V c ts r :
  switching k V c -> current_ok k V c -> V (LReady (priority (tcbs k c))) = Some (c :: ts) ->
  selected V r -> outranks k r = false -> selected V (Some c).
Proof.
  intros Hs (Hcur & _) Hts Hr Ho. pose proof (st_ok _ _ (sw_settled _ _ _ Hs)) as Hk.
  destruct (ok_ready _ _ Hk _ _ c Hts) as (Hpc & _); [by left|].
  destruct r as [n|]; [|by rewrite (Hr _ Hpc) in Hts]. unfold outranks in Ho. rewrite Hcur in Ho.
  apply Z.ltb_ge in Ho. pose proof Hr as Hr'. destruct Hr as (p & us & Hp & Hus & Hhi).
  destruct (ok_ready _ _ Hk _ _ n Hus) as (_ & Hpn & _); [by left|].
  destruct (decide (priority (tcbs k c) = p)) as [Heq|Hne].
  { rewrite Heq, Hus in Hts. simplify_eq. exact Hr'. }
  by rewrite (Hhi (priority (tcbs k c))) in Hts by lia.
Qed.

Lemma wp_reschedule_turn k V k' V' c :
  sched k V c -> wakes k V k' V' ->
  wp (turn c) sertos_scheduler_reschedule k' (fun _ k'' => runs c k'').
Proof.
  intros Hs Hw. destruct (wakes_switching _ _ _ _ _ Hs Hw) as (Hsw & _ & Hcur & ts & Hts).
  pose proof (sw_settled _ _ _ Hsw) as Hst.
  apply (wp_reschedule _ _ V'); [apply Hst| |].
  - intros [Hr|(r & Hr & Ho)] f; [rewrite (st_running _ _ Hst) in Hr; done|]. exists V'.
    apply (sched_same k'); try done. split; [done|done|by eapply not_outranked|apply Hsw].
  - intros _ n Hn Ho. split; [rewrite (st_unlocked _ _ Hst); lia|]. intros _ k2 Hk2.
    assert (Hne : n <> c).
    { intros ->. apply (outranks_not_current _ _ Ho). by rewrite (sw_tcb _ _ _ Hsw). }
    destruct (switched_goes _ _ _ _ _ Hsw Hn Hk2 Hne) as (k3 & Hk3 & Hm & _).
    simpl. split; [|done]. exists k3. split; [done|]. by exists n, V'.
Qed.

Lemma listed_wake t p V x : listed (wake_view t p V) x -> x = t \/ listed V x.
Proof.
  intros (l & Hl & us & Hus & Hx). unfold wake_view in Hus. destruct (V l) as [ts|] eqn:Hts; [|done].
  destruct (decide (x = t)) as [->|Hne]; [by left|right]. exists l. split; [done|]. exists ts. split; [done|].
  simplify_eq. destruct l; repeat case_decide; try apply elem_of_drop in Hx as [_ Hx]; try done; set_solver.
Qed.

Lemma wake_view_timers t p V : wake_view t p V LTimers = V LTimers.
Proof. unfold wake_view. by destruct (V LTimers). Qed.

Lemma wakes_refl k V : kernel_ok k V -> wakes k V k V.
Proof.
  intros Hk. split; try done. intros p us Hus. exists us, []. rewrite app_nil_r.
  split_and!; try done. by intros x ?%not_elem_of_nil.
Qed.

Lemma wake_view_waiters t p V l x : link_of l = FEvent -> member (wake_view t p V) l x -> member V l x.
Proof.
  intros Hf (us & Hus & Hx). destruct (proj1 (wake_view_is_Some t p V l)) as [vs Hvs]; [by eexists|].
  rewrite (wake_view_wait _ _ _ _ vs) in Hus by done. simplify_eq. exists vs. split; [done|].
  by apply elem_of_drop in Hx as [_ Hx].
Qed.

(** Waiters only leave. *)
Lemma mutex_fine_shrink k V k' V' a :
  mutex_fine k V a -> mutexes k' a = mutexes k a -> (is_Some (V (LMutexWait a)) -> is_Some (V' (LMutexWait a))) ->
  (forall l x, link_of l = FEvent -> member V' l x -> member V l x) -> mutex_fine k' V' a.
Proof.
  intros Hm He Hd Hw. apply (mutex_fine_update k V); [done|done| |].
  - apply Hd. destruct (mf_waiters _ _ _ Hm) as (ws & Hws & _). by exists ws.
  - intros x Hx. left. by apply Hw.
Qed.

(** Waking the first waiter. *)
Lemma wakes_head k V l t ws h b :
  kernel_ok k V -> link_of l = FEvent -> V l = Some (t :: ws) ->
  let V' := wake_view t (priority (tcbs k t)) V in
  let k' := k <| heap := h |> <| s_ready_bitmap := b |> <| tcbs ::= alter wake_tcb t |> in
  kernel_ok k' V' -> wakes k V k' V'.
Proof.
  intros Hk Hf Hl V' k' Hk'. assert (HV : forall l' x, link_of l' = FEvent -> member V' l' x -> member V l' x).
  { intros l' x. apply wake_view_waiters. }
  split; [|done|done| | | |apply wake_view_timers|exact HV| |].
  - split; try done. intros x. unfold k'. rsimpl. destruct (decide (t = x)) as [<-|];
      [by rewrite fn_lookup_alter|by rewrite fn_lookup_alter_ne].
  - intros p us Hus. destruct (proj1 (wake_view_is_Some t (priority (tcbs k t)) V (LReady p))) as [rs Hrs]; [by eexists|].
    assert (Hsame : forall x, x ∈ rs -> tcbs k' x = tcbs k x).
    { intros x Hx. apply fn_lookup_alter_ne. intros ->.
      destruct (ok_ready _ _ Hk _ _ _ Hrs Hx) as (_&_&Hrun&_).
      destruct (ok_waiting _ _ Hk l _ x Hf Hl) as (Hb&_); [by left|]. destruct Hrun; congruence. }
    destruct (decide (p = priority (tcbs k t))) as [->|Hne].
    + unfold V' in Hus. erewrite wake_view_ready in Hus by done. simplify_eq. exists rs, [t].
      split_and!; try done. intros x ->%list_elem_of_singleton. unfold k'. rsimpl. by rewrite fn_lookup_alter.
    + unfold V' in Hus. rewrite wake_view_ready_ne in Hus by done. exists rs, [].
      rewrite app_nil_r. split_and!; [done|congruence|done|]. by intros x ?%not_elem_of_nil.
  - intros x [->|Hx]%listed_wake; [|done]. exists l. split; [by right|]. exists (t :: ws). split; [done|by left].
  - intros l'. apply wake_view_is_Some.
  - intros a _ Ha. apply (mutex_fine_shrink k V); [done|done|apply wake_view_is_Some|exact HV].
  - intros Hs l' us Hl' Hus. destruct (proj1 (wake_view_is_Some t (priority (tcbs k t)) V l')) as [vs Hvs]; [by eexists|].
    unfold V' in Hus. rewrite (wake_view_wait _ _ _ _ vs) in Hus by done. simplify_eq.
    apply (by_priority_ext (fun x => priority (tcbs k x))); [|by apply by_priority_filter, (Hs l')].
    intros x. unfold k'. rsimpl. destruct (decide (t = x)) as [<-|]; [by rewrite fn_lookup_alter|by rewrite fn_lookup_alter_ne].
Qed.

(** ** The calls *)

(** The count of a semaphore changes within the rules. *)
Lemma sched_sem k V c a n m ws g :
  sched k V c -> sem_is k V a (SemState n m ws) -> sem_ok (SemState (g n) m ws) ->
  sched (k <| sems ::= alter (set sem_count g) a |>) V c.
Proof.
  intros [[] Hc Hsel Hp] Hs Hok. split; [|done|done|done].
  assert (Hk : kernel_ok (k <| sems ::= alter (set sem_count g) a |>) V) by by eapply kernel_ok_same, st_ok.
  split; try done.
  - intros x Hx. destruct (decide (a = x)) as [<-|Hne].
    + exists (SemState (g n) m ws). split; [by apply (sem_is_count k V a n m ws g)|done].
    + destruct (st_sems x Hx) as (s & [] & ?). exists s. split; [|done].
      split; rsimpl; by rewrite ?fn_lookup_alter_ne.
  - intros x Hx. eapply mutex_fine_same; [by apply st_mutexes|done].
  - intros Hon. destruct (st_timers Hon) as (ts & Hts & ?). exists ts. split; [by eapply timers_ok_move|done].
Qed.

Lemma cooperative_sem_take c a timeout :
  a ∈ sems_in_use -> timeout = SERTOS_NO_WAIT \/ c <> s_idle_tcb -> 0 <= timeout < 2 ^ 32 ->
  Cooperative c (sertos_sem_take (Some a) timeout).
Proof.
  intros Ha Hi Hto k [V Hs]. destruct (st_sems _ _ (sc_settled _ _ _ Hs) a Ha) as ([n m ws] & Hsem & Hok).
  unfold sertos_sem_take. wp_steps. rewrite (sem_magic_ok_true _ _ _ _ Hsem). cbn [negb]. wp_steps.
  apply wp_enter; [apply _|]. intros cs f. wp_steps. unfold rd_sem. wp_steps.
  pose proof (si_count _ _ _ _ Hsem) as Hn. destruct Hok as [Hb Hemp]. simpl in Hn, Hb, Hemp.
  rsimpl. destruct (Z.ltb_spec 0 (sem_count (sems k a))) as [Hlt|Hge];
    [|destruct (Z.eqb_spec timeout SERTOS_NO_WAIT) as [->|Hne]].
  - unfold upd_sem. wp_steps. apply wp_exit; [apply _|]. intros g. wp_steps. exists V.
    apply (sched_same (k <| sems ::= alter (set sem_count (fun c => c - 1)) a |>)); try done.
    apply (sched_sem _ _ _ _ n m ws); [done|done|]. split; simpl; [lia|]. intros Hw. specialize (Hemp Hw). lia.
  - wp_steps. apply wp_exit; [apply _|]. intros g. wp_steps. exists V. by apply (sched_same k).
  - wp_steps. apply wp_exit; [apply _|]. intros g. wp_steps.
    eapply wp_mono; [apply (wp_block_turn c (LSemWait a) timeout _ V)|by intros r k' [? _]].
    + by apply (sched_same k).
    + by destruct Hi.
    + done.
    + eexists. apply Hsem.
    + unfold SERTOS_NO_WAIT in Hne. lia.
    + intros x [= <-]. rsimpl. lia.
    + done.
Qed.

Lemma cooperative_sem_give c a : a ∈ sems_in_use -> Cooperative c (sertos_sem_give (Some a)).
Proof.
  intros Ha k [V Hs]. destruct (st_sems _ _ (sc_settled _ _ _ Hs) a Ha) as ([n m ws] & Hsem & Hok).
  unfold sertos_sem_give, rd_sem, upd_sem. wp_steps. rewrite (sem_magic_ok_true _ _ _ _ Hsem). cbn [negb]. wp_steps.
  apply wp_enter; [apply _|]. intros cs f. wp_steps.
  assert (Hs1 : sched (k <| port ::= f |>) V c) by by apply (sched_same k).
  pose proof (st_ok _ _ (sc_settled _ _ _ Hs1)) as Hk1. pose proof (si_waiters _ _ _ _ Hsem) as Hws. simpl in Hws.
  apply (wp_unblock_highest _ _ V _ ws); [done|done|done|]. destruct ws as [|t ws].
  - pose proof (si_count _ _ _ _ Hsem) as Hn. pose proof (si_max _ _ _ _ Hsem) as Hm. simpl in Hn, Hm.
    destruct Hok as [Hb _]. simpl in Hb. wp_steps. case_match eqn:Hlt; wp_steps;
      (apply wp_exit; [apply _|]); intros g; wp_steps; exists V; [|by apply (sched_same k)].
    apply Z.ltb_lt in Hlt. rsimpl_in Hlt.
    apply (sched_same (k <| sems ::= alter (set sem_count (fun c => c + 1)) a |>)); try done.
    apply (sched_sem _ _ _ _ n m []); [done|done|]. split; simpl; [lia|done].
  - intros h b V1 k1 Hk. wp_steps. apply wp_exit; [apply _|]. intros g. unfold sertos_scheduler_is_running.
    wp_steps.
    assert (Hw : wakes (k <| port ::= f |>) V (k1 <| port ::= g |>) V1).
    { destruct (wakes_head _ _ (LSemWait a) t ws h b Hk1 eq_refl Hws Hk) as [[] Hok' ?????? Hmu ?].
      split; [by split|by eapply kernel_ok_same, Hok'|done..| |done].
      intros x Hx Hfine. eapply mutex_fine_same; [by apply Hmu|done]. }
    apply wp_when; intros Hrun.
    + eapply wp_mono; [by eapply wp_reschedule_turn|]. intros [] k2 Hk2. by wp_steps.
    + rewrite (ss_running _ _ (wk_setting _ _ _ _ Hw)), (st_running _ _ (sc_settled _ _ _ Hs1)) in Hrun. done.
Qed.

(** The end of a transfer: the first waiter of the other side is woken, and may run at once. *)
Lemma wp_notify_turn {A} c (o : ptr) cs (r : A) k V k' V' :
  sched k V c -> wakes k V k' V' -> (o = None -> k' = k /\ V' = V) ->
  wp (turn c) (sertos_port_exit_critical cs;; notify_unblocked_task o;; mret r) k' (fun _ k'' => runs c k'').
Proof.
  intros Hs Hw Ho. unfold notify_unblocked_task, sertos_scheduler_is_running. wp_steps.
  apply wp_exit; [apply _|]. intros g. wp_steps.
  assert (Hw' : wakes k V (k' <| port ::= g |>) V').
  { destruct Hw as [[] Hok ?????? Hmu ?]. split; [by split|by eapply kernel_ok_same, Hok|done..| |done].
    intros x Hx Hfine. eapply mutex_fine_same; [by apply Hmu|done]. }
  apply wp_when; intros Hb.
  - eapply wp_mono; [by eapply wp_reschedule_turn|]. intros [] k2 Hk2. by wp_steps.
  - wp_steps. apply andb_false_iff in Hb as [Hb|Hb].
    + apply bool_decide_eq_false in Hb. destruct (Ho (dec_stable Hb)) as [-> ->].
      exists V. by apply (sched_same k).
    + rewrite (ss_running _ _ (wk_setting _ _ _ _ Hw')), (st_running _ _ (sc_settled _ _ _ Hs)) in Hb. done.
Qed.

Lemma wp_wake_notify_turn {A} c l cs (r : A) k V :
  sched k V c -> link_of l = FEvent -> is_Some (V l) ->
  wp (turn c) (unblocked ← sertos_scheduler_wait_list_unblock_highest (Some l);
    sertos_port_exit_critical cs;; notify_unblocked_task unblocked;; mret r) k (fun _ k' => runs c k').
Proof.
  intros Hs Hf [ws Hws]. pose proof (st_ok _ _ (sc_settled _ _ _ Hs)) as Hk.
  apply wp_bind, (wp_unblock_highest _ _ V _ ws); [done|done|done|]. destruct ws as [|t ws].
  - by apply (wp_notify_turn _ _ _ _ k V k V); [|apply wakes_refl|].
  - intros h b V1 k1 Hk1. apply (wp_notify_turn _ _ _ _ k V k1 V1); [done|by eapply wakes_head|done].
Qed.

Lemma wp_wake_one_turn {A} c l cs (r : A) k V :
  sched k V c -> link_of l = FEvent -> is_Some (V l) ->
  wp (turn c) (wake_one true l cs r) k (fun _ k' => runs c k').
Proof. apply wp_wake_notify_turn. Qed.

(** The wait of a transfer that does not wait for ever: it is over when it is woken. *)
Lemma wp_queue_wait_turn c a blocked wl timeout cs kont k V :
  sched k V c -> timeout = SERTOS_NO_WAIT \/ c <> s_idle_tcb -> 0 <= timeout < SERTOS_WAIT_FOREVER ->
  link_of wl = FEvent -> is_Some (V wl) -> (forall x, wl <> LSemWait x /\ wl <> LMutexWait x) ->
  (forall cs, wp (turn c) (kont cs) k (fun _ k' => runs c k')) ->
  wp (turn c) (queue_wait_loop loop_fuel a blocked wl timeout cs kont) k
    (fun _ k' => runs c k').
Proof.
  intros Hs Hi Ht Hf Hl Hsem Hkont.
  destruct (sched_fuel _ _ _ Hs) as [n ->]. cbn [queue_wait_loop]. unfold rd_queue. wp_steps.
  destruct (blocked _); cbn [negb]; [|apply Hkont].
  destruct (Z.eqb_spec timeout SERTOS_NO_WAIT) as [->|Hne].
  - wp_steps. apply wp_exit; [apply _|]. intros g. wp_steps. exists V. by apply (sched_same k).
  - wp_steps. apply wp_exit; [apply _|]. intros g. wp_steps.
    eapply wp_mono; [apply (wp_block_turn c wl timeout _ V)|].
    + by apply (sched_same k).
    + by destruct Hi.
    + done.
    + done.
    + unfold SERTOS_NO_WAIT in Hne. unfold SERTOS_WAIT_FOREVER in Ht. lia.
    + intros x Hx. by destruct (Hsem x).
    + intros x Hx. by destruct (Hsem x).
    + intros r k' [Hk' Hr]. rewrite decide_True by (apply Hr; lia). by wp_steps.
Qed.

Lemma wp_queue_args P a i k (Q : option (addr * addr) -> Kernel -> Prop) :
  queue_magic_ok k a = true -> Q (Some (a, i)) k -> wp P (queue_args (Some a) (Some i)) k Q.
Proof. intros Hm HQ. unfold queue_args. wp_steps. by rewrite Hm. Qed.

(** Whatever the ring buffer does, only the bytes change. *)
Lemma wp_write_any P a i k (Q : unit -> Kernel -> Prop) :
  (forall rb m, Q tt (k <| queues ::= alter (set q_ring_buf (fun _ => rb)) a |> <| mem := m |>)) ->
  wp P (queue_write a i) k Q.
Proof. intros HQ. unfold queue_write, rd_queue, upd_queue. wp_steps. apply HQ. Qed.

Lemma wp_read_any P a i k (Q : unit -> Kernel -> Prop) :
  (forall rb m, Q tt (k <| queues ::= alter (set q_ring_buf (fun _ => rb)) a |> <| mem := m |>)) ->
  wp P (queue_read a i) k Q.
Proof. intros HQ. unfold queue_read, rd_queue, upd_queue. wp_steps. apply HQ. Qed.

(** The bytes of a queue do not matter to scheduling. *)
Lemma sched_queue k V c a rb m :
  sched k V c -> sched (k <| queues ::= alter (set q_ring_buf (fun _ => rb)) a |> <| mem := m |>) V c.
Proof.
  intros Hs. apply (sched_same k); try done. split; try done. intros x. rsimpl.
  destruct (decide (a = x)) as [<-|]; [by rewrite fn_lookup_alter|by rewrite fn_lookup_alter_ne].
Qed.

Lemma cooperative_queue_send c a i timeout :
  a ∈ queues_in_use -> timeout = SERTOS_NO_WAIT \/ c <> s_idle_tcb -> 0 <= timeout < SERTOS_WAIT_FOREVER ->
  Cooperative c (sertos_queue_send (Some a) (Some i) timeout).
Proof.
  intros Ha Hi Ht k [V Hs]. destruct (st_queues _ _ (sc_settled _ _ _ Hs) a Ha) as (Hm & Hls & Hlr).
  unfold sertos_queue_send. wp_steps. apply wp_queue_args; [done|]. apply wp_bind, wp_enter; [apply _|]. intros cs f.
  apply (wp_queue_wait_turn _ _ _ _ _ _ _ _ V); [by apply (sched_same k)|done..|].
  intros cs'. apply wp_bind, wp_write_any. intros rb m.
  apply (wp_wake_one_turn c (LQueueRecv a) cs' SERTOS_STATUS_OK _ V); [|done|done].
  by apply sched_queue, (sched_same k).
Qed.

Lemma cooperative_queue_receive c a i timeout :
  a ∈ queues_in_use -> timeout = SERTOS_NO_WAIT \/ c <> s_idle_tcb -> 0 <= timeout < SERTOS_WAIT_FOREVER ->
  Cooperative c (sertos_queue_receive (Some a) (Some i) timeout).
Proof.
  intros Ha Hi Ht k [V Hs]. destruct (st_queues _ _ (sc_settled _ _ _ Hs) a Ha) as (Hm & Hls & Hlr).
  unfold sertos_queue_receive. wp_steps. apply wp_queue_args; [done|]. apply wp_bind, wp_enter; [apply _|]. intros cs f.
  apply (wp_queue_wait_turn _ _ _ _ _ _ _ _ V); [by apply (sched_same k)|done..|].
  intros cs'. apply wp_bind, wp_read_any. intros rb m.
  apply (wp_wake_one_turn c (LQueueSend a) cs' SERTOS_STATUS_OK _ V); [|done|done].
  by apply sched_queue, (sched_same k).
Qed.

(** Time slicing may rotate the queue of the running task. *)
Lemma wp_slicing P k V c ts (Q : unit -> Kernel -> Prop) :
  switching k V c -> current_ok k V c -> V (LReady (priority (tcbs k c))) = Some (c :: ts) ->
  (forall k' V', switching k' V' c -> s_time_slicing_enabled k' = s_time_slicing_enabled k ->
     (s_time_slicing_enabled k = false -> k' = k /\ V' = V) ->
     tcbs k' = tcbs k ->
     V' (LReady (priority (tcbs k c))) = Some (if s_time_slicing_enabled k then ts ++ [c] else c :: ts) ->
     (forall l, l <> LReady (priority (tcbs k c)) -> V' l = V l) -> Q tt k') ->
  wp P process_time_slicing k Q.
Proof.
  intros Hsw Hcur Hts HQ. pose proof (st_ok _ _ (sw_settled _ _ _ Hsw)) as Hk. set (p := priority (tcbs k c)) in *.
  apply (wp_process_time_slicing _ k V c p [] ts); [done|apply Hcur|done| |].
  - intros Hsl _ h Hk'. cbn [app] in *. set (V' := <[LReady p := Some (ts ++ [c])]> V) in *.
    assert (Hmem : forall l x, member V' l x <-> member V l x).
    { intros l x. unfold V'. rewrite member_insert. destruct (decide (LReady p = l)) as [<-|Hne].
      - unfold member. rewrite Hts. split; [intros [[_ Hx]|[[] _]]|intros (? & [= <-] & Hx); left; split];
          try done; [exists (c :: ts); split; [done|]|]; set_solver.
      - naive_solver. }
    apply (HQ _ V'); [|done|congruence|done|by rewrite Hsl; apply fn_lookup_insert|
      by intros l Hl; apply fn_lookup_insert_ne]. split; [|apply Hcur|left|].
    + apply (settled_update k V); [apply Hsw|by split|done| | | |by apply fn_lookup_insert_ne|by right| |].
      * apply Hmem, Hsw.
      * intros x (l & Hl & Hx). apply (st_tasks _ _ (sw_settled _ _ _ Hsw)). exists l. by rewrite <-Hmem.
      * intros l Hl. unfold V'. destruct (decide (LReady p = l)) as [<-|]; [by rewrite fn_lookup_insert|].
        by rewrite fn_lookup_insert_ne.
      * intros a _ Ha. apply (mutex_fine_shrink k V); [done|done| |].
        -- intros Hl. unfold V'. by rewrite fn_lookup_insert_ne.
        -- intros l x _. by rewrite Hmem.
      * eapply waits_sorted_same; [apply Hsw|done|]. intros l Hl. apply fn_lookup_insert_ne. by intros <-.
    + destruct Hcur as (Hc & Hrun & Hm). split_and!; [done|done|]. by apply Hmem.
    + intros q us x Hus Hx. destruct (proj1 (Hmem (LReady q) x)) as (us' & Hus' & Hx'); [by exists us|].
      by apply (sw_peers _ _ _ Hsw q us').
  - intros Hno. apply (HQ k V); try done. rewrite Hts. destruct Hno as [->|Hno]; [done|].
    simpl in Hno. subst ts. by destruct (s_time_slicing_enabled k).
Qed.

Lemma cooperative_yield c : Cooperative c sertos_scheduler_yield.
Proof.
  intros k [V Hs]. unfold sertos_scheduler_yield. wp_steps. apply wp_enter; [apply _|]. intros cs f. wp_steps.
  assert (Hs1 : sched (k <| port ::= f |>) V c) by by apply (sched_same k).
  destruct (wakes_switching _ _ _ _ _ Hs1 (wakes_refl _ _ (st_ok _ _ (sc_settled _ _ _ Hs1))))
    as (Hsw & _ & Hcur & ts & Hts).
  apply (wp_slicing _ _ V c ts); [done|done|done|]. intros k' V' Hk' _ _ _ _ _. wp_steps.
  apply wp_exit; [apply _|]. intros g. apply (wp_switch_turn _ V').
  destruct Hk' as [Hst Hc Hd Hp]. split; [|done|done|done]. by apply (settled_same k').
Qed.
End calls.
