(* ===== verification/SystemStreams.v ===== *)
(** Stream buffers seen from the scheduler: transfers that do not wait for ever, and moving the
    trigger level, are cooperative. *)
From S2P Require Import Prelude Effects Types Platform LinkedLists Kernel Invariant.
From S2P Require Import SchedCore SchedCoreSpec DelaySpec TaskInfo Stats Timer.
From S2P Require Import Scheduler Task Sem Queue StreamBuffer SchedulerSpec BlockSpec IpcSpec TimerSpec.
From S2P Require Import System SystemSpec.

Section streams.
Context `{PL : Platform} `{!PlatformLaws} `{!Callbacks} `{!MemoryCallbacks} `{!Setup} `{!SetupFits}.
Implicit Types (k : Kernel) (V : lview) (P : protocol Kernel) (c : addr).

(** The bytes and the trigger level of a stream do not matter to scheduling. *)
Lemma sched_stream k V c a f m :
  (forall b, sb_magic (f b) = sb_magic b) ->
  sched k V c -> sched (k <| streams ::= alter f a |> <| mem := m |>) V c.
Proof.
  intros Hf Hs. apply (sched_same k); try done. split; try done. intros x. rsimpl.
  destruct (decide (a = x)) as [<-|]; [by rewrite fn_lookup_alter|by rewrite fn_lookup_alter_ne].
Qed.

Lemma runs_stream k c a :
  runs c k -> a ∈ streams_in_use ->
  exists V, sched k V c /\ stream_magic_ok (streams k a) = true /\
    is_Some (V (LStreamSend a)) /\ is_Some (V (LStreamRecv a)).
Proof.
  intros [V Hs] Ha. exists V. split; [done|]. by apply (st_streams _ _ (sc_settled _ _ _ Hs)).
Qed.

Lemma cooperative_stream_write c a d n : Cooperative c (stream_write a d n).
Proof.
  intros k [V Hs]. unfold stream_write, upd_stream. wp_steps. exists V. by apply sched_stream.
Qed.

Lemma cooperative_stream_read c a d n : Cooperative c (stream_read a d n).
Proof.
  intros k [V Hs]. unfold stream_read, upd_stream. wp_steps. exists V. by apply sched_stream.
Qed.

(** Nobody was woken. *)
Lemma cooperative_notify_none {A} c cs (r : A) :
  Cooperative c (sertos_port_exit_critical cs;; notify_unblocked_task None;; mret r).
Proof.
  intros k [V Hs]. apply (wp_notify_turn _ _ _ _ k V k V); [done| |done].
  apply wakes_refl, (sc_settled _ _ _ Hs).
Qed.

(** The reader is woken at the trigger level; the writer when bytes were read. *)
Lemma cooperative_wake_reader {A} c a cs (r : A) : a ∈ streams_in_use ->
  Cooperative c (unblocked ← wake_reader_at_trigger a;
    sertos_port_exit_critical cs;; notify_unblocked_task unblocked;; mret r).
Proof.
  intros Ha k Hk. destruct (runs_stream _ _ _ Hk Ha) as (V & Hs & _ & _ & Hl).
  unfold wake_reader_at_trigger, rd_stream. wp_steps. case_match.
  - by apply wp_bind_inv, (wp_wake_notify_turn _ (LStreamRecv a) _ _ _ V).
  - wp_step. by apply cooperative_notify_none.
Qed.

Lemma cooperative_wake_writer {A} c a (b : bool) cs (r : A) : a ∈ streams_in_use ->
  Cooperative c (unblocked ← (if b then sertos_scheduler_wait_list_unblock_highest (Some (LStreamSend a))
                              else mret None);
    sertos_port_exit_critical cs;; notify_unblocked_task unblocked;; mret r).
Proof.
  intros Ha k Hk. destruct (runs_stream _ _ _ Hk Ha) as (V & Hs & _ & Hl & _). destruct b.
  - by apply (wp_wake_notify_turn _ (LStreamSend a) _ _ _ V).
  - apply wp_bind, wp_ret. by apply cooperative_notify_none.
Qed.

(** ** Waiting *)

(** A limited wait of a transfer: the call goes on once, with an error status. *)
Lemma wp_stream_wait c a l timeout cs kont k :
  runs c k -> a ∈ streams_in_use -> c <> s_idle_tcb -> 0 < timeout < SERTOS_WAIT_FOREVER ->
  l = LStreamSend a \/ l = LStreamRecv a ->
  (forall status cs ok k', runs c k' -> status <> SERTOS_STATUS_OK ->
     wp (turn c) (kont status cs ok) k' (fun _ k'' => runs c k'')) ->
  wp (turn c) (sertos_port_exit_critical cs;;
    status ← sertos_scheduler_wait_list_block (Some l) timeout;
    crit_status ← sertos_port_enter_critical;
    ok ← rd_stream a stream_magic_ok;
    kont status crit_status ok) k (fun (_ : Z) k' => runs c k').
Proof.
  intros Hk Ha Hi Ht Hl Hkont. destruct (runs_stream _ _ _ Hk Ha) as (V & Hs & _ & Hls & Hlr).
  wp_steps. apply wp_exit; [apply _|]. intros g. wp_steps.
  eapply wp_mono; [apply (wp_block_turn c l timeout _ V)|].
  - by apply (sched_same k).
  - done.
  - by destruct Hl as [-> | ->].
  - by destruct Hl as [-> | ->].
  - unfold SERTOS_WAIT_FOREVER in Ht. lia.
  - intros x ->. by destruct Hl.
  - intros x ->. by destruct Hl.
  - intros r k' [Hk' Hr]. wp_steps. apply wp_enter; [apply _|]. intros cs2 f. unfold rd_stream. wp_steps.
    apply Hkont; [|apply Hr; lia]. destruct Hk' as [V' Hs']. exists V'. by apply (sched_same k').
Qed.

Lemma runs_exit {A} c cs (r : A) k :
  runs c k -> wp (turn c) (sertos_port_exit_critical cs;; mret r) k (fun _ k' => runs c k').
Proof.
  intros [V Hs]. wp_steps. apply wp_exit; [apply _|]. intros g. wp_steps. exists V. by apply (sched_same k).
Qed.

Lemma cooperative_send_loop c a timeout cs kont :
  a ∈ streams_in_use -> timeout = SERTOS_NO_WAIT \/ c <> s_idle_tcb -> 0 <= timeout < SERTOS_WAIT_FOREVER ->
  (forall cs, Cooperative c (kont cs)) -> Cooperative c (stream_send_loop loop_fuel a timeout cs kont).
Proof.
  intros Ha Hi Ht Hkont k Hk. pose proof Hk as [V Hs]. destruct (sched_fuel _ _ _ Hs) as [n ->]. cbn [stream_send_loop].
  unfold rd_stream at 1. apply wp_bind, wp_gets.
  destruct (stream_buffer_free_bytes _ =? 0); cbn [negb]; [|by apply Hkont].
  destruct (Z.eqb_spec timeout SERTOS_NO_WAIT) as [->|Hne]; [by apply runs_exit|].
  apply wp_stream_wait; [done|done|by destruct Hi|unfold SERTOS_NO_WAIT in Hne; lia|by left|].
  intros status cs' ok k' Hk' Hst. rewrite bool_decide_true by done. cbn [orb]. by apply runs_exit.
Qed.

Lemma cooperative_receive_loop c a timeout cs kont :
  a ∈ streams_in_use -> timeout = SERTOS_NO_WAIT \/ c <> s_idle_tcb -> 0 <= timeout < SERTOS_WAIT_FOREVER ->
  (forall cs, Cooperative c (kont cs)) -> Cooperative c (stream_receive_loop loop_fuel a timeout cs kont).
Proof.
  intros Ha Hi Ht Hkont k Hk. pose proof Hk as [V Hs]. destruct (sched_fuel _ _ _ Hs) as [n ->]. cbn [stream_receive_loop].
  unfold rd_stream at 1. apply wp_bind, wp_gets.
  destruct (ring_buffer_count _ <? _); cbn [negb]; [|by apply Hkont].
  destruct (Z.eqb_spec timeout SERTOS_NO_WAIT) as [->|Hne]; [by apply Hkont|].
  apply wp_stream_wait; [done|done|by destruct Hi|unfold SERTOS_NO_WAIT in Hne; lia|by right|].
  intros status cs' ok k' Hk' Hst. destruct ok; cbn [negb]; [|by apply runs_exit].
  rewrite bool_decide_true by done. by apply Hkont.
Qed.

(** ** The calls *)

Lemma cooperative_enter {A} c (m : Z -> M Kernel A) :
  (forall cs, Cooperative c (m cs)) -> Cooperative c (cs ← sertos_port_enter_critical; m cs).
Proof.
  intros Hm k [V Hs]. apply wp_bind, wp_enter; [apply _|]. intros cs f. apply Hm.
  exists V. by apply (sched_same k).
Qed.

Lemma cooperative_stream_send c a i n timeout :
  a ∈ streams_in_use -> timeout = SERTOS_NO_WAIT \/ c <> s_idle_tcb -> 0 <= timeout < SERTOS_WAIT_FOREVER ->
  Cooperative c (sertos_stream_buffer_send (Some a) (Some i) n timeout).
Proof.
  intros Ha Hi Ht k Hk. destruct (runs_stream _ _ _ Hk Ha) as (V & Hs & Hm & _).
  unfold sertos_stream_buffer_send, is_send_params_valid, is_valid_handle, rd_stream. wp_steps.
  rewrite Hm. destruct (0 <? n); wp_steps; [|done]. apply wp_bind_inv.
  apply cooperative_enter; [|done]. intros cs. apply cooperative_send_loop; [done..|]. intros cs'.
  apply cooperative_bind; [apply cooperative_stream_write|]. intros r. by apply cooperative_wake_reader.
Qed.

Lemma cooperative_stream_receive c a i n timeout :
  a ∈ streams_in_use -> timeout = SERTOS_NO_WAIT \/ c <> s_idle_tcb -> 0 <= timeout < SERTOS_WAIT_FOREVER ->
  Cooperative c (sertos_stream_buffer_receive (Some a) (Some i) n timeout).
Proof.
  intros Ha Hi Ht k Hk. destruct (runs_stream _ _ _ Hk Ha) as (V & Hs & Hm & _).
  unfold sertos_stream_buffer_receive, is_recv_params_valid, is_valid_handle, rd_stream. wp_steps.
  rewrite Hm. destruct (0 <? n); wp_steps; [|done]. apply wp_bind_inv.
  apply cooperative_enter; [|done]. intros cs. apply cooperative_receive_loop; [done..|]. intros cs'.
  apply cooperative_bind; [apply cooperative_stream_read|]. intros r. by apply cooperative_wake_writer.
Qed.

Lemma cooperative_set_trigger_level c a n :
  a ∈ streams_in_use -> Cooperative c (sertos_stream_buffer_set_trigger_level (Some a) n).
Proof.
  intros Ha k Hk. destruct (runs_stream _ _ _ Hk Ha) as (V & Hs & Hm & _).
  unfold sertos_stream_buffer_set_trigger_level, is_valid_handle, rd_stream. wp_steps.
  rewrite Hm. wp_steps. destruct (_ <? _); wp_steps; [done|]. apply wp_bind_inv.
  apply cooperative_enter; [|done]. intros cs. apply cooperative_bind; [|intros; by apply cooperative_wake_reader].
  intros k' [V' Hs']. unfold upd_stream. wp_steps. exists V'.
  replace (k' <| streams ::= _ |>) with
    (k' <| streams ::= alter (set sb_trigger_level_bytes (fun _ => if n =? 0 then 1 else n)) a |> <| mem := mem k' |>)
    by by destruct k'.
  by apply sched_stream.
Qed.
End streams.
