(* ===== verification/SystemMutex.v ===== *)
(** Mutexes seen from the scheduler: among tasks of one priority no inheritance takes place, and
    locking and unlocking are cooperative. *)
From S2P Require Import Prelude Effects Types Platform LinkedLists Kernel Invariant.
From S2P Require Import SchedCore SchedCoreSpec DelaySpec TaskInfo Stats Timer.
From S2P Require Import Scheduler Task Sem Mutex Queue StreamBuffer SchedulerSpec BlockSpec TaskSpec MutexSpec.
From S2P Require Import SemSpec IpcSpec TimerSpec System SystemSpec.

Section mutexes.
Context `{PL : Platform} `{!PlatformLaws} `{!Callbacks} `{!MemoryCallbacks} `{!Setup} `{!SetupFits}.
Implicit Types (k : Kernel) (V : lview) (P : protocol Kernel) (t c o a : addr).

(** ** Writing the mutex *)

(** The fields of a mutex that was written. *)
Local Ltac mutex_fields :=
  repeat (first [rewrite fn_lookup_alter | rewrite fn_lookup_alter_ne by done]; rsimpl).

(** Only the mutex [a] changed. *)
Definition only_mutex a k k' : Prop := forall x, x <> a -> mutexes k' x = mutexes k x.

Lemma sched_mutex k k' V c a :
  sched k V c -> same_setting k k' -> heap k' = heap k -> s_ready_bitmap k' = s_ready_bitmap k ->
  tcbs k' = tcbs k -> sertos_current_tcb k' = sertos_current_tcb k ->
  only_mutex a k k' -> mutex_fine k' V a -> sched k' V c.
Proof.
  intros Hs Hss Hh Hb Ht Hc Ho Hm. apply (sched_lists k); [done..|]. intros x _ Hx.
  destruct (decide (x = a)) as [->|Hne]; [done|]. eapply mutex_fine_same; [done|by apply Ho].
Qed.

(** A mutex that [o] holds. *)
Lemma mutex_fine_held k V k' V' a o :
  mutex_fine k V a -> mutex_magic_ok k' a = true -> mtx_owner (mutexes k' a) = Some o ->
  o ∈ tasks -> task_level o = mutex_level a -> mtx_original_owner_priority (mutexes k' a) = mutex_level a ->
  is_Some (V' (LMutexWait a)) -> (forall x, member V' (LMutexWait a) x -> member V (LMutexWait a) x) ->
  mutex_fine k' V' a.
Proof.
  intros [_ (ws & Hws & Hw) _] Hm Ho Hot Hl Hp [ws' Hws'] Hx. split; [done| |].
  - exists ws'. split; [done|]. intros x Hin. rewrite Ho. split; [done|].
    destruct (Hx x) as (us & Hus & Hin'); [by exists ws'|]. simplify_eq. by apply Hw.
  - intros o'. rewrite Ho. by intros [= <-].
Qed.

(** A mutex that is free. *)
Lemma mutex_fine_free k V a :
  mutex_magic_ok k a = true -> mtx_owner (mutexes k a) = None -> V (LMutexWait a) = Some [] -> mutex_fine k V a.
Proof.
  intros Hm Ho Hw. split; [done| |by rewrite Ho].
  exists []. split; [done|]. by intros x ?%not_elem_of_nil.
Qed.

Lemma mutex_defined k V a : mutex_fine k V a -> is_Some (V (LMutexWait a)).
Proof. intros [_ (ws & Hws & _) _]. by exists ws. Qed.

Lemma sched_priority k V c :
  sched k V c -> priority (tcbs k c) = task_level c /\ base_priority (tcbs k c) = task_level c.
Proof. intros Hs. apply (st_levels _ _ (sc_settled _ _ _ Hs)). by eapply sched_listed. Qed.

(** The running task has taken the mutex. *)
Lemma sched_takes k k' V c a :
  sched k V c -> a ∈ mutexes_in_use -> task_level c = mutex_level a ->
  same_setting k k' -> heap k' = heap k -> s_ready_bitmap k' = s_ready_bitmap k ->
  tcbs k' = tcbs k -> sertos_current_tcb k' = sertos_current_tcb k -> only_mutex a k k' ->
  mtx_magic (mutexes k' a) = mtx_magic (mutexes k a) -> mtx_owner (mutexes k' a) = Some c ->
  mtx_original_owner_priority (mutexes k' a) = mutex_level a -> sched k' V c.
Proof.
  intros Hs Ha Hl Hss Hh Hb Ht Hc Ho Hm How Hp. apply (sched_mutex k _ V c a); [done..|].
  pose proof (st_mutexes _ _ (sc_settled _ _ _ Hs) a Ha) as Hfine.
  apply (mutex_fine_held k V _ _ _ c); try done.
  - unfold mutex_magic_ok. rewrite Hm. apply Hfine.
  - by eapply sched_listed.
  - by eapply mutex_defined.
Qed.

(** ** Locking *)

(** The holder has the caller's priority already. *)
Lemma wp_inherit_nothing P k V a c o (Q : unit -> Kernel -> Prop) :
  sched k V c -> a ∈ mutexes_in_use -> task_level c = mutex_level a ->
  mtx_owner (mutexes k a) = Some o -> Q tt k -> wp P (apply_priority_inheritance a c) k Q.
Proof.
  intros Hs Ha Hc Ho HQ. pose proof (sc_settled _ _ _ Hs) as Hst.
  destruct (mf_owner _ _ _ (st_mutexes _ _ Hst a Ha) o Ho) as (Hot & Hol & _).
  destruct (st_levels _ _ Hst o Hot) as [Hpo _]. destruct (sched_priority _ _ _ Hs) as [Hpc _].
  unfold apply_priority_inheritance. ksteps. rewrite Ho. ksteps.
  rewrite (proj2 (Z.ltb_ge _ _)) by lia. cbn [when]. by wp_steps.
Qed.

Lemma cooperative_mutex_lock c a timeout :
  a ∈ mutexes_in_use -> task_level c = mutex_level a -> timeout = SERTOS_NO_WAIT \/ c <> s_idle_tcb ->
  0 <= timeout < 2 ^ 32 -> Cooperative c (sertos_mutex_lock (Some a) timeout).
Proof.
  intros Ha Hl Hi Ht k [V Hs]. pose proof (st_mutexes _ _ (sc_settled _ _ _ Hs) a Ha) as Hfine.
  unfold sertos_mutex_lock, sertos_scheduler_get_current_tcb. wp_steps.
  rewrite (mf_magic _ _ _ Hfine). cbn [negb]. wp_steps.
  rewrite (sw_tcb _ _ _ (sched_switching _ _ _ Hs)). wp_steps. apply wp_enter; [apply _|]. intros cs f. ksteps.
  pose proof (mutex_defined _ _ _ Hfine) as Hd. pose proof (mf_magic _ _ _ Hfine) as Hm.
  destruct (sched_priority _ _ _ Hs) as [Hpc Hbc]. pose proof (sched_listed _ _ _ Hs) as Hct.
  destruct (mtx_owner (mutexes k a)) as [o|] eqn:Ho.
  - destruct (mf_owner _ _ _ Hfine o Ho) as (_ & _ & Hrec). rewrite decide_False by done. case_decide as Hoc.
    + (* a nested lock *)
      simplify_eq. ksteps. apply wp_exit; [apply _|]. intros g. wp_steps. exists V.
      apply (sched_takes k _ V c a); try done; [intros x Hx|..]; rsimpl; by mutex_fields.
    + wp_steps. eapply (wp_inherit_nothing _ _ V); [by apply (sched_same k)|done|done|exact Ho|].
      destruct (Z.eqb_spec timeout SERTOS_NO_WAIT) as [->|Hne].
      * wp_steps. apply wp_exit; [apply _|]. intros g. wp_steps. exists V. by apply (sched_same k).
      * wp_steps. apply wp_exit; [apply _|]. intros g. wp_steps.
        eapply wp_mono; [apply (wp_block_turn c (LMutexWait a) timeout _ V)|].
        -- by apply (sched_same k).
        -- by destruct Hi.
        -- done.
        -- done.
        -- unfold SERTOS_NO_WAIT in Hne. lia.
        -- done.
        -- intros x [= <-]. rsimpl. by rewrite Ho.
        -- intros r k' [Hk' _]. apply wp_bind, wp_when; intros Hr; [|by wp_steps].
           destruct Hk' as [V' Hs']. destruct (sched_priority _ _ _ Hs') as [_ Hb']. ksteps. exists V'.
           apply (sched_takes k' _ V' c a); try done; [intros x Hx|..]; rsimpl; mutex_fields; [done..|congruence].
  - rewrite decide_True by done. ksteps. apply wp_exit; [apply _|]. intros g. wp_steps. exists V.
    apply (sched_takes k _ V c a); try done; [intros x Hx|..]; rsimpl; mutex_fields; [done..|congruence].
Qed.

(** ** Unlocking *)

(** The first waiter is woken and gets the mutex. *)
Lemma wakes_new_owner k V a t ws h b k' :
  kernel_ok k V -> mutex_fine k V a -> V (LMutexWait a) = Some (t :: ws) -> t ∈ tasks ->
  let V' := wake_view t (priority (tcbs k t)) V in
  let k1 := k <| heap := h |> <| s_ready_bitmap := b |> <| tcbs ::= alter wake_tcb t |> in
  kernel_ok k1 V' ->
  same_setting k1 k' -> heap k' = heap k1 -> s_ready_bitmap k' = s_ready_bitmap k1 -> tcbs k' = tcbs k1 ->
  sertos_current_tcb k' = sertos_current_tcb k1 -> only_mutex a k k' ->
  mutex_magic_ok k' a = true -> mtx_owner (mutexes k' a) = Some t ->
  mtx_original_owner_priority (mutexes k' a) = mutex_level a -> wakes k V k' V'.
Proof.
  intros Hk Hfine Hws Ht V' k1 Hk1 Hss Hh Hb Htc Hcur Ho Hm How Hp.
  destruct (wakes_head k V (LMutexWait a) t ws h b Hk eq_refl Hws Hk1) as [Hs1 Hok Hc Hq Hli Hdef Htm Hwa Hmu Hso].
  fold V' in Hq, Hli, Hdef, Htm, Hwa, Hmu, Hso. split; try done.
  - by transitivity k1.
  - by eapply kernel_ok_same, Hok.
  - intros p us Hus. rewrite Htc. by apply Hq.
  - intros x Hx Hfx. destruct (decide (x = a)) as [->|Hne].
    + apply (mutex_fine_held k V _ _ _ t); try done.
      * destruct (mf_waiters _ _ _ Hfine) as (us & Hus & Hw). simplify_eq. apply Hw. by left.
      * apply Hdef. by eexists.
      * intros y. by apply Hwa.
    + eapply mutex_fine_same; [by apply Hmu|]. by apply Ho.
  - intros Hs. eapply waits_sorted_same; [by apply Hso| |done]. intros x. by rewrite Htc.
Qed.

(** The end of a call that may have woken a task. *)
Lemma wp_end_turn {A} c (r : A) k V k' V' :
  sched k V c -> wakes k V k' V' ->
  wp (turn c) (when (s_is_running k') sertos_scheduler_reschedule) k'
    (fun _ k2 => wp (turn c) (mret r) k2 (fun _ k3 => runs c k3)).
Proof.
  intros Hs Hw. apply wp_when; intros Hrun.
  - eapply wp_mono; [by eapply wp_reschedule_turn|]. intros [] k2 Hk2. by wp_steps.
  - rewrite (ss_running _ _ (wk_setting _ _ _ _ Hw)), (st_running _ _ (sc_settled _ _ _ Hs)) in Hrun. done.
Qed.

Lemma cooperative_mutex_unlock c a : a ∈ mutexes_in_use -> Cooperative c (sertos_mutex_unlock (Some a)).
Proof.
  intros Ha k [V Hs]. pose proof (st_mutexes _ _ (sc_settled _ _ _ Hs) a Ha) as Hfine.
  unfold sertos_mutex_unlock, sertos_scheduler_get_current_tcb, sertos_scheduler_is_running. wp_steps.
  rewrite (mf_magic _ _ _ Hfine). cbn [negb]. wp_steps.
  rewrite (sw_tcb _ _ _ (sched_switching _ _ _ Hs)). ksteps.
  case_decide as Ho; [wp_steps; by exists V|].
  destruct (mf_owner _ _ _ Hfine c Ho) as (Hct & Hl & Hrec). destruct (sched_priority _ _ _ Hs) as [Hpc _].
  wp_steps. apply wp_enter; [apply _|]. intros cs f. ksteps.
  set (k1 := k <| port ::= f |> <| mutexes ::= _ |>).
  assert (Hs1 : sched k1 V c).
  { apply (sched_takes k _ V c a); try done; [intros x Hx|..]; unfold k1; rsimpl; by mutex_fields. }
  destruct (0 <? _).
  { ksteps. apply wp_exit; [apply _|]. intros g. wp_steps. exists V. by apply (sched_same k1). }
  wp_steps. apply wp_restore_same; [unfold k1; rsimpl; mutex_fields; congruence|]. wp_steps.
  pose proof (st_ok _ _ (sc_settled _ _ _ Hs1)) as Hk1. pose proof (st_mutexes _ _ (sc_settled _ _ _ Hs1) a Ha) as Hf1.
  destruct (mf_waiters _ _ _ Hf1) as (ws & Hws & Hw). unfold hand_over. wp_steps.
  apply (wp_unblock_highest _ _ V (LMutexWait a) ws); [done|done|done|]. destruct ws as [|t ws].
  - ksteps. apply wp_exit; [apply _|]. intros g. wp_steps.
    match goal with |- wp _ _ ?k _ => set (k2 := k) end.
    assert (Hs2 : sched k2 V c).
    { apply (sched_mutex k1 _ V c a); try done; [intros x Hx; unfold k2; rsimpl; by mutex_fields|].
      pose proof (mf_magic _ _ _ Hf1) as Hm. unfold mutex_magic_ok in Hm.
      apply mutex_fine_free; [|unfold k2; rsimpl; by mutex_fields|done].
      unfold mutex_magic_ok, k2. rsimpl. by mutex_fields. }
    eapply (wp_end_turn c); [done|]. apply wakes_refl, (sc_settled _ _ _ Hs2).
  - intros h b V2 k2 Hk2. ksteps. apply wp_exit; [apply _|]. intros g. wp_steps.
    match goal with |- wp _ _ ?k _ => set (k3 := k) end.
    eapply (wp_end_turn c _ k1 V k3 V2); [done|].
    assert (Htt : t ∈ tasks).
    { apply (st_tasks _ _ (sc_settled _ _ _ Hs1)). exists (LMutexWait a). split; [by right|].
      exists (t :: ws). split; [done|by left]. }
    pose proof (mf_magic _ _ _ Hf1) as Hm. unfold mutex_magic_ok in Hm.
    destruct (Hw t) as [_ Hlt]; [by left|]. destruct (st_levels _ _ (sc_settled _ _ _ Hs1) t Htt) as [_ Hbt].
    apply (wakes_new_owner k1 V a t ws h b); try done.
    + intros x Hx. unfold k3. rsimpl. by mutex_fields.
    + unfold mutex_magic_ok, k3. rsimpl. by mutex_fields.
    + unfold k3. rsimpl. by mutex_fields.
    + unfold k3, k2. rsimpl. mutex_fields. unfold wake_tcb. rsimpl. congruence.
Qed.
End mutexes.
