(* ===== verification/SystemTick.v ===== *)
(** The tick seen from the scheduler: it keeps the kernel consistent, and what it does to the ready
    queues; software timers are cooperative. *)
From S2P Require Import Prelude Effects Types Platform LinkedLists Kernel Invariant.
From S2P Require Import SchedCore SchedCoreSpec DelaySpec TaskInfo Stats Timer.
From S2P Require Import Scheduler Task Sem Queue StreamBuffer SchedulerSpec BlockSpec SemSpec IpcSpec TimerSpec.
From S2P Require Import System SystemSpec.

Section tick.
Context `{PL : Platform} `{!PlatformLaws} `{!Callbacks} `{!MemoryCallbacks} `{!Setup} `{!SetupFits}.
Implicit Types (k : Kernel) (V : lview) (P : protocol Kernel) (t c : addr).

(** ** The delay list *)

Lemma tick_view_timers e pr ds V : tick_view e pr ds V LTimers = V LTimers.
Proof.
  revert V. induction ds as [|t ds IH]; intros V; [done|]. rewrite tick_view_cons, IH.
  destruct (e t); [apply wake_view_timers|done].
Qed.

Lemma tick_tcbs_priority ds m (x : addr) : NoDup ds -> priority (tick_tcbs ds m x) = priority (m x).
Proof.
  intros Hnd. destruct (decide (x ∈ ds)) as [Hx|Hx].
  - rewrite tick_tcbs_in by done. unfold tick_tcb. by destruct (_ <=? _).
  - by rewrite tick_tcbs_notin.
Qed.

Lemma tick_tcbs_base ds m (x : addr) : NoDup ds -> base_priority (tick_tcbs ds m x) = base_priority (m x).
Proof.
  intros Hnd. destruct (decide (x ∈ ds)) as [Hx|Hx].
  - rewrite tick_tcbs_in by done. unfold tick_tcb. by destruct (_ <=? _).
  - by rewrite tick_tcbs_notin.
Qed.

Lemma wakes_tick k V ds h b :
  kernel_ok k V -> V LDelay = Some ds ->
  let V' := tick_view (expires k) (fun t => priority (tcbs k t)) ds V in
  let k' := resched k h b (tick_tcbs ds) in
  kernel_ok k' V' -> wakes k V k' V'.
Proof.
  intros Hk Hds V' k' Hk'. pose proof (lists_ok_nodup _ _ _ _ (ok_lists _ _ Hk) Hds) as Hnd.
  assert (HSome : forall l ds V, is_Some (tick_view (expires k) (fun t => priority (tcbs k t)) ds V l) <-> is_Some (V l)).
  { intros l ds'. induction ds' as [|t ds' IH]; intros V0; [done|]. rewrite tick_view_cons.
    destruct (expires k t); rewrite IH; [by rewrite wake_view_is_Some|done]. }
  assert (HV : forall l x, link_of l = FEvent -> member V' l x -> member V l x).
  { intros l x Hl (us & Hus & Hx). destruct (proj1 (HSome l ds V)) as [vs Hvs]; [by eexists|].
    unfold V' in Hus. rewrite (tick_view_wait _ _ _ _ l vs) in Hus by done. simplify_eq.
    exists vs. split; [done|]. by apply list_elem_of_filter in Hx as [_ ?]. }
  split; [|done|done| | |intros l; apply HSome|apply tick_view_timers|exact HV| |].
  - split; try done. intros x. unfold k', resched. rsimpl. by rewrite tick_tcbs_priority, tick_tcbs_base.
  - intros p us Hus. destruct (proj1 (HSome (LReady p) ds V)) as [rs Hrs]; [by eexists|].
    exists rs, (filter (fun t => expires k t /\ priority (tcbs k t) = p) ds). split; [done|].
    unfold V' in Hus. rewrite (tick_view_ready _ _ _ _ _ _ Hrs) in Hus. split; [congruence|]. split.
    + intros x Hx. apply tick_tcbs_notin. intros Hd. destruct (ok_ready _ _ Hk _ _ _ Hrs Hx) as (_&_&Hrun&_).
      destruct (ok_delayed _ _ Hk _ _ Hds Hd) as (Hb&_). destruct Hrun; congruence.
    + intros x [[He _] Hx]%list_elem_of_filter. unfold k', resched. rsimpl. rewrite tick_tcbs_in by done.
      unfold tick_tcb. apply Is_true_true_1 in He. unfold expires in He. by rewrite He.
  - assert (Hgen : forall ds' V0, (forall x, x ∈ ds' -> listed V x) -> (forall x, listed V0 x -> listed V x) ->
      forall x, listed (tick_view (expires k) (fun t => priority (tcbs k t)) ds' V0) x -> listed V x).
    { induction ds' as [|t ds' IH]; intros V0 Hd HV0 x; [by apply HV0|]. rewrite tick_view_cons. apply IH; [set_solver|].
      destruct (expires k t); [|done]. intros y [->|Hy]%listed_wake; [apply Hd; by left|by apply HV0]. }
    apply Hgen; [|done]. intros x Hx. exists LDelay. split; [by left|by exists ds].
  - intros a _ Ha. apply (mutex_fine_shrink k V); [done|done|apply HSome|exact HV].
  - intros Hs l us Hl Hus. destruct (proj1 (HSome l ds V)) as [vs Hvs]; [by eexists|].
    unfold V' in Hus. rewrite (tick_view_wait _ _ _ _ l vs) in Hus by done. simplify_eq.
    apply (by_priority_ext (fun x => priority (tcbs k x))); [|by apply by_priority_filter, (Hs l)].
    intros x. symmetry. by apply tick_tcbs_priority.
Qed.

(** ** Software timers and the tick hook *)

(** Between two steps only the timers and what the user's code keeps in memory may change. *)
Definition timers_usable k : Prop := forall t, t ∈ timers_in_use ->
  tm_magic (timers k t) = SERTOS_TIMER_MAGIC_WORD /\ 0 < tm_period_ticks (timers k t).

Lemma settled_timers_update k V k' us :
  settled k V -> only_timers k k' -> timers_ok k' (<[LTimers := Some us]> V) us ->
  us ⊆ timers_in_use -> timers_usable k' -> settled k' (<[LTimers := Some us]> V).
Proof.
  intros [] (p & h & tms & m & ->)%only_timers_elim Hts Hus Hu.
  pose proof (tl_ok _ _ _ (to_linked _ _ _ Hts)) as Hk.
  assert (Hne : forall l, link_of l = FState \/ link_of l = FEvent -> (<[LTimers := Some us]> V) l = V l).
  { intros l Hl. apply fn_lookup_insert_ne. intros <-. by destruct Hl. }
  split; try done.
  - intros x (l & Hl & Hx). apply st_tasks. exists l. split; [done|]. by apply (member_same V) in Hx; [|apply Hne].
  - eapply waits_sorted_same; [done|done|]. intros l Hl. apply Hne. by right.
  - intros a Ha. destruct (st_sems a Ha) as (s & [] & ?). exists s. by split; [split|].
  - intros a Ha. destruct (st_mutexes a Ha). by split.
  - intros t Ht. destruct (st_usable t Ht) as [Hon _]. split; [done|]. by apply Hu.
  - intros _. by exists us.
Qed.

Lemma current_ok_timers k V c k' us :
  current_ok k V c -> only_timers k k' -> current_ok k' (<[LTimers := Some us]> V) c.
Proof. by intros (Hc & Hr & ts & Hts & Hin) (p & h & tms & m & ->)%only_timers_elim; split_and!; [..|exists ts]. Qed.

Lemma switching_timers k V c k' us :
  switching k V c -> only_timers k k' -> settled k' (<[LTimers := Some us]> V) ->
  switching k' (<[LTimers := Some us]> V) c.
Proof.
  intros [_ Hc Hst Hp] Ho Hs. pose proof (current_ok_timers k V c k' us) as Hcur.
  apply only_timers_elim in Ho as Heq. destruct Heq as (p & h & tms & m & ->). split; [done|done| |].
  - destruct Hst; [left; by apply Hcur|by right].
  - intros q ts t. rewrite fn_lookup_insert_ne by done. apply Hp.
Qed.

Lemma sched_timers k V c k' us :
  sched k V c -> only_timers k k' -> settled k' (<[LTimers := Some us]> V) ->
  sched k' (<[LTimers := Some us]> V) c.
Proof.
  intros [_ Hc Hsel Hp] Ho Hs. split; [done|by eapply current_ok_timers| |].
  - destruct Hsel as (q & us' & Hq & Hus & Hhi). exists q, us'. split_and!; [lia|lia|..].
    + by rewrite fn_lookup_insert_ne.
    + intros r Hr. rewrite fn_lookup_insert_ne by done. by apply Hhi.
  - apply only_timers_elim in Ho as (p & h & tms & m & ->).
    intros q ts t. rewrite fn_lookup_insert_ne by done. apply Hp.
Qed.

(** A call that changes one timer and the list of armed timers. *)
Lemma runs_timers k V c k' us f (t : addr) :
  sched k V c -> only_timers k k' -> timers_ok k' (<[LTimers := Some us]> V) us -> us ⊆ timers_in_use ->
  timers k' = alter f t (timers k) ->
  (forall tm, tm_magic (f tm) = tm_magic tm /\ (0 < tm_period_ticks tm -> 0 < tm_period_ticks (f tm))) ->
  runs c k'.
Proof.
  intros Hs Ho Hts Hus Htm Hf. pose proof (sc_settled _ _ _ Hs) as Hst. eexists. eapply sched_timers; [done..|].
  apply (settled_timers_update k); [done..|]. intros x Hx. destruct (st_usable _ _ Hst x Hx) as (_ & Hm & Hp).
  rewrite Htm. destruct (decide (t = x)) as [<-|Hne]; [|by rewrite fn_lookup_alter_ne].
  rewrite fn_lookup_alter. destruct (Hf (timers k t)) as [-> ?]. auto.
Qed.

Lemma sched_timer k V c (t : addr) : sched k V c -> t ∈ timers_in_use ->
  exists ts, timers_ok k V ts /\ drop t ts ++ [t] ⊆ timers_in_use /\ drop t ts ⊆ timers_in_use /\
    tm_magic (timers k t) = SERTOS_TIMER_MAGIC_WORD /\ 0 < tm_period_ticks (timers k t).
Proof.
  intros Hs Ht. pose proof (sc_settled _ _ _ Hs) as Hst. destruct (st_usable _ _ Hst t Ht) as (Hon & Hm & Hp).
  destruct (st_timers _ _ Hst Hon) as (ts & Hts & Hin). exists ts.
  assert (Hd : drop t ts ⊆ timers_in_use) by (intros x [_ Hx]%elem_of_drop; auto).
  split_and!; try done. intros x [Hx| ->%list_elem_of_singleton]%elem_of_app; auto.
Qed.

Lemma cooperative_timer_start c (t : addr) : t ∈ timers_in_use -> Cooperative c (sertos_timer_start (Some t)).
Proof.
  intros Ht k [V Hs]. destruct (sched_timer _ _ _ _ Hs Ht) as (ts & Hts & Hus & _ & Hm & Hp).
  apply (wp_timer_start _ k V ts t); [apply Hts|by intros; apply Hts|done..|].
  intros k' Ho us Hk' Htm. by eapply runs_timers.
Qed.

Lemma cooperative_timer_change_period c (t : addr) n :
  t ∈ timers_in_use -> 0 < n -> Cooperative c (sertos_timer_change_period (Some t) n).
Proof.
  intros Ht Hn k [V Hs]. destruct (sched_timer _ _ _ _ Hs Ht) as (ts & Hts & Hus & _ & Hm & _).
  apply (wp_timer_change_period _ k V ts t n); [done..|]. intros k' Ho us Hk' Htm. by eapply runs_timers.
Qed.

Lemma cooperative_timer_stop c (t : addr) : t ∈ timers_in_use -> Cooperative c (sertos_timer_stop (Some t)).
Proof.
  intros Ht k [V Hs]. destruct (sched_timer _ _ _ _ Hs Ht) as (ts & Hts & _ & Hd & Hm & _).
  apply (wp_timer_stop _ k V ts t); [done..|]. intros k' Ho Hk' Htm. by eapply runs_timers.
Qed.

(** ** The tick's own use of them *)

Lemma selected_ext V V' r :
  (forall p, V' (LReady p) = V (LReady p)) -> selected V r -> selected V' r.
Proof.
  intros HV. destruct r as [n|]; simpl; [|by setoid_rewrite HV].
  intros (p & ts & Hp & Hts & Hhi). exists p, ts. setoid_rewrite HV. done.
Qed.

Lemma timers_usable_tick k V k' (ts : list addr) :
  settled k V -> (forall t, t ∈ ts -> timers k' t = tick_timer (timers k t)) ->
  (forall t, t ∉ ts -> timers k' t = timers k t) -> timers_usable k'.
Proof.
  intros Hs Hin Hout t Ht. destruct (st_usable _ _ Hs t Ht) as (_ & Hm & Hp).
  destruct (decide (t ∈ ts)) as [Hts|Hts]; [|by rewrite Hout]. rewrite Hin by done.
  unfold tick_timer. by destruct (ringing (timers k t)), (tm_is_periodic (timers k t)).
Qed.

(** The timers' part of the tick. *)
Lemma wp_timers_turn P k V c (Q : unit -> Kernel -> Prop) :
  switching k V c ->
  (forall k' V', switching k' V' c -> only_timers k k' -> (current_ok k V c -> current_ok k' V' c) ->
     (forall l, l <> LTimers -> V' l = V l) -> Q tt k') ->
  wp P sertos_timer_tick k Q.
Proof.
  intros Hsw HQ. pose proof (sw_settled _ _ _ Hsw) as Hs.
  destruct (s_timer_subsystem_initialized k) eqn:Hon.
  2:{ unfold sertos_timer_tick. wp_steps. rewrite Hon. cbn [negb]. wp_steps. apply (HQ k V); try done. by destruct k. }
  destruct (st_timers _ _ Hs Hon) as (ts & Hts & Hin). apply (wp_timer_tick _ k V ts); [done|done| |].
  { transitivity (length timers_in_use); [|apply fits_timers]. apply submseteq_length, NoDup_submseteq; [|done].
    eapply lists_ok_nodup; apply Hts. }
  intros h k' ts' Hk' Ht Hnt. assert (Ho : only_timers k k') by by destruct k.
  assert (Hs' : settled k' (<[LTimers := Some ts']> V)).
  { apply (settled_timers_update k); [done..| |by eapply timers_usable_tick].
    intros t [_ ?]%list_elem_of_filter. auto. }
  eapply HQ; [by eapply switching_timers|done| |].
  - intros Hc. by eapply current_ok_timers.
  - intros l Hl. by apply fn_lookup_insert_ne.
Qed.

(** The user's hook. *)
Lemma wp_hook_turn P k V c (o : ptr) (Q : unit -> Kernel -> Prop) :
  switching k V c ->
  (forall m, switching (k <| mem := m |>) V c -> Q tt (k <| mem := m |>)) ->
  wp P (match o with Some f => call_hook f | None => mret tt end) k Q.
Proof.
  intros Hsw HQ. assert (Hm : forall m, Q tt (k <| mem := m |>)).
  { intros m. apply HQ. destruct Hsw as [Hs Hc Hd Hp]. split; [|done|done|done]. by apply (settled_same k). }
  destruct o as [f|]; [rewrite hook_effect_spec|]; wp_steps; [apply Hm|].
  specialize (Hm (mem k)). by destruct k.
Qed.

(** ** The whole tick *)

(** The tasks of priority [q] that the tick wakes, in order. *)
Definition woken_at k (ds : list addr) (q : Z) : list addr :=
  filter (fun t => expires k t /\ priority (tcbs k t) = q) ds.

(** What a tick does to the lists while [c] runs, [ts] being behind it and [ds] asleep: those whose
    time is up join their ready queues; with time slicing the running task goes to the tail. *)
Record tick_effect k V c (ts ds : list addr) k' V' : Prop := Tick_effect {
  te_priority : forall x, priority (tcbs k' x) = priority (tcbs k x);
  te_slicing : s_time_slicing_enabled k' = s_time_slicing_enabled k;
  te_delay : V' LDelay = Some (filter (fun x => ~ expires k x) ds);
  te_count : forall x, x ∈ ds -> ~ expires k x -> delay_ticks (tcbs k' x) = delay_ticks (tcbs k x) - 1;
  te_top : V' (LReady (priority (tcbs k c))) =
    Some (if s_time_slicing_enabled k then ts ++ woken_at k ds (priority (tcbs k c)) ++ [c]
          else c :: ts ++ woken_at k ds (priority (tcbs k c)));
  te_ready : forall q us, q <> priority (tcbs k c) -> V (LReady q) = Some us ->
    V' (LReady q) = Some (us ++ woken_at k ds q) }.

Lemma tick_effect_compat k V c ts ds k1 k' V' :
  tick_effect k V c ts ds k1 V' -> s_time_slicing_enabled k' = s_time_slicing_enabled k1 ->
  (forall x, tcb_compat (tcbs k1 x) (tcbs k' x)) -> tick_effect k V c ts ds k' V'.
Proof.
  intros [] Hs Ht. split; try done; try congruence.
  - intros x. by rewrite (compat_priority _ _ (Ht x)).
  - intros x Hx He. rewrite (compat_delay _ _ (Ht x)). auto.
Qed.

(** The tick up to its context switch: the queues are right; if nothing woke and time slicing is
    off, the running task is still the one to run. *)
Lemma wp_tick P `{!Calm P} k V c ts ds (Q : unit -> Kernel -> Prop) :
  sched k V c -> V (LReady (priority (tcbs k c))) = Some (c :: ts) -> V LDelay = Some ds ->
  (forall k' V', switching k' V' c -> current_ok k' V' c -> tick_effect k V c ts ds k' V' ->
     wp P (when (existsb (expires k) ds || s_time_slicing_enabled k) sertos_scheduler_switch_context) k' Q) ->
  wp P sertos_scheduler_tick k Q.
Proof.
  intros Hs Hts Hds HQ. unfold sertos_scheduler_tick. wp_steps. apply wp_enter; [done|]. intros cs f. wp_steps.
  match goal with |- wp _ _ ?k1 _ => set (k1' := k1) end.
  assert (Hs1 : sched k1' V c) by by apply (sched_same k).
  pose proof (st_ok _ _ (sc_settled _ _ _ Hs1)) as Hk1.
  pose proof (lists_ok_nodup _ _ _ _ (ok_lists _ _ Hk1) Hds) as Hnd.
  apply (wp_process_delayed _ _ V ds); [done|done| |].
  { eapply (settled_length _ _ LDelay); [apply Hs1|by left|done]. }
  intros h b k2 Hk2. wp_steps. pose proof (wakes_tick _ _ _ _ _ Hk1 Hds Hk2) as Hw.
  destruct (wakes_switching _ _ _ _ _ Hs1 Hw) as (Hsw & Hc2 & Hcur & _).
  assert (Hp2 : priority (tcbs k2 c) = priority (tcbs k c)) by exact (f_equal priority Hc2).
  eapply (wp_slicing _ _ _ c (ts ++ woken_at k ds (priority (tcbs k c)))); [exact Hsw|exact Hcur| |].
  { rewrite Hp2. rewrite (tick_view_ready _ _ _ _ _ _ Hts). done. }
  intros k3 V3 Hk3 Hsl Hsame Htc3 Htop3 Hoth3. rewrite Hp2 in Htop3, Hoth3. wp_steps.
  apply (wp_timers_turn _ _ V3 c); [done|]. intros k4 V4 Hk4 Ho Hcur4 HV4. wp_steps.
  apply (wp_hook_turn _ _ V4 c); [done|]. intros m Hk5. wp_steps.
  apply wp_exit; [done|]. intros g. wp_steps.
  destruct (only_timers_elim _ _ Ho) as (p4 & h4 & tms4 & m4 & ->). rsimpl. rewrite Hsl.
  change (s_time_slicing_enabled k2) with (s_time_slicing_enabled k).
  change (existsb (expires k1') ds) with (existsb (expires k) ds). apply (HQ _ V4).
  - destruct Hk5 as [Hst Hc Hd Hp]. split; [|done|done|done]. by eapply settled_same.
  - apply Hcur4. destruct Hcur as (Hc & Hrun & Hm). split_and!.
    + apply (sw_tcb _ _ _ Hk3).
    + by rewrite Htc3.
    + rewrite Htc3, Hp2. eexists. split; [exact Htop3|]. change (s_time_slicing_enabled k2) with (s_time_slicing_enabled k).
      destruct (s_time_slicing_enabled k); [|by left]. rewrite !elem_of_app, list_elem_of_singleton. auto.
  - assert (Hpr : forall x, priority (tcbs k2 x) = priority (tcbs k x)).
    { intros x. by apply tick_tcbs_priority. }
    split; rsimpl; rewrite ?Htc3; try done.
    + rewrite HV4, Hoth3 by done. by apply tick_view_delay.
    + intros x Hx He. unfold k2, resched. rsimpl. rewrite tick_tcbs_in by done. unfold tick_tcb.
      unfold expires in He. change (tcbs k1' x) with (tcbs k x). destruct (_ <=? _); [by destruct He|done].
    + rewrite HV4, Htop3 by done. change (s_time_slicing_enabled k2) with (s_time_slicing_enabled k).
      destruct (s_time_slicing_enabled k); [|done]. by rewrite <-app_assoc.
    + intros q us Hq Hus. rewrite HV4, Hoth3 by congruence. by apply tick_view_ready.
Qed.

(** The queue that is served after a tick without time slicing that wakes nobody. *)
Lemma tick_effect_quiet k V c ts ds k' V' :
  tick_effect k V c ts ds k' V' -> kernel_ok k V -> V (LReady (priority (tcbs k c))) = Some (c :: ts) ->
  selected V (Some c) -> existsb (expires k) ds = false -> s_time_slicing_enabled k = false ->
  selected V' (Some c).
Proof.
  intros [] Hk Hts (p & us & Hp & Hus & Hhi) He Hsl.
  assert (Hnone : forall q, woken_at k ds q = []).
  { intros q. apply filter_none. intros x Hx [Hex _]. apply Is_true_true_1 in Hex.
    rewrite <-not_true_iff_false, existsb_exists in He. apply He. exists x. by rewrite <-list_elem_of_In. }
  assert (Hpc : priority (tcbs k c) = p) by (by destruct (ok_ready _ _ Hk _ _ c Hus) as (_ & ? & _); [left|]).
  rewrite Hsl, Hpc, Hnone in te_top0. exists p. eexists. split_and!; [lia|lia|exact te_top0|].
  intros q Hq. rewrite (te_ready0 q []), Hnone; [done|lia|by apply Hhi].
Qed.

Lemma tick_keeps k : consistent k -> exists k', tick_taken k = Some k' /\ consistent k'.
Proof.
  intros (c & V & Hs).
  destruct (wp_run_serving switch_taken sertos_scheduler_tick k (fun _ k' => consistent k'))
    as ([] & k' & He & Hk'); [|unfold tick_taken; rewrite He; by eauto].
  pose proof (st_ok _ _ (sc_settled _ _ _ Hs)) as Hk.
  destruct (sched_head _ _ _ Hs) as [ts Hts]. destruct (ok_delay_list _ _ Hk) as [ds Hds].
  apply (wp_tick _ _ V c ts ds); [done..|]. intros k' V' Hsw Hcur Hte. apply wp_when; intros Hb.
  - apply (wp_switch (serving switch_taken) _ V' c); [done|by exists c, V'|].
    intros k1 k2 n Hk2 Hn _. simpl. split; [by eexists|]. intros k3 Hk3. simplify_eq. by exists n, V'.
  - apply orb_false_iff in Hb as [He Hb]. exists c, V'. split; [apply Hsw|done| |apply Hsw].
    by eapply tick_effect_quiet; [| |exact Hts|apply Hs|..].
Qed.

(** ** Round robin *)

(** With time slicing, if the tick wakes nobody more urgent, the processor goes to the next task of
    the running task's queue. *)
Lemma tick_round_robin k V c ts ds :
  sched k V c -> V (LReady (priority (tcbs k c))) = Some (c :: ts) -> V LDelay = Some ds ->
  s_time_slicing_enabled k = true ->
  (forall x, x ∈ ds -> expires k x -> priority (tcbs k x) <= priority (tcbs k c)) ->
  exists k' V' n, tick_taken k = Some k' /\ sched k' V' n /\
    tick_effect k V c ts ds k' V' /\ priority (tcbs k' n) = priority (tcbs k c).
Proof.
  intros Hs Hts Hds Hsl Hlow. pose proof (st_ok _ _ (sc_settled _ _ _ Hs)) as Hk.
  destruct (wp_run_serving switch_taken sertos_scheduler_tick k (fun _ k' => exists V' n, sched k' V' n /\
    tick_effect k V c ts ds k' V')) as ([] & k' & He & V' & n & Hn & Hte).
  { apply (wp_tick _ _ V c ts ds); [done..|]. intros k' V' Hsw Hcur Hte. rewrite Hsl, orb_true_r.
    cbn [when]. apply (wp_switch (serving switch_taken) _ V' c); [done| |].
    - intros k2 Hk2 Ho. exists V', c. split; [done|].
      eapply tick_effect_compat; [exact Hte|apply Ho|apply Ho].
    - intros k1 k2 n Ht Hk2 Ho. simpl. split; [by eexists|]. intros k3 Hk3. simplify_eq. exists V', n. split; [done|].
      eapply tick_effect_compat; [exact Hte|apply Ho|apply Ho]. }
  exists k', V', n. split_and!; [by unfold tick_taken; rewrite He|done..|].
  destruct (sc_selected _ _ _ Hn) as (p & us & Hp & Hus & Hhi).
  destruct (ok_ready _ _ (st_ok _ _ (sc_settled _ _ _ Hn)) _ _ n Hus) as (_ & -> & _); [by left|].
  destruct (sc_selected _ _ _ Hs) as (q & vs & Hq & Hvs & Hqhi).
  destruct (ok_ready _ _ Hk _ _ c Hvs) as (_ & Hpc & _); [by left|].
  destruct (Z.lt_trichotomy p q) as [Hlt|[?|Hgt]]; [|congruence|].
  - pose proof (te_top _ _ _ _ _ _ _ Hte) as Htop. rewrite Hpc, Hsl, Hhi in Htop by lia.
    injection Htop as Htop. by destruct ts, (woken_at k ds q).
  - rewrite (te_ready _ _ _ _ _ _ _ Hte p []) in Hus; [|lia|apply Hqhi; lia].
    assert (Hin : n ∈ woken_at k ds p) by (injection Hus as ->; by left).
    apply list_elem_of_filter in Hin as [[Hex Hpn] Hin]. specialize (Hlow n Hin Hex). lia.
Qed.
End tick.
