(* ===== verification/SystemCalls.v ===== *)
(** What tasks may do in the machine, and that it keeps the kernel consistent. *)
From S2P Require Import Prelude Effects Types Platform LinkedLists Kernel Invariant.
From S2P Require Import SchedCore SchedCoreSpec DelaySpec TaskInfo Stats Timer.
From S2P Require Import Scheduler Task Sem Mutex Queue StreamBuffer SchedulerSpec BlockSpec TimerSpec.
From S2P Require Import System SystemSpec SystemStreams SystemMutex SystemTick.

(** [n] tick interrupts, with no call of a task in between; [again]: the interrupt ends with
    another [perform_switch], as on RISC-V, whose trap handler always makes one. *)
Fixpoint ticks `{PL : Platform} `{!Callbacks} (again : bool) (n : nat) (k : Kernel) : option Kernel :=
  match n with
  | O => Some k
  | S n =>
      k1 ← tick_taken k;
      k2 ← (if again then snd <$> exec sertos_scheduler_perform_switch k1 else Some k1);
      ticks again n k2
  end.

Section machine.
Context `{PL : Platform} `{!PlatformLaws} `{!Callbacks} `{!MemoryCallbacks} `{!Setup} `{!SetupFits}.
Implicit Types (k : Kernel) (V : lview) (P : protocol Kernel) (t c : addr).

(** ** The machine *)

(** What a task may do: yield, sleep, acquire and release semaphores, lock and unlock mutexes that
    are used by tasks of its priority, send to and receive from
    queues and streams with a limited wait, move a trigger level, start, stop and change software
    timers, and sequences of that; the idle task does not wait. *)
Inductive kernel_call (c : addr) : M Kernel unit -> Prop :=
  | call_yield : kernel_call c sertos_scheduler_yield
  | call_delay n : c <> s_idle_tcb -> 0 < n < 2 ^ 32 -> kernel_call c (sertos_scheduler_delay n;; mret tt)
  | call_take a timeout :
      a ∈ sems_in_use -> timeout = SERTOS_NO_WAIT \/ c <> s_idle_tcb -> 0 <= timeout < 2 ^ 32 ->
      kernel_call c (sertos_sem_take (Some a) timeout;; mret tt)
  | call_give a : a ∈ sems_in_use -> kernel_call c (sertos_sem_give (Some a);; mret tt)
  | call_lock a timeout :
      a ∈ mutexes_in_use -> task_level c = mutex_level a -> timeout = SERTOS_NO_WAIT \/ c <> s_idle_tcb ->
      0 <= timeout < 2 ^ 32 -> kernel_call c (sertos_mutex_lock (Some a) timeout;; mret tt)
  | call_unlock a : a ∈ mutexes_in_use -> kernel_call c (sertos_mutex_unlock (Some a);; mret tt)
  | call_send a i timeout :
      a ∈ queues_in_use -> timeout = SERTOS_NO_WAIT \/ c <> s_idle_tcb -> 0 <= timeout < SERTOS_WAIT_FOREVER ->
      kernel_call c (sertos_queue_send (Some a) (Some i) timeout;; mret tt)
  | call_receive a i timeout :
      a ∈ queues_in_use -> timeout = SERTOS_NO_WAIT \/ c <> s_idle_tcb -> 0 <= timeout < SERTOS_WAIT_FOREVER ->
      kernel_call c (sertos_queue_receive (Some a) (Some i) timeout;; mret tt)
  | call_stream_send a i n timeout :
      a ∈ streams_in_use -> timeout = SERTOS_NO_WAIT \/ c <> s_idle_tcb -> 0 <= timeout < SERTOS_WAIT_FOREVER ->
      kernel_call c (sertos_stream_buffer_send (Some a) (Some i) n timeout;; mret tt)
  | call_stream_receive a i n timeout :
      a ∈ streams_in_use -> timeout = SERTOS_NO_WAIT \/ c <> s_idle_tcb -> 0 <= timeout < SERTOS_WAIT_FOREVER ->
      kernel_call c (sertos_stream_buffer_receive (Some a) (Some i) n timeout;; mret tt)
  | call_trigger_level a n :
      a ∈ streams_in_use -> kernel_call c (sertos_stream_buffer_set_trigger_level (Some a) n;; mret tt)
  | call_timer_start t : t ∈ timers_in_use -> kernel_call c (sertos_timer_start (Some t);; mret tt)
  | call_timer_stop t : t ∈ timers_in_use -> kernel_call c (sertos_timer_stop (Some t);; mret tt)
  | call_timer_period t n :
      t ∈ timers_in_use -> 0 < n -> kernel_call c (sertos_timer_change_period (Some t) n;; mret tt)
  | call_both m1 m2 : kernel_call c m1 -> kernel_call c m2 -> kernel_call c (m1;; m2).

Lemma cooperative_call c m : kernel_call c m -> Cooperative c m.
Proof.
  induction 1; [by apply cooperative_yield|..|by apply cooperative_bind];
    (apply cooperative_bind; [|intros; apply cooperative_ret]).
  - by apply cooperative_delay.
  - by apply cooperative_sem_take.
  - by apply cooperative_sem_give.
  - by apply cooperative_mutex_lock.
  - by apply cooperative_mutex_unlock.
  - by apply cooperative_queue_send.
  - by apply cooperative_queue_receive.
  - by apply cooperative_stream_send.
  - by apply cooperative_stream_receive.
  - by apply cooperative_set_trigger_level.
  - by apply cooperative_timer_start.
  - by apply cooperative_timer_stop.
  - by apply cooperative_timer_change_period.
Qed.

Abbreviation steps := (steps kernel_call).

Lemma runs_current c k : runs c k -> sertos_current_tcb k = Some c.
Proof. intros [V Hs]. apply Hs. Qed.

Lemma consistent_runs k c : consistent k -> sertos_current_tcb k = Some c -> runs c k.
Proof. intros [c' Hc'] Hc. rewrite (runs_current _ _ Hc') in Hc. by simplify_eq. Qed.

Lemma sound_update k w c k' (r : option (Kernel -> outcome Kernel unit)) :
  consistent k' -> (forall cont, r = Some cont -> Cooperative c cont) ->
  (forall t cont, w t = Some cont -> Cooperative t cont) -> sound (Machine k w) ->
  sound (Machine k' (<[c := r]> w)).
Proof.
  intros Hk Hr Hw _. split; [done|]. simpl. intros t cont. destruct (decide (c = t)) as [<-|Hne].
  - rewrite fn_lookup_insert. apply Hr.
  - rewrite fn_lookup_insert_ne by done. apply Hw.
Qed.

Lemma step_sound m m' : sound m -> step kernel_call m m' -> sound m'.
Proof.
  intros Hs Hstep. pose proof Hs as [Hk Hw].
  destruct Hstep as [k w c p k1 r k' Hc _ Hp He Ht|k w c p k1 r k' Hc Hp He Ht|k w k' He|k w n k' _ He];
    cbn [kern suspended] in *.
  - destruct (cooperative_proceed c p k) as (k2 & r2 & k3 & He2 & Ht2 & Hk2 & Hr2);
      [by apply consistent_runs|by apply cooperative_call|].
    rewrite He in He2. simplify_eq. by eapply sound_update.
  - destruct (cooperative_proceed c p k) as (k2 & r2 & k3 & He2 & Ht2 & Hk2 & Hr2);
      [by apply consistent_runs|by apply Hw|].
    rewrite He in He2. simplify_eq. by eapply sound_update.
  - destruct (tick_keeps k Hk) as (k2 & He2 & Hk2). rewrite He in He2. simplify_eq. by split.
  - destruct Hk as (c & V & Hk). destruct (perform_switch_keeps k V c Hk) as (n2 & k2 & He2 & Hk2 & _).
    rewrite He in He2. simplify_eq. split; [by exists c, V|done].
Qed.

Lemma steps_sound m m' : sound m -> steps m m' -> sound m'.
Proof.
  intros Hs Hst. revert Hs. induction Hst as [m|m1 m2 m3 _ IH Hst]; intros Hs; [done|].
  eapply step_sound; [|exact Hst]. by apply IH.
Qed.

Lemma sound_start k : consistent k -> sound (Machine k (fun _ => None)).
Proof. by split. Qed.
End machine.
