(* ===== verification/Scenarios.v ===== *)
(** Concrete kernels, reached by running the kernel's own operations on the concrete platform
    (host port, callbacks that do nothing), with their views. *)
From S2P Require Import Prelude Effects Types Platform LinkedLists Kernel Invariant RefPlatform.
From S2P Require Import KernelCheck SchedCore TaskInfo Stats Timer Scheduler Task Sem Mutex.
From S2P Require Import SchedulerSpec BlockSpec.

#[export] Instance host_platform : Platform := ref_platform true.
#[export] Instance host_callbacks : Callbacks := no_callbacks true.

Definition task_config (p stack : Z) : SertosTaskConfig :=
  mkTaskConfig (Some "T"%string) (Some 0x200) None p (Some stack) 256.

(** The idle task and four application tasks: two of priority 3, one of 5, one of 7. *)
Abbreviation idle := 0x1000.
Abbreviation tA := 0x4000.
Abbreviation tB := 0x4100.
Abbreviation tC := 0x4200.
Abbreviation tD := 0x4300.

Definition create (t p stack : Z) : M Kernel unit :=
  sertos_task_create_static (Some (task_config p stack)) (Some t) true;; mret tt.

Definition boot : M Kernel unit := sertos_scheduler_init;; mret tt.

(** A and B of priority 3; the scheduler runs A. *)
Definition k_pair : Kernel :=
  after (boot;; create tA 3 0x8000;; create tB 3 0x8100;; sertos_scheduler_start) (blank true).
Definition v_pair := sched_view [(0, [idle]); (3, [tA; tB])] [] [idle; tA; tB] [].

(** A, B of priority 3 and C of priority 5; the scheduler runs C. *)
Definition k_trio : Kernel :=
  after (boot;; create tA 3 0x8000;; create tB 3 0x8100;; create tC 5 0x8200;;
    sertos_scheduler_start) (blank true).
Definition v_trio := sched_view [(0, [idle]); (3, [tA; tB]); (5, [tC])] [] [idle; tA; tB; tC] [].

(** C then A have gone to sleep; B runs. *)
Definition k_asleep : Kernel := after (sertos_scheduler_delay 2;; sertos_scheduler_delay 1) k_trio.
Definition v_asleep := sched_view [(0, [idle]); (3, [tB])] [tC; tA] [idle; tA; tB; tC] [].

(** A semaphore without tokens on which C waits for ever and A for 5 ticks; B runs. *)
Abbreviation semS := 0x6000.
Definition k_waiting : Kernel :=
  after (sertos_sem_create_counting_static (Some semS) 0 3 true;;
    sertos_sem_take (Some semS) SERTOS_WAIT_FOREVER;; sertos_sem_take (Some semS) 5) k_trio.
Definition v_waiting :=
  sched_view [(0, [idle]); (3, [tB])] [tA] [idle; tA; tB; tC] [(LSemWait semS, [tC; tA])].

(** The same semaphore before anyone waits on it; C runs. *)
Definition k_sem : Kernel :=
  after (sertos_sem_create_counting_static (Some semS) 0 3 true) k_trio.
Definition v_sem :=
  sched_view [(0, [idle]); (3, [tA; tB]); (5, [tC])] [] [idle; tA; tB; tC] [(LSemWait semS, [])].

(** A kernel passes the invariant's test. *)
Ltac check_kernel :=
  apply kernel_check_sound, (bool_decide_eq_true_1 _); vm_compute; reflexivity.

Lemma k_pair_ok : kernel_ok k_pair (view_of v_pair).
Proof. check_kernel. Qed.
Lemma k_trio_ok : kernel_ok k_trio (view_of v_trio).
Proof. check_kernel. Qed.
Lemma k_asleep_ok : kernel_ok k_asleep (view_of v_asleep).
Proof. check_kernel. Qed.
Lemma k_waiting_ok : kernel_ok k_waiting (view_of v_waiting).
Proof. check_kernel. Qed.
Lemma k_sem_ok : kernel_ok k_sem (view_of v_sem).
Proof. check_kernel. Qed.

(** C, the running task of [k_sem], can block on the semaphore. *)
Lemma k_trio_current : current_ok k_trio (view_of v_trio) tC.
Proof. split_and!; [vm_compute; reflexivity..|]. exists [tC]. split; [vm_compute; reflexivity|by left]. Qed.
Lemma k_sem_current : current_ok k_sem (view_of v_sem) tC.
Proof. split_and!; [vm_compute; reflexivity..|]. exists [tC]. split; [vm_compute; reflexivity|by left]. Qed.

Lemma k_trio_other : other_ready (view_of v_trio) tC.
Proof. exists 0, idle. split; [done|]. split; [|done]. exists [idle]. split; [vm_compute; reflexivity|by left]. Qed.
Lemma k_sem_other : other_ready (view_of v_sem) tC.
Proof. exists 0, idle. split; [done|]. split; [|done]. exists [idle]. split; [vm_compute; reflexivity|by left]. Qed.

Lemma k_sem_can_block : can_block k_sem (view_of v_sem) tC (LSemWait semS) [] 5.
Proof.
  split; [apply k_sem_ok|apply k_sem_current|vm_compute; reflexivity..|apply k_sem_other|
    reflexivity|vm_compute; reflexivity|vm_compute; lia|done].
Qed.

(** Three tasks of priority 3; the scheduler runs A. *)
Definition k_equals : Kernel :=
  after (boot;; create tA 3 0x8000;; create tB 3 0x8100;; create tC 3 0x8200;; sertos_scheduler_start)
    (blank true).

(** A of priority 3 created, the scheduler not started. *)
Definition k_ready : Kernel := after (boot;; create tA 3 0x8000) (blank true).
Definition v_ready := sched_view [(0, [idle]); (3, [tA])] [] [idle; tA] [].
Lemma k_ready_ok : kernel_ok k_ready (view_of v_ready).
Proof. check_kernel. Qed.

(** A task of none of the lists of a finite view. *)
Lemma detached_check vs f t :
  Forall (fun v => link_of v.1 = f -> t ∉ v.2) vs -> detached (view_of vs) f t.
Proof.
  intros Hc l ts Hl Hf. rewrite Forall_forall in Hc. apply view_of_elem in Hl. by apply (Hc _ Hl).
Qed.
