(* ===== verification/SchedulerProps.v ===== *)
(** Properties of the scheduler: the delay list, selection and dispatching, wait lists, the
    preemption lock, blocking, and time slicing. *)
From S2P Require Import Prelude Effects Types Platform LinkedLists Kernel Invariant RefPlatform.
From S2P Require Import KernelCheck SchedCore SchedCoreSpec DelaySpec TaskInfo Stats Timer.
From S2P Require Import Scheduler Task SchedulerSpec BlockSpec Scenarios.

(** [n] consecutive passes over the delay list, as [n] ticks make them. *)
Fixpoint delay_passes `{PL : Platform} (n : nat) : M Kernel unit :=
  match n with
  | O => mret tt
  | S n => process_delayed_tasks;; delay_passes n
  end.

Section props.
Context `{PL : Platform} `{!PlatformLaws} `{!Callbacks}.
Implicit Types (k : Kernel) (V : lview) (t c : addr) (ts ds : list addr).

(** ** Delay list *)

(** C6: one pass of [process_delayed_tasks] over a well-formed kernel terminates, keeps the
    kernel invariant, reports whether a task expired, decrements the count of every delayed
    task, and moves exactly the tasks whose count reaches zero, in delay-list order, from the
    delay list and from the wait list they were in to the tails of their ready queues. *)
Theorem process_delayed_tasks_correct k V ds :
  kernel_ok k V -> V LDelay = Some ds -> (length ds <= loop_fuel)%nat ->
  exists k' V', exec process_delayed_tasks k = Some (existsb (expires k) ds, k') /\
    kernel_ok k' V' /\
    V' LDelay = Some (filter (fun t => ~ expires k t) ds) /\
    (forall p rs, V (LReady p) = Some rs ->
       V' (LReady p) = Some (rs ++ filter (fun t => expires k t /\ priority (tcbs k t) = p) ds)) /\
    (forall l ws, link_of l = FEvent -> V l = Some ws ->
       V' l = Some (filter (fun t => ~ (t ∈ ds /\ expires k t)) ws)) /\
    (forall t, t ∈ ds -> tcbs k' t = tick_tcb (tcbs k t)) /\
    (forall t, t ∉ ds -> tcbs k' t = tcbs k t).
Proof.
  intros Hk Hds Hf. pose proof (lists_ok_nodup _ _ _ _ (ok_lists _ _ Hk) Hds) as Hnd.
  destruct (proj1 (wp_exec process_delayed_tasks k
    (fun r k' => r = existsb (expires k) ds /\ exists h b, k' = resched k h b (tick_tcbs ds) /\
       kernel_ok k' (tick_view (expires k) (fun t => priority (tcbs k t)) ds V))))
    as (r & k' & He & -> & h & b & -> & Hk').
  { apply (wp_process_delayed _ _ V ds); [done..|]. intros h b k' Hk'. eauto. }
  eexists _, _. split; [exact He|]. split; [exact Hk'|]. split_and!.
  - by apply tick_view_delay.
  - intros p rs Hrs. by apply tick_view_ready.
  - intros l ws Hl Hws. by apply tick_view_wait.
  - intros t Ht. by apply tick_tcbs_in.
  - intros t Ht. by apply tick_tcbs_notin.
Qed.

(** A delayed task after fewer passes than its count, and after as many. *)
Lemma delay_passes_spec n k V ds t :
  kernel_ok k V -> V LDelay = Some ds -> (length ds <= loop_fuel)%nat -> t ∈ ds ->
  Z.of_nat n <= delay_ticks (tcbs k t) ->
  exists k' V', exec (delay_passes n) k = Some (tt, k') /\ kernel_ok k' V' /\
    priority (tcbs k' t) = priority (tcbs k t) /\
    if decide (Z.of_nat n < delay_ticks (tcbs k t))
    then member V' LDelay t /\ delay_ticks (tcbs k' t) = delay_ticks (tcbs k t) - Z.of_nat n
    else member V' (LReady (priority (tcbs k t))) t /\ state (tcbs k' t) = SERTOS_TASK_STATE_READY.
Proof.
  revert k V ds. induction n as [|n IH]; intros k V ds Hk Hds Hf Ht Hn.
  - destruct (ok_delayed _ _ Hk _ _ Hds Ht) as (_&_&?&_). exists k, V. split; [done|].
    rewrite decide_True by lia. split_and!; [done|done|by exists ds|lia].
  - pose proof (lists_ok_nodup _ _ _ _ (ok_lists _ _ Hk) Hds) as Hnd.
    destruct (ok_delayed _ _ Hk _ _ Hds Ht) as (_&Hp&Hr&_).
    destruct (proj1 (wp_exec process_delayed_tasks k (fun _ k' => exists h b,
      k' = resched k h b (tick_tcbs ds) /\
      kernel_ok k' (tick_view (expires k) (fun t => priority (tcbs k t)) ds V))))
      as (r & k1 & He & h & b & Hk1e & Hk1).
    { apply (wp_process_delayed _ _ V ds); [done..|]. intros h b k' Hk'. eauto. }
    assert (Ht1 : tcbs k1 t = tick_tcb (tcbs k t)) by (rewrite Hk1e; by apply tick_tcbs_in).
    set (V1 := tick_view _ _ _ _) in *. cbn [delay_passes]. rewrite run_bind, He. cbn [mbind option_bind].
    unfold tick_tcb in Ht1. destruct (Z.leb_spec (delay_ticks (tcbs k t)) 1) as [Hle|Hgt].
    + assert (n = O) as -> by lia. exists k1, V1. cbn [delay_passes run mret M_ret].
      rewrite Ht1. split_and!; [done|done|done|]. rewrite decide_False by lia. split; [|done].
      destruct (ok_queues _ _ Hk _ Hp) as [rs Hrs]. eexists. split; [by apply tick_view_ready|].
      apply elem_of_app. right. apply list_elem_of_filter. split; [|done]. split; [|done].
      unfold expires. by rewrite (proj2 (Z.leb_le _ _)) by lia.
    + assert (Hds1 : V1 LDelay = Some (filter (fun t => ~ expires k t) ds)) by by apply tick_view_delay.
      destruct (IH k1 V1 _ Hk1 Hds1) as (k2 & V2 & He2 & Hk2 & Hp2 & Hr2).
      * pose proof (length_filter (fun t => ~ expires k t) ds). lia.
      * apply list_elem_of_filter. split; [|done]. unfold expires. rewrite (proj2 (Z.leb_gt _ _)) by lia. by intros [].
      * rewrite Ht1. simpl. lia.
      * rewrite Ht1 in Hp2, Hr2. simpl in Hp2, Hr2. exists k2, V2.
        split_and!; [done|done|done|]. do 2 case_decide; try lia; destruct Hr2; split; try done; lia.
Qed.

(** C7: a task that sleeps for [d] ticks is still blocked in the delay list after any [n < d]
    passes, with [d - n] ticks left, and is ready in its ready queue after exactly [d]. *)
Theorem delay_exact_wakeup k V ds t n :
  kernel_ok k V -> V LDelay = Some ds -> (length ds <= loop_fuel)%nat -> t ∈ ds ->
  Z.of_nat n <= delay_ticks (tcbs k t) ->
  exists k' V', exec (delay_passes n) k = Some (tt, k') /\ kernel_ok k' V' /\
    (Z.of_nat n < delay_ticks (tcbs k t) -> member V' LDelay t /\
       state (tcbs k' t) = SERTOS_TASK_STATE_BLOCKED /\
       delay_ticks (tcbs k' t) = delay_ticks (tcbs k t) - Z.of_nat n) /\
    (Z.of_nat n = delay_ticks (tcbs k t) ->
       member V' (LReady (priority (tcbs k t))) t /\ state (tcbs k' t) = SERTOS_TASK_STATE_READY).
Proof.
  intros Hk Hds Hf Ht Hn.
  destruct (delay_passes_spec n k V ds t Hk Hds Hf Ht Hn) as (k' & V' & He & Hk' & _ & Hr).
  exists k', V'. split_and!; [done|done| |]; intros Hc; case_decide; try lia.
  - destruct Hr as [Hm Hd]. split_and!; [done| |done]. destruct Hm as (us & Hus & Hin).
    by destruct (ok_delayed _ _ Hk' _ _ Hus Hin) as (? & _).
  - done.
Qed.

(** ** Selection and dispatching *)

(** C8: [select_next_task] returns the head of the highest-priority non-empty ready queue, and
    NULL only when every ready queue is empty; it changes nothing. *)
Theorem select_next_task_highest k V :
  kernel_ok k V -> exists r, exec sertos_scheduler_select_next_task k = Some (r, k) /\ selected V r.
Proof.
  intros Hk.
  destruct (proj1 (wp_exec sertos_scheduler_select_next_task k (fun r k' => k' = k /\ selected V r)))
    as (r & k' & He & -> & Hr); [|eauto].
  apply (wp_select _ _ V); [apply Hk|apply Hk|apply Hk|]. done.
Qed.

(** [perform_switch] makes the selected task current and RUNNING, turns the task that was
    running into READY, leaves every other task's state and every list as they are, and keeps
    the kernel invariant. *)
Theorem perform_switch_dispatches k V n :
  kernel_ok k V -> selected V (Some n) ->
  exists k', exec sertos_scheduler_perform_switch k = Some (Some n, k') /\ dispatched k V n k' /\
    kernel_ok k' V /\ current_ok k' V n.
Proof.
  intros Hk Hn.
  destruct (proj1 (wp_exec sertos_scheduler_perform_switch k
    (fun r k' => r = Some n /\ dispatched k V n k'))) as (r & k' & He & -> & Hd).
  { apply (wp_perform_switch _ _ V); [done| |].
    - intros m k' Hm Hd. pose proof (selected_unique _ _ _ Hn Hm) as [= <-]. done.
    - intros Hnone. by pose proof (selected_unique _ _ _ Hn Hnone). }
  exists k'. split_and!; [done|done|by eapply kernel_ok_compat, Hk; apply Hd|].
  split_and!; [apply Hd|apply Hd|]. rewrite (compat_priority _ _ (od_tcbs _ _ (dis_only _ _ _ _ Hd) n)).
  destruct Hn as (p & ts & Hp & Hts & _).
  destruct (ok_ready _ _ Hk _ _ n Hts) as (_ & Hpn & _); [by left|].
  rewrite Hpn. exists (n :: ts). split; [done|by left].
Qed.

(** While the scheduler is locked a context switch request changes nothing but the pending
    flag, so the running task stays current. *)
Theorem locked_switch_is_deferred k :
  0 < s_lock_nesting k ->
  exec sertos_scheduler_switch_context k = Some (tt, k <| s_reschedule_pending := true |>).
Proof. intros Hn. unfold sertos_scheduler_switch_context. rewrite run_bind. simpl. by rewrite (proj2 (Z.ltb_lt _ _)). Qed.

(** C28: a switch that was asked for while the scheduler was locked is made when the last lock is
    released: if [sertos_scheduler_unlock] gives back the last level and a switch is pending, then
    once the machine has made the switch the call asks for (at once on a host port, in the switch
    interrupt on a processor) the task selected runs, the lock is free and nothing is pending. *)
Theorem unlock_runs_deferred_switch k V n :
  kernel_ok k V -> s_lock_nesting k = 1 -> s_reschedule_pending k = true ->
  selected V (Some n) -> sertos_current_tcb k <> Some n ->
  exists k', run_serving switch_taken (sertos_scheduler_unlock k) = Some (tt, k') /\ kernel_ok k' V /\
    sertos_current_tcb k' = Some n /\ state (tcbs k' n) = SERTOS_TASK_STATE_RUNNING /\
    s_lock_nesting k' = 0 /\ s_reschedule_pending k' = false.
Proof.
  intros Hk Hn Hp Hsel Hcur. set (k0 := k <| s_lock_nesting := 0 |> <| s_reschedule_pending := false |>).
  assert (Hk0 : kernel_ok k0 V) by by eapply kernel_ok_same, Hk.
  destruct (wp_run_serving switch_taken sertos_scheduler_unlock k (fun _ k' => dispatched k0 V n k'))
    as ([] & k' & He & [Ho Hc Hs _ _ _ Hnn Hpp]).
  { apply (wp_unlock _ _ V); [done|lia| |intros [?|?]; congruence].
    intros _ _ r k1 Hr Hsw. pose proof (selected_unique _ _ _ Hsel Hr) as <-.
    destruct (switched_taken k0 V n k1 Hk0 Hsel Hsw Hcur) as (k2 & Hk2 & Hd).
    unfold after_switch. rewrite decide_False by (by intros [?|Heq]; [|apply Hcur; rewrite Heq]).
    simpl. split; [by eexists|]. intros k3 Hk3. by simplify_eq. }
  exists k'. split_and!; try done. by eapply kernel_ok_compat.
Qed.

(** ** Wait lists *)

(** The waiters of the newcomer's priority or higher come before it, in their order. *)
Lemma insert_by_priority_split prio t ts :
  by_priority prio ts ->
  insert_by_priority prio t ts =
    filter (fun x => prio t <= prio x) ts ++ t :: filter (fun x => prio x < prio t) ts.
Proof.
  induction ts as [|x ts IH]; simpl; [done|]. intros [Hx Hts].
  destruct (Z.ltb_spec (prio x) (prio t)) as [Hlt|Hge].
  - rewrite filter_cons_False by lia. rewrite filter_cons_True by lia.
    rewrite (filter_id (fun x => prio x < prio t)) by (intros y Hy; specialize (Hx y Hy); lia).
    enough (filter (fun x => prio t <= prio x) ts = []) as -> by done.
    apply filter_none. intros y Hy. specialize (Hx y Hy). lia.
  - rewrite filter_cons_True by lia. rewrite filter_cons_False by lia. by rewrite IH.
Qed.

(** [insert_wait_list_priority] terminates and puts the task behind every waiter of its
    own or a higher priority and before every waiter of a lower one, keeping the waiters'
    order: the list stays sorted and equal priorities are first come, first served. *)
Theorem insert_wait_list_priority_sorted k V l t ws :
  lists_ok (heap k) V -> link_of l = FEvent -> detached V FEvent t -> V l = Some ws ->
  (length ws <= loop_fuel)%nat ->
  let prio x := priority (tcbs k x) in
  by_priority prio ws ->
  let ws' := filter (fun x => prio t <= prio x) ws ++ t :: filter (fun x => prio x < prio t) ws in
  by_priority prio ws' /\
  exists h, exec (insert_wait_list_priority l t) k = Some (tt, k <| heap := h |>) /\
    lists_ok h (<[l := Some ws']> V).
Proof.
  intros HV Hf Hd Hws Hfu prio Hs ws'. pose proof (insert_by_priority_split prio t ws Hs) as He.
  fold ws' in He. rewrite <-He. split; [by apply insert_by_priority_sorted|].
  destruct (proj1 (wp_exec (insert_wait_list_priority l t) k (fun _ k' => exists h,
    k' = k <| heap := h |> /\ lists_ok h (<[l := Some (insert_by_priority prio t ws)]> V))))
    as ([] & k' & Hx & h & -> & Hh); [|eauto].
  apply (wp_insert_wait_list _ _ V _ _ ws); [done..|]. eauto.
Qed.
End props.

(** ** The theorems at concrete kernels *)

(** One tick over C (2 ticks) and A (1 tick) wakes A behind B. *)
Lemma process_delayed_tasks_correct_witness :
  exists k' V', exec process_delayed_tasks k_asleep = Some (true, k') /\ kernel_ok k' V' /\
    V' LDelay = Some [tC] /\ V' (LReady 3) = Some [tB; tA] /\ delay_ticks (tcbs k' tC) = 1.
Proof.
  destruct (process_delayed_tasks_correct k_asleep (view_of v_asleep) [tC; tA] k_asleep_ok)
    as (k' & V' & He & Hk & Hd & Hr & _ & Ht & _); [vm_compute; reflexivity|vm_compute; lia|].
  specialize (Hr 3 [tB] ltac:(vm_compute; reflexivity)). specialize (Ht tC ltac:(by left)).
  replace (existsb (expires k_asleep) [tC; tA]) with true in He by (vm_compute; reflexivity).
  vm_compute in Hd, Hr. exists k', V'. split; [exact He|].
  split; [exact Hk|split; [exact Hd|split; [exact Hr|]]]. rewrite Ht. vm_compute. reflexivity.
Defined.

Lemma delay_exact_wakeup_witness :
  exists k' V', exec (delay_passes 2) k_asleep = Some (tt, k') /\ kernel_ok k' V' /\
    member V' (LReady 5) tC /\ state (tcbs k' tC) = SERTOS_TASK_STATE_READY.
Proof.
  destruct (delay_exact_wakeup k_asleep (view_of v_asleep) [tC; tA] tC 2 k_asleep_ok)
    as (k' & V' & He & Hk & _ & Hr); [vm_compute; reflexivity|vm_compute; lia|by left|vm_compute; discriminate|].
  assert (Hp : priority (tcbs k_asleep tC) = 5) by (vm_compute; reflexivity). rewrite Hp in Hr.
  exists k', V'. split; [exact He|]. split; [exact Hk|]. apply Hr. vm_compute. reflexivity.
Defined.

Lemma select_next_task_highest_witness :
  exists r, exec sertos_scheduler_select_next_task k_trio = Some (r, k_trio) /\ selected (view_of v_trio) r.
Proof. exact (select_next_task_highest k_trio (view_of v_trio) k_trio_ok). Defined.

(** C, of priority 5, is the task to run among A, B (3) and C. *)
Lemma trio_selects_C : selected (view_of v_trio) (Some tC).
Proof.
  exists 5, []. split; [done|]. split; [vm_compute; reflexivity|]. intros q Hq.
  assert (Hall : Forall (fun q => view_of v_trio (LReady q) = Some []) (seqZ 6 26)).
  { apply (bool_decide_eq_true_1 _). vm_compute. reflexivity. }
  rewrite Forall_forall in Hall. apply Hall, elem_of_seqZ. unfold SERTOS_CONFIG_MAX_PRIORITIES in *; lia.
Qed.

Lemma perform_switch_dispatches_witness :
  exists k', exec sertos_scheduler_perform_switch k_trio = Some (Some tC, k') /\
    dispatched k_trio (view_of v_trio) tC k' /\ kernel_ok k' (view_of v_trio) /\
    current_ok k' (view_of v_trio) tC.
Proof. exact (perform_switch_dispatches k_trio (view_of v_trio) tC k_trio_ok trio_selects_C). Defined.

Lemma locked_switch_is_deferred_witness :
  let k := k_trio <| s_lock_nesting := 1 |> in
  exec sertos_scheduler_switch_context k = Some (tt, k <| s_reschedule_pending := true |>).
Proof. apply locked_switch_is_deferred. reflexivity. Defined.

(** A locks the scheduler and wakes C by changing who is current; unlocking runs C. *)
Lemma unlock_runs_deferred_switch_witness :
  let k := k_trio <| s_lock_nesting := 1 |> <| s_reschedule_pending := true |>
             <| sertos_current_tcb := Some tA |> in
  exists k', run_serving switch_taken (sertos_scheduler_unlock k) = Some (tt, k') /\ kernel_ok k' (view_of v_trio) /\
    sertos_current_tcb k' = Some tC /\ state (tcbs k' tC) = SERTOS_TASK_STATE_RUNNING /\
    s_lock_nesting k' = 0 /\ s_reschedule_pending k' = false.
Proof.
  apply (unlock_runs_deferred_switch _ (view_of v_trio) tC);
    [|reflexivity|reflexivity|apply trio_selects_C|discriminate].
  eapply kernel_ok_compat, k_trio_ok. apply od_flags.
Defined.

Lemma insert_wait_list_priority_sorted_witness :
  exists h, exec (insert_wait_list_priority (LSemWait semS) tB) k_waiting =
      Some (tt, k_waiting <| heap := h |>) /\
    lists_ok h (<[LSemWait semS := Some [tC; tA; tB]]> (view_of v_waiting)).
Proof.
  apply (insert_wait_list_priority_sorted k_waiting (view_of v_waiting) (LSemWait semS) tB [tC; tA]).
  - apply k_waiting_ok.
  - vm_compute; reflexivity.
  - eapply (ready_detached_event k_waiting (view_of v_waiting) 3 tB k_waiting_ok).
    exists [tB]. split; [vm_compute; reflexivity|by left].
  - vm_compute; reflexivity.
  - vm_compute; lia.
  - vm_compute. split; [|split; [|done]]; intros x Hx; [|by apply not_elem_of_nil in Hx].
    apply list_elem_of_singleton in Hx as ->. discriminate.
Defined.
