(* ===== verification/BlockingProps.v ===== *)
(** Properties of waking, blocking, delays and time slicing. *)
From S2P Require Import Prelude Effects Types Platform LinkedLists Kernel Invariant RefPlatform.
From S2P Require Import KernelCheck SchedCore SchedCoreSpec DelaySpec TaskInfo Stats Timer.
From S2P Require Import Scheduler Task SchedulerSpec BlockSpec Scenarios SchedulerProps.

Section props.
Context `{PL : Platform} `{!PlatformLaws} `{!Callbacks}.
Implicit Types (k : Kernel) (V : lview) (t c : addr) (ts ds : list addr).

(** C29: [wait_list_unblock_highest] on a sorted wait list takes its first task, which no waiter
    outranks, out of the wait list and the delay list, and makes it READY at the tail of its
    ready queue with no delay and no wait list left; on an empty list it returns NULL. *)
Theorem unblock_highest_wakes_first k V l ws :
  kernel_ok k V -> link_of l = FEvent -> V l = Some ws ->
  by_priority (fun x => priority (tcbs k x)) ws ->
  match ws with
  | [] => exec (sertos_scheduler_wait_list_unblock_highest (Some l)) k = Some (None, k)
  | t :: ws' => exists k' V',
      exec (sertos_scheduler_wait_list_unblock_highest (Some l)) k = Some (Some t, k') /\
      kernel_ok k' V' /\ (forall x, x ∈ ws' -> priority (tcbs k x) <= priority (tcbs k t)) /\
      V' l = Some ws' /\ ~ member V' LDelay t /\
      (forall rs, V (LReady (priority (tcbs k t))) = Some rs ->
         V' (LReady (priority (tcbs k t))) = Some (rs ++ [t])) /\
      tcbs k' t = wake_tcb (tcbs k t) /\ (forall x, x <> t -> tcbs k' x = tcbs k x)
  end.
Proof.
  intros Hk Hf Hl Hs. pose proof (lists_ok_nodup _ _ _ _ (ok_lists _ _ Hk) Hl) as Hnd.
  destruct ws as [|t ws'].
  - destruct (proj1 (wp_exec (sertos_scheduler_wait_list_unblock_highest (Some l)) k
      (fun r k' => r = None /\ k' = k))) as (r & k' & He & -> & ->); [|done].
    by apply (wp_unblock_highest _ _ V _ []).
  - destruct (proj1 (wp_exec (sertos_scheduler_wait_list_unblock_highest (Some l)) k
      (fun r k' => r = Some t /\ exists h b, k' = resched k h b (alter wake_tcb t) /\
         kernel_ok k' (wake_view t (priority (tcbs k t)) V)))) as (r & k' & He & -> & h & b & -> & Hk').
    { apply (wp_unblock_highest _ _ V _ (t :: ws')); [done..|]. intros h b V' k' Hk'. split; eauto. }
    eexists _, _. split; [exact He|]. split; [exact Hk'|]. split_and!.
    + apply Hs.
    + erewrite wake_view_wait by done. f_equal. by apply (drop_mid t [] ws').
    + intros (us & Hus & Hin). destruct (ok_delay_list _ _ Hk) as [ds Hds].
      erewrite wake_view_delay in Hus by done. simplify_eq. by apply elem_of_drop in Hin as [? _].
    + intros rs Hrs. by apply wake_view_ready.
    + unfold resched. rsimpl. apply fn_lookup_alter.
    + intros x Hx. unfold resched. rsimpl. by apply fn_lookup_alter_ne.
Qed.

(** A task that blocks on an IPC object leaves its ready queue and gives up the processor
    BLOCKED, in priority order in the wait list and, when its timeout is finite, in the delay
    list with that many ticks, in a well-formed kernel; on a host port another task then runs.
    The status is computed from the TCB the task finds when it is resumed. *)
Theorem wait_list_block_effect k V c l ws timeout (R : Kernel -> Prop) :
  can_block k V c l ws timeout ->
  wp (across_switch (fun k' => exists V', blocked_away k V c l ws timeout k' V') R)
     (sertos_scheduler_wait_list_block (Some l) timeout) k
     (fun r k' => R k' /\ r = block_result timeout (tcbs k' c)).
Proof. intros Hcb. eapply wp_block_away; [done|eauto|done]. Qed.

(** Whoever wakes a task that blocked with a finite timeout, the tick that expires it or
    the release it was waiting for, the task finds no ticks and no wait list in its TCB and
    reports a timeout; after an unlimited wait it always reports success. *)
Theorem finite_wait_always_times_out k V c l ws timeout :
  can_block k V c l ws timeout ->
  wp (across_switch (fun _ => True) (fun k' => woken k' c))
     (sertos_scheduler_wait_list_block (Some l) timeout) k
     (fun r _ => r = if decide (timeout = SERTOS_WAIT_FOREVER) then SERTOS_STATUS_OK
                     else SERTOS_STATUS_ERROR_TIMEOUT).
Proof.
  intros Hcb. eapply wp_block_away; [done|done|].
  intros k'. apply block_result_woken.
Qed.

(** ** Delays *)

(** [sertos_scheduler_delay(n)] takes the running task out of its ready queue, puts it at
    the end of the delay list with [n] ticks and gives up the processor in a well-formed
    kernel; when it is resumed it reports success.  Before the scheduler runs, or outside a
    task, it changes nothing and reports an error. *)
Theorem delay_sleeps k V c n :
  kernel_ok k V -> current_ok k V c -> s_is_running k = true -> s_lock_nesting k = 0 ->
  other_ready V c -> 0 < n < 2 ^ 32 ->
  wp (across_switch (fun k' => exists V', kernel_ok k' V' /\
        state (tcbs k' c) = SERTOS_TASK_STATE_BLOCKED /\ delay_ticks (tcbs k' c) = n /\
        (forall ds, V LDelay = Some ds -> V' LDelay = Some (ds ++ [c])) /\
        (forall q, ~ member V' (LReady q) c) /\
        (port_host = true -> sertos_current_tcb k' <> Some c)) (fun _ => True))
     (sertos_scheduler_delay n) k (fun r _ => r = SERTOS_STATUS_OK).
Proof.
  intros Hk (Hcur & Hrun & ts & Hts & Hin) Hr Hn (q & x & Hq & Hx & Hxc) Ht.
  apply list_elem_of_split in Hin as (ts1 & ts2 & ->).
  destruct (ok_delay_list _ _ Hk) as [ds Hds]. set (p := priority (tcbs k c)) in *.
  apply (wp_delay _ k V c p ts1 ts2 ds n); [done..|]. intros h b f k1 Hk1.
  pose proof (blocks_delay k V c p ts1 ts2 ds n Hk Hts Hds Ht) as [_ _ _ _ Hready _ _ _ _ _ _ Hstay].
  assert (Hc1 : tcbs k1 c = delay_tcb n (tcbs k c)) by apply fn_lookup_alter.
  apply (wp_switch_away _ _ _ _ c q x _ Hk1); [unfold k1; simpl; lia|done|by rewrite Hc1|done| | |done].
  - by apply Hstay.
  - intros k2 [Ho Hcu Hst2]. destruct (od_tcbs _ _ Ho c) as [_ Hd2 _ _].
    eexists. split_and!.
    + by eapply kernel_ok_compat.
    + by rewrite Hst2, Hc1.
    + by rewrite Hd2, Hc1.
    + intros ds' Hds'. simplify_eq. apply fn_lookup_insert.
    + intros q' Hm. by apply Hready in Hm as [_ ?].
    + intros Hh. destruct (Hcu Hh) as (m & Hmc & _ & -> & _). congruence.
Qed.

(** [sertos_scheduler_delay_until] keeps a periodic task on its grid: it always moves the
    deadline on by exactly one period (modulo 2^32), and when the deadline has not passed it
    sleeps the number of ticks, between 1 and the period, after which the tick count is the
    new deadline; otherwise it yields. *)
Theorem delay_until_keeps_grid k last period :
  0 <= last < 2 ^ 32 -> 0 < period < 2 ^ 32 ->
  let now := u32 (atomic_load_acquire (s_system_ticks k)) in
  let deadline := u32 (last + period) in
  if u32 (now - last) <? period then
    exists d, 0 < d <= period /\ u32 (now + d) = deadline /\
      sertos_scheduler_delay_until (Some last) period k =
        (status ← sertos_scheduler_delay d; mret (status, Some deadline)) k
  else
    sertos_scheduler_delay_until (Some last) period k =
      (sertos_scheduler_yield;; mret (SERTOS_STATUS_OK, Some deadline)) k.
Proof.
  intros Hl Hp now deadline. set (el := u32 (now - last)).
  assert (Hel : 0 <= el < 2 ^ 32) by (apply Z.mod_pos_bound; lia).
  assert (Hdef : sertos_scheduler_delay_until (Some last) period k =
    (status ← (if el <? period then sertos_scheduler_delay (u32 (period - el))
               else sertos_scheduler_yield;; mret SERTOS_STATUS_OK);
     mret (status, Some deadline)) k).
  { unfold sertos_scheduler_delay_until. by rewrite (proj2 (Z.eqb_neq _ _)) by lia. }
  rewrite Hdef. destruct (Z.ltb_spec el period) as [Hlt|Hge].
  - assert (Hd : u32 (period - el) = period - el) by (apply Z.mod_small; lia).
    exists (period - el). split; [lia|]. split; [|by rewrite Hd].
    unfold deadline, u32, wrap. 
    assert (He : exists q, now - last = el + q * 2 ^ 32).
    { exists ((now - last) / 2 ^ 32). unfold el, u32, wrap. pose proof (Z.div_mod (now - last) (2 ^ 32)). lia. }
    destruct He as [q Hq]. replace (now + (period - el)) with (last + period + q * 2 ^ 32) by lia.
    apply Z.mod_add. lia.
  - unfold mbind, M_bind. generalize (sertos_scheduler_yield k). intros o.
    induction o as [a s|p s kk IH|e]; simpl; [done| |done]. f_equal.
    apply FunctionalExtensionality.functional_extensionality. intros s'. apply IH.
Qed.

(** SERTOS_MS_TO_TICKS never rounds a delay down: it is the least number of ticks that
    lasts at least [ms] milliseconds, as long as the number fits in 32 bits (always, up to a
    rate of 1000 Hz). *)
Theorem ms_to_ticks_ceiling hz ms :
  0 < hz < 2 ^ 32 -> 0 <= ms < 2 ^ 32 -> ms * hz <= 1000 * (2 ^ 32 - 1) ->
  let n := SERTOS_MS_TO_TICKS hz ms in
  ms * hz <= 1000 * n < ms * hz + 1000 /\ (hz <= 1000 -> n <= ms).
Proof.
  intros Hhz Hms Hfit n. unfold n, SERTOS_MS_TO_TICKS, u32, u64, wrap.
  rewrite (Z.mod_small (ms * hz)) by nia. rewrite (Z.mod_small (ms * hz + 999)) by nia.
  assert (0 <= (ms * hz + 999) / 1000 < 2 ^ 32).
  { split; [apply Z.div_pos; nia|]. apply Z.div_lt_upper_bound; lia. }
  rewrite Z.mod_small by done. split.
  - pose proof (Z.div_mod (ms * hz + 999) 1000). pose proof (Z.mod_pos_bound (ms * hz + 999) 1000). lia.
  - intros. apply Z.lt_succ_r, Z.div_lt_upper_bound; nia.
Qed.

(** Up to a tick rate of 1000 Hz no tick is lost in milliseconds: SERTOS_MS_TO_TICKS gives
    back the ticks that SERTOS_TICKS_TO_MS converted, as long as the milliseconds fit in 32 bits;
    and a duration in milliseconds comes back at most one tick longer and never shorter. *)
Theorem tick_conversions_roundtrip hz ticks ms :
  0 < hz <= 1000 -> 0 <= ticks < 2 ^ 32 -> ticks * 1000 < 2 ^ 32 * hz -> 0 <= ms < 2 ^ 32 - 1000 ->
  SERTOS_MS_TO_TICKS hz (SERTOS_TICKS_TO_MS hz ticks) = ticks /\
  ms <= SERTOS_TICKS_TO_MS hz (SERTOS_MS_TO_TICKS hz ms) <= ms + 999 / hz.
Proof.
  intros Hhz Ht Hfit Hms. unfold SERTOS_MS_TO_TICKS, SERTOS_TICKS_TO_MS, u32, u64, wrap.
  assert (Hdiv : forall a b, 0 < b -> b * (a / b) <= a < b * (a / b) + b).
  { intros a b Hb. pose proof (Z.div_mod a b). pose proof (Z.mod_pos_bound a b). lia. }
  split.
  - rewrite (Z.mod_small (ticks * 1000)) by lia. pose proof (Hdiv (ticks * 1000) hz).
    set (q := ticks * 1000 / hz) in *. assert (0 <= q < 2 ^ 32) by (split; [apply Z.div_pos|apply Z.div_lt_upper_bound]; lia).
    rewrite (Z.mod_small q) by done. rewrite (Z.mod_small (q * hz)), (Z.mod_small (q * hz + 999)) by nia.
    pose proof (Hdiv (q * hz + 999) 1000). set (r := (q * hz + 999) / 1000) in *.
    assert (r = ticks) as -> by nia. by apply Z.mod_small.
  - rewrite (Z.mod_small (ms * hz)), (Z.mod_small (ms * hz + 999)) by nia.
    pose proof (Hdiv (ms * hz + 999) 1000). set (r := (ms * hz + 999) / 1000) in *.
    rewrite (Z.mod_small r) by nia. rewrite (Z.mod_small (r * 1000)) by nia.
    pose proof (Hdiv (r * 1000) hz). set (q := r * 1000 / hz) in *. pose proof (Hdiv 999 hz). set (e := 999 / hz) in *.
    assert (ms <= q <= ms + e) by nia. assert (e < 1000) by nia. rewrite Z.mod_small by lia. done.
Qed.

(** ** Time slicing *)

(** With time slicing enabled the running task moves to the tail of its ready queue, the
    order of the others being kept, so that the task behind it is selected next; a task alone
    in its queue, or time slicing disabled, changes nothing. *)
Theorem time_slicing_rotates k V c p ts1 ts2 :
  kernel_ok k V -> sertos_current_tcb k = Some c -> V (LReady p) = Some (ts1 ++ c :: ts2) ->
  exists k', exec process_time_slicing k = Some (tt, k') /\
    (forall t, tcbs k' t = tcbs k t) /\
    if s_time_slicing_enabled k then kernel_ok k' (<[LReady p := Some (ts1 ++ ts2 ++ [c])]> V)
    else k' = k.
Proof.
  intros Hk Hcur Hts.
  destruct (proj1 (wp_exec process_time_slicing k (fun _ k' => tcbs k' = tcbs k /\
    if s_time_slicing_enabled k then kernel_ok k' (<[LReady p := Some (ts1 ++ ts2 ++ [c])]> V)
    else k' = k))) as ([] & k' & He & Ht & Hr).
  { apply (wp_process_time_slicing _ _ V c p ts1 ts2); [done..| |].
    - intros -> _ h Hh. done.
    - intros Hno. split; [done|]. destruct (s_time_slicing_enabled k) eqn:Hen; [|done].
      destruct Hno as [?|Hno]; [done|]. apply app_eq_nil in Hno as [-> ->]. simpl in *.
      replace k with (k <| heap := heap k |>) by by destruct k.
      eapply kernel_ok_reorder; [done|done|done|].
      assert (Heq : pointwise_relation listid eq (<[LReady p:=Some [c]]> V) V).
      { intros l. unfold insert, fn_insert. case_decide; by subst. }
      rewrite Heq. apply Hk. }
  exists k'. rewrite Ht. done.
Qed.
End props.

(** ** The theorems at concrete kernels *)

(** C, the first waiter, is woken; A stays. *)
Lemma unblock_highest_wakes_first_witness :
  exists k' V', exec (sertos_scheduler_wait_list_unblock_highest (Some (LSemWait semS))) k_waiting =
      Some (Some tC, k') /\ kernel_ok k' V' /\ V' (LSemWait semS) = Some [tA] /\
    tcbs k' tC = wake_tcb (tcbs k_waiting tC).
Proof.
  destruct (unblock_highest_wakes_first k_waiting (view_of v_waiting) (LSemWait semS) [tC; tA] k_waiting_ok)
    as (k' & V' & He & Hk & _ & Hl & _ & _ & Ht & _).
  - reflexivity.
  - vm_compute; reflexivity.
  - vm_compute. split; [|split; [|done]]; intros x Hx; [|by apply not_elem_of_nil in Hx].
    apply list_elem_of_singleton in Hx as ->. discriminate.
  - exists k', V'. split; [exact He|]. split; [exact Hk|]. split; [exact Hl|exact Ht].
Defined.

Lemma wait_list_block_effect_witness :
  wp (across_switch (fun k' => exists V', blocked_away k_sem (view_of v_sem) tC (LSemWait semS) [] 5 k' V') (fun _ => True))
     (sertos_scheduler_wait_list_block (Some (LSemWait semS)) 5) k_sem
     (fun r k' => True /\ r = block_result 5 (tcbs k' tC)).
Proof. exact (wait_list_block_effect _ _ _ _ _ _ _ k_sem_can_block). Defined.

Lemma finite_wait_always_times_out_witness :
  wp (across_switch (fun _ => True) (fun k' => woken k' tC))
     (sertos_scheduler_wait_list_block (Some (LSemWait semS)) 5) k_sem
     (fun r _ => r = if decide (5 = SERTOS_WAIT_FOREVER) then SERTOS_STATUS_OK
                     else SERTOS_STATUS_ERROR_TIMEOUT).
Proof. exact (finite_wait_always_times_out _ _ _ _ _ _ k_sem_can_block). Defined.

Lemma delay_sleeps_witness :
  wp (across_switch (fun k' => exists V', kernel_ok k' V' /\
        state (tcbs k' tC) = SERTOS_TASK_STATE_BLOCKED /\ delay_ticks (tcbs k' tC) = 7 /\
        (forall ds, view_of v_trio LDelay = Some ds -> V' LDelay = Some (ds ++ [tC])) /\
        (forall q, ~ member V' (LReady q) tC) /\
        (port_host = true -> sertos_current_tcb k' <> Some tC)) (fun _ => True))
     (sertos_scheduler_delay 7) k_trio (fun r _ => r = SERTOS_STATUS_OK).
Proof.
  apply (delay_sleeps k_trio (view_of v_trio) tC 7 k_trio_ok k_trio_current);
    [vm_compute; reflexivity|vm_compute; reflexivity|apply k_trio_other|done].
Defined.

(** Woken 3 ticks late into a period of 10, from a deadline near the wrap-around. *)
Lemma delay_until_keeps_grid_witness :
  let k := k_trio <| s_system_ticks := (3 : @atomic_size_t (@platform_atomic host_platform)) |> in
  exists d, 0 < d <= 10 /\ u32 (3 + d) = 9 /\
    sertos_scheduler_delay_until (Some (2 ^ 32 - 1)) 10 k =
      (status ← sertos_scheduler_delay d; mret (status, Some 9)) k.
Proof.
  exact (delay_until_keeps_grid
    (k_trio <| s_system_ticks := (3 : @atomic_size_t (@platform_atomic host_platform)) |>)
    (2 ^ 32 - 1) 10 ltac:(lia) ltac:(lia)).
Defined.

Lemma ms_to_ticks_ceiling_witness :
  let n := SERTOS_MS_TO_TICKS 100 15 in 15 * 100 <= 1000 * n < 15 * 100 + 1000 /\ (100 <= 1000 -> n <= 15).
Proof. apply (ms_to_ticks_ceiling 100 15); lia. Defined.

(** At 300 Hz a tick is 3 1/3 ms. *)
Lemma tick_conversions_roundtrip_witness :
  SERTOS_MS_TO_TICKS 300 (SERTOS_TICKS_TO_MS 300 7) = 7 /\
  10 <= SERTOS_TICKS_TO_MS 300 (SERTOS_MS_TO_TICKS 300 10) <= 10 + 999 / 300.
Proof. apply (tick_conversions_roundtrip 300 7 10); lia. Defined.

Lemma time_slicing_rotates_witness :
  exists k', exec process_time_slicing k_pair = Some (tt, k') /\
    (forall t, tcbs k' t = tcbs k_pair t) /\
    if s_time_slicing_enabled k_pair then kernel_ok k' (<[LReady 3 := Some [tB; tA]]> (view_of v_pair))
    else k' = k_pair.
Proof.
  apply (time_slicing_rotates k_pair (view_of v_pair) tA 3 [] [tB] k_pair_ok); vm_compute; reflexivity.
Defined.
