(* ===== verification/TaskProps.v ===== *)
(** Properties of initialisation and of the task lifecycle. *)
From S2P Require Import Prelude Effects Types Platform LinkedLists Kernel Invariant RefPlatform.
From S2P Require Import KernelCheck SchedCore SchedCoreSpec DelaySpec TaskInfo Stats Timer.
From S2P Require Import Scheduler Task Sem SchedulerSpec BlockSpec TaskSpec Scenarios.

Section props.
Context `{PL : Platform} `{!PlatformLaws} `{!Callbacks}.
Implicit Types (k : Kernel) (V : lview) (t : addr) (ts : list addr).

(** ** Initialisation and creation *)

(** C34: whatever the kernel's memory held before, [sertos_scheduler_init_with_config] with an
    aligned idle stack leaves a well-formed kernel in which the idle task alone is ready, at
    priority 0, and is registered; nothing runs, the scheduler is unlocked, the tick count is
    0 and the settings are the configuration's, or the defaults. *)
Theorem scheduler_init_correct config k :
  (idle_stack_of config).1 mod SERTOS_STACK_ALIGNMENT_BYTES = 0 -> (1 <= loop_fuel)%nat ->
  exists k', exec (sertos_scheduler_init_with_config config) k = Some (SERTOS_STATUS_OK, k') /\
    initialised config k'.
Proof.
  intros Hal Hfu.
  destruct (proj1 (wp_exec (sertos_scheduler_init_with_config config) k
    (fun r k' => r = SERTOS_STATUS_OK /\ initialised config k'))) as (r & k' & He & -> & Hi); [|eauto].
  by apply wp_init.
Qed.

(** C35: creating a task from a valid configuration, before the scheduler runs, keeps the
    kernel well-formed, appends the task to the ready queue of its priority and to the
    registry, gives it exactly the TCB the configuration describes, fills its stack with the
    paint byte before the port builds the initial frame, and changes no other task. *)
Theorem task_create_static_correct k V t cfg ts rs :
  kernel_ok k V -> outside V t -> detached V FRegistry t -> valid_config cfg ->
  s_is_running k = false -> V (LReady (cfg_priority cfg)) = Some ts -> V LRegistry = Some rs ->
  exists k' pc, exec (sertos_task_create_static (Some cfg) (Some t) true) k =
      Some ((SERTOS_STATUS_OK, Some t), k') /\
    kernel_ok k' (created_view t (cfg_priority cfg) ts rs V) /\ same_globals k k' /\
    tcbs k' t = (new_tcb (mem k) cfg true) <| port_context := pc |> /\
    (forall x, x <> t -> tcbs k' x = tcbs k x) /\ mem k' = (initial_frame (mem k) cfg).2.
Proof.
  apply create_static_exec.
Qed.

(** C39: [sertos_task_create_static] rejects a NULL argument, a missing stack and every invalid
    configuration (no entry function, a priority out of range, a stack too small or not
    aligned) with an error status, and then changes nothing. *)
Theorem task_create_static_rejects k (cfg : option SertosTaskConfig) (tcb : ptr) out :
  tcb = None \/ out = false \/ cfg = None \/
  (exists c, cfg = Some c /\ (cfg_stack_buffer c = None \/ cfg_entry_func c = None \/
     SERTOS_CONFIG_MAX_PRIORITIES <= cfg_priority c \/
     cfg_stack_size c < SERTOS_CONFIG_MINIMAL_STACK_SIZE \/
     exists b, cfg_stack_buffer c = Some b /\ b mod SERTOS_STACK_ALIGNMENT_BYTES <> 0)) ->
  exists status, status <> SERTOS_STATUS_OK /\
    exec (sertos_task_create_static cfg tcb out) k = Some ((status, None), k).
Proof.
  intros Hbad. unfold sertos_task_create_static.
  destruct tcb as [t|]; [|eexists; split; [|reflexivity]; done].
  destruct out; [|eexists; split; [|reflexivity]; done]. cbn [negb].
  destruct cfg as [c|]; [|eexists; split; [|reflexivity]; done].
  destruct (cfg_stack_buffer c) as [b|] eqn:Hb; [|eexists; split; [|reflexivity]; done]. cbn [is_null].
  assert (Hv : validate_task_config (Some c) <> SERTOS_STATUS_OK).
  { unfold validate_task_config. rewrite Hb.
    destruct (cfg_entry_func c) eqn:He; [|done]. cbn [is_null].
    destruct (Z.leb_spec SERTOS_CONFIG_MAX_PRIORITIES (cfg_priority c)); [done|].
    destruct (Z.ltb_spec (cfg_stack_size c) SERTOS_CONFIG_MINIMAL_STACK_SIZE); [done|].
    destruct (Z.eqb_spec (b mod SERTOS_STACK_ALIGNMENT_BYTES) 0) as [Hal|]; [|done]. exfalso.
    destruct Hbad as [?|[?|[?|(c' & [= <-] & Hc)]]]; [done..|].
    destruct Hc as [?|[?|[?|[?|(b' & Hb' & Hal')]]]]; [congruence|congruence|lia|lia|].
    rewrite Hb in Hb'. by simplify_eq. }
  exists (validate_task_config (Some c)). split; [done|]. by rewrite decide_True.
Qed.

(** The stack top a task starts from is aligned, lies within the buffer and wastes less
    than one alignment unit, as long as the buffer's end is an address. *)
Theorem stack_top_aligned base size :
  4 <= port_size_bits -> 0 <= base -> 0 <= size -> base + size < 2 ^ port_size_bits ->
  stack_top_of base size mod SERTOS_STACK_ALIGNMENT_BYTES = 0 /\
  base + size - SERTOS_STACK_ALIGNMENT_BYTES < stack_top_of base size <= base + size.
Proof.
  intros Hw Hb Hs Hend. unfold stack_top_of, wrap.
  change SERTOS_STACK_ALIGNMENT_BYTES with 8. change (8 - 1) with 7.
  rewrite (Z.mod_small (base + size)) by lia. set (x := base + size) in *.
  assert (Hmask : Z.land x (wrap port_size_bits (Z.lnot 7)) = 8 * (x / 8)) by (apply land_align8; lia).
  unfold wrap in Hmask.
  rewrite Hmask. pose proof (Z.div_mod x 8). pose proof (Z.mod_pos_bound x 8). split; [|lia].
  rewrite Z.mul_comm. apply Z.mod_mul. lia.
Qed.

(** ** Inspection *)

(** The high-water mark of a task with an intact canary is the length of the unbroken run
    of paint bytes at the low end of its stack: that many bytes were never written, and the
    next one, if there is one, was. *)
Theorem high_water_mark_correct k t base :
  magic (tcbs k t) = SERTOS_TASK_MAGIC_WORD -> stack_base (tcbs k t) = Some base ->
  0 <= stack_size (tcbs k t) ->
  exists n, exec (sertos_task_get_stack_high_water_mark (Some t)) k = Some (n, k) /\
    0 <= n <= stack_size (tcbs k t) /\
    (forall i, 0 <= i < n -> mem k (base + i) = SERTOS_TASK_STACK_FILL_BYTE) /\
    (n < stack_size (tcbs k t) -> mem k (base + n) <> SERTOS_TASK_STACK_FILL_BYTE).
Proof.
  intros Hm Hb Hs. exists (painted_bytes (mem k) base (Z.to_nat (stack_size (tcbs k t)))).
  split.
  { destruct (proj1 (wp_exec (sertos_task_get_stack_high_water_mark (Some t)) k (fun r k' =>
      r = painted_bytes (mem k) base (Z.to_nat (stack_size (tcbs k t))) /\ k' = k)))
      as (r & k' & He & -> & ->); [|done].
    unfold sertos_task_get_stack_high_water_mark, task_magic_ok. wp_steps.
    rewrite (proj2 (Z.eqb_eq _ _) Hm). ksteps. by rewrite Hb. }
  assert (Hgen : forall n a, let r := painted_bytes (mem k) a n in
    0 <= r <= Z.of_nat n /\ (forall i, 0 <= i < r -> mem k (a + i) = SERTOS_TASK_STACK_FILL_BYTE) /\
    (r < Z.of_nat n -> mem k (a + r) <> SERTOS_TASK_STACK_FILL_BYTE)).
  { induction n as [|n IH]; intros a; cbn [painted_bytes]; [split_and!; lia|].
    destruct (Z.eqb_spec (mem k a) SERTOS_TASK_STACK_FILL_BYTE) as [He|He].
    - destruct (IH (a + 1)) as (Hr & Hlow & Hhigh). split_and!; [lia|lia| |].
      + intros i Hi. destruct (decide (i = 0)) as [->|]; [by rewrite Z.add_0_r|].
        replace (a + i) with (a + 1 + (i - 1)) by lia. apply Hlow. lia.
      + intros Hlt. rewrite Z.add_assoc. apply Hhigh. lia.
    - split_and!; [lia|lia|lia|]. intros _. by rewrite Z.add_0_r. }
  destruct (Hgen (Z.to_nat (stack_size (tcbs k t))) base) as (Hr & Hlow & Hhigh).
  rewrite Z2Nat.id in Hr, Hhigh by done. done.
Qed.

(** ** Suspension *)

(** Suspending a ready task that does not run takes it, and nothing else, out of its ready
    queue; it can then not be selected.  Resuming it (before the scheduler runs) puts it back,
    ready, at the tail of that queue; both keep the kernel well-formed. *)
Theorem suspend_resume_ready k V p ts1 t ts2 :
  kernel_ok k V -> V (LReady p) = Some (ts1 ++ t :: ts2) -> magic (tcbs k t) = SERTOS_TASK_MAGIC_WORD ->
  state (tcbs k t) = SERTOS_TASK_STATE_READY -> sertos_current_tcb k <> Some t -> s_is_running k = false ->
  exists k1 k2 V2, exec (sertos_task_suspend (Some t)) k = Some (SERTOS_STATUS_OK, k1) /\
    kernel_ok k1 (<[LReady p := Some (ts1 ++ ts2)]> V) /\
    outside (<[LReady p := Some (ts1 ++ ts2)]> V) t /\
    state (tcbs k1 t) = SERTOS_TASK_STATE_SUSPENDED /\
    exec (sertos_task_resume (Some t)) k1 = Some (SERTOS_STATUS_OK, k2) /\
    kernel_ok k2 V2 /\ V2 (LReady p) = Some (ts1 ++ ts2 ++ [t]) /\ tcbs k2 t = tcbs k t.
Proof.
  intros Hk Hts Hm Hst Hcur Hrun. destruct (ok_ready _ _ Hk _ _ t Hts) as (Hp & Hpt & _ & Hw & Hd); [set_solver|].
  pose proof (leaves_outside _ _ _ _ _ _ Hk Hts) as Hout.
  destruct (proj1 (wp_exec (sertos_task_suspend (Some t)) k (fun r k1 => r = SERTOS_STATUS_OK /\
    kernel_ok k1 (<[LReady p := Some (ts1 ++ ts2)]> V) /\ s_is_running k1 = false /\
    tcbs k1 t = (tcbs k t) <| state := SERTOS_TASK_STATE_SUSPENDED |>)))
    as (r & k1 & He1 & -> & Hk1 & Hrun1 & Ht1).
  { apply (wp_suspend_ready _ k V p ts1 t ts2); [done..|]. intros f h b k' Hk'. split_and!; try done.
    apply fn_lookup_alter. }
  destruct (proj1 (wp_exec (sertos_task_resume (Some t)) k1 (fun r k2 => r = SERTOS_STATUS_OK /\
    kernel_ok k2 (<[LReady p := Some ((ts1 ++ ts2) ++ [t])]> (<[LReady p := Some (ts1 ++ ts2)]> V)) /\
    tcbs k2 t = (tcbs k1 t) <| state := SERTOS_TASK_STATE_READY |>)))
    as (r & k2 & He2 & -> & Hk2 & Ht2).
  { apply (wp_resume _ k1 (<[LReady p := Some (ts1 ++ ts2)]> V) p (ts1 ++ ts2) t);
      try (by rewrite Ht1); try done; [apply fn_lookup_insert|].
    intros f h b k' Hk'. rewrite Hrun1. wp_steps. split_and!; try done. apply fn_lookup_alter. }
  exists k1, k2, (<[LReady p := Some ((ts1 ++ ts2) ++ [t])]> (<[LReady p := Some (ts1 ++ ts2)]> V)).
  split_and!; try done.
  - by rewrite Ht1.
  - rewrite fn_lookup_insert. by rewrite <-app_assoc.
  - rewrite Ht2, Ht1. destruct (tcbs k t). simpl in *. by subst.
Qed.

(** ** The state machine *)

(** The transitions of the state machine, by destination. *)
Definition transition_spec (from to : SertosTaskState) : Prop :=
  match to with
  | SERTOS_TASK_STATE_RUNNING => from = SERTOS_TASK_STATE_READY
  | SERTOS_TASK_STATE_BLOCKED => from = SERTOS_TASK_STATE_RUNNING
  | _ => from <> to /\ from <> SERTOS_TASK_STATE_TERMINATED
  end.

(** States the transitions lead to. *)
Inductive reaches : SertosTaskState -> SertosTaskState -> Prop :=
  | reaches_refl s : reaches s s
  | reaches_step s s' s'' : sertos_task_is_valid_transition s s' = true -> reaches s' s'' -> reaches s s''.
End props.

(** C36: [sertos_task_is_valid_transition] accepts exactly the transitions of the documented
    state machine: to RUNNING only from READY, to BLOCKED only from RUNNING, to the other
    states from every other live state; TERMINATED can be reached from every state and left
    from none. *)
Theorem valid_transition_exact from to :
  (sertos_task_is_valid_transition from to = true <-> transition_spec from to) /\
  reaches from SERTOS_TASK_STATE_TERMINATED /\
  (reaches SERTOS_TASK_STATE_TERMINATED to -> to = SERTOS_TASK_STATE_TERMINATED).
Proof.
  split; [|split].
  - destruct from, to; split; intros H; try reflexivity; try discriminate; vm_compute in *;
      intuition congruence.
  - destruct from; try (eapply reaches_step; [|apply reaches_refl]; reflexivity). apply reaches_refl.
  - remember SERTOS_TASK_STATE_TERMINATED as s eqn:Hs. intros Hr.
    induction Hr as [s|s s' s'' Hv Hr IH]; [done|]. subst s. by destruct s'.
Qed.

(** ** What the state machine does not protect *)

(** Suspending the running task does not take it out of its ready queue: C, the only task
    of the highest priority, is SUSPENDED afterwards and yet is still current and still the
    task selected to run. *)
Theorem suspend_running_keeps_running :
  exists k', exec (sertos_task_suspend None) k_trio = Some (SERTOS_STATUS_OK, k') /\
    sertos_current_tcb k_trio = Some tC /\ state (tcbs k' tC) = SERTOS_TASK_STATE_SUSPENDED /\
    sertos_current_tcb k' = Some tC /\ result sertos_scheduler_select_next_task k' = Some (Some tC).
Proof.
  exists (after (sertos_task_suspend None) k_trio). split; [|vm_compute; by split_and!].
  apply exec_after. vm_compute. reflexivity.
Qed.

(** Raising the priority of the running task does not move it to the ready queue of its
    new priority.  When C, set from 5 to 7, then sleeps, the bit of queue 5 stays set over an
    empty queue: no task is selected although A is ready, and the sleeping C stays current. *)
Theorem set_priority_running_stalls :
  exists k', exec (sertos_task_set_priority None 7;; sertos_scheduler_delay 2) k_trio =
      Some (SERTOS_STATUS_OK, k') /\
    result sertos_scheduler_select_next_task k' = Some None /\
    linked_list_peek_head (LReady 3) (heap k') = Some (NLink FState tA) /\
    state (tcbs k' tC) = SERTOS_TASK_STATE_BLOCKED /\ sertos_current_tcb k' = Some tC.
Proof.
  exists (after (sertos_task_set_priority None 7;; sertos_scheduler_delay 2) k_trio).
  split; [|vm_compute; by split_and!]. apply exec_after. vm_compute. reflexivity.
Qed.

(** A blocked task is accepted by [sertos_task_resume], which links it into its ready
    queue while it is still in the delay list: the next tick's walk of the delay list runs
    into the ready queue and dereferences a list root as a task. *)
Theorem resume_delayed_breaks_delay_list :
  exists k', exec (sertos_task_resume (Some tC)) k_asleep = Some (SERTOS_STATUS_OK, k') /\
    state (tcbs k_asleep tC) = SERTOS_TASK_STATE_BLOCKED /\ process_delayed_tasks k' = Stuck BadPointer.
Proof.
  exists (after (sertos_task_resume (Some tC)) k_asleep).
  split; [apply exec_after; vm_compute; reflexivity|]. split; vm_compute; reflexivity.
Qed.

(** Deleting a task that waits on a semaphore leaves it in the wait list, so that the next
    [sertos_sem_give] wakes and runs the deleted task. *)
Theorem delete_waiting_task_runs_again :
  exists k1 k2, exec (sertos_task_delete (Some tC)) k_waiting = Some (SERTOS_STATUS_OK, k1) /\
    state (tcbs k1 tC) = SERTOS_TASK_STATE_TERMINATED /\
    exec (sertos_sem_give (Some semS)) k1 = Some (SERTOS_STATUS_OK, k2) /\
    sertos_current_tcb k2 = Some tC /\ state (tcbs k2 tC) = SERTOS_TASK_STATE_RUNNING.
Proof.
  exists (after (sertos_task_delete (Some tC)) k_waiting),
    (after (sertos_sem_give (Some semS)) (after (sertos_task_delete (Some tC)) k_waiting)).
  split; [apply exec_after; vm_compute; reflexivity|]. split; [vm_compute; reflexivity|].
  split; [apply exec_after; vm_compute; reflexivity|]. vm_compute. by split.
Qed.

(** A tick that comes between the moment [sertos_scheduler_delay] unmasks interrupts and
    the context switch rotates the ready queue of the task that just went to sleep: the task
    is moved from the delay list to the ready queue, BLOCKED, with 4 of its 5 ticks left. *)
Theorem tick_rotates_sleeping_task :
  exists k', run [id; after sertos_scheduler_tick] (sertos_scheduler_delay 5 k_equals) =
      Some (SERTOS_STATUS_OK, k') /\
    linked_list_is_empty LDelay (heap k') = true /\
    next (cells (heap k') (NLink FState tC)) = Some (NLink FState tA) /\
    next (cells (heap k') (NLink FState tA)) = Some (NRoot (LReady 3)) /\
    state (tcbs k' tA) = SERTOS_TASK_STATE_BLOCKED /\ delay_ticks (tcbs k' tA) = 4.
Proof.
  exists (default k_equals (snd <$> run [id; after sertos_scheduler_tick] (sertos_scheduler_delay 5 k_equals))).
  split; [|vm_compute; by split_and!]. apply some_pair. vm_compute. reflexivity.
Qed.

(** ** The theorems at concrete kernels *)

Lemma scheduler_init_correct_witness :
  exists k', exec (sertos_scheduler_init_with_config None) (blank true) = Some (SERTOS_STATUS_OK, k') /\
    initialised None k'.
Proof. apply (scheduler_init_correct None (blank true)); [reflexivity|vm_compute; lia]. Defined.

(** B of priority 3 is created behind A. *)
Lemma task_create_static_correct_witness :
  exists k' pc, exec (sertos_task_create_static (Some (task_config 3 0x8100)) (Some tB) true) k_ready =
      Some ((SERTOS_STATUS_OK, Some tB), k') /\
    kernel_ok k' (created_view tB 3 [tA] [idle; tA] (view_of v_ready)) /\ same_globals k_ready k' /\
    tcbs k' tB = (new_tcb (mem k_ready) (task_config 3 0x8100) true) <| port_context := pc |> /\
    (forall x, x <> tB -> tcbs k' x = tcbs k_ready x) /\
    mem k' = (initial_frame (mem k_ready) (task_config 3 0x8100)).2.
Proof.
  apply (task_create_static_correct k_ready (view_of v_ready) tB (task_config 3 0x8100) [tA] [idle; tA]).
  - apply k_ready_ok.
  - split; apply detached_check, (bool_decide_eq_true_1 _); vm_compute; reflexivity.
  - apply detached_check, (bool_decide_eq_true_1 _); vm_compute; reflexivity.
  - split; [done|]. split; [reflexivity|done].
  - vm_compute; reflexivity.
  - vm_compute; reflexivity.
  - vm_compute; reflexivity.
Defined.

(** Priority 32 is one too high. *)
Lemma task_create_static_rejects_witness :
  exists status, status <> SERTOS_STATUS_OK /\
    exec (sertos_task_create_static (Some (task_config 32 0x8100)) (Some tB) true) k_ready =
      Some ((status, None), k_ready).
Proof.
  apply task_create_static_rejects. right; right; right. exists (task_config 32 0x8100).
  split; [reflexivity|]. right; right; left. done.
Defined.

Lemma stack_top_aligned_witness :
  stack_top_of 0x8000 260 mod SERTOS_STACK_ALIGNMENT_BYTES = 0 /\
  0x8000 + 260 - SERTOS_STACK_ALIGNMENT_BYTES < stack_top_of 0x8000 260 <= 0x8000 + 260.
Proof. apply stack_top_aligned; simpl; lia. Defined.

Lemma high_water_mark_correct_witness :
  exists n, exec (sertos_task_get_stack_high_water_mark (Some tA)) k_ready = Some (n, k_ready) /\
    0 <= n <= stack_size (tcbs k_ready tA) /\
    (forall i, 0 <= i < n -> mem k_ready (0x8000 + i) = SERTOS_TASK_STACK_FILL_BYTE) /\
    (n < stack_size (tcbs k_ready tA) -> mem k_ready (0x8000 + n) <> SERTOS_TASK_STACK_FILL_BYTE).
Proof.
  apply (high_water_mark_correct k_ready tA 0x8000); [vm_compute; reflexivity|vm_compute; reflexivity|].
  vm_compute. discriminate.
Defined.

Lemma suspend_resume_ready_witness :
  exists k1 k2 V2, exec (sertos_task_suspend (Some tA)) k_ready = Some (SERTOS_STATUS_OK, k1) /\
    kernel_ok k1 (<[LReady 3 := Some []]> (view_of v_ready)) /\
    outside (<[LReady 3 := Some []]> (view_of v_ready)) tA /\
    state (tcbs k1 tA) = SERTOS_TASK_STATE_SUSPENDED /\
    exec (sertos_task_resume (Some tA)) k1 = Some (SERTOS_STATUS_OK, k2) /\
    kernel_ok k2 V2 /\ V2 (LReady 3) = Some [tA] /\ tcbs k2 tA = tcbs k_ready tA.
Proof.
  apply (suspend_resume_ready k_ready (view_of v_ready) 3 [] tA []); [apply k_ready_ok|..];
    vm_compute; try reflexivity. discriminate.
Defined.
