(* ===== verification/SemProps.v ===== *)
(** Semaphores: the operations refine the abstract semaphore. *)
From S2P Require Import Prelude Effects Types Platform LinkedLists Kernel Invariant RefPlatform.
From S2P Require Import KernelCheck SchedCore SchedCoreSpec DelaySpec TaskInfo Stats Timer.
From S2P Require Import Scheduler Task Sem SchedulerSpec BlockSpec SemSpec Scenarios.

Section props.
Context `{PL : Platform} `{!PlatformLaws} `{!Callbacks}.
Implicit Types (k : Kernel) (V : lview) (a t : addr) (s : sem_state).

(** C13: [sertos_sem_give], without interference, terminates, keeps the kernel well-formed and
    behaves as the abstract release: the first waiter is made READY and gets the token, or the
    count goes up by one, or the semaphore is full and the call is refused; the count stays
    within its limit and tokens are in stock only when nobody waits. *)
Theorem sem_give_refines k V a s :
  kernel_ok k V -> sem_is k V a s -> sem_ok s ->
  exists r k' V' s', exec (sertos_sem_give (Some a)) k = Some (r, k') /\ kernel_ok k' V' /\
    sem_gives s r s' /\ sem_is k' V' a s' /\ sem_ok s' /\
    (forall t, head (waiters s) = Some t -> runnable (state (tcbs k' t)) /\
       member V' (LReady (priority (tcbs k t))) t).
Proof.
  apply sem_give_gives.
Qed.

(** C14: an acquisition that need not wait, because there is a token or because the caller
    does not want to wait, terminates and behaves as the abstract acquisition; it takes one off
    the semaphore's count if it succeeds, and nothing else of the kernel changes, besides the
    port's own state (its interrupt mask). *)
Theorem sem_take_refines k V a s timeout :
  kernel_ok k V -> sem_is k V a s -> sem_ok s -> 0 < tokens s \/ timeout = SERTOS_NO_WAIT ->
  exists r k' s', exec (sertos_sem_take (Some a) timeout) k = Some (r, k') /\ kernel_ok k' V /\
    sem_takes s r s' /\ sem_is k' V a s' /\ sem_ok s' /\ taken k a r k'.
Proof.
  apply sem_take_takes.
Qed.

(** C30: an acquisition that finds no token and may wait blocks the running task on the
    semaphore, behind the waiters of its own or a higher priority, and gives up the processor with
    every semaphore's count as it was. When the task is woken, an unlimited acquisition reports
    success. A limited one reports a timeout: rightly when the clock woke it, but also when it was
    released, for the kernel's state does not tell the two apart; the latter contradicts
    sertos_scheduler.h ("SERTOS_STATUS_OK if unblocked by event") and is declared as a finding. *)
Theorem sem_take_blocks k V a s c timeout :
  can_block k V c (LSemWait a) (waiters s) timeout -> sem_is k V a s -> tokens s = 0 ->
  wp (across_switch
        (fun k' => sems k' = sems k /\
           exists V', blocked_away k V c (LSemWait a) (waiters s) timeout k' V')
        (fun k' => woken k' c))
     (sertos_sem_take (Some a) timeout) k
     (fun r _ => r = if decide (timeout = SERTOS_WAIT_FOREVER) then SERTOS_STATUS_OK
                     else SERTOS_STATUS_ERROR_TIMEOUT).
Proof.
  intros Hcb Hs Hz. unfold sertos_sem_take. wp_steps. rewrite (sem_magic_ok_true _ _ _ _ Hs). cbn [negb].
  wp_steps. apply wp_enter; [apply _|]. intros cr f. ksteps. rewrite (si_count _ _ _ _ Hs), Hz, Z.ltb_irrefl.
  rewrite (proj2 (Z.eqb_neq timeout _)) by (unfold SERTOS_NO_WAIT; pose proof (cb_timeout _ _ _ _ _ _ Hcb); lia).
  ksteps. apply wp_exit; [apply _|]. intros g. wp_steps.
  destruct Hcb as [Hk Hc Hr Hn Ho Hf Hw Hfu Ht].
  eapply (wp_block_away _ _ _ V c _ (waiters s)).
  - split; try done. by eapply kernel_ok_same, Hk.
  - intros k' V' [A1 A2 A3 A4 A5 A6 A7 A8 A9 A10]. split; [apply A10|]. exists V'. by split.
  - intros k'. apply block_result_woken.
Qed.
End props.

(** ** The theorems at concrete kernels *)

Lemma k_sem_is : sem_is k_sem (view_of v_sem) semS (SemState 0 3 []).
Proof. split; vm_compute; reflexivity. Qed.

(** C waits for ever and A for 5 ticks: the release wakes C. *)
Lemma sem_give_refines_witness :
  let s := SemState 0 3 [tC; tA] in
  sem_is k_waiting (view_of v_waiting) semS s /\
  exists r k' V' s', exec (sertos_sem_give (Some semS)) k_waiting = Some (r, k') /\ kernel_ok k' V' /\
    sem_gives s r s' /\ sem_is k' V' semS s' /\ sem_ok s' /\
    (forall t, head [tC; tA] = Some t -> runnable (state (tcbs k' t)) /\
       member V' (LReady (priority (tcbs k_waiting t))) t).
Proof.
  cbn zeta. assert (Hs : sem_is k_waiting (view_of v_waiting) semS (SemState 0 3 [tC; tA])).
  { split; vm_compute; reflexivity. }
  split; [exact Hs|].
  apply (sem_give_refines k_waiting (view_of v_waiting) semS (SemState 0 3 [tC; tA]) k_waiting_ok Hs).
  split; simpl; [lia|done].
Defined.

(** No token, and no wish to wait. *)
Lemma sem_take_refines_witness :
  exists r k' s', exec (sertos_sem_take (Some semS) SERTOS_NO_WAIT) k_sem = Some (r, k') /\
    kernel_ok k' (view_of v_sem) /\ sem_takes (SemState 0 3 []) r s' /\
    sem_is k' (view_of v_sem) semS s' /\ sem_ok s' /\ taken k_sem semS r k'.
Proof.
  apply (sem_take_refines k_sem (view_of v_sem) semS (SemState 0 3 []) SERTOS_NO_WAIT k_sem_ok k_sem_is).
  - split; simpl; [lia|done].
  - by right.
Defined.

(** C takes with a timeout of 5 ticks. *)
Lemma sem_take_blocks_witness :
  wp (across_switch
        (fun k' => sems k' = sems k_sem /\
           exists V', blocked_away k_sem (view_of v_sem) tC (LSemWait semS) [] 5 k' V')
        (fun k' => woken k' tC))
     (sertos_sem_take (Some semS) 5) k_sem
     (fun r _ => r = if decide (5 = SERTOS_WAIT_FOREVER) then SERTOS_STATUS_OK
                     else SERTOS_STATUS_ERROR_TIMEOUT).
Proof.
  apply (sem_take_blocks k_sem (view_of v_sem) semS (SemState 0 3 []) tC 5 k_sem_can_block k_sem_is).
  reflexivity.
Defined.

(** ** Acquisitions that race with a release *)

Abbreviation give_S := (sertos_sem_give (Some semS)).
Abbreviation take_S timeout := (sertos_sem_take (Some semS) timeout).

(** A token released to a task that waits with a timeout is lost: C takes with a timeout
    of 5 ticks and sleeps, the release that comes next succeeds, wakes C and leaves the count
    at zero, and C, no tick having passed, reports a timeout. *)
Theorem give_to_limited_wait_is_lost :
  let k := until_switch (take_S 5) k_sem in
  result give_S k = Some SERTOS_STATUS_OK /\ sem_count (sems (after give_S k) semS) = 0 /\
  sertos_current_tcb (after give_S k) = Some tC /\
  exists k', run [id; id; id; id; id; id; after give_S] (take_S 5 k_sem) =
    Some (SERTOS_STATUS_ERROR_TIMEOUT, k').
Proof.
  cbv zeta. split; [vm_compute; reflexivity|]. split; [vm_compute; reflexivity|].
  split; [vm_compute; reflexivity|].
  exists (default k_sem (snd <$> run [id; id; id; id; id; id; after give_S] (take_S 5 k_sem))).
  apply some_pair. vm_compute. reflexivity.
Qed.

(** A release between the moment an acquisition has seen the empty semaphore and unmasked
    interrupts, and the moment it joins the wait list, goes into stock, and the task goes to
    sleep for ever with a token in stock: no abstract semaphore is in that state. *)
Theorem give_before_block_is_missed :
  exists k', at_switch [id; after give_S] (take_S SERTOS_WAIT_FOREVER k_sem) = Some k' /\
    state (tcbs k' tC) = SERTOS_TASK_STATE_BLOCKED /\
    linked_list_peek_head (LSemWait semS) (heap k') = Some (NLink FEvent tC) /\
    sem_count (sems k' semS) = 1 /\ ~ sem_ok (SemState 1 3 [tC]).
Proof.
  exists (default k_sem (at_switch [id; after give_S] (take_S SERTOS_WAIT_FOREVER k_sem))).
  split; [|vm_compute; split_and!; try reflexivity].
  - assert (is_Some (at_switch [id; after give_S] (take_S SERTOS_WAIT_FOREVER k_sem))) as [k' ->]; [|done].
    apply (bool_decide_eq_true_1 _). vm_compute. reflexivity.
  - intros [_ Hw]. by specialize (Hw ltac:(done)).
Qed.
