(* ===== verification/MutexProps.v ===== *)
(** Mutexes: an abstract specification, the operations' refinement of it, and priority
    inheritance. *)
From S2P Require Import Prelude Effects Types Platform LinkedLists Kernel Invariant RefPlatform.
From S2P Require Import KernelCheck SchedCore SchedCoreSpec DelaySpec TaskInfo Stats Timer.
From S2P Require Import Scheduler Task Mutex SchedulerSpec BlockSpec TaskSpec MutexSpec Scenarios.

Section props.
Context `{PL : Platform} `{!PlatformLaws} `{!Callbacks}.
Implicit Types (k : Kernel) (V : lview) (a t o c : addr) (m : mutex_state).

(** C11: [sertos_mutex_lock] by a task that need not or does not want to wait (the mutex is free,
    or the caller's, or the timeout is zero) terminates, keeps the kernel well-formed, and behaves as
    the abstract lock: a free mutex is acquired with the caller's priority on record, the holder
    goes one level deeper, and anybody else is turned away with a timeout; even then, the holder
    has inherited the caller's priority. (Another task that holds the mutex must be READY in its
    queue, or in no ready queue.) *)
Theorem mutex_lock_refines k V a c m timeout :
  kernel_ok k V -> mutex_is k V a m -> mutex_ok m -> sertos_current_tcb k = Some c ->
  0 <= priority (tcbs k c) < MAXP -> (forall o, holder m = Some o -> o <> c -> placed k V o) ->
  (holder m = Some c -> depth m + 1 < 2 ^ 32) ->
  holder m = None \/ holder m = Some c \/ timeout = SERTOS_NO_WAIT ->
  exists r k' V' m', exec (sertos_mutex_lock (Some a) timeout) k = Some (r, k') /\ kernel_ok k' V' /\
    mutex_locks c m r m' /\ mutex_is k' V' a m' /\ mutex_ok m' /\
    (holder m = None -> mtx_original_owner_priority (mutexes k' a) = priority (tcbs k c)) /\
    forall t, tcbs k' t =
      if decide (holder m = Some t /\ t <> c)
      then with_priority (Z.max (priority (tcbs k t)) (priority (tcbs k c))) (tcbs k t) else tcbs k t.
Proof.
  intros Hk Hm Hok Hc Hp Hpl Hdep Hnb.
  destruct (proj1 (wp_exec (sertos_mutex_lock (Some a) timeout) k (fun r k' => exists V' m',
    kernel_ok k' V' /\ mutex_locks c m r m' /\ mutex_is k' V' a m' /\
    (holder m = None -> mtx_original_owner_priority (mutexes k' a) = priority (tcbs k c)) /\
    forall t, tcbs k' t =
      if decide (holder m = Some t /\ t <> c)
      then with_priority (Z.max (priority (tcbs k t)) (priority (tcbs k c))) (tcbs k t) else tcbs k t)))
    as (r & k' & He & V' & m' & Hk' & Hl & Hm' & Hpr & Ht).
  2: { exists r, k', V', m'. split_and!; try done. by eapply mutex_locks_ok. }
  unfold sertos_mutex_lock, sertos_scheduler_get_current_tcb. wp_steps.
  rewrite (mutex_magic_ok_true _ _ _ _ Hm). cbn [negb]. wp_steps. rewrite Hc.
  wp_steps. apply wp_enter; [apply _|]. intros cr f. ksteps. rewrite (mi_owner _ _ _ _ Hm).
  unfold mutex_ok in Hok. destruct m as [[o|] n ws]; simpl in *.
  - destruct (decide (o = c)) as [->|Hne].
    + rewrite decide_True by done. ksteps. apply wp_exit; [apply _|]. intros g. wp_steps.
      exists V, (MutexState (Some c) (n + 1) ws). specialize (Hdep eq_refl).
      split; [by eapply kernel_ok_same, Hk|]. split; [by constructor|].
      split; [eapply (mutex_is_upd k); [exact Hm|reflexivity|apply Hm|done|apply Hm|]|].
      { simpl. rewrite (mi_count _ _ _ _ Hm). simpl. unfold wrap. rewrite Z.mod_small; lia. }
      split; [done|]. intros t. rewrite decide_False; [done|]. by intros [[= <-] ?].
    + rewrite decide_False by congruence. destruct Hnb as [?|[?| ->]]; [done|congruence|].
      wp_steps. eapply (wp_inherit _ _ V _ _ o); [by eapply kernel_ok_same, Hk|apply Hm|exact Hp|by apply Hpl|].
      intros k' V' [Hk' Heq _ _ Hli]. rewrite Z.eqb_refl. wp_steps. apply wp_exit; [apply _|].
      intros g. wp_steps. exists V', (MutexState (Some o) n ws).
      split; [by eapply kernel_ok_same, Hk'|]. split; [by constructor|].
      assert (Hmx : mutexes k' = mutexes k) by by rewrite Heq.
      split; [split; rsimpl; rewrite ?Hmx, ?Hli; try apply Hm; by left|]. split; [done|].
      intros t. rsimpl. rewrite Heq. unfold resched. rsimpl. destruct (decide (o = t)) as [<-|Hot].
      * by rewrite fn_lookup_alter, decide_True.
      * rewrite fn_lookup_alter_ne by done. rewrite decide_False; [done|]. by intros [[=] _].
  - ksteps. apply wp_exit; [apply _|]. intros g. wp_steps.
    destruct Hok as [-> ->]. exists V, (MutexState (Some c) 1 []).
    split; [by eapply kernel_ok_same, Hk|]. split; [by constructor|]. split; [|split].
    + split; rsimpl; rewrite ?fn_lookup_alter; simpl; try done; try apply Hm.
    + intros _. rsimpl. by rewrite fn_lookup_alter.
    + done.
Qed.

(** C12: [sertos_mutex_unlock] of a mutex whose holder, if it is the caller, runs at the
    priority on record, terminates, keeps the kernel well-formed and behaves as the abstract
    unlock: only the holder may unlock, an inner level is only counted, and the last level frees
    the mutex or hands it to the first waiter, which is made READY, with its base priority on
    record. *)
Theorem mutex_unlock_refines k V a c m :
  kernel_ok k V -> mutex_is k V a m -> mutex_ok m -> sertos_current_tcb k = Some c ->
  (holder m = Some c -> priority (tcbs k c) = mtx_original_owner_priority (mutexes k a)) ->
  exists r k' V' m', exec (sertos_mutex_unlock (Some a)) k = Some (r, k') /\ kernel_ok k' V' /\
    mutex_unlocks c m r m' /\ mutex_is k' V' a m' /\ mutex_ok m' /\
    (forall t, holder m = Some c -> holder m' = Some t -> t <> c ->
       runnable (state (tcbs k' t)) /\ member V' (LReady (priority (tcbs k t))) t /\
       mtx_original_owner_priority (mutexes k' a) = base_priority (tcbs k t)).
Proof.
  apply mutex_unlock_passes.
Qed.

(** Everything a blocking task needs survives inheritance. *)
Lemma inherited_can_block k V c l ws timeout o k' V' :
  can_block k V c l ws timeout -> o <> c ->
  inherited k V o (priority (tcbs k c)) k' V' -> can_block k' V' c l ws timeout.
Proof.
  intros [Hk (Hc & Hst & Hin) Hr Hn (q & x & Hq & Hx & Hxc) Hf Hw Hfu Ht] Hne [Hk' Heq Hrd Hm Hli].
  assert (Htc : tcbs k' c = tcbs k c) by (rewrite Heq; by apply fn_lookup_alter_ne).
  assert (Hpo : 0 <= priority (tcbs k c) < MAXP).
  { destruct Hin as (us & Hus & Hin). by destruct (ok_ready _ _ Hk _ _ _ Hus Hin) as (? & _). }
  split; [done| |by rewrite Heq|by rewrite Heq| |done|rewrite Hli; auto; left; by rewrite Hf|done|done].
  - split; [by rewrite Heq|]. rewrite Htc. split; [done|]. specialize (Hm _ c Hin).
    by rewrite decide_False in Hm by done.
  - pose proof (Hm _ _ Hx) as Hx'. destruct Hx' as (us & Hus & Hin').
    eexists _, x. split; [|split; [by exists us|done]].
    by destruct (ok_ready _ _ Hk' _ _ _ Hus Hin') as (? & _).
Qed.

(** C31: a task that locks a mutex held by a ready task of lower priority, and may wait, gives
    up the processor BLOCKED in the mutex's wait list, in a well-formed kernel in which the
    mutex is untouched, the holder has inherited the task's priority and is ready in the queue of
    that priority. When the task is woken, an unlimited lock makes it the holder at depth one with
    its base priority on record and reports success, and a limited lock that was not handed the
    mutex reports a timeout. (That a limited lock which was handed the mutex is told of a timeout
    too, contrary to sertos_scheduler.h, is declared as a finding.) *)
Theorem mutex_lock_inherits_and_blocks k V a c o m timeout :
  can_block k V c (LMutexWait a) (queue m) timeout -> mutex_is k V a m -> holder m = Some o ->
  o <> c -> placed k V o -> state (tcbs k o) = SERTOS_TASK_STATE_READY ->
  priority (tcbs k o) < priority (tcbs k c) ->
  wp (across_switch
        (fun k' => exists V', kernel_ok k' V' /\ state (tcbs k' c) = SERTOS_TASK_STATE_BLOCKED /\
           V' (LMutexWait a) = Some (insert_by_priority
             (fun x => if decide (x = o) then priority (tcbs k c) else priority (tcbs k x)) c (queue m)) /\
           mutexes k' = mutexes k /\
           priority (tcbs k' o) = priority (tcbs k c) /\ member V' (LReady (priority (tcbs k c))) o)
        (fun k' => woken k' c))
     (sertos_mutex_lock (Some a) timeout) k
     (fun r k' => if decide (timeout = SERTOS_WAIT_FOREVER)
        then r = SERTOS_STATUS_OK /\ mtx_owner (mutexes k' a) = Some c /\ mtx_lock_count (mutexes k' a) = 1 /\
             mtx_original_owner_priority (mutexes k' a) = base_priority (tcbs k' c)
        else mtx_owner (mutexes k' a) <> Some c -> r = SERTOS_STATUS_ERROR_TIMEOUT).
Proof.
  intros Hcb Hm Hh Hoc Hpl Hrd Hlt. unfold sertos_mutex_lock, sertos_scheduler_get_current_tcb. wp_steps.
  rewrite (mutex_magic_ok_true _ _ _ _ Hm). cbn [negb]. wp_steps.
  pose proof (proj1 (cb_current _ _ _ _ _ _ Hcb)) as Hc. rewrite Hc. wp_steps.
  apply wp_enter; [apply _|]. intros cr f. ksteps. rewrite (mi_owner _ _ _ _ Hm), Hh.
  rewrite decide_False by done. rewrite decide_False by congruence. wp_steps.
  pose proof (cb_ok _ _ _ _ _ _ Hcb) as Hk. pose proof (cb_timeout _ _ _ _ _ _ Hcb) as Ht.
  assert (Hmo : member V (LReady (priority (tcbs k o))) o) by by apply Hpl.
  assert (Hpo : 0 <= priority (tcbs k c) < MAXP).
  { destruct (cb_current _ _ _ _ _ _ Hcb) as (_ & _ & us & Hus & Hin).
    by destruct (ok_ready _ _ Hk _ _ _ Hus Hin) as (? & _). }
  set (k0 := k <| port ::= f |>).
  assert (Hcb0 : can_block k0 V c (LMutexWait a) (queue m) timeout).
  { destruct Hcb. split; try done. by eapply kernel_ok_same, Hk. }
  apply (wp_inherit _ k0 V a c o); [apply Hcb0|by rewrite <-Hh, <-(mi_owner _ _ _ _ Hm)|done|done|].
  intros k1 V1 Hi. rewrite (proj2 (Z.eqb_neq timeout _)) by (unfold SERTOS_NO_WAIT; lia). wp_steps.
  apply wp_exit; [apply _|]. intros g. wp_steps.
  pose proof (inherited_can_block _ _ _ _ _ _ _ _ _ Hcb0 Hoc Hi) as Hcb1.
  destruct Hi as [Hk1 Heq _ Him Hil].
  assert (Hto : forall x, priority (tcbs k1 x) =
    if decide (x = o) then priority (tcbs k c) else priority (tcbs k x)).
  { intros x. rewrite Heq. unfold resched. rsimpl. destruct (decide (x = o)) as [->|Hne].
    - rewrite fn_lookup_alter. simpl. lia.
    - by rewrite fn_lookup_alter_ne. }
  eapply (wp_block_away _ _ (k1 <| port ::= g |>) V1 c (LMutexWait a) (queue m)).
  - destruct Hcb1. split; try done. by eapply kernel_ok_same, Hk1.
  - intros k' V' [A1 A2 A3 A4 A5 A6 A7 A8 A9 A10]. exists V'. split; [done|]. split; [done|].
    split; [by rewrite A3; f_equal; apply insert_by_priority_ext|].
    assert (Hpk : priority (tcbs k' o) = priority (tcbs k c)).
    { destruct (A8 o Hoc) as [-> _ _ _]. simpl. by rewrite Hto, decide_True. }
    split; [by rewrite (proj1 (proj2 A10)), Heq|]. split; [done|]. apply A9; [|done]. specialize (Him _ _ Hmo). rewrite decide_True in Him by done.
    simpl in Him. by rewrite Z.max_r in Him by lia.
  - intros k' Hw. rewrite (block_result_woken _ _ _ Hw). case_decide; subst.
    + rewrite bool_decide_true by done. ksteps. rewrite !fn_lookup_alter. simpl. done.
    + rewrite bool_decide_false by done. by wp_steps.
Qed.
End props.

(** ** The theorems at concrete kernels *)

Abbreviation mtxM := 0x6100.

(** A of priority 3 holds the mutex; C of priority 5 runs. *)
Definition k_held : Kernel :=
  after (boot;; create tA 3 0x8000;; sertos_scheduler_start;; sertos_mutex_create_static (Some mtxM) true;;
    sertos_mutex_lock (Some mtxM) SERTOS_NO_WAIT;; create tC 5 0x8200) (blank true).
Definition v_held := sched_view [(0, [idle]); (3, [tA]); (5, [tC])] [] [idle; tA; tC] [(LMutexWait mtxM, [])].
Definition m_held : mutex_state := MutexState (Some tA) 1 [].

Lemma k_held_ok : kernel_ok k_held (view_of v_held).
Proof. check_kernel. Qed.
Lemma k_held_is : mutex_is k_held (view_of v_held) mtxM m_held.
Proof. split; vm_compute; reflexivity. Qed.
Lemma k_held_placed : placed k_held (view_of v_held) tA.
Proof.
  split.
  - intros _. exists [tA]. split; [vm_compute; reflexivity|by left].
  - intros Hst. exfalso. apply Hst. vm_compute. reflexivity.
Qed.
Lemma k_held_can_block timeout :
  0 < timeout < 2 ^ 32 -> can_block k_held (view_of v_held) tC (LMutexWait mtxM) [] timeout.
Proof.
  intros Ht. split; [apply k_held_ok| |vm_compute; reflexivity..| |reflexivity|vm_compute; reflexivity|vm_compute; lia|done].
  - split_and!; [vm_compute; reflexivity..|]. exists [tC]. split; [vm_compute; reflexivity|by left].
  - exists 0, idle. split; [done|]. split; [|done]. exists [idle]. split; [vm_compute; reflexivity|by left].
Qed.

(** A has taken the mutex and runs; C does not exist yet. *)
Definition k_holder : Kernel :=
  after (boot;; create tA 3 0x8000;; sertos_scheduler_start;; sertos_mutex_create_static (Some mtxM) true;;
    sertos_mutex_lock (Some mtxM) SERTOS_NO_WAIT) (blank true).
Definition v_holder := sched_view [(0, [idle]); (3, [tA])] [] [idle; tA] [(LMutexWait mtxM, [])].

Lemma k_holder_ok : kernel_ok k_holder (view_of v_holder).
Proof. check_kernel. Qed.
Lemma k_holder_is : mutex_is k_holder (view_of v_holder) mtxM m_held.
Proof. split; vm_compute; reflexivity. Qed.

(** C is turned away, and A has inherited priority 5; A, which runs, locks once more. *)
Lemma mutex_lock_refines_witness :
  (exists r k' V' m', exec (sertos_mutex_lock (Some mtxM) SERTOS_NO_WAIT) k_held = Some (r, k') /\
    kernel_ok k' V' /\ mutex_locks tC m_held r m' /\ mutex_is k' V' mtxM m' /\ mutex_ok m' /\
    (holder m_held = None -> mtx_original_owner_priority (mutexes k' mtxM) = priority (tcbs k_held tC)) /\
    forall t, tcbs k' t =
      if decide (holder m_held = Some t /\ t <> tC)
      then with_priority (Z.max (priority (tcbs k_held t)) (priority (tcbs k_held tC))) (tcbs k_held t)
      else tcbs k_held t) /\
  (current_ok k_holder (view_of v_holder) tA /\
   exists r k' V' m', exec (sertos_mutex_lock (Some mtxM) SERTOS_WAIT_FOREVER) k_holder = Some (r, k') /\
    kernel_ok k' V' /\ mutex_locks tA m_held r m' /\ mutex_is k' V' mtxM m' /\ mutex_ok m' /\
    (holder m_held = None -> mtx_original_owner_priority (mutexes k' mtxM) = priority (tcbs k_holder tA)) /\
    forall t, tcbs k' t =
      if decide (holder m_held = Some t /\ t <> tA)
      then with_priority (Z.max (priority (tcbs k_holder t)) (priority (tcbs k_holder tA))) (tcbs k_holder t)
      else tcbs k_holder t).
Proof.
  split; [|split].
  - apply (mutex_lock_refines k_held (view_of v_held) mtxM tC m_held SERTOS_NO_WAIT k_held_ok k_held_is).
    + done.
    + vm_compute. reflexivity.
    + assert (priority (tcbs k_held tC) = 5) as -> by (vm_compute; reflexivity). done.
    + intros o [= <-] _. apply k_held_placed.
    + done.
    + by right; right.
  - split_and!; [vm_compute; reflexivity..|]. exists [tA]. split; [vm_compute; reflexivity|by left].
  - apply (mutex_lock_refines k_holder (view_of v_holder) mtxM tA m_held SERTOS_WAIT_FOREVER k_holder_ok k_holder_is).
    + done.
    + vm_compute. reflexivity.
    + assert (priority (tcbs k_holder tA) = 3) as -> by (vm_compute; reflexivity). done.
    + by intros o [= <-].
    + done.
    + by right; left.
Defined.

Lemma mutex_unlock_refines_witness :
  exists r k' V' m', exec (sertos_mutex_unlock (Some mtxM)) k_holder = Some (r, k') /\ kernel_ok k' V' /\
    mutex_unlocks tA m_held r m' /\ mutex_is k' V' mtxM m' /\ mutex_ok m' /\
    (forall t, holder m_held = Some tA -> holder m' = Some t -> t <> tA ->
       runnable (state (tcbs k' t)) /\ member V' (LReady (priority (tcbs k_holder t))) t /\
       mtx_original_owner_priority (mutexes k' mtxM) = base_priority (tcbs k_holder t)).
Proof.
  apply (mutex_unlock_refines k_holder (view_of v_holder) mtxM tA m_held).
  - apply k_holder_ok.
  - apply k_holder_is.
  - done.
  - vm_compute. reflexivity.
  - intros _. vm_compute. reflexivity.
Defined.

Lemma mutex_lock_inherits_and_blocks_witness :
  wp (across_switch
        (fun k' => exists V', kernel_ok k' V' /\ state (tcbs k' tC) = SERTOS_TASK_STATE_BLOCKED /\
           V' (LMutexWait mtxM) = Some (insert_by_priority
             (fun x => if decide (x = tA) then priority (tcbs k_held tC) else priority (tcbs k_held x)) tC []) /\
           mutexes k' = mutexes k_held /\ priority (tcbs k' tA) = priority (tcbs k_held tC) /\
           member V' (LReady (priority (tcbs k_held tC))) tA)
        (fun k' => woken k' tC))
     (sertos_mutex_lock (Some mtxM) SERTOS_WAIT_FOREVER) k_held
     (fun r k' => if decide (SERTOS_WAIT_FOREVER = SERTOS_WAIT_FOREVER)
        then r = SERTOS_STATUS_OK /\ mtx_owner (mutexes k' mtxM) = Some tC /\
             mtx_lock_count (mutexes k' mtxM) = 1 /\
             mtx_original_owner_priority (mutexes k' mtxM) = base_priority (tcbs k' tC)
        else mtx_owner (mutexes k' mtxM) <> Some tC -> r = SERTOS_STATUS_ERROR_TIMEOUT).
Proof.
  apply (mutex_lock_inherits_and_blocks k_held (view_of v_held) mtxM tC tA m_held SERTOS_WAIT_FOREVER).
  - by apply k_held_can_block.
  - apply k_held_is.
  - done.
  - done.
  - apply k_held_placed.
  - vm_compute. reflexivity.
  - apply Z.ltb_lt. vm_compute. reflexivity.
Defined.

(** ** Inheritance and hand-over at fault *)

Abbreviation lock_M timeout := (sertos_mutex_lock (Some mtxM) timeout).
Abbreviation unlock_M := (sertos_mutex_unlock (Some mtxM)).

(** Inheritance inverts priorities when the holder runs: C of priority 5 waits for the
    mutex that A of priority 3 holds, so A runs with priority 5; A unlocks; A's priority is 3
    again but A stays at the head of ready queue 5, ahead of the new holder C, and
    [select_next_task] keeps selecting A. *)
Theorem unlock_leaves_holder_in_boosted_queue :
  let k := until_switch (lock_M SERTOS_WAIT_FOREVER) k_held in
  sertos_current_tcb k = Some tA /\ priority (tcbs k tA) = 5 /\
  exists k', exec unlock_M k = Some (SERTOS_STATUS_OK, k') /\
    mtx_owner (mutexes k' mtxM) = Some tC /\ state (tcbs k' tC) = SERTOS_TASK_STATE_READY /\
    priority (tcbs k' tC) = 5 /\ priority (tcbs k' tA) = 3 /\ sertos_current_tcb k' = Some tA /\
    linked_list_peek_head (LReady 5) (heap k') = Some (NLink FState tA) /\
    result sertos_scheduler_select_next_task k' = Some (Some tA).
Proof.
  cbv zeta. split; [vm_compute; reflexivity|]. split; [vm_compute; reflexivity|].
  exists (after unlock_M (until_switch (lock_M SERTOS_WAIT_FOREVER) k_held)).
  split; [apply exec_after; vm_compute; reflexivity|]. split_and!; vm_compute; reflexivity.
Qed.

(** A lock with a limited timeout that is granted reports a timeout, and the mutex is then
    held by a task that does not know it: C locks with a timeout of 5 ticks, A unlocks at once,
    C is told of a timeout and is the holder. *)
Theorem granted_limited_lock_times_out :
  exists k', run [id; id; id; id; id; id; after unlock_M] (lock_M 5 k_held) =
      Some (SERTOS_STATUS_ERROR_TIMEOUT, k') /\
    mtx_owner (mutexes k' mtxM) = Some tC /\ mtx_lock_count (mutexes k' mtxM) = 1.
Proof.
  exists (default k_held (snd <$> run [id; id; id; id; id; id; after unlock_M] (lock_M 5 k_held))).
  split; [apply some_pair; vm_compute; reflexivity|]. split; vm_compute; reflexivity.
Qed.
