(* ===== verification/TimerProps.v ===== *)
(** Software timers: the tick and the operations that arm and disarm them. *)
From S2P Require Import Prelude Effects Types Platform LinkedLists Kernel Invariant RefPlatform.
From S2P Require Import KernelCheck SchedCore SchedCoreSpec DelaySpec TaskInfo Stats Timer.
From S2P Require Import Scheduler Task SchedulerSpec BlockSpec TaskSpec TimerSpec Scenarios.

Section props.
Context `{PL : Platform} `{!PlatformLaws} `{!Callbacks}.
Implicit Types (k : Kernel) (V : lview) (t : addr) (ts : list addr).

(** A call that leaves the timers [us] armed. *)
Lemma timer_call_exec k (m : M Kernel SertosStatus) us tms :
  wp quiet m k (fun r k' => r = SERTOS_STATUS_OK /\ (exists V', timers_ok k' V' us) /\
    timers k' = tms /\ tcbs k' = tcbs k) ->
  exists k' V', exec m k = Some (SERTOS_STATUS_OK, k') /\ timers_ok k' V' us /\
    timers k' = tms /\ tcbs k' = tcbs k.
Proof. intros (r & k' & He & -> & [V' Hk'] & ? & ?)%wp_exec. by exists k', V'. Qed.

(** C32: one timer tick over a list of armed timers whose callbacks only touch byte memory
    terminates, keeps the kernel well-formed and every task as it is, counts every armed timer
    down by one, rearms the periodic timers that expire with their full period and disarms and
    unlinks the one-shot ones, leaves every other timer alone, and calls the callbacks of
    exactly the timers that expire, in list order. *)
Theorem timer_tick_correct `{!MemoryCallbacks} k V ts :
  timers_ok k V ts -> s_timer_subsystem_initialized k = true -> (length ts <= loop_fuel)%nat ->
  exists k' V', exec sertos_timer_tick k = Some (tt, k') /\
    timers_ok k' V' (filter (fun t => stays_armed (timers k t)) ts) /\
    tcbs k' = tcbs k /\
    (forall t, t ∈ ts -> timers k' t = tick_timer (timers k t)) /\
    (forall t, t ∉ ts -> timers k' t = timers k t) /\
    mem k' = ring_timers (timers k) ts (mem k).
Proof.
  intros Ht Hi Hf.
  destruct (proj1 (wp_exec sertos_timer_tick k (fun _ k' => exists V', 
    timers_ok k' V' (filter (fun t => stays_armed (timers k t)) ts) /\ tcbs k' = tcbs k /\
    (forall t, t ∈ ts -> timers k' t = tick_timer (timers k t)) /\
    (forall t, t ∉ ts -> timers k' t = timers k t) /\
    mem k' = ring_timers (timers k) ts (mem k)))) as ([] & k' & He & V' & Hk'); [|by exists k', V'].
  apply (wp_timer_tick _ k V ts); [done..|]. intros h k' ts' Hk' Hin Hout. by eexists.
Qed.

(** C33: [sertos_timer_start] and [sertos_timer_reset] arm a valid timer, whether it was armed
    or not, with its whole period, once and at the end of the list;
    [sertos_timer_change_period] does so with the new period; [sertos_timer_stop] disarms it;
    they terminate and change no other timer and no task. *)
Theorem timer_start_stop_correct k V ts t n :
  timers_ok k V ts -> tm_magic (timers k t) = SERTOS_TIMER_MAGIC_WORD -> 0 < tm_period_ticks (timers k t) ->
  0 < n ->
  (exists k' V', exec (sertos_timer_start (Some t)) k = Some (SERTOS_STATUS_OK, k') /\
     timers_ok k' V' (drop t ts ++ [t]) /\ timers k' = alter armed_timer t (timers k) /\ tcbs k' = tcbs k) /\
  exec (sertos_timer_reset (Some t)) k = exec (sertos_timer_start (Some t)) k /\
  (exists k' V', exec (sertos_timer_change_period (Some t) n) k = Some (SERTOS_STATUS_OK, k') /\
     timers_ok k' V' (drop t ts ++ [t]) /\
     timers k' = alter (fun tm => armed_timer (tm <| tm_period_ticks := n |>)) t (timers k) /\
     tcbs k' = tcbs k) /\
  (exists k' V', exec (sertos_timer_stop (Some t)) k = Some (SERTOS_STATUS_OK, k') /\
     timers_ok k' V' (drop t ts) /\
     timers k' = alter (set tm_is_active (fun _ => false)) t (timers k) /\ tcbs k' = tcbs k).
Proof.
  intros Ht Hm Hp Hn. split_and!; [|done|..].
  - apply timer_call_exec. apply (wp_timer_start _ k V ts t); [apply Ht|by intros; apply Ht|done..|].
    intros k' Ho us Hus Htm. split_and!; [done|by eexists|done|by rewrite Ho].
  - apply timer_call_exec. apply (wp_timer_change_period _ k V ts t n); [done..|].
    intros k' Ho us Hus Htm. split_and!; [done|by eexists|done|by rewrite Ho].
  - apply timer_call_exec. apply (wp_timer_stop _ k V ts t); [done..|].
    intros k' Ho Hus Htm. split_and!; [done|by eexists|done|by rewrite Ho].
Qed.
End props.

(** ** The theorems at concrete kernels *)

Abbreviation tm1 := 0x7000.
Abbreviation tm2 := 0x7100.
Abbreviation tm3 := 0x7200.

Definition timer_config (period : Z) (periodic : bool) : SertosTimerConfig :=
  mkTimerConfig (Some "timer"%string) period periodic (Some 0x300) None.
Definition arm (t period : Z) (periodic : bool) : M Kernel unit :=
  sertos_timer_create_static (Some (timer_config period periodic)) (Some t) true;;
  sertos_timer_start (Some t);; mret tt.

(** Creating and arming a timer is nothing to the others. *)
Lemma wp_create_other `{PL : Platform} (k : @Kernel PL) t period b x (Q : SertosStatus * ptr -> Kernel -> Prop) :
  0 < period -> x <> t -> (forall r k', timers k' x = timers k x -> Q r k') ->
  wp quiet (sertos_timer_create_static (Some (timer_config period b)) (Some t) true) k Q.
Proof.
  intros Hp Hx HQ. unfold sertos_timer_create_static, sertos_timer_init. cbn [timer_config tcfg_period].
  rewrite (proj2 (Z.eqb_neq _ _)) by lia. cbn [orb is_null tcfg_callback timer_config]. wp_steps.
  apply wp_when; intros _; ksteps; apply HQ; rsimpl; by rewrite fn_lookup_alter_ne.
Qed.

Lemma create_other `{PL : Platform} (k : @Kernel PL) t period b x : 0 < period -> x <> t ->
  timers (after (sertos_timer_create_static (Some (timer_config period b)) (Some t) true) k) x = timers k x.
Proof.
  intros Hp Hx.
  assert (Hwp : wp quiet (sertos_timer_create_static (Some (timer_config period b)) (Some t) true) k
    (fun _ k' => timers k' x = timers k x)) by by apply (wp_create_other _ _ _ _ x).
  apply wp_exec in Hwp as (r & k' & He & Ht). unfold after. by rewrite He.
Qed.

Lemma wp_start_other k t x (Q : SertosStatus -> Kernel -> Prop) :
  x <> t -> (forall r k', timers k' x = timers k x -> Q r k') -> wp quiet (sertos_timer_start (Some t)) k Q.
Proof.
  intros Hx HQ. unfold sertos_timer_start. wp_steps. destruct (timer_magic_ok k t); cbn [negb]; wp_steps; [|by apply HQ].
  apply wp_enter; [apply _|]. intros c f. ksteps.
  apply wp_when; intros _; ksteps; (apply wp_exit; [apply _|]); intros g; wp_steps; apply HQ; rsimpl;
    by rewrite !fn_lookup_alter_ne by done.
Qed.

Lemma arm_other k t period b x : 0 < period -> x <> t -> timers (after (arm t period b) k) x = timers k x.
Proof.
  intros Hp Hx. assert (wp quiet (arm t period b) k (fun _ k' => timers k' x = timers k x)) as Hwp.
  { unfold arm. wp_step. apply (wp_create_other _ _ _ _ x); [done..|]. intros r k' Hk'. wp_steps.
    apply (wp_start_other _ _ x); [done|]. intros r2 k2 Hk2. wp_steps. congruence. }
  apply wp_exec in Hwp as (r & k' & He & Ht). unfold after. by rewrite He.
Qed.

(** A one-shot timer that expires at the next tick, one that has a tick more, and a periodic
    one that expires too. *)
Definition k_timers0 : Kernel := after (boot;; sertos_timer_init) (blank true).
Definition k_timers : Kernel := after (arm tm3 1 true) (after (arm tm2 2 false) (after (arm tm1 1 false) k_timers0)).
Definition v_timers := sched_view [(0, [idle])] [] [idle] [(LTimers, [tm1; tm2; tm3])].

Lemma k_timers_ok : timers_ok k_timers (view_of v_timers) [tm1; tm2; tm3].
Proof.
  split; [split; [check_kernel|vm_compute; reflexivity|]|].
  - intros t. destruct (decide (t ∈ [tm1; tm2; tm3])) as [Hin|Hout].
    + split; [done|]. intros _. rewrite !elem_of_cons, elem_of_nil in Hin.
      destruct Hin as [->|[->|[->|[]]]]; vm_compute; reflexivity.
    + rewrite !elem_of_cons, elem_of_nil in Hout. unfold k_timers. rewrite !arm_other by (lia || tauto).
      assert (timers k_timers0 t = timers (blank true) t) as -> by (vm_compute; reflexivity).
      split; [done|]. set_solver.
  - intros t. rewrite !elem_of_cons, elem_of_nil. intros [->|[->|[->|[]]]]; vm_compute; split; congruence.
Qed.

(** Callbacks that count their calls at the address of the timer. *)
Definition count_call (f t : addr) (p : ptr) (m : Mem) : Mem := alter (fun n => n + 1) t m.
Definition count_hook (f : addr) (m : Mem) : Mem := alter (fun n => n + 1) f m.
Definition counting_callbacks : @Callbacks host_platform :=
  {| call_hook := fun f => modify (set mem (count_hook f));
     call_timer_callback := fun f t p => modify (set mem (count_call f t p)) |}.
Definition counting_memory : @MemoryCallbacks host_platform counting_callbacks :=
  @Build_MemoryCallbacks _ counting_callbacks count_call count_hook
    (fun _ _ _ => eq_refl) (fun _ => eq_refl).

Lemma timer_tick_correct_witness :
  let ts := [tm1; tm2; tm3] in
  exists k' V', exec (@sertos_timer_tick _ counting_callbacks) k_timers = Some (tt, k') /\
    timers_ok k' V' (filter (fun t => stays_armed (timers k_timers t)) ts) /\
    tcbs k' = tcbs k_timers /\
    (forall t, t ∈ ts -> timers k' t = tick_timer (timers k_timers t)) /\
    (forall t, t ∉ ts -> timers k' t = timers k_timers t) /\
    mem k' = @ring_timers _ _ counting_memory (timers k_timers) ts (mem k_timers).
Proof.
  apply (@timer_tick_correct _ _ counting_callbacks counting_memory k_timers (view_of v_timers)).
  - apply k_timers_ok.
  - vm_compute. reflexivity.
  - vm_compute. lia.
Defined.

Lemma timer_start_stop_correct_witness :
  let ts := [tm1; tm2; tm3] in
  (exists k' V', exec (sertos_timer_start (Some tm2)) k_timers = Some (SERTOS_STATUS_OK, k') /\
     timers_ok k' V' (drop tm2 ts ++ [tm2]) /\ timers k' = alter armed_timer tm2 (timers k_timers) /\
     tcbs k' = tcbs k_timers) /\
  exec (sertos_timer_reset (Some tm2)) k_timers = exec (sertos_timer_start (Some tm2)) k_timers /\
  (exists k' V', exec (sertos_timer_change_period (Some tm2) 9) k_timers = Some (SERTOS_STATUS_OK, k') /\
     timers_ok k' V' (drop tm2 ts ++ [tm2]) /\
     timers k' = alter (fun tm => armed_timer (tm <| tm_period_ticks := 9 |>)) tm2 (timers k_timers) /\
     tcbs k' = tcbs k_timers) /\
  (exists k' V', exec (sertos_timer_stop (Some tm2)) k_timers = Some (SERTOS_STATUS_OK, k') /\
     timers_ok k' V' (drop tm2 ts) /\
     timers k' = alter (set tm_is_active (fun _ => false)) tm2 (timers k_timers) /\
     tcbs k' = tcbs k_timers).
Proof.
  apply (timer_start_stop_correct k_timers (view_of v_timers) [tm1; tm2; tm3] tm2 9 k_timers_ok).
  - vm_compute. reflexivity.
  - apply Z.ltb_lt. vm_compute. reflexivity.
  - lia.
Defined.

(** Callbacks that stop the second timer. *)
Definition stopping_callbacks : @Callbacks host_platform :=
  {| call_hook := fun _ => mret tt;
     call_timer_callback := fun f t p => sertos_timer_stop (Some tm2);; mret tt |}.

(** A callback that stops the timer after its own derails the walk: the walk goes on from
    the stopped timer, whose pointers are NULL, so the timers behind it miss the tick. *)
Theorem stopping_the_next_timer_skips_the_rest :
  exists k', exec (@sertos_timer_tick _ stopping_callbacks) k_timers = Some (tt, k') /\
    tm_is_active (timers k' tm2) = false /\ tm_remaining_ticks (timers k' tm2) = 1 /\
    timers k' tm3 = timers k_timers tm3 /\ ringing (timers k_timers tm3) = true.
Proof.
  exists (after (@sertos_timer_tick _ stopping_callbacks) k_timers).
  split; [apply exec_after; vm_compute; reflexivity|]. split_and!; vm_compute; reflexivity.
Qed.
