(* ===== verification/QueueProps.v ===== *)
(** Message queues: sizes, and the transfers' refinement of a bounded FIFO of items. *)
From S2P Require Import Prelude Effects Types Platform LinkedLists Kernel Invariant RefPlatform.
From S2P Require Import KernelCheck SchedCore SchedCoreSpec DelaySpec TaskInfo Stats Timer.
From S2P Require Import Scheduler Task Queue SchedulerSpec BlockSpec TaskSpec IpcSpec Scenarios.

(** ** Sizes *)

Lemma wrap_double w e : 1 <= e < w - 1 -> wrap w (Z.shiftl (2 ^ e) 1) = 2 ^ (e + 1).
Proof.
  intros He. rewrite Z.shiftl_mul_pow2 by lia. rewrite <-Z.pow_add_r by lia. unfold wrap.
  apply Z.mod_small. split; [lia|]. apply Z.pow_lt_mono_r; lia.
Qed.

Lemma power_loop_stops w v fuel e :
  1 <= e <= w - 1 -> v <= 2 ^ (w - 1) -> e = 1 \/ 2 ^ (e - 1) < v -> w - e <= Z.of_nat fuel ->
  exists e', 1 <= e' <= w - 1 /\ next_power_of_two_loop w fuel (2 ^ e) v = Some (2 ^ e') /\ v <= 2 ^ e' /\
    (e' = 1 \/ 2 ^ (e' - 1) < v).
Proof.
  revert e. induction fuel as [|fuel IH]; intros e He Hv Hlo Hf; [lia|]. cbn [next_power_of_two_loop].
  destruct (Z.ltb_spec (2 ^ e) v) as [Hlt|Hge]; [|by exists e].
  assert (e <> w - 1) by (intros ->; lia). rewrite wrap_double by lia. apply IH; [lia|done| |lia].
  right. by replace (e + 1 - 1) with e by lia.
Qed.

Lemma power_loop_runs w v fuel p :
  1 < w -> 2 ^ (w - 1) < v -> p = 0 \/ (exists e, 1 <= e <= w - 1 /\ p = 2 ^ e) ->
  next_power_of_two_loop w fuel p v = None.
Proof.
  intros Hw Hv. revert p. induction fuel as [|fuel IH]; intros p Hp; [done|]. cbn [next_power_of_two_loop].
  assert (p < v) as Hlt.
  { destruct Hp as [->|(e & He & ->)].
    - pose proof (Z.pow_nonneg 2 (w - 1)). lia.
    - pose proof (Z.pow_le_mono_r 2 e (w - 1)). lia. }
  rewrite (proj2 (Z.ltb_lt _ _) Hlt). apply IH. destruct Hp as [->|(e & He & ->)]; [by left|].
  destruct (Z.eq_dec e (w - 1)) as [->|Hne].
  - left. rewrite Z.shiftl_mul_pow2 by lia. rewrite <-Z.pow_add_r by lia. unfold wrap.
    replace (w - 1 + 1) with w by lia. apply Z_mod_same_full.
  - right. exists (e + 1). split; [lia|]. apply wrap_double. lia.
Qed.

(** C40: on a [w]-bit [size_t], [next_power_of_two] returns the least power of two that is at
    least two and at least its argument, within [w] iterations, when that power is a [size_t];
    otherwise it never returns. *)
Theorem next_power_of_two_exact w v :
  1 < w -> 0 <= v < 2 ^ w ->
  if v <=? 2 ^ (w - 1) then
    exists e, 1 <= e < w /\ (forall fuel, w <= Z.of_nat fuel -> next_power_of_two w fuel v = Some (2 ^ e)) /\
      v <= 2 ^ e /\ (e = 1 \/ 2 ^ (e - 1) < v)
  else forall fuel, next_power_of_two w fuel v = None.
Proof.
  intros Hw Hv. destruct (Z.leb_spec v (2 ^ (w - 1))) as [Hle|Hgt].
  - destruct (power_loop_stops w v (Z.to_nat w) 1) as (e & He & Hl & Hve & Hmin); [lia|done|by left|lia|].
    exists e. split; [lia|]. split; [|done]. intros fuel Hf. unfold next_power_of_two.
    destruct (power_loop_stops w v fuel 1) as (e' & He' & Hl' & Hve' & Hmin'); [lia|done|by left|lia|].
    change 2 with (2 ^ 1). rewrite Hl'. f_equal. f_equal.
    destruct (Z.lt_trichotomy e e') as [Hlt|[->|Hlt]]; [|done|]; exfalso.
    + destruct Hmin' as [->|Hm]; [lia|]. pose proof (Z.pow_le_mono_r 2 e (e' - 1)). lia.
    + destruct Hmin as [->|Hm]; [lia|]. pose proof (Z.pow_le_mono_r 2 e' (e - 1)). lia.
  - intros fuel. apply power_loop_runs; [done|done|]. right. exists 1. split; [lia|done].
Qed.

(** ** Abstract queues *)

(** The items, oldest first, and how many fit. *)
Record queue_state : Type := QueueState { items : list (list Z); slots : Z }.

(** [x] is sent by someone who does not wait. *)
Inductive queue_sends (x : list Z) : queue_state -> SertosStatus -> queue_state -> Prop :=
  | send_fits xs n : Z.of_nat (length xs) < n ->
      queue_sends x (QueueState xs n) SERTOS_STATUS_OK (QueueState (xs ++ [x]) n)
  | send_full xs n : n <= Z.of_nat (length xs) ->
      queue_sends x (QueueState xs n) SERTOS_STATUS_ERROR_TIMEOUT (QueueState xs n).

(** [x] is what a receiver that does not wait gets, if anything. *)
Inductive queue_receives (x : list Z) : queue_state -> SertosStatus -> queue_state -> Prop :=
  | receive_oldest xs n : queue_receives x (QueueState (x :: xs) n) SERTOS_STATUS_OK (QueueState xs n)
  | receive_none n : queue_receives x (QueueState [] n) SERTOS_STATUS_ERROR_TIMEOUT (QueueState [] n).

(** Items of [size] bytes side by side. *)
Definition sized (size : Z) (xs : list (list Z)) : Prop := Forall (fun x => Z.of_nat (length x) = size) xs.

Lemma length_concat_sized size xs :
  sized size xs -> Z.of_nat (length (concat xs)) = Z.of_nat (length xs) * size.
Proof. induction 1 as [|x xs Hx _ IH]; [done|]. cbn [concat length]. rewrite length_app. lia. Qed.

Lemma concat_snoc {A} (xs : list (list A)) x : concat (xs ++ [x]) = concat xs ++ x.
Proof. rewrite concat_app. simpl. by rewrite app_nil_r. Qed.

Section props.
Context `{PL : Platform} `{!PlatformLaws} `{!Callbacks}.
Implicit Types (k : Kernel) (V : lview) (a t i : addr).

(** The queue at [a] is valid, is [q], and has [ws] waiting to send and [wr] to receive. *)
Record queue_is k V a (q : queue_state) (ws wr : list addr) : Prop := Queue_is {
  qi_magic : q_magic (queues k a) = SERTOS_QUEUE_MAGIC_WORD;
  qi_size : 0 < q_item_size (queues k a);
  qi_slots : slots q = ring_buffer_capacity (q_ring_buf (queues k a)) / q_item_size (queues k a);
  qi_ring : ring_holds (q_ring_buf (queues k a)) (mem k) (concat (items q));
  qi_sized : sized (q_item_size (queues k a)) (items q);
  qi_send : V (LQueueSend a) = Some ws;
  qi_recv : V (LQueueRecv a) = Some wr }.

(** The buffer of an item at [i] is not part of the queue's storage. *)
Definition separate k a i : Prop :=
  forall x, i <= x < i + q_item_size (queues k a) -> ~ in_storage (q_ring_buf (queues k a)) x.

Lemma queue_magic_ok_true k V a q ws wr : queue_is k V a q ws wr -> queue_magic_ok k a = true.
Proof. intros []. unfold queue_magic_ok. by apply Z.eqb_eq. Qed.

Lemma queue_is_dispatch k k' V a q ws wr : only_dispatch k k' -> queue_is k V a q ws wr -> queue_is k' V a q ws wr.
Proof. intros Ho []. split; rewrite ?(od_queues _ _ Ho), ?(od_mem _ _ Ho); done. Qed.

Lemma queue_count k V a q ws wr :
  queue_is k V a q ws wr ->
  ring_buffer_count (q_ring_buf (queues k a)) = Z.of_nat (length (items q)) * q_item_size (queues k a).
Proof. intros []. rewrite <-length_concat_sized by done. by eapply ring_count_law. Qed.

(** The tests on bytes are tests on items. *)
Lemma queue_full_spec k V a q ws wr :
  queue_is k V a q ws wr -> queue_full (queues k a) = (slots q <=? Z.of_nat (length (items q))).
Proof.
  intros Hq. pose proof (queue_count _ _ _ _ _ _ Hq) as Hc. destruct Hq as [_ Hs Hsl Hr _ _ _].
  destruct (ring_count_law _ _ _ Hr) as [Hc' Hle]. unfold queue_full, queue_free_bytes.
  rewrite Hsl. rewrite Hc' in *. set (cap := ring_buffer_capacity _) in *. set (size := q_item_size _) in *.
  set (n := Z.of_nat (length (items q))) in *. rewrite Hc in *.
  pose proof (Z.div_mod cap size ltac:(lia)). pose proof (Z.mod_pos_bound cap size Hs).
  apply Bool.eq_iff_eq_true. rewrite Z.leb_le.
  destruct (Z.ltb_spec (n * size) cap); rewrite Z.ltb_lt; split; nia.
Qed.

Lemma queue_empty_spec k V a q ws wr :
  queue_is k V a q ws wr -> queue_empty (queues k a) = bool_decide (items q = []).
Proof.
  intros Hq. pose proof (queue_count _ _ _ _ _ _ Hq) as Hc. destruct Hq as [_ Hs _ _ _ _ _].
  unfold queue_empty. rewrite Hc. destruct (items q) as [|x xs]; simpl.
  - by apply Z.ltb_lt.
  - apply Z.ltb_ge. nia.
Qed.

(** ** Moving one item *)

Lemma wp_queue_write P k V a q ws wr i (Q : unit -> Kernel -> Prop) :
  queue_is k V a q ws wr -> separate k a i -> Z.of_nat (length (items q)) < slots q ->
  (forall rb m, let k' := k <| queues ::= alter (set q_ring_buf (fun _ => rb)) a |> <| mem := m |> in
     let x := mem_bytes (mem k) i (Z.to_nat (q_item_size (queues k a))) in
     queue_is k' V a (QueueState (items q ++ [x]) (slots q)) ws wr ->
     (forall y, ~ in_storage (q_ring_buf (queues k a)) y -> m y = mem k y) -> Q tt k') ->
  wp P (queue_write a i) k Q.
Proof.
  intros Hq Hsep Hlt HQ. pose proof (queue_count _ _ _ _ _ _ Hq) as Hcount.
  destruct Hq as [Hm Hs Hsl Hr Hsz Hws Hwr].
  destruct (ring_count_law _ _ _ Hr) as [Hc Hle]. unfold queue_write. ksteps.
  set (rb := q_ring_buf (queues k a)) in *. set (size := q_item_size (queues k a)) in *.
  assert (Hw : Z.min size (ring_buffer_capacity rb - Z.of_nat (length (concat (items q)))) = size).
  { rewrite <-Hc, Hcount. apply Z.min_l. pose proof (Z.mul_div_le (ring_buffer_capacity rb) size Hs). nia. }
  destruct (ring_write_law rb (mem k) _ i size Hr) as (rb' & m' & He & (Hb & Hmk & Hcap) & Hr' & Hout);
    [lia|by rewrite Hw|]. rewrite Hw in *. rewrite He. cbn [fst snd]. apply HQ; [|done].
  split; rsimpl; rewrite ?fn_lookup_alter; rsimpl; simpl; try done.
  - by rewrite Hcap.
  - by rewrite concat_snoc.
  - apply Forall_app. split; [done|]. constructor; [|done]. rewrite length_mem_bytes. fold size. lia.
Qed.

Lemma wp_queue_read P k V a x xs n ws wr i (Q : unit -> Kernel -> Prop) :
  queue_is k V a (QueueState (x :: xs) n) ws wr -> separate k a i ->
  (forall rb m, let k' := k <| queues ::= alter (set q_ring_buf (fun _ => rb)) a |> <| mem := m |> in
     queue_is k' V a (QueueState xs n) ws wr ->
     mem_bytes m i (Z.to_nat (q_item_size (queues k a))) = x ->
     (forall y, ~ i <= y < i + q_item_size (queues k a) -> m y = mem k y) -> Q tt k') ->
  wp P (queue_read a i) k Q.
Proof.
  intros [Hm Hs Hsl Hr Hsz Hws Hwr] Hsep HQ. unfold queue_read. ksteps. simpl in *.
  set (rb := q_ring_buf (queues k a)) in *. set (size := q_item_size (queues k a)) in *.
  apply Forall_cons in Hsz as [Hx Hsz].
  assert (Hw : Z.min size (Z.of_nat (length (x ++ concat xs))) = size).
  { rewrite length_app. lia. }
  destruct (ring_read_law rb (mem k) _ i size Hr) as (rb' & m' & He & (Hb & Hmk & Hcap) & Hr' & Hb' & Hout);
    [lia|by rewrite Hw|]. rewrite Hw in *. rewrite He. cbn [fst snd].
  assert (Hn : Z.to_nat size = length x) by lia. rewrite Hn in *.
  rewrite drop_app_length in Hr'. rewrite take_app_length in Hb'. apply HQ; [|done|done].
  split; rsimpl; rewrite ?fn_lookup_alter; rsimpl; simpl; try done. by rewrite Hcap.
Qed.

(** ** Waking the other side *)

Lemma queue_is_woken k k' V V' a q ws wr ws' wr' :
  queue_is k V a q ws wr -> queues k' = queues k -> mem k' = mem k ->
  V' (LQueueSend a) = Some ws' -> V' (LQueueRecv a) = Some wr' -> queue_is k' V' a q ws' wr'.
Proof. intros [] Hq Hm ??. split; rewrite ?Hq, ?Hm; done. Qed.

(** The test of the loop, once: nobody waits who need not. *)
Lemma wp_queue_wait_once k a fuel blocked wl timeout cs (m : Z -> M Kernel SertosStatus) (Q : SertosStatus -> Kernel -> Prop) :
  (0 < fuel)%nat -> (blocked (queues k a) = true -> timeout = SERTOS_NO_WAIT) ->
  (blocked (queues k a) = false -> wp quiet (m cs) k Q) ->
  (blocked (queues k a) = true -> forall f, Q SERTOS_STATUS_ERROR_TIMEOUT (k <| port ::= f |>)) ->
  wp quiet (queue_wait_loop fuel a blocked wl timeout cs m) k Q.
Proof.
  intros Hf Ht Hgo Hno. destruct fuel as [|fuel]; [lia|]. cbn [queue_wait_loop]. unfold rd_queue. wp_step. wp_step.
  destruct (blocked (queues k a)) eqn:Hb; cbn [negb]; [|by apply Hgo].
  rewrite (Ht eq_refl), Z.eqb_refl. wp_steps. apply wp_exit; [apply _|]. intros g. wp_steps. by apply Hno.
Qed.

(** C15: [sertos_queue_send] by someone who need not or does not want to wait, from a buffer
    apart from the queue's storage, terminates, keeps the kernel well-formed, writes nothing but
    the queue's storage, and behaves as the abstract send: the item is appended and the first
    receiver that waits is made READY, or the queue is full and the call times out. *)
Theorem queue_send_refines k V a q ws wr i timeout :
  kernel_ok k V -> queue_is k V a q ws wr -> separate k a i -> (0 < loop_fuel)%nat ->
  Z.of_nat (length (items q)) < slots q \/ timeout = SERTOS_NO_WAIT ->
  let x := mem_bytes (mem k) i (Z.to_nat (q_item_size (queues k a))) in
  exists r k', exec (sertos_queue_send (Some a) (Some i) timeout) k = Some (r, k') /\
    exists V' q' wr', kernel_ok k' V' /\ queue_sends x q r q' /\ queue_is k' V' a q' ws wr' /\
      (r = SERTOS_STATUS_OK -> wr' = tail wr /\ served k k' V' wr) /\
      (forall y, ~ in_storage (q_ring_buf (queues k a)) y -> mem k' y = mem k y).
Proof.
  intros Hk Hq Hsep Hf Hnb x. apply wp_exec. unfold sertos_queue_send, queue_args. wp_steps.
  rewrite (queue_magic_ok_true _ _ _ _ _ _ Hq). wp_steps. apply wp_enter; [apply _|]. intros cs f.
  set (k0 := k <| port ::= f |>).
  assert (Hk0 : kernel_ok k0 V) by by eapply kernel_ok_same, Hk.
  assert (Hq0 : queue_is k0 V a q ws wr) by by destruct Hq.
  pose proof (queue_full_spec _ _ _ _ _ _ Hq0) as Hfull. destruct q as [xs n]. cbn [items slots] in *.
  apply wp_queue_wait_once; [done| | |].
  - rewrite Hfull. intros Hle. apply Z.leb_le in Hle. destruct Hnb; [lia|done].
  - rewrite Hfull. intros Hlt. apply Z.leb_gt in Hlt. wp_step.
    apply (wp_queue_write _ k0 V a (QueueState xs n) ws wr); [done|done|done|].
    intros rb m k1 x1 Hq1 Hout. fold (wake_one true (LQueueRecv a) cs SERTOS_STATUS_OK).
    apply (wp_wake_one k1 V true (LQueueRecv a) wr); [by eapply kernel_ok_same, Hk|done|apply Hq|].
    intros k2 V2 Hk2 Hqs _ Hms Hserved Htl Hothers. specialize (Hserved eq_refl). exists V2, (QueueState (xs ++ [x]) n), (tail wr).
    split; [done|]. split; [by constructor|]. split.
    + eapply queue_is_woken; [exact Hq1|done|done| |done]. apply Hothers; [done|done|apply Hq].
    + split; [by split|]. intros y Hy. rewrite Hms. by apply Hout.
  - rewrite Hfull. intros Hle g. apply Z.leb_le in Hle. exists V, (QueueState xs n), wr.
    split; [by eapply kernel_ok_same, Hk|]. split; [by constructor|]. split; [by destruct Hq|]. by split.
Qed.

Lemma queue_receive_spec k V a q ws wr i timeout :
  kernel_ok k V -> queue_is k V a q ws wr -> separate k a i -> (0 < loop_fuel)%nat ->
  items q <> [] \/ timeout = SERTOS_NO_WAIT ->
  exists r k', exec (sertos_queue_receive (Some a) (Some i) timeout) k = Some (r, k') /\
    exists V' q' ws', kernel_ok k' V' /\ queue_is k' V' a q' ws' wr /\
      queue_receives (mem_bytes (mem k') i (Z.to_nat (q_item_size (queues k a)))) q r q' /\
      (r = SERTOS_STATUS_OK -> ws' = tail ws /\ served k k' V' ws) /\
      (forall y, ~ i <= y < i + q_item_size (queues k a) -> mem k' y = mem k y).
Proof.
  intros Hk Hq Hsep Hf Hnb. apply wp_exec. unfold sertos_queue_receive, queue_args. wp_steps.
  rewrite (queue_magic_ok_true _ _ _ _ _ _ Hq). wp_steps. apply wp_enter; [apply _|]. intros cs f.
  set (k0 := k <| port ::= f |>).
  assert (Hk0 : kernel_ok k0 V) by by eapply kernel_ok_same, Hk.
  assert (Hq0 : queue_is k0 V a q ws wr) by by destruct Hq.
  pose proof (queue_empty_spec _ _ _ _ _ _ Hq0) as Hempty. destruct q as [xs n]. cbn [items slots] in *.
  apply wp_queue_wait_once; [done| | |].
  - rewrite Hempty. intros He. apply bool_decide_eq_true in He. by destruct Hnb.
  - rewrite Hempty. intros He. apply bool_decide_eq_false in He. destruct xs as [|x xs]; [done|]. wp_step.
    apply (wp_queue_read _ k0 V a x xs n ws wr); [done|done|].
    intros rb m k1 Hq1 Hx Hout. fold (wake_one true (LQueueSend a) cs SERTOS_STATUS_OK).
    apply (wp_wake_one k1 V true (LQueueSend a) ws); [by eapply kernel_ok_same, Hk|done|apply Hq|].
    intros k2 V2 Hk2 Hqs _ Hms Hserved Htl Hothers. specialize (Hserved eq_refl). exists V2, (QueueState xs n), (tail ws).
    split; [done|]. split; [|split; [|split]].
    + eapply queue_is_woken; [exact Hq1|done|done|done|]. apply Hothers; [done|done|apply Hq].
    + rewrite Hms. change (mem k1) with m. change (queues k a) with (queues k0 a). rewrite Hx. constructor.
    + by split.
    + intros y Hy. rewrite Hms. by apply Hout.
  - rewrite Hempty. intros He g. apply bool_decide_eq_true in He. subst xs. exists V, (QueueState [] n), ws.
    split; [by eapply kernel_ok_same, Hk|]. split; [by destruct Hq|]. split; [constructor|]. by split.
Qed.
(** C16: [sertos_queue_receive] by someone who need not or does not want to wait, into a buffer
    apart from the queue's storage, terminates, keeps the kernel well-formed, writes nothing but
    the buffer, and behaves as the abstract receive: the oldest item is removed and is what the
    buffer holds, and the first sender that waits is made READY, or the queue is empty and the
    call times out. *)
Theorem queue_receive_refines k V a q ws wr i timeout :
  kernel_ok k V -> queue_is k V a q ws wr -> separate k a i -> (0 < loop_fuel)%nat ->
  items q <> [] \/ timeout = SERTOS_NO_WAIT ->
  exists r k', exec (sertos_queue_receive (Some a) (Some i) timeout) k = Some (r, k') /\
    exists V' q' ws', kernel_ok k' V' /\ queue_is k' V' a q' ws' wr /\
      queue_receives (mem_bytes (mem k') i (Z.to_nat (q_item_size (queues k a)))) q r q' /\
      (r = SERTOS_STATUS_OK -> ws' = tail ws /\ served k k' V' ws) /\
      (forall y, ~ i <= y < i + q_item_size (queues k a) -> mem k' y = mem k y).
Proof. apply queue_receive_spec. Qed.

(** ** Looking at the oldest item *)

(** Indices wrap at the width of size_t, and again at the mask. *)
Lemma land_mask e x : 0 <= e -> Z.land x (2 ^ e - 1) = x mod 2 ^ e.
Proof. intros He. rewrite <-Z.land_ones by done. by rewrite Z.ones_equiv, Z.sub_1_r. Qed.

Lemma land_wrap_mask w e x : 0 <= e <= w -> Z.land (wrap w x) (2 ^ e - 1) = Z.land x (2 ^ e - 1).
Proof.
  intros He. rewrite !land_mask by lia. unfold wrap. apply Z.mod_mod_divide.
  exists (2 ^ (w - e)). rewrite <-Z.pow_add_r by lia. f_equal. lia.
Qed.

(** The mask of a ring buffer whose storage has a size. *)
Definition mask_fits (rb : RingBuffer) : Prop := rb_mask rb < 2 ^ port_size_bits.

Lemma peeked_byte rb m bs (i : nat) b :
  ring_holds rb m bs -> mask_fits rb -> bs !! i = Some b ->
  let src := rb_buffer rb + Z.land (wrap port_size_bits (rb_tail rb + Z.of_nat i)) (rb_mask rb) in
  m src = b /\ in_storage rb src.
Proof.
  intros Hr Hm Hb. destruct (ring_mask_law _ _ _ Hr) as (e & He & Hmask). unfold mask_fits in Hm.
  assert (0 <= e <= port_size_bits).
  { split; [lia|]. destruct (Z.le_gt_cases e port_size_bits) as [|Hgt]; [done|]. exfalso.
    destruct (Z.le_gt_cases 0 port_size_bits) as [Hw|Hw].
    - pose proof (Z.pow_lt_mono_r 2 port_size_bits e). lia.
    - rewrite (Z.pow_neg_r 2 port_size_bits) in Hm by lia. pose proof (Z.pow_pos_nonneg 2 e). lia. }
  rewrite Hmask, land_wrap_mask, <-Hmask by done. split; [by eapply ring_peek_law|].
  unfold in_storage. rewrite Hmask, land_mask by lia.
  pose proof (Z.mod_pos_bound (rb_tail rb + Z.of_nat i) (2 ^ e)). lia.
Qed.

Lemma queue_peek_loop_spec rb dest bs n (j : nat) m0 m :
  ring_holds rb m0 bs -> mask_fits rb -> (forall x, in_storage rb x -> m x = m0 x) ->
  (j + n <= length bs)%nat ->
  (forall x, dest <= x < dest + Z.of_nat (j + n) -> ~ in_storage rb x) ->
  let m' := queue_peek_loop rb dest (rb_tail rb) (Z.of_nat j) n m in
  (forall x, ~ dest + Z.of_nat j <= x < dest + Z.of_nat (j + n) -> m' x = m x) /\
  (forall (i : nat) b, (j <= i < j + n)%nat -> bs !! i = Some b -> m' (dest + Z.of_nat i) = b).
Proof.
  intros Hr Hm. revert j m. induction n as [|n IH]; intros j m Hst Hlen Hsep m'.
  - subst m'. simpl. split; [done|]. intros i b Hi. lia.
  - destruct (lookup_lt_is_Some_2 bs j ltac:(lia)) as [b Hb].
    destruct (peeked_byte rb m0 bs j b Hr Hm Hb) as [Hsrc Hin]. cbv zeta in Hsrc, Hin.
    set (src := rb_buffer rb + _) in *. set (m1 := <[dest + Z.of_nat j := m src]> m).
    assert (Hj : m1 (dest + Z.of_nat j) = b).
    { unfold m1. rewrite fn_lookup_insert, Hst by done. exact Hsrc. }
    destruct (IH (S j) m1) as [IHout IHin]; [|lia|intros x Hx; apply Hsep; lia|].
    { intros x Hx. unfold m1. rewrite fn_lookup_insert_ne; [by apply Hst|].
      intros <-. by apply (Hsep (dest + Z.of_nat j)); [lia|]. }
    assert (Hm' : m' = queue_peek_loop rb dest (rb_tail rb) (Z.of_nat (S j)) n m1).
    { subst m'. cbn [queue_peek_loop]. unfold m1, src. by rewrite Nat2Z.inj_succ, Z.add_1_r. }
    clearbody m'. rewrite Hm'. split.
    + intros x Hx. rewrite IHout by lia. unfold m1. apply fn_lookup_insert_ne. lia.
    + intros i b' Hi Hb'. destruct (decide (i = j)) as [->|Hne]; [|apply IHin; [lia|done]].
      rewrite IHout by lia. congruence.
Qed.

Lemma queue_peek_bytes_spec rb dest bs n m :
  ring_holds rb m bs -> mask_fits rb -> (n <= length bs)%nat ->
  (forall x, dest <= x < dest + Z.of_nat n -> ~ in_storage rb x) ->
  mem_bytes (queue_peek_bytes rb dest (Z.of_nat n) m) dest n = take n bs /\
  (forall x, ~ dest <= x < dest + Z.of_nat n -> queue_peek_bytes rb dest (Z.of_nat n) m x = m x).
Proof.
  intros Hr Hm Hn Hsep. unfold queue_peek_bytes. rewrite Nat2Z.id.
  destruct (queue_peek_loop_spec rb dest bs n 0 m m Hr Hm) as [Hout Hin]; [done|lia|done|].
  split; [|intros x Hx; apply Hout; lia]. apply list_eq. intros i.
  destruct (decide (i < n)%nat) as [Hi|Hi].
  - rewrite lookup_mem_bytes, lookup_take_lt by done. destruct (lookup_lt_is_Some_2 bs i ltac:(lia)) as [b Hb].
    rewrite Hb. f_equal. apply Hin; [lia|done].
  - rewrite lookup_take_ge by lia. apply lookup_ge_None. rewrite length_mem_bytes. lia.
Qed.

(** C17: when an item is there or the caller does not wait, and the caller's buffer is apart from
    the queue's storage, [sertos_queue_peek] gives what [sertos_queue_receive] would give in the same
    state, the same status and the same bytes in the caller's buffer, through a loop of its own
    over the ring buffer's fields; it removes nothing and wakes nobody. (A peek that waits is not
    compared with a receive that waits.) *)
Theorem queue_peek_is_receive k V a q ws wr i timeout :
  kernel_ok k V -> queue_is k V a q ws wr -> separate k a i -> (0 < loop_fuel)%nat ->
  mask_fits (q_ring_buf (queues k a)) -> items q <> [] \/ timeout = SERTOS_NO_WAIT ->
  let n := Z.to_nat (q_item_size (queues k a)) in
  exists r k1 k2, exec (sertos_queue_peek (Some a) (Some i) timeout) k = Some (r, k1) /\
    exec (sertos_queue_receive (Some a) (Some i) timeout) k = Some (r, k2) /\
    (r = SERTOS_STATUS_OK -> mem_bytes (mem k1) i n = mem_bytes (mem k2) i n) /\
    kernel_ok k1 V /\ queue_is k1 V a q ws wr /\ tcbs k1 = tcbs k /\ queues k1 = queues k.
Proof.
  intros Hk Hq Hsep Hf Hfits Hnb n.
  destruct (queue_receive_spec k V a q ws wr i timeout) as (r & k2 & He2 & V2 & q2 & ws2 & _ & _ & Hrec & _);
    [done..|].
  cut (exists r' k1, exec (sertos_queue_peek (Some a) (Some i) timeout) k = Some (r', k1) /\
    (match items q with
     | x :: _ => r' = SERTOS_STATUS_OK /\ mem_bytes (mem k1) i n = x
     | [] => r' = SERTOS_STATUS_ERROR_TIMEOUT
     end) /\ kernel_ok k1 V /\ queue_is k1 V a q ws wr /\ tcbs k1 = tcbs k /\ queues k1 = queues k).
  { intros (r' & k1 & He1 & Hr' & Hrest). exists r', k1, k2. split; [done|].
    destruct Hrec as [xs m|m]; simpl in Hr'; [destruct Hr' as [-> Hx]|subst r']; (split; [done|]); (split; [|done]).
    - intros _. exact Hx.
    - done. }
  apply wp_exec. unfold sertos_queue_peek, queue_args. wp_steps.
  rewrite (queue_magic_ok_true _ _ _ _ _ _ Hq). wp_steps. apply wp_enter; [apply _|]. intros cs f.
  set (k0 := k <| port ::= f |>).
  assert (Hq0 : queue_is k0 V a q ws wr) by by destruct Hq.
  pose proof (queue_empty_spec _ _ _ _ _ _ Hq0) as Hempty. destruct q as [xs c]. cbn [items slots] in *.
  apply wp_queue_wait_once; [done| | |].
  - rewrite Hempty. intros He. apply bool_decide_eq_true in He. by destruct Hnb.
  - rewrite Hempty. intros He. apply bool_decide_eq_false in He. destruct xs as [|x xs]; [done|].
    unfold rd_queue. wp_steps. apply wp_exit; [apply _|]. intros g. wp_steps.
    pose proof Hq as [Hmg Hs Hsl Hring Hsz Hws Hwr]. cbn [items slots] in *.
    change (queues k0) with (queues k). change (mem k0) with (mem k).
    apply Forall_cons in Hsz as [Hx Hsz].
    destruct (queue_peek_bytes_spec (q_ring_buf (queues k a)) i (concat (x :: xs)) n (mem k) Hring Hfits)
      as [Hb Hout]; [cbn [concat]; rewrite length_app; unfold n; lia|intros y Hy; apply Hsep; unfold n in Hy; lia|].
    replace (Z.of_nat n) with (q_item_size (queues k a)) in * by (unfold n; lia).
    split_and!; try done.
    + etransitivity; [exact Hb|]. cbn [concat]. replace n with (length x) by (unfold n; lia). apply take_app_length.
    + by eapply kernel_ok_same, Hk.
    + split; try done; [|by constructor]. cbn [items]. eapply ring_frame_law; [exact Hring|].
      intros y Hy. apply Hout. intros Hy'. by apply (Hsep y).
  - rewrite Hempty. intros He g. apply bool_decide_eq_true in He. subst xs.
    split_and!; try done; [by eapply kernel_ok_same, Hk|by destruct Hq].
Qed.
End props.

(** ** The theorems at concrete kernels *)

Lemma next_power_of_two_exact_witness :
  1 < 32 /\ 0 <= 100 < 2 ^ 32 /\
  if 100 <=? 2 ^ (32 - 1) then
    exists e, 1 <= e < 32 /\
      (forall fuel, 32 <= Z.of_nat fuel -> next_power_of_two 32 fuel 100 = Some (2 ^ e)) /\
      100 <= 2 ^ e /\ (e = 1 \/ 2 ^ (e - 1) < 100)
  else forall fuel, next_power_of_two 32 fuel 100 = None.
Proof. split; [lia|]. split; [lia|]. apply (next_power_of_two_exact 32 100); lia. Defined.

Abbreviation quQ := 0x9000.
Abbreviation item := 0xA000.

(** An empty queue of three items of four bytes each; C runs. *)
Definition k_queue : Kernel :=
  after (sertos_queue_create_static (Some quQ) (Some 0x9800) 16 4 true;;
    modify (set mem (mem_fill item 4 7))) k_trio.
(** C waits for an item, A runs. *)
Definition k_hungry : Kernel :=
  until_switch (sertos_queue_receive (Some quQ) (Some 0xB000) SERTOS_WAIT_FOREVER) k_queue.
Definition v_hungry :=
  sched_view [(0, [idle]); (3, [tA; tB])] [] [idle; tA; tB; tC] [(LQueueSend quQ, []); (LQueueRecv quQ, [tC])].
(** An item is in store, C runs. *)
Definition k_stored : Kernel := after (sertos_queue_send (Some quQ) (Some item) SERTOS_NO_WAIT) k_queue.
Definition v_stored :=
  sched_view [(0, [idle]); (3, [tA; tB]); (5, [tC])] [] [idle; tA; tB; tC]
    [(LQueueSend quQ, []); (LQueueRecv quQ, [])].

Lemma k_hungry_is : queue_is k_hungry (view_of v_hungry) quQ (QueueState [] 3) [] [tC].
Proof.
  split; try (vm_compute; reflexivity); [|constructor].
  assert (q_ring_buf (queues k_hungry quQ) = mkRefRing 0x9800 15 0 0) as -> by (vm_compute; reflexivity).
  split; [by exists 4|done..].
Qed.

Lemma k_stored_is : queue_is k_stored (view_of v_stored) quQ (QueueState [[7; 7; 7; 7]] 3) [] [].
Proof.
  split; try (vm_compute; reflexivity); [|repeat constructor].
  assert (q_ring_buf (queues k_stored quQ) = mkRefRing 0x9800 15 4 0) as -> by (vm_compute; reflexivity).
  split; [by exists 4|simpl; lia|simpl; lia|done|].
  intros j b Hj. do 4 (destruct j as [|j]; [injection Hj as <-; vm_compute; reflexivity|]). done.
Qed.

Lemma stored_apart k a i :
  bool_decide (rb_buffer (q_ring_buf (queues k a)) + rb_mask (q_ring_buf (queues k a)) < i) = true -> separate k a i.
Proof. intros Hb%bool_decide_eq_true x Hx Hin. unfold in_storage in Hin. lia. Qed.

(** A sends; C, which waits, is served. *)
Lemma queue_send_refines_witness :
  let x := mem_bytes (mem k_hungry) item (Z.to_nat (q_item_size (queues k_hungry quQ))) in
  exists r k', exec (sertos_queue_send (Some quQ) (Some item) SERTOS_NO_WAIT) k_hungry = Some (r, k') /\
    exists V' q' wr', kernel_ok k' V' /\ queue_sends x (QueueState [] 3) r q' /\
      queue_is k' V' quQ q' [] wr' /\
      (r = SERTOS_STATUS_OK -> wr' = tail [tC] /\ served k_hungry k' V' [tC]) /\
      (forall y, ~ in_storage (q_ring_buf (queues k_hungry quQ)) y -> mem k' y = mem k_hungry y).
Proof.
  apply (queue_send_refines k_hungry (view_of v_hungry) quQ (QueueState [] 3) [] [tC] item SERTOS_NO_WAIT).
  - check_kernel.
  - apply k_hungry_is.
  - apply stored_apart. vm_compute. reflexivity.
  - vm_compute. lia.
  - by right.
Defined.

Lemma queue_receive_refines_witness :
  exists r k', exec (sertos_queue_receive (Some quQ) (Some 0xB000) SERTOS_NO_WAIT) k_stored = Some (r, k') /\
    exists V' q' ws', kernel_ok k' V' /\ queue_is k' V' quQ q' ws' [] /\
      queue_receives (mem_bytes (mem k') 0xB000 (Z.to_nat (q_item_size (queues k_stored quQ))))
        (QueueState [[7; 7; 7; 7]] 3) r q' /\
      (r = SERTOS_STATUS_OK -> ws' = tail [] /\ served k_stored k' V' []) /\
      (forall y, ~ 0xB000 <= y < 0xB000 + q_item_size (queues k_stored quQ) -> mem k' y = mem k_stored y).
Proof.
  apply (queue_receive_refines k_stored (view_of v_stored) quQ (QueueState [[7; 7; 7; 7]] 3) [] [] 0xB000
    SERTOS_NO_WAIT).
  - check_kernel.
  - apply k_stored_is.
  - apply stored_apart. vm_compute. reflexivity.
  - vm_compute. lia.
  - by right.
Defined.

Lemma queue_peek_is_receive_witness :
  let n := Z.to_nat (q_item_size (queues k_stored quQ)) in
  exists r k1 k2, exec (sertos_queue_peek (Some quQ) (Some 0xB000) SERTOS_NO_WAIT) k_stored = Some (r, k1) /\
    exec (sertos_queue_receive (Some quQ) (Some 0xB000) SERTOS_NO_WAIT) k_stored = Some (r, k2) /\
    (r = SERTOS_STATUS_OK -> mem_bytes (mem k1) 0xB000 n = mem_bytes (mem k2) 0xB000 n) /\
    kernel_ok k1 (view_of v_stored) /\
    queue_is k1 (view_of v_stored) quQ (QueueState [[7; 7; 7; 7]] 3) [] [] /\
    tcbs k1 = tcbs k_stored /\ queues k1 = queues k_stored.
Proof.
  apply (queue_peek_is_receive k_stored (view_of v_stored) quQ (QueueState [[7; 7; 7; 7]] 3) [] [] 0xB000
    SERTOS_NO_WAIT).
  - check_kernel.
  - apply k_stored_is.
  - apply stored_apart. vm_compute. reflexivity.
  - vm_compute. lia.
  - vm_compute. reflexivity.
  - by right.
Defined.
