(* ===== verification/DeleteProps.v ===== *)
(** Deletion of semaphores and queues: every waiter is released, in order. *)
From S2P Require Import Prelude Effects Types Platform LinkedLists Kernel Invariant RefPlatform.
From S2P Require Import KernelCheck SchedCore SchedCoreSpec DelaySpec TaskInfo Stats Timer.
From S2P Require Import Scheduler Task Sem Queue SchedulerSpec BlockSpec SemSpec IpcSpec Scenarios QueueProps.

(** The kernel when the task that runs [o] stops for the first time after the interference
    [env] is used up, if it stops to give up the processor. *)
Fixpoint next_switch {S A} (env : list (S -> S)) (o : outcome S A) : option S :=
  match o, env with
  | Pause _ s c, e :: env' => next_switch env' (c (e s))
  | Pause PYield s _, [] => Some s
  | Pause _ s c, [] => next_switch [] (c s)
  | _, _ => None
  end.

Section props.
Context `{PL : Platform} `{!PlatformLaws} `{!Callbacks}.
Implicit Types (k : Kernel) (V : lview) (a t : addr) (ws : list addr).

(** The tasks of [ws] have been made ready, in that order: each is READY (or runs, when the
    switch that follows chose it) behind those that were in its ready queue before. *)
Record released k V ws k' V' : Prop := Released {
  rl_queues : forall p rs, V (LReady p) = Some rs ->
    V' (LReady p) = Some (rs ++ filter (fun t => priority (tcbs k t) = p) ws);
  rl_states : forall t, t ∈ ws -> runnable (state (tcbs k' t)) }.

Lemma wake_all_ready (pr : addr -> Z) ws V p rs :
  V (LReady p) = Some rs -> wake_all_view pr ws V (LReady p) = Some (rs ++ filter (fun t => pr t = p) ws).
Proof.
  intros Hrs. unfold wake_all_view. erewrite tick_view_ready by done. do 2 f_equal.
  apply filter_ext_in. naive_solver.
Qed.

Lemma wake_all_emptied (pr : addr -> Z) ws us V l :
  link_of l = FEvent -> V l = Some us -> (forall t, t ∈ us -> t ∈ ws) -> wake_all_view pr ws V l = Some [].
Proof.
  intros Hf Hl Hin. unfold wake_all_view. erewrite tick_view_wait by done. f_equal.
  apply filter_none. naive_solver.
Qed.

Lemma wake_all_other (pr : addr -> Z) ws us V l :
  link_of l = FEvent -> V l = Some us -> (forall t, t ∈ us -> t ∉ ws) -> wake_all_view pr ws V l = Some us.
Proof.
  intros Hf Hl Hni. unfold wake_all_view. erewrite tick_view_wait by done. f_equal.
  apply filter_id. intros x Hx [Hin _]. by apply (Hni x).
Qed.

(** No task waits for two objects. *)
Lemma waits_once k V l l' ws us :
  kernel_ok k V -> link_of l = FEvent -> link_of l' = FEvent -> l' <> l ->
  V l = Some ws -> V l' = Some us -> forall t, t ∈ us -> t ∉ ws.
Proof.
  intros Hk Hf Hf' Hne Hl Hl' t Ht Hin. apply Hne.
  eapply (ok_disjoint _ _ (ok_lists _ _ Hk) l' l us ws t); try done. congruence.
Qed.

Lemma wake_all_app (pr : addr -> Z) ws us V :
  wake_all_view pr us (wake_all_view pr ws V) = wake_all_view pr (ws ++ us) V.
Proof. unfold wake_all_view, tick_view. by rewrite foldl_app. Qed.

Lemma priority_wake_tcbs ws m t : priority (wake_tcbs ws m t) = priority (m t).
Proof.
  unfold wake_tcbs. revert m. induction ws as [|x ws IH]; intros m; simpl; [done|]. rewrite IH.
  destruct (decide (t = x)) as [->|Hne]; [by rewrite fn_lookup_alter|by rewrite fn_lookup_alter_ne].
Qed.

(** What [wp_unblock_all] gives, said about the kernel at hand. *)
Lemma released_wake_all k V ws k' :
  kernel_ok k V -> (forall t, t ∈ ws -> exists l us, link_of l = FEvent /\ V l = Some us /\ t ∈ us) ->
  let V' := wake_all_view (fun t => priority (tcbs k t)) ws V in
  kernel_ok k' V' -> released k V ws k' V'.
Proof.
  intros Hk Hw V' Hk'. split; [intros; by apply wake_all_ready|]. intros t Ht.
  destruct (Hw t Ht) as (l & us & Hf & Hl & Hin).
  destruct (ok_waiting _ _ Hk _ _ t Hf Hl Hin) as (_ & Hp & _).
  destruct (ok_queues _ _ Hk (priority (tcbs k t))) as [rs Hrs]; [lia|].
  pose proof (wake_all_ready (fun t => priority (tcbs k t)) ws V _ _ Hrs) as Hq.
  destruct (ok_ready _ _ Hk' _ _ t Hq) as (_&_&?&_); [|done].
  apply elem_of_app. right. by apply list_elem_of_filter.
Qed.

(** The end of a deletion: leaving the critical section and letting the scheduler choose. *)
Lemma wp_delete_end k V' cs (Q : SertosStatus -> Kernel -> Prop) :
  kernel_ok k V' ->
  (forall k', kernel_ok k' V' -> sems k' = sems k -> queues k' = queues k -> Q SERTOS_STATUS_OK k') ->
  wp quiet (sertos_port_exit_critical cs) k (fun _ k1 =>
    wp quiet (running ← sertos_scheduler_is_running;
              when running sertos_scheduler_reschedule;; mret SERTOS_STATUS_OK) k1 Q).
Proof.
  intros Hk HQ. apply wp_exit; [apply _|]. intros g. unfold sertos_scheduler_is_running. wp_steps.
  assert (Hk1 : kernel_ok (k <| port ::= g |>) V') by by eapply kernel_ok_same, Hk.
  apply (wp_reschedule_if_running _ V'); [done|]. intros k2 Ho. wp_steps.
  apply HQ; [by eapply kernel_ok_compat|by rewrite (od_sems _ _ Ho)|by rewrite (od_queues _ _ Ho)].
Qed.

Lemma exec_refused {A} (m : M Kernel A) k (r : A) :
  wp quiet m k (fun r' k' => r' = r /\ k' = k) -> exec m k = Some (r, k).
Proof. intros (r' & k' & He & -> & ->)%wp_exec. done. Qed.

(** A call that stops at the test of the magic word [Hm] denies. *)
Local Ltac refuses Hm :=
  unfold sertos_sem_take, sertos_sem_give, sertos_sem_delete,
    sertos_queue_send, sertos_queue_receive, sertos_queue_delete, sertos_queue_peek,
    sertos_queue_send_from_isr, sertos_queue_receive_from_isr, sertos_queue_get_count,
    sertos_queue_get_spaces_available, sertos_queue_reset, queue_args;
  repeat progress (wp_steps; rewrite ?Hm; cbn [negb]); done.

Lemma wp_mfree P p k (Q : unit -> Kernel -> Prop) :
  (is_Some p) -> (forall f, Q tt (k <| pool ::= f |>)) -> wp P (mfree p) k Q.
Proof. intros [a ->] HQ. unfold mfree. wp_steps. apply HQ. Qed.

(** Deleting a semaphore terminates in a well-formed kernel, releases all its waiters, in
    order, into the ready queues of their priorities, leaves no list of it occupied and the
    lists of the other objects alone; every operation on a static semaphore is refused
    afterwards. *)
Theorem sem_delete_correct k V a s :
  kernel_ok k V -> sem_is k V a s -> (length (waiters s) < loop_fuel)%nat ->
  exists k' V', exec (sertos_sem_delete (Some a)) k = Some (SERTOS_STATUS_OK, k') /\
    kernel_ok k' V' /\ released k V (waiters s) k' V' /\ V' (LSemWait a) = Some [] /\
    (forall l us, link_of l = FEvent -> l <> LSemWait a -> V l = Some us -> V' l = Some us) /\
    (sem_is_static (sems k a) = true -> forall timeout,
       exec (sertos_sem_take (Some a) timeout) k' = Some (SERTOS_STATUS_ERROR_INVALID_PARAM, k') /\
       exec (sertos_sem_give (Some a)) k' = Some (SERTOS_STATUS_ERROR_INVALID_PARAM, k') /\
       exec (sertos_sem_delete (Some a)) k' = Some (SERTOS_STATUS_ERROR_INVALID_PARAM, k')).
Proof.
  intros Hk Hs Hf. pose proof (si_waiters _ _ _ _ Hs) as Hl.
  set (V' := wake_all_view (fun t => priority (tcbs k t)) (waiters s) V).
  destruct (proj1 (wp_exec (sertos_sem_delete (Some a)) k (fun r k' => r = SERTOS_STATUS_OK /\
    kernel_ok k' V' /\ sem_magic_ok k' a = false))) as (r & k' & He & -> & Hk' & Hm).
  - unfold sertos_sem_delete. wp_steps. rewrite (sem_magic_ok_true _ _ _ _ Hs). cbn [negb]. wp_steps.
    apply wp_enter; [apply _|]. intros c f. ksteps.
    apply (wp_unblock_all _ _ _ V _ (waiters s)); [by eapply kernel_ok_same, Hk|done..|].
    intros h b k1 Hk1. wp_steps.
    assert (Hm : sem_magic_ok k1 a = false).
    { unfold sem_magic_ok, k1, resched. rsimpl. by rewrite fn_lookup_alter. }
    apply wp_when; intros _; [apply wp_mfree; [done|]; intros g|]; wp_steps.
    all: apply (wp_delete_end _ V'); [by eapply kernel_ok_same, Hk1|].
    all: intros k2 Hk2 Hs2 _; split_and!; [done|done|].
    all: unfold sem_magic_ok in *; by rewrite Hs2.
  - exists k', V'. split_and!; [done|done| |by eapply wake_all_emptied| |].
    + apply released_wake_all; [done| |done]. intros t Ht. exists (LSemWait a), (waiters s). done.
    + intros l us Hf' Hne Hus. apply wake_all_other; [done|done|]. by eapply (waits_once k V (LSemWait a) l _ us).
    + intros _ timeout. split_and!; apply exec_refused; refuses Hm.
Qed.

(** Every operation on the handle [a] is turned away: the transfers, those of interrupt handlers,
    [reset] and [delete] report an invalid parameter, the counters are 0; nothing changes. *)
Definition queue_refuses a k : Prop :=
  (forall i timeout,
    exec (sertos_queue_send (Some a) i timeout) k = Some (SERTOS_STATUS_ERROR_INVALID_PARAM, k) /\
    exec (sertos_queue_receive (Some a) i timeout) k = Some (SERTOS_STATUS_ERROR_INVALID_PARAM, k) /\
    exec (sertos_queue_peek (Some a) i timeout) k = Some (SERTOS_STATUS_ERROR_INVALID_PARAM, k)) /\
  (forall i out,
    exec (sertos_queue_send_from_isr (Some a) i out) k = Some (SERTOS_STATUS_ERROR_INVALID_PARAM, None, k) /\
    exec (sertos_queue_receive_from_isr (Some a) i out) k = Some (SERTOS_STATUS_ERROR_INVALID_PARAM, None, k)) /\
  exec (sertos_queue_get_count (Some a)) k = Some (0, k) /\
  exec (sertos_queue_get_spaces_available (Some a)) k = Some (0, k) /\
  exec (sertos_queue_reset (Some a)) k = Some (SERTOS_STATUS_ERROR_INVALID_PARAM, k) /\
  exec (sertos_queue_delete (Some a)) k = Some (SERTOS_STATUS_ERROR_INVALID_PARAM, k).

Lemma queue_refused a k : queue_magic_ok k a = false -> queue_refuses a k.
Proof.
  intros Hm. split; [intros i timeout|split; [intros i out|]];
    split_and!; apply exec_refused; try destruct i; refuses Hm.
Qed.

(** C18: deleting a queue (whose storage is known) terminates in a well-formed kernel; the tasks that
    wait to send and then those that wait to receive are released, in order, into the ready queues
    of their priorities, both wait lists are empty and those of other objects are as they were;
    afterwards every operation on a static queue (transfers, transfers from interrupt handlers,
    counters, reset and delete) is refused, without effect. *)
Theorem queue_delete_correct k V a q ws wr :
  kernel_ok k V -> queue_is k V a q ws wr -> is_Some (q_storage_buffer (queues k a)) ->
  (length ws < loop_fuel)%nat -> (length wr < loop_fuel)%nat ->
  exists k' V', exec (sertos_queue_delete (Some a)) k = Some (SERTOS_STATUS_OK, k') /\
    kernel_ok k' V' /\ released k V (ws ++ wr) k' V' /\
    V' (LQueueSend a) = Some [] /\ V' (LQueueRecv a) = Some [] /\
    (forall l us, link_of l = FEvent -> l <> LQueueSend a -> l <> LQueueRecv a ->
       V l = Some us -> V' l = Some us) /\
    (q_is_static (queues k a) = true -> queue_refuses a k').
Proof.
  intros Hk Hq Hst Hf1 Hf2. pose proof (qi_send _ _ _ _ _ _ Hq) as Hl1. pose proof (qi_recv _ _ _ _ _ _ Hq) as Hl2.
  set (pr t := priority (tcbs k t)).
  assert (Hl3 : wake_all_view pr ws V (LQueueRecv a) = Some wr).
  { apply wake_all_other; [done|done|]. by eapply (waits_once k V (LQueueSend a) (LQueueRecv a)). }
  set (V' := wake_all_view pr (ws ++ wr) V).
  destruct (proj1 (wp_exec (sertos_queue_delete (Some a)) k (fun r k' => r = SERTOS_STATUS_OK /\
    kernel_ok k' V' /\ queue_magic_ok k' a = false))) as (r & k' & He & -> & Hk' & Hm).
  - unfold sertos_queue_delete. wp_steps. rewrite (queue_magic_ok_true _ _ _ _ _ _ Hq). cbn [negb]. wp_steps.
    apply wp_enter; [apply _|]. intros c f. ksteps.
    apply (wp_unblock_all _ _ _ V _ ws); [by eapply kernel_ok_same, Hk|done..|].
    intros h b k1 Hk1. wp_steps.
    apply (wp_unblock_all _ _ _ (wake_all_view pr ws V) _ wr); [exact Hk1|done..|].
    intros h2 b2 k2 Hk2. wp_steps.
    assert (Hk2' : kernel_ok k2 V').
    { unfold V'. rewrite <-wake_all_app. unfold wake_all_view in Hk2 |- *. erewrite tick_view_ext; [exact Hk2|].
      intros t _. split; [done|]. unfold k1, resched. rsimpl. symmetry. apply priority_wake_tcbs. }
    assert (Hm : queue_magic_ok k2 a = false).
    { unfold queue_magic_ok, k2, k1, resched. rsimpl. by rewrite fn_lookup_alter. }
    assert (Hst2 : is_Some (q_storage_buffer (queues k2 a))).
    { unfold k2, k1, resched. rsimpl. by rewrite fn_lookup_alter. }
    apply wp_when; intros _; wp_steps; [apply wp_mfree; [done|]; intros g; wp_steps; apply wp_mfree; [done|]; intros g2|].
    all: wp_steps; apply (wp_delete_end _ V'); [by eapply kernel_ok_same, Hk2'|].
    all: intros k3 Hk3 _ Hs3; split_and!; [done|done|].
    all: unfold queue_magic_ok in *; by rewrite Hs3.
  - exists k', V'. split_and!; [done|done| | | | |].
    + apply released_wake_all; [done| |done].
      intros t [Ht|Ht]%elem_of_app; [exists (LQueueSend a), ws|exists (LQueueRecv a), wr]; done.
    + eapply wake_all_emptied; [done|done|set_solver].
    + eapply wake_all_emptied; [done|done|set_solver].
    + intros l us Hf' Hne1 Hne2 Hus. apply wake_all_other; [done|done|]. intros t Ht [Hin|Hin]%elem_of_app.
      * by eapply (waits_once k V (LQueueSend a) l ws us).
      * by eapply (waits_once k V (LQueueRecv a) l wr us).
    + intros _. by apply queue_refused.
Qed.
End props.

(** ** The theorems at concrete kernels *)

(** C waits for ever and A for 5 ticks, B deletes the semaphore. *)
Lemma sem_delete_correct_witness :
  exists k' V', exec (sertos_sem_delete (Some semS)) k_waiting = Some (SERTOS_STATUS_OK, k') /\
    kernel_ok k' V' /\ released k_waiting (view_of v_waiting) [tC; tA] k' V' /\ V' (LSemWait semS) = Some [] /\
    (forall l us, link_of l = FEvent -> l <> LSemWait semS -> view_of v_waiting l = Some us -> V' l = Some us) /\
    (sem_is_static (sems k_waiting semS) = true -> forall timeout,
       exec (sertos_sem_take (Some semS) timeout) k' = Some (SERTOS_STATUS_ERROR_INVALID_PARAM, k') /\
       exec (sertos_sem_give (Some semS)) k' = Some (SERTOS_STATUS_ERROR_INVALID_PARAM, k') /\
       exec (sertos_sem_delete (Some semS)) k' = Some (SERTOS_STATUS_ERROR_INVALID_PARAM, k')).
Proof.
  apply (sem_delete_correct k_waiting (view_of v_waiting) semS (SemState 0 3 [tC; tA]) k_waiting_ok).
  - split; vm_compute; reflexivity.
  - apply Nat.ltb_lt. vm_compute. reflexivity.
Defined.

(** C waits for an item, A deletes the queue. *)
Lemma queue_delete_correct_witness :
  exists k' V', exec (sertos_queue_delete (Some quQ)) k_hungry = Some (SERTOS_STATUS_OK, k') /\
    kernel_ok k' V' /\ released k_hungry (view_of v_hungry) [tC] k' V' /\
    V' (LQueueSend quQ) = Some [] /\ V' (LQueueRecv quQ) = Some [] /\
    (forall l us, link_of l = FEvent -> l <> LQueueSend quQ -> l <> LQueueRecv quQ ->
       view_of v_hungry l = Some us -> V' l = Some us) /\
    (q_is_static (queues k_hungry quQ) = true -> queue_refuses quQ k').
Proof.
  apply (queue_delete_correct k_hungry (view_of v_hungry) quQ (QueueState [] 3) [] [tC]).
  - check_kernel.
  - apply k_hungry_is.
  - apply (bool_decide_eq_true_1 _). vm_compute. reflexivity.
  - apply Nat.ltb_lt. vm_compute. reflexivity.
  - apply Nat.ltb_lt. vm_compute. reflexivity.
Defined.

(** ** What the released tasks find *)

(** A task that waits for ever on a semaphore takes the deletion for a token: C sleeps, the
    semaphore is deleted, and C reports success, although no token was ever released. *)
Theorem deleted_semaphore_wait_succeeds :
  exists k', run [id; id; id; id; id; id; after (sertos_sem_delete (Some semS))]
    (sertos_sem_take (Some semS) SERTOS_WAIT_FOREVER k_sem) = Some (SERTOS_STATUS_OK, k') /\
    sem_magic (sems k' semS) = 0 /\ sem_count (sems k' semS) = 0.
Proof.
  set (o := run _ _). exists (default k_sem (snd <$> o)).
  split; [|vm_compute; split; reflexivity]. apply some_pair. vm_compute. reflexivity.
Qed.

(** A task that waits for ever on a queue does not look at the queue's magic word again: C
    sleeps, the queue is deleted, and C, finding no item, goes to sleep on the deleted queue;
    no call accepts the handle any more, so nothing will wake it. *)
Theorem deleted_queue_receiver_waits_again :
  exists k', next_switch [id; id; id; id; id; id; after (sertos_queue_delete (Some quQ))]
    (sertos_queue_receive (Some quQ) (Some 0xB000) SERTOS_WAIT_FOREVER k_queue) = Some k' /\
    q_magic (queues k' quQ) = 0 /\ state (tcbs k' tC) = SERTOS_TASK_STATE_BLOCKED /\
    linked_list_peek_head (LQueueRecv quQ) (heap k') = Some (NLink FEvent tC).
Proof.
  exists (default k_queue (next_switch [id; id; id; id; id; id; after (sertos_queue_delete (Some quQ))]
    (sertos_queue_receive (Some quQ) (Some 0xB000) SERTOS_WAIT_FOREVER k_queue))).
  split; [|vm_compute; split_and!; reflexivity].
  assert (is_Some (next_switch [id; id; id; id; id; id; after (sertos_queue_delete (Some quQ))]
    (sertos_queue_receive (Some quQ) (Some 0xB000) SERTOS_WAIT_FOREVER k_queue))) as [k' ->]; [|done].
  apply (bool_decide_eq_true_1 _). vm_compute. reflexivity.
Qed.
