(* ===== verification/StreamProps.v ===== *)
(** Stream buffers: the transfers' refinement of a bounded FIFO of bytes with a trigger level,
    from tasks and from interrupts, and that bytes come out as they went in. *)
From S2P Require Import Prelude Effects Types Platform LinkedLists Kernel Invariant RefPlatform.
From S2P Require Import KernelCheck SchedCore SchedCoreSpec DelaySpec TaskInfo Stats Timer.
From S2P Require Import Scheduler Task Queue StreamBuffer SchedulerSpec BlockSpec TaskSpec IpcSpec Scenarios.

(** ** Abstract streams *)

(** The bytes, oldest first, how many fit, and how many a reader waits for. *)
Record stream_state : Type := StreamState { bytes : list Z; room : Z; trigger : Z }.

Definition size (s : stream_state) : Z := Z.of_nat (length (bytes s)).

(** What of [d] fits is appended; what is there, up to [n] bytes, is taken from the front. *)
Definition put_count (d : list Z) (s : stream_state) : Z := Z.min (Z.of_nat (length d)) (room s - size s).
Definition put (d : list Z) (s : stream_state) : stream_state :=
  StreamState (bytes s ++ take (Z.to_nat (put_count d s)) d) (room s) (trigger s).
Definition get_count (n : Z) (s : stream_state) : Z := Z.min n (size s).
Definition taken (n : Z) (s : stream_state) : list Z := take (Z.to_nat (get_count n s)) (bytes s).
Definition left_by (n : Z) (s : stream_state) : stream_state :=
  StreamState (skipn (Z.to_nat (get_count n s)) (bytes s)) (room s) (trigger s).

Definition stream_full (s : stream_state) : bool := room s <=? size s.
Definition triggered (s : stream_state) : bool := trigger s <=? size s.

Section props.
Context `{PL : Platform} `{!PlatformLaws} `{!Callbacks}.
Implicit Types (k : Kernel) (V : lview) (a t i : addr).

(** The stream buffer at [a] is valid, is [s], and has [ws] waiting to send and [wr] to
    receive. *)
Record stream_is k V a (s : stream_state) (ws wr : list addr) : Prop := Stream_is {
  si_magic : sb_magic (streams k a) = SERTOS_STREAM_BUFFER_MAGIC_WORD;
  si_room : room s = ring_buffer_capacity (sb_ring_buf (streams k a));
  si_trigger : trigger s = sb_trigger_level_bytes (streams k a);
  si_ring : ring_holds (sb_ring_buf (streams k a)) (mem k) (bytes s);
  si_send : V (LStreamSend a) = Some ws;
  si_recv : V (LStreamRecv a) = Some wr }.

(** The storage stays where it is. *)
Definition same_storage k k' a : Prop :=
  rb_buffer (sb_ring_buf (streams k' a)) = rb_buffer (sb_ring_buf (streams k a)) /\
  rb_mask (sb_ring_buf (streams k' a)) = rb_mask (sb_ring_buf (streams k a)).

(** [n] bytes at [i] are not part of the stream's storage. *)
Definition apart k a i (n : Z) : Prop :=
  forall x, i <= x < i + n -> ~ in_storage (sb_ring_buf (streams k a)) x.

Lemma stream_magic_ok_true k V a s ws wr : stream_is k V a s ws wr -> stream_magic_ok (streams k a) = true.
Proof. intros []. unfold stream_magic_ok. by apply Z.eqb_eq. Qed.

Lemma stream_size k V a s ws wr :
  stream_is k V a s ws wr -> ring_buffer_count (sb_ring_buf (streams k a)) = size s /\ size s <= room s.
Proof. intros []. rewrite si_room0. by eapply ring_count_law. Qed.

Lemma stream_free k V a s ws wr :
  stream_is k V a s ws wr -> stream_buffer_free_bytes (sb_ring_buf (streams k a)) = room s - size s.
Proof.
  intros Hs. destruct (stream_size _ _ _ _ _ _ Hs) as [Hc Hle]. destruct Hs as [_ Hr _ _ _ _].
  unfold stream_buffer_free_bytes. rewrite Hc, <-Hr. destruct (Z.ltb_spec (size s) (room s)); lia.
Qed.

Lemma stream_free_zero k V a s ws wr :
  stream_is k V a s ws wr -> (stream_buffer_free_bytes (sb_ring_buf (streams k a)) =? 0) = stream_full s.
Proof.
  intros Hs. rewrite (stream_free _ _ _ _ _ _ Hs). destruct (stream_size _ _ _ _ _ _ Hs) as [_ Hle].
  unfold stream_full. destruct (Z.eqb_spec (room s - size s) 0), (Z.leb_spec (room s) (size s)); lia.
Qed.

(** ** Moving bytes *)

Lemma wp_stream_write P k V a s ws wr i n (Q : Z -> Kernel -> Prop) :
  stream_is k V a s ws wr -> 0 <= n -> apart k a i n ->
  (forall rb m, let k' := k <| streams ::= alter (set sb_ring_buf (fun _ => rb)) a |> <| mem := m |> in
     let d := mem_bytes (mem k) i (Z.to_nat n) in
     stream_is k' V a (put d s) ws wr -> same_storage k k' a ->
     (forall y, ~ in_storage (sb_ring_buf (streams k a)) y -> m y = mem k y) -> Q (put_count d s) k') ->
  wp P (stream_write a i n) k Q.
Proof.
  intros Hs Hn Hap HQ. destruct (stream_size _ _ _ _ _ _ Hs) as [_ Hle]. destruct Hs as [Hm Hr Ht Hring Hws Hwr].
  unfold stream_write. ksteps. set (rb := sb_ring_buf (streams k a)) in *.
  destruct (ring_write_law rb (mem k) _ i n Hring) as (rb' & m' & He & (Hb & Hmk & Hcap) & Hr' & Hout);
    [done|intros x Hx; apply Hap; lia|]. rewrite He. cbn [fst snd].
  set (d := mem_bytes (mem k) i (Z.to_nat n)) in *.
  assert (Hlen : Z.of_nat (length d) = n) by (unfold d; rewrite length_mem_bytes; lia).
  assert (Hw : Z.min n (ring_buffer_capacity rb - Z.of_nat (length (bytes s))) = put_count d s)
    by (unfold put_count, size; by rewrite Hlen, Hr).
  rewrite Hw in *. apply HQ; [|by split; rsimpl; rewrite fn_lookup_alter|done]. split; rsimpl; rewrite ?fn_lookup_alter; rsimpl; simpl; try done.
  - by rewrite Hcap.
  - assert (put_count d s <= n) as Hpn by (unfold put_count; lia). unfold d at 2.
    rewrite take_mem_bytes; [done|lia].
Qed.

Lemma wp_stream_read P k V a s ws wr i n (Q : Z -> Kernel -> Prop) :
  stream_is k V a s ws wr -> 0 <= n -> apart k a i n ->
  (forall rb m, let k' := k <| streams ::= alter (set sb_ring_buf (fun _ => rb)) a |> <| mem := m |> in
     stream_is k' V a (left_by n s) ws wr -> mem_bytes m i (Z.to_nat (get_count n s)) = taken n s ->
     (forall y, ~ i <= y < i + get_count n s -> m y = mem k y) -> Q (get_count n s) k') ->
  wp P (stream_read a i n) k Q.
Proof.
  intros [Hm Hr Ht Hring Hws Hwr] Hn Hap HQ. unfold stream_read. ksteps.
  set (rb := sb_ring_buf (streams k a)) in *.
  destruct (ring_read_law rb (mem k) _ i n Hring) as (rb' & m' & He & (Hb & Hmk & Hcap) & Hr' & Hb' & Hout);
    [done|intros x Hx; apply Hap; lia|]. rewrite He. cbn [fst snd]. apply HQ; [|done|done].
  split; rsimpl; rewrite ?fn_lookup_alter; rsimpl; simpl; try done. by rewrite Hcap.
Qed.

Lemma stream_is_woken k k' V V' a s ws wr ws' wr' :
  stream_is k V a s ws wr -> streams k' = streams k -> mem k' = mem k ->
  V' (LStreamSend a) = Some ws' -> V' (LStreamRecv a) = Some wr' -> stream_is k' V' a s ws' wr'.
Proof. intros [] Hq Hm ??. split; rewrite ?Hq, ?Hm; done. Qed.

(** The end of a transfer from a task. *)
Lemma wp_wake_notify {A} k V b l wl cs (r : A) (Q : A -> Kernel -> Prop) :
  kernel_ok k V -> link_of l = FEvent -> V l = Some wl ->
  (forall k' V', kernel_ok k' V' -> streams k' = streams k -> mem k' = mem k ->
     (b = true -> served k k' V' wl) -> V' l = Some (if b then tail wl else wl) ->
     (forall l' us, link_of l' = FEvent -> l' <> l -> V l' = Some us -> V' l' = Some us) -> Q r k') ->
  wp quiet (if b then sertos_scheduler_wait_list_unblock_highest (Some l) else mret None) k
    (fun u k' => wp quiet (sertos_port_exit_critical cs;; notify_unblocked_task u;; mret r) k' Q).
Proof.
  intros Hk Hf Hl HQ.
  assert (H1 : wp quiet (wake_one b l cs r) k Q).
  { eapply wp_wake_one; [done..|]. intros k' V' Hk' _ Hs Hm. by apply HQ. }
  unfold wake_one in H1. apply wp_bind_inv in H1. eapply wp_mono; [exact H1|]. intros u k1 H2.
  apply wp_bind_inv in H2. apply wp_bind. eapply wp_mono; [exact H2|]. intros [] k2 H3.
  apply wp_bind, wp_bind. apply wp_bind_inv in H3. eapply wp_mono; [exact H3|]. intros running k3 H4.
  by apply wp_bind_inv in H4.
Qed.

Lemma triggered_spec k V a s ws wr :
  stream_is k V a s ws wr ->
  (sb_trigger_level_bytes (streams k a) <=? ring_buffer_count (sb_ring_buf (streams k a))) = triggered s.
Proof.
  intros Hs. destruct (stream_size _ _ _ _ _ _ Hs) as [Hc _]. unfold triggered. rewrite Hc. by destruct Hs as [_ _ -> _ _ _].
Qed.

(** The tests of the loops, once: nobody waits who need not. *)
Lemma wp_stream_send_once k V a s ws wr fuel timeout cs (m : Z -> M Kernel Z) (Q : Z -> Kernel -> Prop) :
  stream_is k V a s ws wr -> (0 < fuel)%nat -> stream_full s = false \/ timeout = SERTOS_NO_WAIT ->
  (stream_full s = false -> wp quiet (m cs) k Q) ->
  (stream_full s = true -> forall f, Q 0 (k <| port ::= f |>)) ->
  wp quiet (stream_send_loop fuel a timeout cs m) k Q.
Proof.
  intros Hs Hf Ht Hgo Hno. pose proof (stream_free_zero _ _ _ _ _ _ Hs) as Hz.
  destruct fuel as [|fuel]; [lia|]. cbn [stream_send_loop]. unfold rd_stream. wp_step. wp_step. rewrite Hz.
  destruct (stream_full s); cbn [negb]; [|by apply Hgo]. destruct Ht as [| ->]; [done|].
  rewrite Z.eqb_refl. wp_steps. apply wp_exit; [apply _|]. intros g. wp_steps. by apply Hno.
Qed.

Lemma wp_stream_receive_once k V a s ws wr fuel timeout cs (m : Z -> M Kernel Z) (Q : Z -> Kernel -> Prop) :
  stream_is k V a s ws wr -> (0 < fuel)%nat -> triggered s = true \/ timeout = SERTOS_NO_WAIT ->
  wp quiet (m cs) k Q -> wp quiet (stream_receive_loop fuel a timeout cs m) k Q.
Proof.
  intros Hs Hf Ht Hgo. pose proof (triggered_spec _ _ _ _ _ _ Hs) as Hz.
  destruct fuel as [|fuel]; [lia|]. cbn [stream_receive_loop]. unfold rd_stream. wp_step. wp_step.
  rewrite <-Z.leb_antisym, Hz. destruct (triggered s); [done|]. destruct Ht as [| ->]; [done|]. by rewrite Z.eqb_refl.
Qed.

(** The state after what fits of [d] was sent: the first reader was woken exactly if that filled
    the stream to its trigger level. *)
Definition sent k V a s (ws wr : list addr) (d : list Z) k' : Prop :=
  exists V' wr', kernel_ok k' V' /\ stream_is k' V' a (put d s) ws wr' /\
    (let wakes := negb (stream_full s) && triggered (put d s) in
     wr' = (if wakes then tail wr else wr) /\ (wakes = true -> served k k' V' wr)) /\
    same_storage k k' a /\ (forall y, ~ in_storage (sb_ring_buf (streams k a)) y -> mem k' y = mem k y).

(** The state after up to [n] bytes were moved to [i]: the first sender was woken exactly if
    there were any. *)
Definition received k V a s (ws wr : list addr) i n k' : Prop :=
  mem_bytes (mem k') i (Z.to_nat (get_count n s)) = taken n s /\
  exists V' ws', kernel_ok k' V' /\ stream_is k' V' a (left_by n s) ws' wr /\
    ws' = (if bool_decide (bytes s = []) then ws else tail ws) /\ (bytes s <> [] -> served k k' V' ws) /\
    (forall y, ~ i <= y < i + get_count n s -> mem k' y = mem k y).

Lemma stream_send_spec k V a s ws wr i n timeout :
  kernel_ok k V -> stream_is k V a s ws wr -> 0 < n -> apart k a i n -> (0 < loop_fuel)%nat ->
  stream_full s = false \/ timeout = SERTOS_NO_WAIT ->
  let d := mem_bytes (mem k) i (Z.to_nat n) in
  exists k', exec (sertos_stream_buffer_send (Some a) (Some i) n timeout) k = Some (put_count d s, k') /\ sent k V a s ws wr d k'.
Proof.
  intros Hk Hs Hn Hap Hf Hnb d.
  assert (G : wp quiet (sertos_stream_buffer_send (Some a) (Some i) n timeout) k
    (fun r k' => r = put_count d s /\ sent k V a s ws wr d k')).
  2:{ apply wp_exec in G as (r & k' & He & -> & HG). by exists k'. }
  unfold sertos_stream_buffer_send, is_send_params_valid, is_valid_handle, rd_stream. wp_steps.
  rewrite (stream_magic_ok_true _ _ _ _ _ _ Hs). cbn iota. rewrite (proj2 (Z.ltb_lt 0 n) Hn). cbn iota.
  wp_steps. apply wp_enter; [apply _|]. intros cs f. set (k0 := k <| port ::= f |>).
  assert (Hk0 : kernel_ok k0 V) by by eapply kernel_ok_same, Hk.
  assert (Hs0 : stream_is k0 V a s ws wr) by by destruct Hs.
  apply (wp_stream_send_once _ _ _ _ _ _ _ _ _ _ _ Hs0); [done|done| |].
  - intros Hroom. wp_step. apply (wp_stream_write _ k0 V a s ws wr); [done|lia|done|].
    intros rb m k1 d1 Hs1 Hsto Hout. unfold wake_reader_at_trigger, rd_stream. wp_steps.
    rewrite (triggered_spec _ _ _ _ _ _ Hs1). unfold sent. rewrite Hroom. cbn [negb andb].
    apply (wp_wake_notify _ V _ _ wr); [by eapply kernel_ok_same, Hk|done|apply Hs|].
    intros k2 V2 Hk2 Hst Hms Hserved Htl Hothers. split; [done|]. exists V2, (if triggered (put d s) then tail wr else wr).
    split; [done|]. split; [|split; [done|split]].
    + eapply stream_is_woken; [exact Hs1|done|done|by apply Hothers, Hs|done].
    + unfold same_storage. by rewrite Hst.
    + intros y Hy. rewrite Hms. by apply Hout.
  - intros Hfull g. unfold sent. rewrite Hfull. cbn [negb andb].
    assert (Hp0 : put_count d s = 0).
    { destruct (stream_size _ _ _ _ _ _ Hs) as [_ Hle]. apply Z.leb_le in Hfull.
      unfold put_count. rewrite Z.min_r; [lia|]. lia. }
    split; [done|]. exists V, wr. split; [by eapply kernel_ok_same, Hk|]. split; [|done].
    unfold put. rewrite Hp0. simpl. rewrite app_nil_r. by destruct Hs, s.
Qed.

(** C19: [sertos_stream_buffer_send] by someone who need not or does not want to wait
    terminates, keeps the kernel well-formed, writes nothing but the stream's storage, and
    appends as many bytes as fit, whose number it returns; the first reader that waits is made
    READY exactly when that fills the stream to its trigger level. *)
Theorem stream_send_refines k V a s ws wr i n timeout :
  kernel_ok k V -> stream_is k V a s ws wr -> 0 < n -> apart k a i n -> (0 < loop_fuel)%nat ->
  stream_full s = false \/ timeout = SERTOS_NO_WAIT ->
  let d := mem_bytes (mem k) i (Z.to_nat n) in
  exists k', exec (sertos_stream_buffer_send (Some a) (Some i) n timeout) k = Some (put_count d s, k') /\ sent k V a s ws wr d k'.
Proof. apply stream_send_spec. Qed.

Lemma stream_receive_spec k V a s ws wr i n timeout :
  kernel_ok k V -> stream_is k V a s ws wr -> 0 < n -> apart k a i n -> (0 < loop_fuel)%nat ->
  triggered s = true \/ timeout = SERTOS_NO_WAIT ->
  exists k', exec (sertos_stream_buffer_receive (Some a) (Some i) n timeout) k = Some (get_count n s, k') /\ received k V a s ws wr i n k'.
Proof.
  intros Hk Hs Hn Hap Hf Hnb.
  assert (G : wp quiet (sertos_stream_buffer_receive (Some a) (Some i) n timeout) k
    (fun r k' => r = get_count n s /\ received k V a s ws wr i n k')).
  2:{ apply wp_exec in G as (r & k' & He & -> & HG). by exists k'. }
  unfold sertos_stream_buffer_receive, is_recv_params_valid, is_valid_handle, rd_stream. wp_steps.
  rewrite (stream_magic_ok_true _ _ _ _ _ _ Hs). cbn iota. rewrite (proj2 (Z.ltb_lt 0 n) Hn). cbn iota.
  wp_steps. apply wp_enter; [apply _|]. intros cs f. set (k0 := k <| port ::= f |>).
  assert (Hk0 : kernel_ok k0 V) by by eapply kernel_ok_same, Hk.
  assert (Hs0 : stream_is k0 V a s ws wr) by by destruct Hs.
  apply (wp_stream_receive_once _ _ _ _ _ _ _ _ _ _ _ Hs0); [done|done|].
  wp_step. apply (wp_stream_read _ k0 V a s ws wr); [done|lia|done|].
  intros rb m k1 Hs1 Hbytes Hout. wp_steps.
  assert (Hpos : (0 <? get_count n s) = negb (bool_decide (bytes s = []))).
  { unfold get_count, size. destruct (bytes s) as [|b bs]; simpl; [|by apply Z.ltb_lt; lia].
    apply Z.ltb_ge. lia. }
  rewrite Hpos. apply (wp_wake_notify _ V _ _ ws); [by eapply kernel_ok_same, Hk|done|apply Hs|].
  intros k2 V2 Hk2 Hst Hms Hserved Htl Hothers. split; [done|]. split; [by rewrite Hms|].
  exists V2, (if bool_decide (bytes s = []) then ws else tail ws). split; [done|].
  split; [|split; [done|split]].
  - eapply stream_is_woken; [exact Hs1|done|done| |by apply Hothers, Hs]. rewrite Htl. by case_bool_decide.
  - intros Hne. apply Hserved. by rewrite bool_decide_false.
  - intros y Hy. rewrite Hms. by apply Hout.
Qed.

(** C20: [sertos_stream_buffer_receive] by someone who need not or does not want to wait
    terminates, keeps the kernel well-formed, writes nothing but the buffer, and moves as many
    of the oldest bytes as there are, up to [n], to the buffer and returns their number; the
    first sender that waits is made READY exactly when any were. *)
Theorem stream_receive_refines k V a s ws wr i n timeout :
  kernel_ok k V -> stream_is k V a s ws wr -> 0 < n -> apart k a i n -> (0 < loop_fuel)%nat ->
  triggered s = true \/ timeout = SERTOS_NO_WAIT ->
  exists k', exec (sertos_stream_buffer_receive (Some a) (Some i) n timeout) k = Some (get_count n s, k') /\ received k V a s ws wr i n k'.
Proof. apply stream_receive_spec. Qed.

Lemma apart_same k k' a i n : same_storage k k' a -> apart k a i n -> apart k' a i n.
Proof. intros [Hb Hm] Ha x Hx. unfold in_storage. rewrite Hb, Hm. by apply Ha. Qed.

(** C21: bytes sent to an empty stream that has room for them are received in order and
    unchanged, and the stream is empty again. *)
Theorem stream_roundtrip k V a c g ws wr i j n :
  kernel_ok k V -> stream_is k V a (StreamState [] c g) ws wr -> 0 < n <= c ->
  apart k a i n -> apart k a j n -> (0 < loop_fuel)%nat ->
  exists k' V' ws' wr', exec (r ← sertos_stream_buffer_send (Some a) (Some i) n SERTOS_NO_WAIT;
      r' ← sertos_stream_buffer_receive (Some a) (Some j) n SERTOS_NO_WAIT; mret (r, r')) k = Some ((n, n), k') /\
    mem_bytes (mem k') j (Z.to_nat n) = mem_bytes (mem k) i (Z.to_nat n) /\
    kernel_ok k' V' /\ stream_is k' V' a (StreamState [] c g) ws' wr'.
Proof.
  intros Hk Hs [Hn Hc] Hi Hj Hf. set (d := mem_bytes (mem k) i (Z.to_nat n)).
  assert (Hd : Z.of_nat (length d) = n) by (unfold d; rewrite length_mem_bytes; lia).
  destruct (stream_send_spec k V a _ ws wr i n SERTOS_NO_WAIT Hk Hs Hn Hi Hf (or_intror eq_refl))
    as (k1 & He1 & V1 & wr1 & Hk1 & Hs1 & _ & Hsto & _). fold d in He1, Hs1.
  assert (Hput : put_count d (StreamState [] c g) = n) by (unfold put_count, size; simpl; lia).
  unfold put in Hs1. rewrite Hput in *. cbn [bytes room trigger] in Hs1.
  rewrite take_ge in Hs1 by lia. rewrite app_nil_l in Hs1.
  destruct (stream_receive_spec k1 V1 a _ ws wr1 j n SERTOS_NO_WAIT Hk1 Hs1 Hn) as
    (k2 & He2 & Hb & V2 & ws2 & Hk2 & Hs2 & _); [by eapply apart_same|done|by right|].
  assert (Hget : get_count n (StreamState d c g) = n) by (unfold get_count, size; simpl; lia).
  unfold left_by, taken in *. rewrite Hget in *. cbn [bytes room trigger] in *.
  rewrite skipn_all2 in Hs2 by lia. rewrite take_ge in Hb by lia.
  exists k2, V2, ws2, wr1. split; [|done].
  rewrite run_bind, He1. cbn [mbind option_bind]. rewrite run_bind, He2. done.
Qed.

(** ** From interrupts *)

(** [flag] is what is stored through [out_higher_prio_woken]. *)
Definition outranks_current k (p : ptr) : bool :=
  match p, sertos_current_tcb k with
  | Some u, Some c => priority (tcbs k c) <? priority (tcbs k u)
  | _, _ => false
  end.

Lemma wp_update_higher_prio_woken P k k0 (p : ptr) (b : bool) (Q : option bool -> Kernel -> Prop) :
  sertos_current_tcb k = sertos_current_tcb k0 -> (forall x, priority (tcbs k x) = priority (tcbs k0 x)) ->
  Q (if b then Some (outranks_current k0 p) else None) k ->
  wp P (update_higher_prio_woken p (if b then Some false else None)) k Q.
Proof.
  intros Hc Hp HQ. unfold update_higher_prio_woken. destruct p as [u|], b; wp_steps; try exact HQ.
  unfold sertos_scheduler_get_current_tcb. wp_steps. rewrite Hc. unfold outranks_current in HQ.
  destruct (sertos_current_tcb k0) as [c|]; [rewrite !Hp|done]. by destruct (_ <? _).
Qed.

(** Something of [d] fits unless the stream is full. *)
Lemma put_count_positive d s :
  0 < Z.of_nat (length d) -> size s <= room s -> (0 <? put_count d s) = negb (stream_full s).
Proof.
  intros Hd Hle. unfold put_count, stream_full. destruct (Z.leb_spec (room s) (size s)).
  - apply Z.ltb_ge. lia.
  - apply Z.ltb_lt. lia.
Qed.

(** [sertos_stream_buffer_send_from_isr] has the effect of a send that does not wait, up
    to the context switch: it stays with the current task, and tells through its out-parameter
    whether it woke a task of higher priority. *)
Theorem stream_send_from_isr_refines k V a s ws wr i n out :
  kernel_ok k V -> stream_is k V a s ws wr -> 0 < n -> apart k a i n ->
  let d := mem_bytes (mem k) i (Z.to_nat n) in
  let wakes := negb (stream_full s) && triggered (put d s) in
  exists k', exec (sertos_stream_buffer_send_from_isr (Some a) (Some i) n out) k =
      Some ((put_count d s,
        if out then Some (wakes && outranks_current k (head wr)) else None), k') /\
    sent k V a s ws wr d k' /\ sertos_current_tcb k' = sertos_current_tcb k.
Proof.
  intros Hk Hs Hn Hap d wakes.
  assert (G : wp quiet (sertos_stream_buffer_send_from_isr (Some a) (Some i) n out) k (fun r k' =>
    r = (put_count d s, if out then Some (wakes && outranks_current k (head wr)) else None) /\
    sent k V a s ws wr d k' /\ sertos_current_tcb k' = sertos_current_tcb k)).
  2:{ apply wp_exec in G as (r & k' & He & -> & HG). by exists k'. }
  unfold sertos_stream_buffer_send_from_isr, is_send_params_valid, is_valid_handle, rd_stream. wp_steps.
  rewrite (stream_magic_ok_true _ _ _ _ _ _ Hs). cbn iota. rewrite (proj2 (Z.ltb_lt 0 n) Hn). cbn iota.
  wp_steps. apply wp_enter; [apply _|]. intros cs f. set (k0 := k <| port ::= f |>).
  assert (Hk0 : kernel_ok k0 V) by by eapply kernel_ok_same, Hk.
  assert (Hs0 : stream_is k0 V a s ws wr) by by destruct Hs.
  destruct (stream_size _ _ _ _ _ _ Hs) as [_ Hle].
  assert (Hlen : Z.of_nat (length d) = n) by (unfold d; rewrite length_mem_bytes; lia).
  pose proof (put_count_positive d s ltac:(lia) Hle) as Hfull.
  wp_step. apply (wp_stream_write _ k0 V a s ws wr); [done|lia|done|].
  intros rb m k1 d1 Hs1 Hsto Hout. change d1 with d in *.
  wp_steps. rewrite Hfull. unfold wake_reader_at_trigger, rd_stream, sent. fold wakes.
  destruct (stream_full s) eqn:Hfl; cbn [negb] in *.
  { subst wakes. cbn [andb]. wp_steps. apply wp_exit; [apply _|]. intros g. wp_steps.
    split; [by destruct out|]. split; [|done]. exists V, wr. split; [by eapply kernel_ok_same, Hk|].
    split; [by destruct Hs1|done]. }
  wp_steps. rewrite (triggered_spec _ _ _ _ _ _ Hs1). subst wakes. cbn [andb].
  assert (Hk1 : kernel_ok k1 V) by by eapply kernel_ok_same, Hk.
  destruct (triggered (put d s)) eqn:Htr.
  2:{ wp_steps. apply (wp_update_higher_prio_woken _ _ k); [done|done|]. wp_steps. apply wp_exit; [apply _|].
      intros g. wp_steps. split; [by destruct out|]. split; [|done]. exists V, wr.
      split; [by eapply kernel_ok_same, Hk|]. split; [by destruct Hs1|done]. }
  apply (wp_unblock_highest _ _ V (LStreamRecv a) wr); [done|done|apply Hs|]. destruct wr as [|t wr].
  - apply (wp_update_higher_prio_woken _ _ k); [done|done|]. wp_steps. apply wp_exit; [apply _|].
    intros g. wp_steps. split; [by destruct out|]. split; [|done]. exists V, [].
    split; [by eapply kernel_ok_same, Hk|]. split; [by destruct Hs1|]. split; [|done]. split; [done|]. intros _ t [=].
  - intros h b V2 k2 Hk2. apply (wp_update_higher_prio_woken _ _ k); [done| |].
    { intros x. unfold k2. rsimpl. destruct (decide (t = x)) as [<-|Hne];
        [by rewrite fn_lookup_alter|by rewrite fn_lookup_alter_ne]. }
    wp_steps. apply wp_exit; [apply _|]. intros g. wp_steps. split; [by destruct out|]. split; [|done].
    exists V2, wr. split; [by eapply kernel_ok_same, Hk2|].
    destruct (wake_head_served k V (LStreamRecv a) t wr k2) as (Hsv & Htl & Hoth); [done|done|apply Hs|done|].
    split; [|split; [|done]].
    + eapply stream_is_woken; [exact Hs1|done|done|by apply Hoth, Hs|done].
    + by split.
Qed.
End props.

(** ** The theorems at concrete kernels *)

Abbreviation sbS := 0x9100.
Abbreviation source := 0xA000.
Abbreviation target := 0xB000.

(** An empty stream of 15 bytes with trigger level 2; C runs. *)
Definition k_stream : Kernel :=
  after (sertos_stream_buffer_create_static (Some sbS) (Some 0x9900) 16 2 true;;
    modify (set mem (mem_fill source 4 7))) k_trio.
Definition v_stream :=
  sched_view [(0, [idle]); (3, [tA; tB]); (5, [tC])] [] [idle; tA; tB; tC] [(LStreamSend sbS, []); (LStreamRecv sbS, [])].
(** C waits for bytes, A runs. *)
Definition k_thirsty : Kernel :=
  until_switch (sertos_stream_buffer_receive (Some sbS) (Some target) 8 SERTOS_WAIT_FOREVER) k_stream.
Definition v_thirsty :=
  sched_view [(0, [idle]); (3, [tA; tB])] [] [idle; tA; tB; tC] [(LStreamSend sbS, []); (LStreamRecv sbS, [tC])].
(** Four bytes are in store, C runs. *)
Definition k_filled : Kernel := after (sertos_stream_buffer_send (Some sbS) (Some source) 4 SERTOS_NO_WAIT) k_stream.

Lemma empty_stream_is k wr vs :
  sb_magic (streams k sbS) = SERTOS_STREAM_BUFFER_MAGIC_WORD -> sb_trigger_level_bytes (streams k sbS) = 2 ->
  sb_ring_buf (streams k sbS) = mkRefRing 0x9900 15 0 0 ->
  view_of vs (LStreamSend sbS) = Some [] -> view_of vs (LStreamRecv sbS) = Some wr ->
  stream_is k (view_of vs) sbS (StreamState [] 15 2) [] wr.
Proof.
  intros Hm Ht Hr Hs Hw. split; try done; rewrite Hr; [reflexivity|]. split; [by exists 4|done..].
Qed.
Lemma k_stream_is : stream_is k_stream (view_of v_stream) sbS (StreamState [] 15 2) [] [].
Proof. apply empty_stream_is; vm_compute; reflexivity. Qed.
Lemma k_thirsty_is : stream_is k_thirsty (view_of v_thirsty) sbS (StreamState [] 15 2) [] [tC].
Proof. apply empty_stream_is; vm_compute; reflexivity. Qed.
Lemma k_filled_is : stream_is k_filled (view_of v_stream) sbS (StreamState [7; 7; 7; 7] 15 2) [] [].
Proof.
  split; try (vm_compute; reflexivity).
  assert (sb_ring_buf (streams k_filled sbS) = mkRefRing 0x9900 15 4 0) as -> by (vm_compute; reflexivity).
  split; [by exists 4|simpl; lia|simpl; lia|done|].
  intros j b Hj. do 4 (destruct j as [|j]; [injection Hj as <-; vm_compute; reflexivity|]). done.
Qed.

Lemma apart_check k a i n :
  bool_decide (rb_buffer (sb_ring_buf (streams k a)) + rb_mask (sb_ring_buf (streams k a)) < i) = true ->
  apart k a i n.
Proof. intros Hb%bool_decide_eq_true x Hx Hin. unfold in_storage in Hin. lia. Qed.

(** A sends; C, which waits, is served. *)
Lemma stream_send_refines_witness :
  let d := mem_bytes (mem k_thirsty) source (Z.to_nat 4) in
  exists k', exec (sertos_stream_buffer_send (Some sbS) (Some source) 4 SERTOS_NO_WAIT) k_thirsty =
      Some (put_count d (StreamState [] 15 2), k') /\
    sent k_thirsty (view_of v_thirsty) sbS (StreamState [] 15 2) [] [tC] d k'.
Proof.
  apply (stream_send_refines k_thirsty (view_of v_thirsty) sbS (StreamState [] 15 2) [] [tC] source 4 SERTOS_NO_WAIT).
  - check_kernel.
  - apply k_thirsty_is.
  - lia.
  - apply apart_check. vm_compute. reflexivity.
  - vm_compute. lia.
  - by right.
Defined.

Lemma stream_receive_refines_witness :
  exists k', exec (sertos_stream_buffer_receive (Some sbS) (Some target) 3 SERTOS_WAIT_FOREVER) k_filled =
      Some (get_count 3 (StreamState [7; 7; 7; 7] 15 2), k') /\
    received k_filled (view_of v_stream) sbS (StreamState [7; 7; 7; 7] 15 2) [] [] target 3 k'.
Proof.
  apply (stream_receive_refines k_filled (view_of v_stream)).
  - check_kernel.
  - apply k_filled_is.
  - lia.
  - apply apart_check. vm_compute. reflexivity.
  - vm_compute. lia.
  - by left.
Defined.

Lemma stream_roundtrip_witness :
  exists k' V' ws' wr', exec (r ← sertos_stream_buffer_send (Some sbS) (Some source) 4 SERTOS_NO_WAIT;
      r' ← sertos_stream_buffer_receive (Some sbS) (Some target) 4 SERTOS_NO_WAIT; mret (r, r')) k_stream =
      Some ((4, 4), k') /\
    mem_bytes (mem k') target (Z.to_nat 4) = mem_bytes (mem k_stream) source (Z.to_nat 4) /\
    kernel_ok k' V' /\ stream_is k' V' sbS (StreamState [] 15 2) ws' wr'.
Proof.
  apply (stream_roundtrip k_stream (view_of v_stream) sbS 15 2 [] [] source target 4).
  - check_kernel.
  - apply k_stream_is.
  - lia.
  - apply apart_check. vm_compute. reflexivity.
  - apply apart_check. vm_compute. reflexivity.
  - vm_compute. lia.
Defined.

(** An interrupt sends while A runs, and learns that it woke C, of higher priority. *)
Lemma stream_send_from_isr_refines_witness :
  let d := mem_bytes (mem k_thirsty) source (Z.to_nat 4) in
  let s := StreamState [] 15 2 in
  let wakes := negb (stream_full s) && triggered (put d s) in
  exists k', exec (sertos_stream_buffer_send_from_isr (Some sbS) (Some source) 4 true) k_thirsty =
      Some ((put_count d s, Some (wakes && outranks_current k_thirsty (head [tC]))), k') /\
    sent k_thirsty (view_of v_thirsty) sbS s [] [tC] d k' /\
    sertos_current_tcb k' = sertos_current_tcb k_thirsty.
Proof.
  apply (stream_send_from_isr_refines k_thirsty (view_of v_thirsty) sbS (StreamState [] 15 2) [] [tC] source 4 true).
  - check_kernel.
  - apply k_thirsty_is.
  - lia.
  - apply apart_check. vm_compute. reflexivity.
Defined.
