(* ===== verification/StatsProps.v ===== *)
(** Runtime statistics: exact shares up to the overflow of the fixed-point product, snapshots
    that count every registered task once, and that accounting loses no run time. *)
From S2P Require Import Prelude Effects Types Platform LinkedLists Kernel Invariant RefPlatform.
From S2P Require Import KernelCheck SchedCore SchedCoreSpec DelaySpec TaskInfo Stats Timer Scheduler.
From S2P Require Import Task SchedulerSpec BlockSpec TaskSpec Scenarios.

(** ** Shares *)

(** C38: the share of a task is [part * 10000 / total], rounded down and at most 10000, as long
    as [part * 10000] fits in 64 bits, and 0 of nothing is 0.  Beyond that the product wraps: a
    task that had all of 1844674407370956 ns (21 days) is reported with a share of 0. *)
Theorem percent_exact_until_wrap part total :
  0 <= part <= total -> part * 10000 < 2 ^ 64 ->
  compute_percent_x100 part total = (if total =? 0 then 0 else part * 10000 / total) /\
  0 <= compute_percent_x100 part total <= 10000 /\
  compute_percent_x100 1844674407370956 1844674407370956 = 0.
Proof.
  intros Hp Hw. split_and!; [..|by vm_compute].
  all: unfold compute_percent_x100; destruct (Z.eqb_spec total 0) as [|Ht]; try lia.
  all: assert (0 <= part * 10000 / total <= 10000) by (split; [apply Z.div_pos|apply Z.div_le_upper_bound]; lia).
  all: unfold wrap; rewrite (Z.mod_small (part * 10000)), Z.mod_small by lia; lia.
Qed.

Section props.
Context `{PL : Platform} `{!PlatformLaws}.
Implicit Types (k : Kernel) (V : lview) (a t : addr).

(** ** Visiting the registry *)

(** A visitor that only reads the kernel folds over the tasks of the list, in order. *)
Lemma wp_visit_loop {C} P (visit : addr -> C -> M Kernel C) (f : Kernel -> C -> addr -> C) k V l ts2 :
  forall ts1 fuel ctx (Q : C -> Kernel -> Prop),
  lists_ok (heap k) V -> V l = Some (ts1 ++ ts2) -> link_of l = FRegistry ->
  (length ts2 <= fuel)%nat ->
  (forall t ctx (Q' : C -> Kernel -> Prop), Q' (f k ctx t) k -> wp P (visit t ctx) k Q') ->
  Q (foldl (f k) ctx ts2) k ->
  wp P (visit_loop fuel l visit (Some (next_of l ts2)) ctx) k Q.
Proof.
  induction ts2 as [|t ts2 IH]; intros ts1 fuel ctx Q HV Hl Hf Hfu Hv HQ.
  - destruct fuel; cbn [visit_loop next_of]; rewrite decide_True by done; by wp_steps.
  - destruct fuel as [|fuel]; [simpl in Hfu; lia|]. cbn [visit_loop next_of].
    rewrite decide_False by done. cbn [unless_none]. wp_steps. cbn [container_of].
    rewrite Hf, decide_True by done. wp_steps. apply Hv. unfold rd_next. wp_steps.
    pose proof (member_next _ _ _ _ _ _ HV Hl) as Hn. rewrite Hf in Hn. rewrite Hn.
    apply (IH (ts1 ++ [t])); [done|by rewrite <-app_assoc|done|simpl in Hfu; lia|done|done].
Qed.

Lemma wp_visit_all {C} P `{!Calm P} (visit : addr -> C -> M Kernel C) (f : Kernel -> C -> addr -> C)
    k V rs ctx (Q : C -> Kernel -> Prop) :
  lists_ok (heap k) V -> V LRegistry = Some rs -> (length rs <= loop_fuel)%nat ->
  (forall k t ctx (Q' : C -> Kernel -> Prop), Q' (f k ctx t) k -> wp P (visit t ctx) k Q') ->
  (forall k1 k2 ctx t, tcbs k1 = tcbs k2 -> mem k1 = mem k2 -> f k1 ctx t = f k2 ctx t) ->
  (forall g, Q (foldl (f k) ctx rs) (k <| port ::= g |>)) ->
  wp P (sertos_scheduler_visit_all_tasks (Some visit) ctx) k Q.
Proof.
  intros HV Hrs Hfu Hv Hext HQ.
  unfold sertos_scheduler_visit_all_tasks, visit_list_state_nodes, rd_next. wp_steps.
  apply wp_enter; [done|]. intros c g. wp_steps. rsimpl. rewrite (root_next _ _ _ _ HV Hrs).
  apply (wp_visit_loop _ _ f _ V LRegistry rs []); [exact HV|done|done|done|by intros; apply Hv|].
  wp_steps. apply wp_exit; [done|]. intros g'. wp_steps.
  assert (Heq : foldl (f (k <| port ::= g |>)) ctx rs = foldl (f k) ctx rs).
  { clear -Hext. revert ctx. induction rs as [|t rs IH]; intros ctx; [done|]. simpl.
    rewrite IH. f_equal. by apply Hext. }
  rewrite Heq. apply (HQ (fun p => g' (g p))).
Qed.

(** ** Snapshots *)

Definition run_time k (ts : list addr) : Z := foldr (fun t s => run_time_total (tcbs k t) + s) 0 ts.

(** What [sertos_task_get_stack_high_water_mark] reads. *)
Definition high_water k t : Z :=
  if task_magic_ok k t then
    painted_bytes (mem k) (uintptr (stack_base (tcbs k t))) (Z.to_nat (stack_size (tcbs k t)))
  else 0.

Definition record_of k (share : Z) t : SertosTaskStats :=
  let tcb := tcbs k t in
  mkTaskStats (name tcb) (priority tcb) (state tcb) (run_time_total tcb) share
    (switch_in_count tcb) (high_water k t).
Definition share_of k (rs : list addr) t : Z :=
  compute_percent_x100 (run_time_total (tcbs k t)) (u64 (run_time k rs)).

Lemma wp_high_water P k t (Q : Z -> Kernel -> Prop) :
  Q (high_water k t) k -> wp P (sertos_task_get_stack_high_water_mark (Some t)) k Q.
Proof.
  intros HQ. unfold sertos_task_get_stack_high_water_mark, rd_tcb. wp_steps.
  unfold high_water in HQ. destruct (task_magic_ok k t); by wp_steps.
Qed.

Definition sum_step k (ctx : StatsSumContext) t : StatsSumContext :=
  mkSum (u64 (sum_total ctx + run_time_total (tcbs k t))) (u32 (sum_count ctx + 1)).

Lemma sum_fold k ts : forall a c, foldl (sum_step k) (mkSum (u64 a) (u32 c)) ts =
  mkSum (u64 (a + run_time k ts)) (u32 (c + Z.of_nat (length ts))).
Proof.
  induction ts as [|t ts IH]; intros a c; simpl; [by rewrite !Z.add_0_r|].
  assert (Hstep : sum_step k (mkSum (u64 a) (u32 c)) t =
    mkSum (u64 (a + run_time_total (tcbs k t))) (u32 (c + 1))).
  { unfold sum_step, wrap. simpl. by rewrite !Zplus_mod_idemp_l. }
  rewrite Hstep, IH, Z.add_assoc. do 2 f_equal. lia.
Qed.

Lemma wp_sum_visitor P k t ctx (Q : StatsSumContext -> Kernel -> Prop) :
  Q (sum_step k ctx t) k -> wp P (sum_visitor t ctx) k Q.
Proof. intros HQ. unfold sum_visitor, rd_tcb. wp_steps. destruct ctx. exact HQ. Qed.

Definition fill_step k (ctx : StatsFillContext) t : StatsFillContext :=
  let room := fill_written ctx <? fill_capacity ctx in
  mkFill (fill_arr ctx ++ if room then [record_of k 0 t] else []) (fill_capacity ctx)
    (fill_written ctx + if room then 1 else 0)
    (u64 (fill_total ctx + run_time_total (tcbs k t))).

Lemma wp_fill_visitor P k t ctx (Q : StatsFillContext -> Kernel -> Prop) :
  Q (fill_step k ctx t) k -> wp P (fill_visitor t ctx) k Q.
Proof.
  intros HQ. unfold fill_visitor, rd_tcb. destruct ctx as [arr cap w tot].
  unfold fill_step in HQ. cbn [fill_arr fill_capacity fill_written fill_total] in HQ. wp_steps. rsimpl.
  cbn [fill_written fill_capacity]. destruct (w <? cap); wp_steps.
  - apply wp_high_water. wp_steps. exact HQ.
  - rewrite app_nil_r, Z.add_0_r in HQ. exact HQ.
Qed.

Lemma fill_fold k cap ts : forall arr w a, w <= cap ->
  foldl (fill_step k) (mkFill arr cap w (u64 a)) ts =
  mkFill (arr ++ take (Z.to_nat (cap - w)) (record_of k 0 <$> ts)) cap
    (w + Z.min (cap - w) (Z.of_nat (length ts))) (u64 (a + run_time k ts)).
Proof.
  induction ts as [|t ts IH]; intros arr w a Hw; simpl.
  - rewrite take_nil, app_nil_r, Z.add_0_r, Z.min_r, Z.add_0_r by lia. done.
  - unfold fill_step at 2. cbn [fill_arr fill_capacity fill_written fill_total].
    assert (Ht : u64 (u64 a + run_time_total (tcbs k t)) = u64 (a + run_time_total (tcbs k t))).
    { unfold wrap. by rewrite Zplus_mod_idemp_l. }
    rewrite Ht. destruct (Z.ltb_spec w cap) as [Hlt|Hge]; (rewrite IH by lia); f_equal; try (f_equal; lia); try lia.
    + rewrite <-app_assoc. f_equal. replace (Z.to_nat (cap - w)) with (S (Z.to_nat (cap - (w + 1)))) by lia. done.
    + rewrite app_nil_r, Z.add_0_r. by replace (Z.to_nat (cap - w)) with 0%nat by lia.
Qed.

Section snapshot.
Context (P : protocol Kernel) `{!Calm P} (k : Kernel) (V : lview) (rs : list addr).
Hypothesis (HV : lists_ok (heap k) V) (Hrs : V LRegistry = Some rs).
Hypothesis (Hfu : (length rs <= loop_fuel)%nat) (Hen : s_stats_enabled k = true).

Definition system_of : SertosSystemStats :=
  let total := u64 (run_time k rs) in
  let idle := run_time_total (tcbs k s_idle_tcb) in
  mkSystemStats total idle (compute_percent_x100 idle total) (s_total_switches k)
    (u32 (atomic_load_relaxed (s_system_ticks k))) (u32 (Z.of_nat (length rs))).

Lemma wp_get_system (Q : SertosStatus * option SertosSystemStats -> Kernel -> Prop) :
  (forall g, Q (SERTOS_STATUS_OK, Some system_of) (k <| port ::= g |>)) ->
  wp P (sertos_stats_get_system true) k Q.
Proof.
  intros HQ. unfold sertos_stats_get_system. cbn [negb]. wp_steps. rewrite Hen. cbn [negb]. wp_steps.
  eapply (wp_visit_all P sum_visitor sum_step); [exact HV|done|done|intros; by apply wp_sum_visitor| |].
  { intros k1 k2 ctx t Ht _. unfold sum_step. by rewrite Ht. }
  intros g. change (mkSum 0 0) with (mkSum (u64 0) (u32 0)). rewrite (sum_fold k rs 0 0). unfold sertos_scheduler_get_idle_tcb, sertos_scheduler_get_tick_count, rd_tcb.
  wp_steps. rsimpl. rewrite atomic_load_acquire_law. apply HQ.
Qed.

(** While accounting is on, [sertos_stats_get_system] succeeds; it reports the run times of
    all registered tasks, each counted once, the idle task's part of it, the switches, the ticks
    and the number of tasks, and the reported CPU load is what the idle share leaves of 10000. *)
Theorem stats_get_system_correct :
  wp P (sertos_stats_get_system true) k (fun r k' =>
    r = (SERTOS_STATUS_OK, Some system_of) /\ exists g, k' = k <| port ::= g |>) /\
  wp P sertos_stats_get_cpu_load_x100 k (fun load _ =>
    load = u32 (10000 - compute_percent_x100 (run_time_total (tcbs k s_idle_tcb)) (u64 (run_time k rs)))).
Proof.
  split; [apply wp_get_system; by eauto|].
  unfold sertos_stats_get_cpu_load_x100. wp_steps. apply wp_get_system. intros g. by wp_steps.
Qed.

(** [sertos_stats_get_tasks] writes one record for each registered task, in the order of the
    registry, as far as the array goes, and returns their number; the share of each is taken of
    the run time of all registered tasks, those without a record included. *)
Theorem stats_get_tasks_correct capacity :
  0 < capacity ->
  wp P (sertos_stats_get_tasks true capacity) k (fun r k' =>
    r = (Z.min capacity (Z.of_nat (length rs)),
         take (Z.to_nat capacity) ((fun t => record_of k (share_of k rs t) t) <$> rs)) /\
    exists g, k' = k <| port ::= g |>).
Proof.
  intros Hc. unfold sertos_stats_get_tasks. wp_steps. rewrite Hen, (proj2 (Z.eqb_neq _ _)) by lia.
  cbn [negb orb]. wp_steps.
  eapply (wp_visit_all P fill_visitor fill_step); [exact HV|done|done|intros; by apply wp_fill_visitor| |].
  { intros k1 k2 ctx t Ht Hm. unfold fill_step, record_of, high_water, task_magic_ok. by rewrite Ht, Hm. }
  intros g. change (mkFill [] capacity 0 0) with (mkFill [] capacity 0 (u64 0)). wp_steps.
  rewrite (fill_fold k capacity rs [] 0 0) by lia. rewrite Z.sub_0_r.
  cbn [fill_written fill_arr fill_total]. rewrite !Z.add_0_l. split; [|by eauto]. f_equal.
  cbn [app]. rewrite <-!fmap_take, <-list_fmap_compose. by apply list_fmap_ext.
Qed.
End snapshot.

(** ** Accounting *)

(** The value the port's counter has for the time [time]. *)
Definition clock_reads k (time : Z) : Prop :=
  (port_runtime_counter (u32 (atomic_load_relaxed (s_system_ticks k))) (port k)).1 = u32 time.

(** Between two switches anything may happen that does not touch the accounting fields. *)
Definition lapse k k' : Prop :=
  s_stats_enabled k' = s_stats_enabled k /\
  forall t, run_time_total (tcbs k' t) = run_time_total (tcbs k t) /\
    run_time_last_entry (tcbs k' t) = run_time_last_entry (tcbs k t).

(** [history rs T0 k0 T c k]: from [k0] at time [T0], switches among the tasks [rs], at most one
    wrap-around of the 32-bit counter apart, led to [k], where [c] has run since [T]. *)
Inductive history (rs : list addr) (T0 : Z) k0 : Z -> addr -> Kernel -> Prop :=
  | history_start c :
      c ∈ rs -> s_stats_enabled k0 = true -> run_time_last_entry (tcbs k0 c) = u32 T0 ->
      history rs T0 k0 T0 c k0
  | history_switch T T' c n k k1 k2 :
      history rs T0 k0 T c k -> lapse k k1 -> T <= T' < T + 2 ^ 32 -> clock_reads k1 T' -> n ∈ rs ->
      exec (sertos_stats_on_switch (Some c) (Some n)) k1 = Some (tt, k2) ->
      history rs T0 k0 T' n k2.

(** What one call of [sertos_stats_on_switch] does to the accounts. *)
Lemma on_switch_accounts k T c n k2 :
  s_stats_enabled k = true -> clock_reads k T ->
  exec (sertos_stats_on_switch (Some c) (Some n)) k = Some (tt, k2) ->
  s_stats_enabled k2 = true /\ run_time_last_entry (tcbs k2 n) = u32 T /\
  forall t, run_time_total (tcbs k2 t) =
    if decide (t = c) then u64 (run_time_total (tcbs k t) + u32 (u32 T - run_time_last_entry (tcbs k t)))
    else run_time_total (tcbs k t).
Proof.
  intros Hen Hcl. unfold clock_reads in Hcl. rewrite <-atomic_load_acquire_law in Hcl. intros He.
  cut (wp quiet (sertos_stats_on_switch (Some c) (Some n)) k (fun _ k2 =>
    s_stats_enabled k2 = true /\ run_time_last_entry (tcbs k2 n) = u32 T /\
    forall t, run_time_total (tcbs k2 t) =
      if decide (t = c) then u64 (run_time_total (tcbs k t) + u32 (u32 T - run_time_last_entry (tcbs k t)))
      else run_time_total (tcbs k t))).
  { intros Hw. apply wp_exec in Hw as (a & s & Hx & HQ). rewrite He in Hx. by simplify_eq. }
  unfold sertos_stats_on_switch, runtime_counter, sertos_scheduler_get_tick_count,
    sertos_port_runtime_counter, upd_tcb, rd_tcb. wp_steps. rewrite Hen. cbn [negb]. wp_steps. rewrite Hcl.
  apply wp_when; intros _; wp_steps; rsimpl; (split_and!; [done|by rewrite ?alter_alter, fn_lookup_alter|]).
  all: intros t; rewrite ?alter_alter.
  all: destruct (decide (t = c)), (decide (t = n)); subst; repeat first [rewrite fn_lookup_alter | rewrite fn_lookup_alter_ne by done]; by rsimpl.
Qed.

(** A TCB's checksum covers what is before its magic word: accounting does not change it. *)
Lemma crc_ignores_accounting crc bytes (c n t : addr) k k2 :
  exec (sertos_stats_on_switch (Some c) (Some n)) k = Some (tt, k2) ->
  result (sertos_task_compute_crc crc bytes (Some t)) k2 = result (sertos_task_compute_crc crc bytes (Some t)) k.
Proof.
  intros He. cut (fields_before_magic k2 t = fields_before_magic k t); [unfold result; simpl; congruence|].
  cut (wp quiet (sertos_stats_on_switch (Some c) (Some n)) k (fun _ k2 => fields_before_magic k2 t = fields_before_magic k t)).
  { intros Hw. apply wp_exec in Hw as (a & s & Hx & HQ). rewrite He in Hx. injection Hx as _ <-. exact HQ. }
  unfold sertos_stats_on_switch, runtime_counter, sertos_scheduler_get_tick_count,
    sertos_port_runtime_counter, upd_tcb, rd_tcb. wp_steps.
  destruct (s_stats_enabled k); cbn [negb]; [|by wp_steps]. wp_steps.
  apply wp_when; intros _; wp_steps; unfold fields_before_magic; rsimpl; rewrite ?alter_alter.
  all: destruct (decide (t = c)), (decide (t = n)); subst;
    repeat first [rewrite fn_lookup_alter | rewrite fn_lookup_alter_ne by done]; by rsimpl.
Qed.

Definition counted_up k (ts : list addr) : Prop := Forall (fun t => 0 <= run_time_total (tcbs k t)) ts.

Lemma run_time_nonneg k ts : counted_up k ts -> 0 <= run_time k ts.
Proof. induction 1; simpl; lia. Qed.

(** Charging one task of the list. *)
Lemma run_time_charge k k' c d ts :
  NoDup ts -> c ∈ ts ->
  (forall t, run_time_total (tcbs k' t) = run_time_total (tcbs k t) + if decide (t = c) then d else 0) ->
  run_time k' ts = run_time k ts + d.
Proof.
  intros Hnd Hin Hk. assert (Hout : forall ts, c ∉ ts -> run_time k' ts = run_time k ts).
  { induction ts0 as [|t ts0 IH]; intros Hn; simpl; [done|]. rewrite IH, Hk, decide_False by set_solver. lia. }
  induction Hnd as [|t ts Hni Hnd IH]; [set_solver|]. simpl. rewrite Hk.
  destruct (decide (t = c)) as [->|Hne]; [rewrite (Hout ts) by done; lia|].
  rewrite IH by set_solver. lia.
Qed.

Lemma run_time_lower k ts t : counted_up k ts -> t ∈ ts -> 0 <= run_time_total (tcbs k t) <= run_time k ts.
Proof.
  induction 1 as [|x ts Hx Hk IH]; intros Hin; [set_solver|]. simpl. pose proof (run_time_nonneg k ts Hk).
  apply elem_of_cons in Hin as [->|Hin]; [lia|]. specialize (IH Hin). lia.
Qed.

(** C37: accounting loses no time and counts none twice: over any sequence of switches, each less than
    2^32 counts after the one before (4.29 s with the nanosecond counters of the host ports), the
    run times of the tasks grow by exactly the time that passed up to the last switch, although the
    32-bit counter may wrap around between them, as long as the sum of the run times fits in 64
    bits. *)
Theorem accounting_conserves_time rs T0 k0 T c k :
  NoDup rs -> history rs T0 k0 T c k -> counted_up k0 rs ->
  run_time k0 rs + (T - T0) < 2 ^ 64 ->
  run_time k rs = run_time k0 rs + (T - T0) /\ run_time_last_entry (tcbs k c) = u32 T.
Proof.
  intros Hnd Hh Hpos Hfit.
  cut (s_stats_enabled k = true /\ counted_up k rs /\ c ∈ rs /\
    run_time k rs = run_time k0 rs + (T - T0) /\ run_time_last_entry (tcbs k c) = u32 T); [tauto|].
  induction Hh as [c Hc Hen Hl|T T' c n k k1 k2 Hh IH [Hle Hlt] HT Hcl Hn He];
    [split_and!; [done|done|done|lia|done]|].
  destruct IH as (Hen & Hk & Hc & Hsum & Hlast); [lia|].
  assert (Hk1 : forall ts, run_time k1 ts = run_time k ts).
  { induction ts as [|t ts IHts]; simpl; [done|]. rewrite IHts. by rewrite (proj1 (Hlt t)). }
  rewrite <-Hle in Hen. destruct (on_switch_accounts _ _ _ _ _ Hen Hcl He) as (Hen2 & Hl2 & Ht2).
  assert (Hd : u32 (u32 T' - u32 T) = T' - T).
  { unfold wrap. rewrite <-Zminus_mod. apply Z.mod_small. lia. }
  assert (Hch : forall t, run_time_total (tcbs k2 t) =
    run_time_total (tcbs k1 t) + if decide (t = c) then T' - T else 0).
  { intros t. rewrite Ht2. case_decide as Hd'; [|lia]. subst t. rewrite (proj2 (Hlt c)), Hlast, Hd.
    unfold wrap. apply Z.mod_small. rewrite (proj1 (Hlt c)).
    pose proof (run_time_lower k rs c Hk Hc). lia. }
  split_and!; [done| |done| |done].
  - apply Forall_forall. intros t Ht. rewrite Hch, (proj1 (Hlt t)). pose proof (run_time_lower k rs t Hk Ht).
    case_decide; lia.
  - rewrite (run_time_charge k1 k2 c (T' - T) rs Hnd Hc Hch), Hk1. lia.
Qed.

End props.

(** ** Witnesses *)

(** The kernel of [k_trio] with accounting on, 40 ticks charged to C and 10 to the idle task;
    the same later, at 47 and at 50 ticks. *)
Definition k_counted : Kernel :=
  k_trio <| s_stats_enabled := true |>
    <| tcbs ::= alter (set run_time_total (fun _ => 40)) tC |>
    <| tcbs ::= alter (set run_time_total (fun _ => 10)) idle |>
    <| tcbs ::= alter (set run_time_last_entry (fun _ => 2)) tC |>.
Definition at_tick (n : Z) (k : Kernel) : Kernel :=
  k <| s_system_ticks := atomic_init_size_t n |>.
Definition switched_to (c n : addr) (k : Kernel) : Kernel :=
  after (sertos_stats_on_switch (Some c) (Some n)) k.

Lemma k_counted_ok : kernel_ok k_counted (view_of v_trio).
Proof. check_kernel. Qed.
Lemma k_counted_lists : lists_ok (heap k_counted) (view_of v_trio).
Proof. by destruct k_counted_ok. Qed.

Lemma at_tick_lapse n k : lapse k (at_tick n k).
Proof. by split. Qed.

Lemma switched_to_exec (c n : addr) k :
  exec (sertos_stats_on_switch (Some c) (Some n)) k = Some (tt, switched_to c n k).
Proof.
  destruct (proj1 (wp_exec (sertos_stats_on_switch (Some c) (Some n)) k (fun _ _ => True))) as ([] & k' & He & _).
  { by apply wp_stats_on_switch. }
  unfold switched_to, after. by rewrite He.
Qed.

Lemma history_next rs T0 k0 T T' (c n : addr) k m :
  history rs T0 k0 T c k -> T <= T' < T + 2 ^ 32 -> clock_reads (at_tick m k) T' -> n ∈ rs ->
  history rs T0 k0 T' n (switched_to c n (at_tick m k)).
Proof.
  intros Hh HT Hcl Hn. eapply history_switch; [exact Hh|apply at_tick_lapse|done..|apply switched_to_exec].
Qed.

Lemma percent_exact_until_wrap_witness :
  compute_percent_x100 2 3 = 6666 /\ 0 <= compute_percent_x100 2 3 <= 10000 /\
  compute_percent_x100 1844674407370956 1844674407370956 = 0.
Proof. apply (percent_exact_until_wrap 2 3); lia. Defined.

Definition counted_tasks : list addr := [idle; tA; tB; tC].

Lemma stats_get_system_correct_witness :
  let k := k_counted in let rs := counted_tasks in
  (wp quiet (sertos_stats_get_system true) k (fun r k' =>
     r = (SERTOS_STATUS_OK, Some (system_of k rs)) /\ exists g, k' = k <| port ::= g |>) /\
   wp quiet sertos_stats_get_cpu_load_x100 k (fun load _ =>
     load = u32 (10000 - compute_percent_x100 (run_time_total (tcbs k s_idle_tcb)) (u64 (run_time k rs))))) /\
  system_of k rs = mkSystemStats 50 10 2000 (s_total_switches k_trio) 0 4.
Proof.
  intros k rs. split; [|vm_compute; reflexivity].
  apply (stats_get_system_correct quiet k (view_of v_trio) rs);
    [exact k_counted_lists|vm_compute; reflexivity|vm_compute; lia|vm_compute; reflexivity].
Defined.

(** Two records of four tasks. *)
Lemma stats_get_tasks_correct_witness :
  let k := k_counted in let rs := counted_tasks in
  wp quiet (sertos_stats_get_tasks true 2) k (fun r k' =>
    r = (Z.min 2 (Z.of_nat (length rs)),
         take (Z.to_nat 2) ((fun t => record_of k (share_of k rs t) t) <$> rs)) /\
    exists g, k' = k <| port ::= g |>).
Proof.
  intros k rs.
  apply (stats_get_tasks_correct quiet k (view_of v_trio) rs);
    [exact k_counted_lists|vm_compute; reflexivity|vm_compute; lia|vm_compute; reflexivity|lia].
Defined.

(** C runs from tick 2 to tick 7, A from there to tick 9. *)
Lemma accounting_conserves_time_witness :
  let k1 := switched_to tC tA (at_tick 7 k_counted) in
  let k2 := switched_to tA tB (at_tick 9 k1) in
  run_time k2 counted_tasks = run_time k_counted counted_tasks + (9 - 2) /\
  run_time_last_entry (tcbs k2 tB) = u32 9.
Proof.
  intros k1 k2. apply (accounting_conserves_time counted_tasks 2 k_counted 9 tB k2).
  - apply (bool_decide_eq_true_1 _). vm_compute. reflexivity.
  - apply (history_next _ _ _ 7 9 tA tB k1 9); [|lia|vm_compute; reflexivity|set_solver].
    apply (history_next _ _ _ 2 7 tC tA k_counted 7); [|lia|vm_compute; reflexivity|set_solver].
    apply history_start; [set_solver|vm_compute; reflexivity..].
  - apply (bool_decide_eq_true_1 _). vm_compute. reflexivity.
  - vm_compute. reflexivity.
Defined.
