(* ===== verification/SystemCases.v ===== *)
(** Concrete runs of the machine, on a port that switches at once ([true]) and on one that switches in
    an interrupt ([false]). *)
From S2P Require Import Prelude Effects Types Platform LinkedLists Kernel Invariant RefPlatform.
From S2P Require Import KernelCheck SchedCore SchedCoreSpec DelaySpec TaskInfo Stats Timer.
From S2P Require Import Scheduler Task Sem Mutex Queue StreamBuffer SchedulerSpec BlockSpec SemSpec TimerSpec.
From S2P Require Import System SystemMutex SystemTick SystemCalls Scenarios TimerProps.

(** One call of the running task. *)
Definition run_call `{PL : Platform} `{!Callbacks} (c : addr) (p : M Kernel unit) (m : machine) : machine :=
  match proceed (p (kern m)) with
  | Some (k', r) => Machine (default (kern m) (settle k' r)) (<[c := r]> (suspended m))
  | None => m
  end.
Definition goes `{PL : Platform} `{!Callbacks} (p : M Kernel unit) (m : machine) : bool :=
  match proceed (p (kern m)) with Some (k', r) => bool_decide (is_Some (settle k' r)) | None => false end.

Definition between_calls `{PL : Platform} (c : addr) (m : machine) : bool :=
  match suspended m c with Some _ => false | None => true end.

Lemma run_call_step `{PL : Platform} `{!Callbacks} calls c p m :
  sertos_current_tcb (kern m) = Some c -> between_calls c m = true -> calls c p -> goes p m = true ->
  step calls m (run_call c p m).
Proof.
  intros Hc Hw Hp. unfold goes, run_call. unfold between_calls in Hw.
  destruct m as [k w]. cbn [kern suspended] in *. destruct (w c) eqn:Hwc; [done|].
  destruct (proceed (p k)) as [[k' r]|] eqn:He; [|done]. intros [k2 Hk2]%bool_decide_eq_true. rewrite Hk2.
  by eapply step_call.
Qed.

(** The members of the lists of a finite view, checked one by one. *)
Lemma view_of_forall (Q : listid -> addr -> Prop) vs l ts t :
  Forall (fun v => Forall (Q v.1) v.2) vs -> view_of vs l = Some ts -> t ∈ ts -> Q l t.
Proof.
  intros Hq Hl Ht. apply view_of_elem in Hl. rewrite Forall_forall in Hq.
  specialize (Hq _ Hl). simpl in Hq. rewrite Forall_forall in Hq. by apply Hq.
Qed.

(** The tick, as a function. *)
Definition tick `{PL : Platform} `{!Callbacks} (m : machine) : machine :=
  Machine (default (kern m) (tick_taken (kern m))) (suspended m).

Lemma tick_step `{PL : Platform} `{!Callbacks} calls m :
  bool_decide (is_Some (tick_taken (kern m))) = true -> step calls m (tick m).
Proof.
  destruct m as [k w]. unfold tick. cbn [kern suspended]. intros [k' Hk']%bool_decide_eq_true.
  rewrite Hk'. by apply step_tick.
Qed.

(** ** The kernels *)

(** Four tasks, a semaphore, a mutex for the tasks of priority 3, a periodic timer that is not armed,
    and a tick hook; C runs. *)
Abbreviation mtx3 := 0x6300.

Section cases.
Context (h : bool).
#[local] Instance case_platform : Platform := ref_platform h.

(** Callbacks that count their calls. *)
#[local] Instance case_callbacks : Callbacks :=
  {| call_hook := fun f => modify (set mem (count_hook f));
     call_timer_callback := fun f t p => modify (set mem (count_call f t p)) |}.
#[local] Instance case_memory : MemoryCallbacks :=
  @Build_MemoryCallbacks _ case_callbacks count_call count_hook (fun _ _ _ => eq_refl) (fun _ => eq_refl).

Definition made (t p stack : Z) : M Kernel unit :=
  sertos_task_create_static (Some (task_config p stack)) (Some t) true;; mret tt.

Definition k_system : Kernel :=
  after (sertos_timer_create_static (Some (timer_config 2 true)) (Some tm1) true)
    (after (sertos_scheduler_init;; made tA 3 0x8000;; made tB 3 0x8100;; made tC 5 0x8200;;
      sertos_scheduler_start;; sertos_sem_create_counting_static (Some semS) 0 3 true;;
      sertos_mutex_create_static (Some mtx3) true) (blank h) <| s_tick_hook := Some 0x400 |>).

(** C arms the timer and waits on the semaphore; the timer rings at the second tick; A, which
    runs, releases the semaphore, and C runs again. *)
Definition m_start : machine := Machine k_system (fun _ => None).
Definition m_armed : machine := run_call tC (sertos_timer_start (Some tm1);; mret tt) m_start.
Definition m_waits : machine := run_call tC (sertos_sem_take (Some semS) SERTOS_WAIT_FOREVER;; mret tt) m_armed.
Definition m_ticked : machine := tick m_waits.
Definition m_rings : machine := tick m_ticked.
Definition m_released : machine := run_call tA (sertos_sem_give (Some semS);; mret tt) m_rings.

(** With C on the wait list, A takes the mutex, the tick gives B its turn, B waits for A, and A runs. *)
Definition m_locked : machine := run_call tA (sertos_mutex_lock (Some mtx3) SERTOS_NO_WAIT;; mret tt) m_waits.
Definition m_turn : machine := tick m_locked.
Definition m_contended : machine := run_call tB (sertos_mutex_lock (Some mtx3) SERTOS_WAIT_FOREVER;; mret tt) m_turn.

(** C sleeps for 5 ticks; A and B share the processor. *)
Definition k_slices : Kernel := kern (run_call tC (sertos_scheduler_delay 5;; mret tt) m_start).
End cases.

Definition v_system :=
  sched_view [(0, [idle]); (3, [tA; tB]); (5, [tC])] [] [idle; tA; tB; tC]
    [(LSemWait semS, []); (LMutexWait mtx3, []); (LTimers, [])].
Definition v_slices :=
  sched_view [(0, [idle]); (3, [tA; tB])] [tC] [idle; tA; tB; tC]
    [(LSemWait semS, []); (LMutexWait mtx3, []); (LTimers, [])].

#[export] Instance system_setup : Setup :=
  {| tasks := [idle; tA; tB; tC];
     task_level x := if decide (x = tC) then 5 else if decide (x = idle) then 0 else 3;
     sems_in_use := [semS]; mutexes_in_use := [mtx3]; mutex_level _ := 3; queues_in_use := [];
     streams_in_use := []; timers_in_use := [tm1] |}.
#[export] Instance system_setup_fits h : @SetupFits (case_platform h) system_setup.
Proof. split; vm_compute; lia. Qed.
#[export] Instance case_platform_laws h : @PlatformLaws (case_platform h).
Proof. apply ref_platform_laws. Qed.

Lemma k_system_timers h t : tm_is_active (timers (k_system h) t) = false.
Proof.
  destruct (decide (t = tm1)) as [->|Hne]; [destruct h; vm_compute; reflexivity|].
  unfold k_system. rewrite create_other by (lia || done). destruct h; vm_compute; reflexivity.
Qed.

(** What to compute to know that [c] of priority [p] runs in a kernel of this set-up whose timer is
    not armed, whose semaphore is empty and whose mutex is free. *)
Lemma sched_check h (k : @Kernel (case_platform h)) vs c p ts :
  kernel_ok k (view_of vs) -> (forall t, tm_is_active (timers k t) = false) ->
  sem_is k (view_of vs) semS (SemState 0 3 []) -> view_of vs LTimers = Some [] ->
  s_timer_subsystem_initialized k = true /\ tm_magic (timers k tm1) = SERTOS_TIMER_MAGIC_WORD /\
    0 < tm_period_ticks (timers k tm1) ->
  view_of vs (LReady 0) = Some [idle] -> s_lock_nesting k = 0 -> s_is_running k = true ->
  Forall (fun x => priority (tcbs k x) = task_level x /\ base_priority (tcbs k x) = task_level x) tasks ->
  mutex_magic_ok k mtx3 = true /\ mtx_owner (mutexes k mtx3) = None /\ view_of vs (LMutexWait mtx3) = Some [] ->
  Forall (fun v => Forall (fun x => x ∈ tasks) v.2) vs ->
  Forall (fun v => link_of v.1 = FEvent -> v.2 = []) vs ->
  sertos_current_tcb k = Some c -> state (tcbs k c) = SERTOS_TASK_STATE_RUNNING -> priority (tcbs k c) = p ->
  view_of vs (LReady p) = Some (c :: ts) -> 0 <= p < MAXP ->
  Forall (fun q => view_of vs (LReady q) = Some []) (seqZ (p + 1) (MAXP - (p + 1))) ->
  Forall (fun v => Forall (fun t => t <> c -> link_of v.1 = FState -> state (tcbs k t) = SERTOS_TASK_STATE_READY)
    v.2) (filter (fun v => v.1 <> LDelay) vs) ->
  sched k (view_of vs) c.
Proof.
  intros Hk Hno Hsem Htl Htm Hidle Hn Hr Hlv (Hmm & Hmo & Hmw) Htasks Hempty Hc Hrun Hp Hts Hb Hhi Hpeers. split; [split|..]; try done.
  - exists [idle]. split; [done|by left].
  - intros x (l & _ & us & Hus & Hx). by apply (view_of_forall (fun _ x => x ∈ tasks) vs l us x).
  - intros x Hx. rewrite Forall_forall in Hlv. by apply Hlv.
  - intros l us Hl Hus. apply view_of_elem in Hus. rewrite Forall_forall in Hempty.
    specialize (Hempty _ Hus Hl). simpl in Hempty. by subst us.
  - intros a ->%list_elem_of_singleton. exists (SemState 0 3 []). split; [done|]. by split; [simpl; lia|].
  - intros a ->%list_elem_of_singleton. by apply mutex_fine_free.
  - by intros a ?%not_elem_of_nil.
  - by intros a ?%not_elem_of_nil.
  - by intros t ->%list_elem_of_singleton.
  - intros _. exists []. split; [split; [split; [exact Hk|done|]|]|].
    + intros t. rewrite Hno. split; [done|]. by intros ?%not_elem_of_nil.
    + by intros t ?%not_elem_of_nil.
    + by intros t ?%not_elem_of_nil.
  - split_and!; [done|done|]. rewrite Hp. exists (c :: ts). split; [done|by left].
  - exists p, ts. split_and!; [lia|lia|done|]. intros q Hq. rewrite Forall_forall in Hhi. apply Hhi.
    apply elem_of_seqZ. lia.
  - intros q us t Hus Ht Hne. apply view_of_elem in Hus. rewrite Forall_forall in Hpeers.
    assert (Hin : (LReady q, us) ∈ filter (fun v => v.1 <> LDelay) vs) by (by apply list_elem_of_filter).
    specialize (Hpeers _ Hin). rewrite Forall_forall in Hpeers. by apply (Hpeers t).
Qed.

Ltac by_compute := vm_compute; reflexivity.
Ltac by_decision := apply (bool_decide_eq_true_1 _); vm_compute; reflexivity.


Lemma k_system_sched h : sched (k_system h) (view_of v_system) tC.
Proof.
  apply (sched_check h _ _ _ 5 []);
    [destruct h; check_kernel|apply k_system_timers|split; destruct h; by_compute|destruct h; by_compute|
     split_and!; destruct h; by_compute|destruct h; by_compute|destruct h; by_compute|
     destruct h; by_compute|destruct h; by_decision|split_and!; destruct h; by_compute|by_decision|by_decision|
     destruct h; by_compute|destruct h; by_compute|destruct h; by_compute|destruct h; by_compute|done|
     by_decision|destruct h; by_decision].
Qed.

Lemma k_system_runs h : runs tC (k_system h).
Proof. exists (view_of v_system). apply k_system_sched. Qed.

Lemma k_system_consistent h : consistent (k_system h).
Proof. exists tC. apply k_system_runs. Qed.

Lemma k_slices_sched h : sched (k_slices h) (view_of v_slices) tA.
Proof.
  apply (sched_check h _ _ _ 3 [tB]);
    [destruct h; check_kernel| |split; destruct h; by_compute|destruct h; by_compute|
     split_and!; destruct h; by_compute|destruct h; by_compute|destruct h; by_compute|
     destruct h; by_compute|destruct h; by_decision|split_and!; destruct h; by_compute|by_decision|by_decision|
     destruct h; by_compute|destruct h; by_compute|destruct h; by_compute|destruct h; by_compute|done|
     by_decision|destruct h; by_decision].
  intros t. rewrite <-(k_system_timers h t). destruct h; vm_compute; reflexivity.
Qed.

(** ** The runs *)

Abbreviation call_of h := (@kernel_call (case_platform h) system_setup).
Abbreviation step_of h := (@step (case_platform h) (case_callbacks h) (call_of h)).
Abbreviation steps_of h := (@steps (case_platform h) (case_callbacks h) (call_of h)).

(** A call of the running task in a concrete machine. *)
Ltac step_case h :=
  match goal with |- @step _ _ _ _ (?m _) => unfold m end;
  apply (@run_call_step (case_platform h) (case_callbacks h) (call_of h));
  [destruct h; by_compute|destruct h; by_compute| |destruct h; by_compute].
Ltac tick_case h :=
  match goal with |- @step _ _ _ _ (?m _) => unfold m end;
  apply (@tick_step (case_platform h) (case_callbacks h) (call_of h)); destruct h; by_compute.
Ltac in_range := vm_compute; split; [discriminate|reflexivity].

Lemma m_armed_step h : step_of h (m_start h) (m_armed h).
Proof. step_case h. apply call_timer_start. by apply list_elem_of_singleton. Qed.
Lemma m_waits_step h : step_of h (m_armed h) (m_waits h).
Proof. step_case h. apply call_take; [by apply list_elem_of_singleton|by right|in_range]. Qed.
Lemma m_ticks_step h : step_of h (m_waits h) (m_ticked h).
Proof. tick_case h. Qed.
Lemma m_rings_step h : step_of h (m_ticked h) (m_rings h).
Proof. tick_case h. Qed.
Lemma m_released_step h : step_of h (m_rings h) (m_released h).
Proof. step_case h. apply call_give. by apply list_elem_of_singleton. Qed.

Lemma m_waits_reached h : steps_of h (m_start h) (m_waits h).
Proof.
  apply (steps_step _ (m_start h) (m_armed h) (m_waits h)); [|apply m_waits_step].
  apply (steps_step _ (m_start h) (m_start h) (m_armed h)); [apply steps_refl|apply m_armed_step].
Qed.
Lemma m_rings_reached h : steps_of h (m_start h) (m_rings h).
Proof.
  apply (steps_step _ (m_start h) (m_ticked h) (m_rings h)); [|apply m_rings_step].
  apply (steps_step _ (m_start h) (m_waits h) (m_ticked h)); [apply m_waits_reached|apply m_ticks_step].
Qed.
Lemma m_released_reached h : steps_of h (m_start h) (m_released h).
Proof.
  apply (steps_step _ (m_start h) (m_rings h) (m_released h)); [apply m_rings_reached|apply m_released_step].
Qed.

Lemma m_locked_step h : step_of h (m_waits h) (m_locked h).
Proof. step_case h. apply call_lock; [by apply list_elem_of_singleton|done|by left|in_range]. Qed.
Lemma m_locked_tick h : step_of h (m_locked h) (m_turn h).
Proof. tick_case h. Qed.
Lemma m_contended_step h : step_of h (m_turn h) (m_contended h).
Proof. step_case h. apply call_lock; [by apply list_elem_of_singleton|done|by right|in_range]. Qed.
Lemma m_contended_reached h : steps_of h (m_start h) (m_contended h).
Proof.
  apply (steps_step _ (m_start h) (m_turn h) (m_contended h)); [|apply m_contended_step].
  apply (steps_step _ (m_start h) (m_locked h) (m_turn h)); [|apply m_locked_tick].
  apply (steps_step _ (m_start h) (m_waits h) (m_locked h)); [apply m_waits_reached|apply m_locked_step].
Qed.
