(* ===== verification/SystemProps.v ===== *)
(** The machine always runs the head of the highest non-empty ready queue, and never gets
    stuck. *)
From S2P Require Import Prelude Effects Types Platform LinkedLists Kernel Invariant RefPlatform.
From S2P Require Import KernelCheck SchedCore SchedCoreSpec DelaySpec TaskInfo Stats Timer.
From S2P Require Import Scheduler Task Sem Mutex Queue StreamBuffer SchedulerSpec BlockSpec MutexSpec SemSpec TimerSpec.
From S2P Require Import System SystemSpec SystemTick SystemCalls Scenarios TimerProps SystemCases.

Section machine.
Context `{PL : Platform} `{!PlatformLaws} `{!Callbacks} `{!MemoryCallbacks} `{!Setup} `{!SetupFits}.
Implicit Types (k : Kernel) (V : lview) (P : protocol Kernel) (t c : addr).

Abbreviation steps := (steps kernel_call).



(** C3: semaphores in the program, under the conditions of C1: in every state it reaches, each
    semaphore in use is a legal state of the abstract semaphore (its count is within its limit, and
    while tasks wait on it the count is zero), and those who wait are BLOCKED and in order of
    priority. A release that nothing interferes with behaves there as the abstract release: the
    token goes to the most urgent waiter, who becomes ready, or else into stock, or else is
    refused; and so does an acquisition that need not wait. (What a limited acquisition that was
    woken is told is another matter: see the findings.) *)
Theorem system_semaphores_ok k0 m :
  consistent k0 -> steps (Machine k0 (fun _ => None)) m ->
  exists V, kernel_ok (kern m) V /\ forall a, a ∈ sems_in_use -> exists s,
    sem_is (kern m) V a s /\ sem_ok s /\ by_priority (fun t => priority (tcbs (kern m) t)) (waiters s) /\
    (forall t, t ∈ waiters s -> state (tcbs (kern m) t) = SERTOS_TASK_STATE_BLOCKED) /\
    (exists r k' V' s', exec (sertos_sem_give (Some a)) (kern m) = Some (r, k') /\ kernel_ok k' V' /\
       sem_gives s r s' /\ sem_is k' V' a s' /\
       forall t, head (waiters s) = Some t -> runnable (state (tcbs k' t)) /\
         member V' (LReady (priority (tcbs (kern m) t))) t) /\
    forall timeout, 0 < tokens s \/ timeout = SERTOS_NO_WAIT ->
      exists r k' s', exec (sertos_sem_take (Some a) timeout) (kern m) = Some (r, k') /\ kernel_ok k' V /\
        sem_takes s r s' /\ sem_is k' V a s'.
Proof.
  intros Hk Hm. destruct (steps_sound _ _ (sound_start _ Hk) Hm) as [(c & V & Hs) _]. exists V.
  pose proof (sc_settled _ _ _ Hs) as Hst. pose proof (st_ok _ _ Hst) as Hok. split; [done|]. intros a Ha.
  destruct (st_sems _ _ Hst a Ha) as (s & Hsem & Hsok). exists s.
  split_and!; [done|done|apply (st_sorted _ _ Hst (LSemWait a)); [done|apply Hsem]| | |].
  - intros t Ht. by destruct (ok_waiting _ _ Hok (LSemWait a) (waiters s) t eq_refl (si_waiters _ _ _ _ Hsem) Ht) as (? & _).
  - destruct (sem_give_gives _ _ _ _ Hok Hsem Hsok) as (r & k' & V' & s' & ? & ? & ? & ? & _ & ?).
    by exists r, k', V', s'.
  - intros timeout Ht. destruct (sem_take_takes _ _ _ _ _ Hok Hsem Hsok Ht) as (r & k' & s' & ? & ? & ? & ? & _).
    by exists r, k', s'.
Qed.

(** C4: mutexes in the program, under the conditions of C1, each used by tasks of one priority (so
    that inheritance never acts): in every state it reaches, nobody waits for a mutex that is
    free, all who wait are BLOCKED, the holder has the priority on record; and when the running
    task holds the mutex once, unlocking it, if nothing interferes, frees it or hands it to the
    first waiter, who becomes ready and its holder at depth one. *)
Theorem system_mutexes_ok k0 m :
  consistent k0 -> steps (Machine k0 (fun _ => None)) m ->
  exists V, kernel_ok (kern m) V /\
    forall a, a ∈ mutexes_in_use -> exists ws, V (LMutexWait a) = Some ws /\
      (mtx_owner (mutexes (kern m) a) = None -> ws = []) /\
      (forall t, t ∈ ws -> state (tcbs (kern m) t) = SERTOS_TASK_STATE_BLOCKED /\
         priority (tcbs (kern m) t) = mutex_level a) /\
      (forall o, mtx_owner (mutexes (kern m) a) = Some o -> priority (tcbs (kern m) o) = mutex_level a /\
         mtx_original_owner_priority (mutexes (kern m) a) = mutex_level a) /\
      forall c, sertos_current_tcb (kern m) = Some c -> mtx_owner (mutexes (kern m) a) = Some c ->
        mtx_lock_count (mutexes (kern m) a) = 1 ->
        exists k' V', exec (sertos_mutex_unlock (Some a)) (kern m) = Some (SERTOS_STATUS_OK, k') /\
          kernel_ok k' V' /\ mutex_is k' V' a (passed_on ws) /\
          forall t, head ws = Some t -> runnable (state (tcbs k' t)) /\
            member V' (LReady (priority (tcbs (kern m) t))) t.
Proof.
  intros Hk Hm. destruct (steps_sound _ _ (sound_start _ Hk) Hm) as [(c & V & Hs) _]. exists V.
  pose proof (sc_settled _ _ _ Hs) as Hst. pose proof (st_ok _ _ Hst) as Hok. split; [done|].
  intros a Ha. pose proof (st_mutexes _ _ Hst a Ha) as Hfine.
  destruct Hfine as [Hmag (ws & Hws & Hw) Ho]. exists ws. split; [done|].
  assert (Hwt : forall t, t ∈ ws -> state (tcbs (kern m) t) = SERTOS_TASK_STATE_BLOCKED /\
    priority (tcbs (kern m) t) = mutex_level a).
  { intros t Ht. destruct (ok_waiting _ _ Hok (LMutexWait a) ws t eq_refl Hws Ht) as (Hb & _).
    split; [done|]. destruct (Hw t Ht) as [_ <-]. apply (st_levels _ _ Hst), (st_tasks _ _ Hst).
    exists (LMutexWait a). split; [by right|by exists ws]. }
  assert (Hoo : forall o, mtx_owner (mutexes (kern m) a) = Some o -> priority (tcbs (kern m) o) = mutex_level a /\
    mtx_original_owner_priority (mutexes (kern m) a) = mutex_level a).
  { intros o Hoo. destruct (Ho o Hoo) as (Hot & <- & ?). split; [by apply (st_levels _ _ Hst)|done]. }
  split_and!; [|done|done|].
  - intros Hn. destruct ws as [|t ws]; [done|]. by destruct (Hw t) as [? _]; [left|].
  - intros c' Hc How Hn. destruct (Hoo c' How) as [Hp Hrec].
    destruct (mutex_unlock_passes (kern m) V a c' (MutexState (Some c') 1 ws))
      as (r & k' & V' & m' & He & Hk' & Hu & Hm' & _ & Hn'); [done| |done|done|by rewrite Hp, Hrec|].
    { split; try done. by apply Z.eqb_eq in Hmag. }
    assert (Hr : r = SERTOS_STATUS_OK /\ m' = passed_on ws) by (inversion Hu; subst; simpl in *; try done; lia).
    destruct Hr as [-> ->]. exists k', V'. split_and!; [done..|]. intros t Ht.
    destruct ws as [|t' ws]; [done|]. injection Ht as ->. destruct (Hn' t) as (? & ? & _); try done.
    intros ->. destruct (Hwt c') as [Hb _]; [by left|].
    destruct Hs as [_ (Hcur & Hrun & _) _ _]. rewrite Hcur in Hc. simplify_eq. congruence.
Qed.

(** C5: time slicing is fair: in a consistent kernel (the scheduler running and not locked, every
    task at its base priority) with time slicing enabled, with callbacks and a hook that only change
    memory, while tasks make no calls and no task of a higher priority wakes up, the processor goes
    round the highest non-empty ready queue: on every port, the task at position [i] of the queue
    (the running task is at 0) runs after exactly [i] tick interrupts. *)
Theorem time_slicing_fair again k V c ts ds t i :
  sched k V c -> V (LReady (priority (tcbs k c))) = Some (c :: ts) -> V LDelay = Some ds ->
  s_time_slicing_enabled k = true -> (c :: ts) !! i = Some t ->
  (forall x, x ∈ ds -> priority (tcbs k c) < priority (tcbs k x) -> Z.of_nat i < delay_ticks (tcbs k x)) ->
  exists k' V', ticks again i k = Some k' /\ kernel_ok k' V' /\ selected V' (Some t) /\
    sertos_current_tcb k' = Some t /\ state (tcbs k' t) = SERTOS_TASK_STATE_RUNNING.
Proof.
  revert k V c ts ds. induction i as [|i IH]; intros k V c ts ds Hs Hts Hds Hsl Hi Hlow.
  { simplify_eq/=. exists k, V. destruct Hs as [Hst (Hc & Hr & _) Hsel _]. by split_and!; [|apply Hst|..]. }
  simpl in Hi. assert (Hex : forall x, x ∈ ds -> expires k x -> delay_ticks (tcbs k x) <= 1).
  { intros x _ Hx. apply Is_true_true_1 in Hx. by apply Z.leb_le. }
  destruct (tick_round_robin k V c ts ds) as (k0 & V1 & n & He & Hn0 & Hte0 & Hp0); [done..| |].
  { intros x Hx Hxe. destruct (Z.le_gt_cases (priority (tcbs k x)) (priority (tcbs k c))); [done|].
    specialize (Hlow x Hx ltac:(lia)). specialize (Hex x Hx Hxe). lia. }
  assert (exists k1, (if again then snd <$> exec sertos_scheduler_perform_switch k0 else Some k0) = Some k1 /\
    sched k1 V1 n /\ only_dispatch k0 k1) as (k1 & He1 & Hn & Ho).
  { destruct again; [|by exists k0]. destruct (perform_switch_keeps _ _ _ Hn0) as (n2 & k1 & Hx & ? & ?).
    exists k1. by rewrite Hx. }
  assert (Hte : tick_effect k V c ts ds k1 V1).
  { eapply tick_effect_compat; [exact Hte0|apply Ho|apply Ho]. }
  assert (Hp : priority (tcbs k1 n) = priority (tcbs k c)) by (by rewrite (compat_priority _ _ (od_tcbs _ _ Ho n))).
  destruct (sched_head _ _ _ Hn) as [ts1 Hts1]. pose proof Hts1 as Hus.
  rewrite Hp, (te_top _ _ _ _ _ _ _ Hte), Hsl in Hus. injection Hus as Hus.
  destruct (IH k1 V1 n ts1 _ Hn Hts1 (te_delay _ _ _ _ _ _ _ Hte)) as (k' & V' & He' & Hr).
  - by rewrite (te_slicing _ _ _ _ _ _ _ Hte).
  - rewrite <-Hus. by apply lookup_app_l_Some.
  - intros x [Hne Hx]%list_elem_of_filter Hlt. rewrite Hp, (te_priority _ _ _ _ _ _ _ Hte) in Hlt.
    rewrite (te_count _ _ _ _ _ _ _ Hte) by done. specialize (Hlow x Hx Hlt). lia.
  - exists k', V'. split; [|done]. cbn [ticks]. rewrite He. cbn. rewrite He1. exact He'.
Qed.
End machine.

(** ** The theorems at concrete kernels, on both kinds of port *)

(** On a port that switches at once and on one that switches in an interrupt. *)
Definition on_both (P : bool -> Prop) : Prop := P true /\ P false.

Lemma on_both_intro (P : bool -> Prop) : (forall h, P h) -> on_both P.
Proof. by split. Qed.



(** With C on the wait list. *)
Lemma system_semaphores_ok_witness : on_both (fun h =>
  let k := kern (m_rings h) in
  linked_list_peek_head (LSemWait semS) (heap k) = Some (NLink FEvent tC) /\
  exists V, kernel_ok k V /\ forall a, a ∈ sems_in_use -> exists s,
    sem_is k V a s /\ sem_ok s /\ by_priority (fun t => priority (tcbs k t)) (waiters s) /\
    (forall t, t ∈ waiters s -> state (tcbs k t) = SERTOS_TASK_STATE_BLOCKED) /\
    (exists r k' V' s', exec (sertos_sem_give (Some a)) k = Some (r, k') /\ kernel_ok k' V' /\
       sem_gives s r s' /\ sem_is k' V' a s' /\
       forall t, head (waiters s) = Some t -> runnable (state (tcbs k' t)) /\
         member V' (LReady (priority (tcbs k t))) t) /\
    forall timeout, 0 < tokens s \/ timeout = SERTOS_NO_WAIT ->
      exists r k' s', exec (sertos_sem_take (Some a) timeout) k = Some (r, k') /\ kernel_ok k' V /\
        sem_takes s r s' /\ sem_is k' V a s').
Proof.
  apply on_both_intro. intros h k. split; [destruct h; by_compute|].
  apply (@system_semaphores_ok _ _ (case_callbacks h) (case_memory h) _ _ (k_system h) (m_rings h));
    [apply k_system_consistent|apply m_rings_reached].
Defined.

(** A holds the mutex once, B waits for it, and A runs. *)
Lemma system_mutexes_ok_witness : on_both (fun h =>
  let k := kern (m_contended h) in
  (sertos_current_tcb k = Some tA /\ mtx_owner (mutexes k mtx3) = Some tA /\
   mtx_lock_count (mutexes k mtx3) = 1 /\
   linked_list_peek_head (LMutexWait mtx3) (heap k) = Some (NLink FEvent tB)) /\
  exists V, kernel_ok k V /\
    forall a, a ∈ mutexes_in_use -> exists ws, V (LMutexWait a) = Some ws /\
      (mtx_owner (mutexes k a) = None -> ws = []) /\
      (forall t, t ∈ ws -> state (tcbs k t) = SERTOS_TASK_STATE_BLOCKED /\
         priority (tcbs k t) = mutex_level a) /\
      (forall o, mtx_owner (mutexes k a) = Some o -> priority (tcbs k o) = mutex_level a /\
         mtx_original_owner_priority (mutexes k a) = mutex_level a) /\
      forall c, sertos_current_tcb k = Some c -> mtx_owner (mutexes k a) = Some c ->
        mtx_lock_count (mutexes k a) = 1 ->
        exists k' V', exec (sertos_mutex_unlock (Some a)) k = Some (SERTOS_STATUS_OK, k') /\
          kernel_ok k' V' /\ mutex_is k' V' a (passed_on ws) /\
          forall t, head ws = Some t -> runnable (state (tcbs k' t)) /\
            member V' (LReady (priority (tcbs k t))) t).
Proof.
  apply on_both_intro. intros h k. split; [destruct h; split_and!; by_compute|].
  apply (@system_mutexes_ok _ _ (case_callbacks h) (case_memory h) _ _ (k_system h) (m_contended h));
    [apply k_system_consistent|apply m_contended_reached].
Defined.

(** C sleeps for 5 ticks; B runs at the next tick. *)
Lemma time_slicing_fair_witness : on_both (fun h =>
  priority (tcbs (k_slices h) tA) < priority (tcbs (k_slices h) tC) /\
  exists k' V', @ticks _ (case_callbacks h) (negb h) 1 (k_slices h) = Some k' /\ kernel_ok k' V' /\
    selected V' (Some tB) /\ sertos_current_tcb k' = Some tB /\
    state (tcbs k' tB) = SERTOS_TASK_STATE_RUNNING).
Proof.
  apply on_both_intro. intros h. split; [destruct h; by_compute|].
  apply (@time_slicing_fair _ _ (case_callbacks h) (case_memory h) _ _ (negb h)
    (k_slices h) (view_of v_slices) tA [tB] [tC] tB 1).
  - apply k_slices_sched.
  - destruct h; by_compute.
  - destruct h; by_compute.
  - destruct h; by_compute.
  - reflexivity.
  - intros x ->%list_elem_of_singleton _. destruct h; by_compute.
Defined.
