(* ===== verification/CortexPorts.v ===== *)
(** The Cortex-M ports together: the kernel on any of them, starting tasks, switching contexts
    and the tick timer. *)
From S2P Require Import Prelude Effects Types Platform PortFrame PortCritical CortexM Kernel.
From S2P Require CortexM0 CortexM0plus CortexM3 CortexM4 CortexM7 CortexM23 CortexM33 CortexM55.

(** The directories under src/port/arm/. *)
Inductive core : Type := M0 | M0plus | M3 | M4 | M7 | M23 | M33 | M55.

Definition core_port (c : core) : CortexPort :=
  match c with
  | M0 => CortexM0.port | M0plus => CortexM0plus.port | M3 => CortexM3.port | M4 => CortexM4.port
  | M7 => CortexM7.port | M23 => CortexM23.port | M33 => CortexM33.port | M55 => CortexM55.port
  end.

#[export] Instance core_port_laws c : @CortexPortLaws (core_port c).
Proof.
  destruct c;
    [apply CortexM0.m0_port_laws|apply CortexM0plus.m0plus_port_laws|apply CortexM3.m3_port_laws|apply CortexM4.m4_port_laws
    |apply CortexM7.m7_port_laws|apply CortexM23.m23_port_laws|apply CortexM33.m33_port_laws|apply CortexM55.m55_port_laws].
Qed.

(** sertos_port_start_first_task, the same for every core: [cpsie i], and [svc 0], whose handler
    is [core_svc]. *)
Definition sertos_port_start_first_task : CortexM -> CortexM := set primask (fun _ => 0).

(** The port contract of the kernel, implemented by a core. *)
Definition cortex_ops (c : core) : PortOps :=
  let _ := core_port c in
  {| PortState := CortexM;
     port_host := false;
     port_size_bits := 32;
     sertos_port_stack_init := core_stack_init;
     port_start_first_task := sertos_port_start_first_task;
     port_yield := core_yield;
     port_enter_critical := core_enter_critical;
     port_exit_critical := core_exit_critical;
     port_tick_init := core_tick_init;
     port_task_create_hook := fun _ ctx s => (ctx, s);
     port_task_delete_hook := fun _ ctx s => (ctx, s);
     port_stop_scheduler := core_stop_scheduler;
     port_runtime_counter := core_runtime_counter;
     port_runtime_counter_init := core_runtime_counter_init |}.

#[export] Instance areg_eq_dec : EqDecision areg.
Proof. solve_decision. Defined.

Section props.
Context (c : core).
#[local] Hint Extern 0 CortexPort => exact (core_port c) : typeclass_instances.
Implicit Types (s : Machine) (m : Mem).

(** A machine whose registers are 32 bits wide. *)
Definition word_sized s : Prop :=
  (forall r, 0 <= gr s r < 2 ^ 32) /\ (forall j, 0 <= fr s j < 2 ^ 32) /\
  0 <= m_pc s < 2 ^ 32 /\ 0 <= m_xpsr s < 2 ^ 32.

Lemma saved_regs_short : 4 * Z.of_nat (length saved_regs) <= 36.
Proof. destruct c; simpl; lia. Qed.
Lemma saved_regs_LR : LR ∈ saved_regs \/ LR ∉ saved_regs.
Proof. destruct c; (left; set_solver) || (right; set_solver). Qed.

(** The bit that records the padding of a frame. *)
Lemma padded_bit i : Z.testbit xpsr_padded i = (i =? 9).
Proof. unfold xpsr_padded. change 0x200 with (2 ^ 9). rewrite Z.pow2_bits_eqb by lia. apply Z.eqb_sym. Qed.

Lemma unpadded (x : Z) : Z.testbit x 9 = false -> Z.ldiff x xpsr_padded = x.
Proof.
  intros Hx. apply Z.bits_inj'. intros i Hi. rewrite Z.ldiff_spec, padded_bit.
  destruct (Z.eqb_spec i 9) as [->|]; [by rewrite Hx|by rewrite andb_true_r].
Qed.

(** The status word as stacked: the padding is there to be read, and goes when it is popped. *)
Lemma stacked_xpsr (x : Z) (pad : bool) :
  0 <= x < 2 ^ 32 -> Z.testbit x 9 = false ->
  let w := if pad then Z.lor x xpsr_padded else x in
  Z.testbit w 9 = pad /\ Z.ldiff w xpsr_padded = x /\ 0 <= w < 2 ^ 32.
Proof.
  intros Hr Hx w. unfold w. destruct pad; [|split_and!; [done|by apply unpadded|lia|lia]].
  split_and!.
  - by rewrite Z.lor_spec, Hx.
  - apply Z.bits_inj'. intros i Hi. rewrite Z.ldiff_spec, Z.lor_spec, padded_bit.
    destruct (Z.eqb_spec i 9) as [->|]; [by rewrite Hx|]. by rewrite orb_false_r, andb_true_r.
  - apply Z.lor_nonneg. unfold xpsr_padded. lia.
  - destruct (Z.eq_dec x 0) as [->|Hne]; [done|].
    assert (Hl : Z.log2 (Z.lor x xpsr_padded) < 32).
    { rewrite Z.log2_lor by (unfold xpsr_padded; lia). apply Z.max_lub_lt; [|done].
      apply Z.log2_lt_pow2; lia. }
    apply Z.log2_lt_pow2; [|done].
    assert (0 <= Z.lor x xpsr_padded) by (apply Z.lor_nonneg; unfold xpsr_padded; lia).
    assert (Z.lor x xpsr_padded <> 0); [|lia]. intros [? _]%Z.lor_eq_0_iff. done.
Qed.

(** [exception_return] on the words of a hardware frame. *)
Lemma exception_return_words s (w0 w1 w2 w3 w4 w5 w6 w7 : Z) :
  (forall i, (i < 8)%nat -> Some (load32 (m_psp s + 4 * Z.of_nat i) (m_mem s)) =
     [w0; w1; w2; w3; w4; w5; w6; w7] !! i) ->
  let s' := exception_return s in
  gr s' = upd_gr R0 w0 (upd_gr R1 w1 (upd_gr R2 w2 (upd_gr R3 w3 (upd_gr R12 w4 (upd_gr LR w5 (gr s)))))) /\
  m_pc s' = w6 /\ m_xpsr s' = Z.ldiff w7 xpsr_padded /\
  m_psp s' = u32 (m_psp s + frame_bytes (uses_fpu s) + if Z.testbit w7 9 then 4 else 0) /\
  m_mem s' = m_mem s /\ m_primask s' = m_primask s /\
  (forall j, fr s' j = if uses_fpu s then
     (if (0 <=? j) && (j <? 16) then load32 (m_psp s + 32 + 4 * j) (m_mem s)
      else if j =? 32 then load32 (m_psp s + 32 + 64) (m_mem s) else fr s j) else fr s j).
Proof.
  intros Hw. unfold exception_return.
  assert (Hn : forall i w, [w0; w1; w2; w3; w4; w5; w6; w7] !! i = Some w ->
    load32 (m_psp s + 4 * Z.of_nat i) (m_mem s) = w).
  { intros i w Hi. pose proof (lookup_lt_Some _ _ _ Hi) as Hlt. specialize (Hw i Hlt). congruence. }
  pose proof (Hn 0%nat w0 eq_refl) as H0. pose proof (Hn 1%nat w1 eq_refl) as H1.
  pose proof (Hn 2%nat w2 eq_refl) as H2. pose proof (Hn 3%nat w3 eq_refl) as H3.
  pose proof (Hn 4%nat w4 eq_refl) as H4. pose proof (Hn 5%nat w5 eq_refl) as H5.
  pose proof (Hn 6%nat w6 eq_refl) as H6. pose proof (Hn 7%nat w7 eq_refl) as H7. clear Hw Hn.
  change (Z.of_nat 0) with 0 in *. change (Z.of_nat 1) with 1 in *. change (Z.of_nat 2) with 2 in *.
  change (Z.of_nat 3) with 3 in *. change (Z.of_nat 4) with 4 in *. change (Z.of_nat 5) with 5 in *.
  change (Z.of_nat 6) with 6 in *. change (Z.of_nat 7) with 7 in *. cbv zeta.
  rewrite H0, H1, H2, H3, H4, H5, H6, H7.
  destruct (uses_fpu s); split_and!; reflexivity || (by intros j).
Qed.

(** The first context restore of a task, by SVC_Handler or by PendSV_Handler, from a frame
    that [sertos_port_stack_init] made. *)
Lemma fresh_task_starts code s f entry param :
  code = core_svc \/ code = core_restore -> tcb_in s 0 = f -> 0 <= f -> f + 100 < 2 ^ 32 ->
  fresh_frame f entry param (m_mem s) ->
  let s1 := run_code code s in
  let s2 := exception_return s1 in
  gr s1 LR = CORTEX_M_EXC_RETURN_THREAD_PSP /\ m_primask s2 = 0 /\
  m_pc s2 = u32 (uintptr entry) /\ gr s2 R0 = u32 (uintptr param) /\ gr s2 LR = 0 /\
  m_xpsr s2 = CORTEX_M_DEFAULT_XPSR /\ m_psp s2 = f + sizeof 4 stack_frame /\ m_mem s2 = m_mem s.
Proof.
  intros Hcode Hsp Hf Hend [Hwords Hexc] s1 s2. pose proof saved_regs_short as Hshort.
  destruct (restore_law code s Hcode) as (Hm & [Hregs Hfregs] & Hlr & Hpsp & Hpm); [lia|lia|].
  fold s1 in Hm, Hregs, Hfregs, Hlr, Hpsp, Hpm. rewrite Hsp in *.
  assert (Hexcr : gr s1 LR = CORTEX_M_EXC_RETURN_THREAD_PSP).
  { destruct saved_regs_LR as [[i Hi]%list_elem_of_lookup|Hn]; [|by apply Hlr].
    rewrite <-(Hregs i LR Hi). by apply Hexc. }
  assert (Hsize : saved_size s1 = 4 * Z.of_nat (length saved_regs)).
  { unfold saved_size, saves_fregs, uses_fpu. rewrite Hexcr.
    change (Z.land CORTEX_M_EXC_RETURN_THREAD_PSP 16 =? 0) with false. rewrite andb_false_r. lia. }
  rewrite Hsize in Hpsp. pose proof frame_size_law as Hfs.
  destruct (exception_return_words s1 (u32 (uintptr param)) 0 0 0 0 0 (u32 (uintptr entry)) CORTEX_M_DEFAULT_XPSR)
    as (Hgr & Hpc & Hx & Hp2 & Hm2 & Hpm2 & _).
  { intros i Hi. rewrite <-(Hwords i Hi). f_equal. rewrite Hpsp, Hm. done. }
  assert (Hnf : uses_fpu s1 = false) by (unfold uses_fpu; by rewrite Hexcr).
  fold s2 in Hgr, Hpc, Hx, Hp2, Hm2, Hpm2. rewrite Hnf in Hp2. split_and!; try done.
  - by rewrite Hpm2.
  - by rewrite Hgr.
  - by rewrite Hgr.
  - rewrite Hp2, Hpsp, Hfs. change (Z.testbit CORTEX_M_DEFAULT_XPSR 9) with false. simpl frame_bytes.
    rewrite wrap_small by lia. lia.
  - by rewrite Hm2.
Qed.
End props.
