(* ===== verification/CortexProps.v ===== *)
(** Properties of the Cortex-M ports and of the kernel on top of them. *)
From S2P Require Import Prelude Effects Types Platform PortFrame PortCritical CortexM LinkedLists Kernel.
From S2P Require Import Invariant RefPlatform KernelCheck TaskInfo Stats Timer Scheduler Task SchedulerSpec.
From S2P Require Import BlockSpec TaskSpec CortexPorts.

(** ** Starting tasks *)

Lemma fresh_frame_ext `{CortexPort} f entry param m m' :
  (forall x, f <= x < f + 4 * Z.of_nat (length saved_regs) + 32 -> m' x = m x) ->
  fresh_frame f entry param m -> fresh_frame f entry param m'.
Proof.
  intros Hm [Hw He]. split.
  - intros i Hi. rewrite <-(Hw i Hi). f_equal. apply load_le_ext. intros x Hx. apply Hm. lia.
  - intros i Hi. rewrite <-(He i Hi). apply load_le_ext. intros x Hx. apply Hm.
    apply lookup_lt_Some in Hi. lia.
Qed.

(** What a core sees of the kernel's memory when it restores task [t] of [k]. *)
Record restoring `{PL : Platform} (k : Kernel) (t : addr) (m : Machine) : Prop := Restoring {
  restoring_tcb : tcb_in m 0 = uintptr (stack_ptr (tcbs k t));
  restoring_stack : forall x, uintptr (stack_base (tcbs k t)) <= x <
    uintptr (stack_base (tcbs k t)) + stack_size (tcbs k t) -> m_mem m x = mem k x }.

Section start.
Context `{PL : Platform} `{!PlatformLaws} `{!Callbacks} (c : core) (Hport : platform_port = cortex_ops c).
Implicit Types (k : Kernel) (V : lview) (t : addr) (ts rs : list addr).

Lemma initial_frame_cortex m cfg base :
  cfg_stack_buffer cfg = Some base -> 0 <= base -> 256 <= cfg_stack_size cfg ->
  base + cfg_stack_size cfg < 2 ^ 32 ->
  let top := 8 * ((base + cfg_stack_size cfg) / 8) in
  let f := top - sizeof 4 (@stack_frame (core_port c)) in
  (initial_frame m cfg).1 = Some f /\
  @fresh_frame (core_port c) f (cfg_entry_func cfg) (cfg_param cfg) (initial_frame m cfg).2.
Proof.
  intros Hbuf Hb Hs Hend top f. unfold initial_frame. rewrite Hbuf. cbn [uintptr].
  rewrite stack_top_of_spec; [|by rewrite Hport|lia..]. fold top.
  destruct (aligned_top_bounds base (cfg_stack_size cfg)) as [Ht Hlo]; [lia|lia|]. fold top in Ht, Hlo.
  pose proof (saved_regs_short c) as Hshort.
  pose proof (@frame_size_law _ (core_port_laws c)) as Hfs.
  unfold of_uintptr. destruct (Z.eqb_spec top 0); [lia|].
  destruct (@stack_init_law _ (core_port_laws c) top (Some base) (cfg_entry_func cfg) (cfg_param cfg) (painted m cfg))
    as (m' & He & Hf & _); [lia|lia|].
  rewrite Ht in He, Hf. rewrite Hport. cbn [sertos_port_stack_init cortex_ops]. by rewrite He.
Qed.
End start.

(** C10: a task created on a Cortex-M core before the scheduler runs (with a stack of its own, below
    the system address space) starts right.  When SVC_Handler or
    PendSV_Handler later restores it for the first time, the exception return continues at
    the configured entry function in Thumb state, with the parameter in r0, a zero return
    address, interrupts enabled and PSP at the 8-byte-aligned top of the task's stack. *)
Theorem created_task_starts `{PL : Platform} `{!PlatformLaws} `{!Callbacks} c k V t cfg ts rs base :
  platform_port = cortex_ops c ->
  kernel_ok k V -> outside V t -> detached V FRegistry t -> valid_config cfg ->
  s_is_running k = false -> V (LReady (cfg_priority cfg)) = Some ts -> V LRegistry = Some rs ->
  cfg_stack_buffer cfg = Some base -> 0 <= base -> base + cfg_stack_size cfg <= 0xE0000000 ->
  exists k', exec (sertos_task_create_static (Some cfg) (Some t) true) k =
      Some ((SERTOS_STATUS_OK, Some t), k') /\
    forall code s, code = @core_svc (core_port c) \/ code = @core_restore (core_port c) ->
      restoring k' t s ->
      let s' := exception_return (run_code code s) in
      m_pc s' = u32 (uintptr (cfg_entry_func cfg)) /\ m_xpsr s' = CORTEX_M_DEFAULT_XPSR /\
      gr s' R0 = u32 (uintptr (cfg_param cfg)) /\ gr s' LR = 0 /\ m_primask s' = 0 /\
      m_psp s' = 8 * ((base + cfg_stack_size cfg) / 8).
Proof.
  intros Hport Hk Hout Hreg Hcfg Hrun Hts Hrs Hbuf Hb Hend.
  assert (Hsize : 256 <= cfg_stack_size cfg) by by apply valid_config_size.
  destruct (create_static_exec k V t cfg ts rs) as (k' & pc & He & _ & _ & Ht & _ & Hm); [done..|].
  exists k'. split; [done|]. intros code s Hcode [Hsp Hst] s'.
  destruct (initial_frame_cortex c Hport (mem k) cfg base) as [Hf Hfresh]; [done|done|done|lia|].
  assert (stack_ptr (tcbs k' t) = (initial_frame (mem k) cfg).1) as Hp by by rewrite Ht.
  rewrite Hp, Hf in Hsp.
  assert (uintptr (stack_base (tcbs k' t)) = base /\ stack_size (tcbs k' t) = cfg_stack_size cfg) as [Hb' Hs']
    by by rewrite Ht; simpl; rewrite Hbuf.
  rewrite Hb', Hs' in Hst. cbn [uintptr] in Hsp.
  pose proof (saved_regs_short c) as Hshort.
  pose proof (@frame_size_law _ (core_port_laws c)) as Hfs.
  pose proof (Z.div_mod (base + cfg_stack_size cfg) 8). pose proof (Z.mod_pos_bound (base + cfg_stack_size cfg) 8).
  set (top := 8 * ((base + cfg_stack_size cfg) / 8)) in *.
  destruct (fresh_task_starts c code s (top - sizeof 4 (@stack_frame (core_port c))) (cfg_entry_func cfg)
    (cfg_param cfg)) as (_ & Hpm & Hpc & Hr0 & Hlr & Hx & Hpsp & _); [done|done|lia|lia| |].
  { eapply fresh_frame_ext; [|exact Hfresh]. intros x Hx. rewrite <-Hm. apply Hst. lia. }
  fold s' in Hpm, Hpc, Hr0, Hlr, Hx, Hpsp. split_and!; try done. rewrite Hpsp. apply Z.sub_add.
Qed.

(** ** Switching contexts *)

Lemma saved_fpu_LR c : @core_fpu (core_port c) = true -> LR ∈ @saved_regs (core_port c).
Proof. destruct c; [discriminate 1|discriminate 1|set_solver..]. Qed.

(** r4 - r11 are saved by software on every core. *)
Lemma saved_regs_spec c r :
  (4 <= areg_index r <= 11)%nat -> r ∈ @saved_regs (core_port c).
Proof. destruct r; simpl; try lia; intros _; destruct c; set_solver. Qed.

Section switch.
Context (c : core).
#[local] Hint Extern 0 CortexPort => exact (core_port c) : typeclass_instances.
Implicit Types (s : Machine).

(** A context that PendSV_Handler saved and restored later: the words it stored at the stack
    pointer are still there. *)
Lemma saved_context_restored (s s2 : Machine) :
  0 <= m_psp s - saved_size s -> m_psp s + 100 < 2 ^ 32 ->
  (forall r, 0 <= gr s r < 2 ^ 32) -> (forall j, 0 <= fr s j < 2 ^ 32) ->
  LR ∈ saved_regs \/ gr s LR = CORTEX_M_EXC_RETURN_THREAD_PSP ->
  let s1 := run_code core_save s in
  is_Some (tcb_cur s) -> tcb_out s1 = Some (tcb_in s2 0) ->
  (forall x, tcb_in s2 0 <= x < m_psp s -> m_mem s2 x = m_mem s1 x) ->
  let s3 := run_code core_restore s2 in
  tcb_in s2 0 = m_psp s - saved_size s /\ (forall r, r ∈ saved_regs -> gr s3 r = gr s r) /\ gr s3 LR = gr s LR /\
  (saves_fregs s = true -> forall j, 16 <= j < 32 -> fr s3 j = fr s j) /\
  m_psp s3 = m_psp s /\ m_mem s3 = m_mem s2 /\ m_primask s3 = 0 /\
  (forall x, ~ tcb_in s2 0 <= x < m_psp s -> m_mem s1 x = m_mem s x).
Proof.
  intros Hlo Hhi Hr Hf Hlr s1 [t Ht] Hsp Hmem s3. pose proof (core_port_laws c) as L.
  destruct (save_law s) as (Hout & [Hw Hfw] & Hframe); [done|lia|done|done|]. fold s1 in Hout, Hw, Hfw, Hframe.
  rewrite Hout, Ht in Hsp. injection Hsp as Hsp. pose proof (saved_regs_short c) as Hshort.
  assert (Hsize : 4 * Z.of_nat (length saved_regs) <= saved_size s).
  { unfold saved_size. destruct (saves_fregs s); lia. }
  destruct (restore_law core_restore s2) as (Hm & [Hw' Hfw'] & Hlr' & Hpsp & Hpm); [by right|lia|lia|].
  fold s3 in Hm, Hw', Hfw', Hlr', Hpsp, Hpm. rewrite <-Hsp in *.
  assert (Hregs : forall r, r ∈ saved_regs -> gr s3 r = gr s r).
  { intros r [i Hi]%list_elem_of_lookup. rewrite <-(Hw i r Hi), <-(Hw' i r Hi). apply load_le_ext.
    intros x Hx. apply Hmem. apply lookup_lt_Some in Hi. lia. }
  assert (HLR : gr s3 LR = gr s LR).
  { destruct (saved_regs_LR c) as [Hin|Hni]; [by apply Hregs|]. rewrite Hlr' by done. by destruct Hlr. }
  assert (Hsaves : saves_fregs s3 = saves_fregs s).
  { unfold saves_fregs, uses_fpu. by rewrite HLR. }
  assert (Hsz : saved_size s3 = saved_size s).
  { unfold saved_size. by rewrite Hsaves. }
  split_and!; try done.
  - intros Hs j Hj. rewrite <-(Z.sub_add 16 j), (Z.add_comm (j - 16)).
    rewrite <-(Hfw Hs (j - 16)) by lia. rewrite <-(Hfw' ltac:(congruence) (j - 16)) by lia. apply load_le_ext.
    intros x Hx. apply Hmem. unfold saved_size in *. rewrite Hs in *. lia.
  - lia.
Qed.

Lemma stacked_fregs_lookup f i j :
  0 <= j < 16 /\ i = Z.to_nat j \/ j = 32 /\ i = 16%nat -> stacked_fregs f !! i = Some (f j).
Proof.
  unfold stacked_fregs. intros [[Hj ->]|[-> ->]]; [|done].
  rewrite lookup_app_l by (rewrite length_fmap, length_seqZ; lia).
  rewrite list_lookup_fmap, lookup_seqZ_lt by lia. simpl. f_equal. f_equal. lia.
Qed.

Lemma length_stacked_fregs f : length (stacked_fregs f) = 17%nat.
Proof. unfold stacked_fregs. by rewrite length_app, length_fmap, length_seqZ. Qed.

Lemma exception_entry_eq exc g f p pm ct l pc x m ti tc to :
  exception_entry exc (mkMachine g f p pm ct l pc x m ti tc to) =
    let fp := stacks_fpu exc in
    let pad := Z.testbit p 2 in
    let a := u32 (p - frame_bytes fp - if pad then 4 else 0) in
    let x' := if pad then Z.lor x xpsr_padded else x in
    let m' := store_words 4 a [g R0; g R1; g R2; g R3; g R12; g LR; pc; x'] m in
    mkMachine (upd_gr LR exc g) f a pm ct l pc x
      (if fp then store_words 4 (a + 32) (stacked_fregs f) m' else m') ti tc to.
Proof. reflexivity. Qed.

(** The exception entry: the words at the new stack pointer. *)
Lemma exception_entry_words exc s :
  word_sized s -> Z.testbit (m_xpsr s) 9 = false -> 108 <= m_psp s -> m_psp s < 2 ^ 32 ->
  let s0 := exception_entry exc s in
  let fp := stacks_fpu exc in
  let pad := Z.testbit (m_psp s) 2 in
  m_psp s0 = m_psp s - frame_bytes fp - (if pad then 4 else 0) /\
  gr s0 LR = exc /\ (forall r, r <> LR -> gr s0 r = gr s r) /\ fr s0 = fr s /\ tcb_cur s0 = tcb_cur s /\
  (exists x, Z.testbit x 9 = pad /\ Z.ldiff x xpsr_padded = m_xpsr s /\
     forall i, (i < 8)%nat -> Some (load32 (m_psp s0 + 4 * Z.of_nat i) (m_mem s0)) =
       [gr s R0; gr s R1; gr s R2; gr s R3; gr s R12; gr s LR; m_pc s; x] !! i) /\
  (fp = true -> forall i j, 0 <= j < 16 /\ i = Z.to_nat j \/ j = 32 /\ i = 16%nat ->
     load32 (m_psp s0 + 32 + 4 * Z.of_nat i) (m_mem s0) = fr s j) /\
  (forall x, ~ m_psp s0 <= x < m_psp s -> m_mem s0 x = m_mem s x).
Proof.
  destruct s as [g f p pm ct l pc xp m ti tc to]. unfold word_sized. machine_components. cbn [m_pc m_xpsr].
  intros (Hr & Hf & Hpc & Hx) Hx9 Hlo Hhi. rewrite exception_entry_eq. cbv zeta.
  set (fp := stacks_fpu exc). set (pad := Z.testbit p 2).
  assert (Hfb : 32 <= frame_bytes fp <= 104) by (destruct fp; simpl; lia).
  rewrite (wrap_small 32 (p - _ - _)) by (destruct pad; lia).
  set (a := p - frame_bytes fp - if pad then 4 else 0).
  assert (Ha : 0 <= a /\ a + frame_bytes fp <= p) by (unfold a; destruct pad; lia).
  destruct (stacked_xpsr xp pad Hx Hx9) as (Hbit & Hback & Hxr).
  set (x' := if pad then Z.lor xp xpsr_padded else xp) in *.
  set (ws := [g R0; g R1; g R2; g R3; g R12; g LR; pc; x']). set (m1 := store_words 4 a ws m).
  machine_components. split_and!; [done|done| |done|done| | |].
  - intros r Hne. unfold upd_gr. by destruct r.
  - exists x'. split_and!; [done|done|]. intros i Hi.
    assert (Hlow : load32 (a + 4 * Z.of_nat i) (if fp then store_words 4 (a + 32) (stacked_fregs f) m1 else m1) =
      load32 (a + 4 * Z.of_nat i) m1).
    { destruct fp; [|done]. apply load_word_miss. lia. }
    rewrite Hlow. unfold m1. destruct (ws !! i) as [w|] eqn:Hw; [|apply lookup_ge_None in Hw; simpl in Hw; lia].
    rewrite (load_word_hit a (a + 4 * Z.of_nat i) ws m w i); [done|exact Hw|reflexivity|].
    assert (Forall (fun w => 0 <= w < 2 ^ 32) ws) as Hall by (unfold ws; repeat constructor; try apply Hr; lia).
    rewrite Forall_forall in Hall. apply Hall. by eapply list_elem_of_lookup_2.
  - intros Hfp i j Hij. rewrite Hfp. apply (load_word_hit (a + 32) (a + 32 + 4 * Z.of_nat i) (stacked_fregs f) m1 (f j) i);
      [by apply stacked_fregs_lookup|reflexivity|apply Hf].
  - intros x Hx'. assert (Hm1 : m1 x = m x).
    { unfold m1. apply store_words_out. unfold ws. simpl length. lia. }
    destruct fp; [|done]. rewrite store_words_out; [done|]. rewrite length_stacked_fregs. simpl frame_bytes in *. lia.
Qed.

(** C9: a context switch is lossless.  A running task (one that sertos_current_tcb points to) is
    preempted on its process stack (with room for the 208 bytes a context takes at most, below the
    system address space), with or without floating-point state in use: the exception
    entry stacks its caller-saved registers, aligning the stack, PendSV_Handler saves the others
    below them and stores the resulting stack pointer in the TCB.  Whatever other tasks do
    meanwhile, as long as they leave those words alone, PendSV_Handler and the exception return
    later give the task r0 - r12, lr, its program counter, status word and stack pointer back, and
    s0 - s31 and FPSCR if it had floating-point state in use, with interrupts enabled; nothing
    outside the stack below the task's stack pointer was written.  Floating-point state needs a
    core whose port saves it (M4, M7, M33, M55); on Cortex-M0 and M0+, whose ports do not save EXC_RETURN, it must be
    0xFFFFFFFD. *)
Theorem context_switch_roundtrip exc (s s2 : Machine) :
  word_sized s -> 0 <= exc < 2 ^ 32 -> Z.testbit (m_xpsr s) 9 = false -> 208 <= m_psp s <= 0xE0000000 ->
  is_Some (tcb_cur s) -> (stacks_fpu exc = true -> core_fpu = true) ->
  (LR ∈ saved_regs \/ exc = CORTEX_M_EXC_RETURN_THREAD_PSP) ->
  let s1 := run_code core_save (exception_entry exc s) in
  tcb_out s1 = Some (tcb_in s2 0) ->
  (forall x, tcb_in s2 0 <= x < m_psp s -> m_mem s2 x = m_mem s1 x) ->
  let s3 := exception_return (run_code core_restore s2) in
  (forall r, gr s3 r = gr s r) /\ m_pc s3 = m_pc s /\ m_xpsr s3 = m_xpsr s /\ m_psp s3 = m_psp s /\
  (stacks_fpu exc = true -> forall j, 0 <= j <= 32 -> fr s3 j = fr s j) /\
  m_primask s3 = 0 /\ m_mem s3 = m_mem s2 /\
  (forall x, ~ tcb_in s2 0 <= x < m_psp s -> m_mem s1 x = m_mem s x).
Proof.
  intros Hs Hexc Hx9 Hpsp Hcur Hfpu Hexc2 s1 Hsp Hmem s3. set (s0 := exception_entry exc s) in *.
  destruct (exception_entry_words exc s Hs Hx9) as (Hp0 & HLR & Hr0 & Hf0 & Hc0 & (x & Hbit & Hback & Hw0) & Hfw0 & Hout0);
    [lia|lia|].
  fold s0 in Hp0, HLR, Hr0, Hf0, Hc0, Hw0, Hfw0, Hout0. destruct Hs as (Hr & Hf & _ & _).
  assert (Hfb : 32 <= frame_bytes (stacks_fpu exc) <= 104) by (destruct (stacks_fpu exc); simpl; lia).
  assert (Hpad : 0 <= (if Z.testbit (m_psp s) 2 then 4 else 0) <= 4) by (destruct (Z.testbit (m_psp s) 2); lia).
  assert (Hsize : 0 <= saved_size s0 <= 100).
  { unfold saved_size. pose proof (saved_regs_short c). destruct (saves_fregs s0); lia. }
  destruct (saved_context_restored s0 s2) as (Hsp2 & Hregs & HLR3 & Hfregs & Hp3 & Hm3 & Hpm & Hout).
  { lia. }
  { lia. }
  { intros r. destruct (decide (r = LR)) as [->|Hne]; [by rewrite HLR|rewrite Hr0 by done; apply Hr]. }
  { intros j. rewrite Hf0. apply Hf. }
  { rewrite HLR. done. }
  { by rewrite Hc0. }
  { exact Hsp. }
  { intros y Hy. apply Hmem. lia. }
  fold s1 in Hout. set (s' := run_code core_restore s2) in *.
  assert (Hmid : forall y, m_psp s0 <= y < m_psp s -> m_mem s' y = m_mem s0 y).
  { intros y Hy. rewrite Hm3, Hmem by lia. apply Hout. lia. }
  assert (Hfp : uses_fpu s' = stacks_fpu exc) by (unfold uses_fpu; by rewrite HLR3, HLR).
  destruct (exception_return_words s' (gr s R0) (gr s R1) (gr s R2) (gr s R3) (gr s R12) (gr s LR) (m_pc s) x)
    as (Hgr & Hpc & Hxp & Hp4 & Hm4 & Hpm4 & Hfr4).
  { intros i Hi. rewrite <-(Hw0 i Hi). f_equal. rewrite Hp3. apply load_le_ext. intros y Hy. apply Hmid. lia. }
  fold s3 in Hgr, Hpc, Hxp, Hp4, Hm4, Hpm4, Hfr4. rewrite Hfp in Hp4, Hfr4. rewrite Hbit in Hp4.
  split_and!; [|done|congruence| | |congruence|congruence|].
  - intros r. pose proof (fun Hi => Hregs r (saved_regs_spec c r Hi)) as Hsaved. rewrite Hgr.
    unfold upd_gr. destruct r; try reflexivity; cbn [areg_index Nat.eqb]; rewrite Hsaved by (simpl; lia); by apply Hr0.
  - rewrite Hp4, Hp3, wrap_small by lia. lia.
  - intros Hst j Hj. rewrite Hfr4, Hst, Hp3.
    assert (Hlow : forall i, 0 <= j < 16 /\ i = Z.to_nat j \/ j = 32 /\ i = 16%nat ->
      load32 (m_psp s0 + 32 + 4 * Z.of_nat i) (m_mem s') = fr s j).
    { intros i Hi. rewrite <-(Hfw0 Hst i j Hi). apply load_le_ext. intros y Hy. apply Hmid.
      rewrite Hst in *. simpl frame_bytes in *. lia. }
    destruct (decide (j < 16)) as [Hj16|Hj16].
    + rewrite (proj2 (Z.leb_le 0 j)), (proj2 (Z.ltb_lt j 16)) by lia. cbn [andb].
      rewrite <-(Hlow (Z.to_nat j)) by (left; lia). f_equal. lia.
    + rewrite (proj2 (Z.ltb_ge j 16)) by lia. rewrite andb_false_r. destruct (Z.eqb_spec j 32) as [->|Hne].
      * by rewrite <-(Hlow 16%nat) by (by right).
      * rewrite Hfregs, Hf0; [done| |lia]. unfold saves_fregs, uses_fpu. rewrite HLR, (Hfpu Hst). exact Hst.
  - intros y Hy. rewrite Hout by lia. apply Hout0. lia.
Qed.
End switch.

(** ** The tick timer and critical sections *)

(** C27: [sertos_port_tick_init] on every core accepts exactly the rates SysTick can divide the
    port's clock down to: then the reload value fits the 24-bit register, a tick lasts
    [reload + 1] cycles, which is the clock divided by the rate, rounded down, and the
    registers are written in the documented order, with the handler's priority first and the
    enable bit last.  Every other rate is INVALID_PARAM and touches no register. *)
Theorem tick_init_exact c rate (s : CortexM) :
  0 <= rate < 2 ^ 32 ->
  let clk := @core_tick_clock_hz (core_port c) in
  let counts := clk / rate in
  @core_tick_init (core_port c) rate s =
    if decide (0 < rate /\ 0 < counts <= 2 ^ 24)
    then (SERTOS_STATUS_OK, foldl (fun s w => mmio_write w.1 w.2 s) s
      [(CORTEX_M_SHPR3, Z.lor (mmio s CORTEX_M_SHPR3) 0x00FF0000); (CORTEX_M_SYSTICK_LOAD, counts - 1);
       (CORTEX_M_SYSTICK_VAL, 0); (CORTEX_M_SYSTICK_CTRL, 7)])
    else (SERTOS_STATUS_ERROR_INVALID_PARAM, s).
Proof.
  intros Hrate clk counts.
  assert (Hinit : @core_tick_init (core_port c) rate s = systick_init clk rate s) by by destruct c.
  assert (Hclk : 0 < clk) by (unfold clk; by destruct c).
  rewrite Hinit. unfold systick_init, cortex_m_systick.
  assert (Hmax : CORTEX_M_SYSTICK_MAX_RELOAD_COUNTS = 2 ^ 24) by reflexivity.
  destruct (Z.eqb_spec clk 0); [lia|]. cbn [orb negb]. destruct (Z.eqb_spec rate 0) as [->|Hne].
  { rewrite decide_False; [done|lia]. }
  cbn [orb]. fold counts. destruct (Z.eqb_spec counts 0) as [H0|H0]; [rewrite decide_False by lia; done|].
  assert (0 <= counts) by (apply Z.div_pos; lia). cbn [orb].
  destruct (Z.ltb_spec CORTEX_M_SYSTICK_MAX_RELOAD_COUNTS counts).
  - rewrite decide_False by lia. done.
  - rewrite decide_True by lia. done.
Qed.
