(* ===== verification/RiscV.v ===== *)
(** The RISC-V port (src/port/riscv/): the CSRs, the CLINT timer and the statics of port_cpu.c
    ([RiscV]), its operations, and the trap handler of port_context.S on the registers of a hart
    ([Hart]).  [flen] says whether the compiler targets a hart with floating point
    ([__riscv_flen > 0]). *)
From S2P Require Import Prelude Effects Types Platform PortFrame PortCritical Kernel.
From S2P Require Import SchedCore Timer Scheduler.

(** ** The stack frame *)

(** The integer registers but sp, which [Hart] keeps apart, and the constant zero. *)
Inductive xreg : Type :=
  | X_gp | X_tp
  | X_ra | X_t0 | X_t1 | X_t2 | X_s0 | X_s1 | X_a0 | X_a1 | X_a2 | X_a3 | X_a4 | X_a5 | X_a6 | X_a7
  | X_s2 | X_s3 | X_s4 | X_s5 | X_s6 | X_s7 | X_s8 | X_s9 | X_s10 | X_s11 | X_t3 | X_t4 | X_t5 | X_t6.
#[export] Instance xreg_eq_dec : EqDecision xreg.
Proof. solve_decision. Defined.

Inductive rv_slot : Type :=
  | F_x (r : xreg) | F_mepc | F_mstatus | F_f (n : Z) | F_fcsr | F_pad (n : Z).
#[export] Instance rv_slot_eq_dec : EqDecision rv_slot.
Proof. solve_decision. Defined.

(** The registers of a frame: gp and tp are not among them. *)
Definition xregs : list xreg :=
  [X_ra; X_t0; X_t1; X_t2; X_s0; X_s1; X_a0; X_a1; X_a2; X_a3; X_a4; X_a5; X_a6; X_a7;
   X_s2; X_s3; X_s4; X_s5; X_s6; X_s7; X_s8; X_s9; X_s10; X_s11; X_t3; X_t4; X_t5; X_t6].

Definition RiscV32StackFrame (flen : bool) : list rv_slot :=
  (F_x <$> xregs) ++ [F_mepc; F_mstatus] ++
  if flen then (F_f <$> seqZ 0 32) ++ [F_fcsr; F_pad 0] else [F_pad 0; F_pad 1].

Definition MSTATUS_MPP_MACHINE : Z := Z.shiftl 3 11.
Definition MSTATUS_MPIE_ENABLE : Z := Z.shiftl 1 7.
Definition MSTATUS_FS_INITIAL : Z := Z.shiftl 1 13.

Definition initial_mstatus (flen : bool) : Z :=
  if flen then Z.lor MSTATUS_MPP_MACHINE (Z.lor MSTATUS_MPIE_ENABLE MSTATUS_FS_INITIAL)
  else Z.lor MSTATUS_MPP_MACHINE MSTATUS_MPIE_ENABLE.

Definition sertos_port_stack_init (flen : bool) (stack_top stack_limit entry param : ptr) (m : Mem) : ptr * Mem :=
  match stack_top with
  | None => (None, m)
  | Some top =>
      let size := sizeof 4 (RiscV32StackFrame flen) in
      let frame := frame_base 32 top size in
      let m := mem_fill frame size 0 m in
      (of_uintptr frame,
       assign 4 (RiscV32StackFrame flen) frame
         [(F_mepc, u32 (uintptr entry));
          (F_mstatus, initial_mstatus flen);
          (F_x X_a0, u32 (uintptr param))] m)
  end.

(** ** CSRs, timer and statics

    [mtime] is what successive accesses to the 64-bit clock find, [mtimecmp_trace] the values
    the 64-bit comparator went through. *)
Record RiscV : Type := mkRiscV {
  mstatus : Z;
  mie : Z;
  mtvec : Z;
  mtime : nat -> Z;
  mtime_reads : nat;
  mtimecmp_h : Z;
  mtimecmp_l : Z;
  mtimecmp_trace : list Z;
  mcycle : nat -> Z;
  mcycle_reads : nat;
  ecalls : nat;
  test_device : option Z;
  s_critical_nesting : Z;
  s_in_isr : Z;
  s_tick_cycles : Z }.
#[export] Instance RiscV_eta : Eta RiscV := fun c =>
  mkRiscV (mstatus c) (mie c) (mtvec c) (mtime c) (mtime_reads c) (mtimecmp_h c) (mtimecmp_l c)
    (mtimecmp_trace c) (mcycle c) (mcycle_reads c) (ecalls c) (test_device c) (s_critical_nesting c)
    (s_in_isr c) (s_tick_cycles c).

Definition sertos_port_tick_clock_hz : Z := 10000000.

Definition sertos_port_runtime_counter (ticks : Z) (c : RiscV) : Z * RiscV :=
  (u32 (mcycle c (mcycle_reads c)), c <| mcycle_reads ::= S |>).
Definition sertos_port_runtime_counter_init (c : RiscV) : RiscV := c.

Definition sertos_port_yield (c : RiscV) : RiscV :=
  if s_in_isr c =? 0 then c <| ecalls ::= S |> else c.

(** [csrrci prev, mstatus, 8; s_critical_nesting++]. *)
Definition sertos_port_enter_critical (c : RiscV) : Z * RiscV :=
  (mstatus c, c <| mstatus ::= fun v => Z.ldiff v 8 |> <| s_critical_nesting ::= fun n => u32 (n + 1) |>).
Definition sertos_port_exit_critical (status : Z) (c : RiscV) : RiscV :=
  if 0 <? s_critical_nesting c then
    let c := c <| s_critical_nesting ::= fun n => n - 1 |> in
    if s_critical_nesting c =? 0 then c <| mstatus := status |> else c
  else c.

(** One access to the clock: its high and its low word. *)
Definition read_mtime_h (c : RiscV) : Z * RiscV :=
  (Z.shiftr (mtime c (mtime_reads c)) 32, c <| mtime_reads ::= S |>).
Definition read_mtime_l (c : RiscV) : Z * RiscV :=
  (u32 (mtime c (mtime_reads c)), c <| mtime_reads ::= S |>).

(** The loop that reads the clock: again while the high word changed under the low one. *)
Fixpoint read_mtime (fuel : nat) (c : RiscV) : option (Z * Z * RiscV) :=
  match fuel with
  | O => None
  | S fuel =>
      let '(now_h, c) := read_mtime_h c in
      let '(now_l, c) := read_mtime_l c in
      let '(again, c) := read_mtime_h c in
      if now_h =? again then Some (now_h, now_l, c) else read_mtime fuel c
  end.

Definition comparator (c : RiscV) : Z := Z.lor (Z.shiftl (mtimecmp_h c) 32) (mtimecmp_l c).
Definition trace_comparator (c : RiscV) : RiscV := c <| mtimecmp_trace ::= fun l => l ++ [comparator c] |>.
Definition write_mtimecmp_h (v : Z) (c : RiscV) : RiscV := trace_comparator (c <| mtimecmp_h := v |>).
Definition write_mtimecmp_l (v : Z) (c : RiscV) : RiscV := trace_comparator (c <| mtimecmp_l := v |>).

(** The next tick, [s_tick_cycles] from now. *)
Definition arm_timer (fuel : nat) (c : RiscV) : option RiscV :=
  match read_mtime fuel c with
  | None => None
  | Some (now_h, now_l, c) =>
      let next := u64 (Z.lor (Z.shiftl now_h 32) now_l + s_tick_cycles c) in
      let c := write_mtimecmp_h 0xFFFFFFFF c in
      let c := write_mtimecmp_l (Z.land next 0xFFFFFFFF) c in
      Some (write_mtimecmp_h (Z.shiftr next 32) c)
  end.

Definition sertos_port_tick_init (fuel : nat) (flen : bool) (trap_handler tick_rate_hz : Z) (c : RiscV) :
    option (SertosStatus * RiscV) :=
  let c := c <| mtvec := trap_handler |> in
  let c := if flen then c <| mstatus ::= fun v => Z.lor v MSTATUS_FS_INITIAL |> else c in
  if (tick_rate_hz =? 0) || (sertos_port_tick_clock_hz <? tick_rate_hz)
  then Some (SERTOS_STATUS_ERROR_INVALID_PARAM, c)
  else
    let c := c <| s_tick_cycles := sertos_port_tick_clock_hz / tick_rate_hz |> in
    match arm_timer fuel c with
    | None => None
    | Some c => Some (SERTOS_STATUS_OK, c <| mie ::= fun v => Z.lor v (Z.shiftl 1 7) |>)
    end.

Definition sertos_port_task_create_hook (tcb : addr) (port_context : ptr) (c : RiscV) : ptr * RiscV :=
  (port_context, c).
Definition sertos_port_task_delete_hook (tcb : addr) (port_context : ptr) (c : RiscV) : ptr * RiscV :=
  (port_context, c).

(** Up to the endless wait. *)
Definition sertos_port_stop_scheduler (c : RiscV) : RiscV :=
  c <| mstatus ::= fun v => Z.ldiff v 8 |> <| test_device := Some 0x5555 |>.

(** ** port_context.S *)

(** The registers of a hart and the memory. *)
Record Hart : Type := mkHart {
  xr : xreg -> Z;
  h_sp : Z;
  fregs : Z -> Z;
  h_fcsr : Z;
  h_pc : Z;
  h_mepc : Z;
  h_mcause : Z;
  h_mstatus : Z;
  h_mem : Mem }.
#[export] Instance Hart_eta : Eta Hart := fun s =>
  mkHart (xr s) (h_sp s) (fregs s) (h_fcsr s) (h_pc s) (h_mepc s) (h_mcause s) (h_mstatus s) (h_mem s).

(** What the hart does to mstatus when it takes a trap from machine mode and on [mret], which
    leaves MPP at the least privileged mode the hart has ([user]: it has user mode). *)
Definition trap_mstatus (v : Z) : Z :=
  Z.lor (Z.ldiff v 0x1888) (Z.lor 0x1800 (if Z.testbit v 3 then 0x80 else 0)).
Definition mret_mstatus (user : bool) (v : Z) : Z :=
  Z.lor (Z.ldiff v 0x1888) (Z.lor 0x80 (Z.lor (if Z.testbit v 7 then 0x8 else 0) (if user then 0 else 0x1800))).

Definition trap_entry (cause : Z) (s : Hart) : Hart :=
  s <| h_mepc := h_pc s |> <| h_mcause := cause |> <| h_mstatus ::= trap_mstatus |>.
Definition h_mret (user : bool) (s : Hart) : Hart :=
  s <| h_pc := h_mepc s |> <| h_mstatus ::= mret_mstatus user |>.

Definition upd_reg {A} `{EqDecision A} (r : A) (v : Z) (g : A -> Z) : A -> Z :=
  fun x => if decide (x = r) then v else g x.
(** [sw r, off(sp)] and [lw r, off(sp)]. *)
Definition sw (v off : Z) (s : Hart) : Hart := s <| h_mem ::= store32 (h_sp s + off) v |>.
Definition lw (off : Z) (s : Hart) : Z := load32 (h_sp s + off) (h_mem s).

Definition FRAME_SIZE (flen : bool) : Z := if flen then 256 else 128.

(** The offsets of the sw and lw sequences. *)
Definition frame_offsets : list (xreg * Z) :=
  [(X_ra, 0); (X_t0, 4); (X_t1, 8); (X_t2, 12); (X_s0, 16); (X_s1, 20); (X_a0, 24); (X_a1, 28);
   (X_a2, 32); (X_a3, 36); (X_a4, 40); (X_a5, 44); (X_a6, 48); (X_a7, 52); (X_s2, 56); (X_s3, 60);
   (X_s4, 64); (X_s5, 68); (X_s6, 72); (X_s7, 76); (X_s8, 80); (X_s9, 84); (X_s10, 88); (X_s11, 92);
   (X_t3, 96); (X_t4, 100); (X_t5, 104); (X_t6, 108)].
Definition freg_offsets : list (Z * Z) := (fun i => (i, 120 + 4 * i)) <$> seqZ 0 32.

(** mstatus.FS is switched on first. *)
Definition save_fregs (s : Hart) : Hart :=
  let s := s <| h_mstatus ::= Z.lor (Z.shiftl 3 13) |> in
  let s := foldl (fun s ro => sw (fregs s ro.1) ro.2 s) s freg_offsets in
  sw (h_fcsr s) 248 s.
Definition restore_fregs (s : Hart) : Hart :=
  let s := s <| h_mstatus ::= Z.lor (Z.shiftl 3 13) |> in
  let s := s <| h_fcsr := lw 248 s |> in
  foldl (fun s ro => s <| fregs ::= upd_reg ro.1 (lw ro.2 s) |>) s freg_offsets.

(** The trap handler up to [do_switch]: [None] for the exceptions it does not handle, where it
    waits for ever.  An ecall is resumed behind the instruction. *)
Definition save_context (flen : bool) (s : Hart) : option Hart :=
  let s := s <| h_sp ::= fun sp => u32 (sp - FRAME_SIZE flen) |> in
  let s := foldl (fun s ro => sw (xr s ro.1) ro.2 s) s frame_offsets in
  let t0 := h_mepc s in
  let t1 := h_mstatus s in
  let t2 := h_mcause s in
  if Z.testbit t2 31 then
    let s := sw t1 116 (sw t0 112 s) in
    Some (if flen then save_fregs s else s)
  else if (t2 =? 11) || (t2 =? 8) then
    let s := sw t1 116 (sw (u32 (t0 + 4)) 112 s) in
    Some (if flen then save_fregs s else s)
  else None.

(** [do_switch]: the stack pointer is stored in the first word of the TCB that sertos_current_tcb
    points to, if there is one. *)
Definition do_switch (current : ptr) (s : Hart) : Hart :=
  match current with
  | Some t => s <| h_mem ::= store32 t (h_sp s) |>
  | None => s
  end.

(** The trap handler up to the call of sertos_scheduler_perform_switch (the registers t0 to t3 it
    uses after saving them are scratch). *)
Definition trap_save (flen : bool) (current : ptr) (s : Hart) : option Hart :=
  do_switch current <$> save_context flen s.

(** Behind [lw sp, 0(a0)], with the stack pointer [sp] of the task switched to. *)
Definition restore_context (user flen : bool) (sp : Z) (s : Hart) : Hart :=
  let s := s <| h_sp := sp |> in
  let s := s <| h_mepc := lw 112 s |> in
  let s := s <| h_mstatus := lw 116 s |> in
  let s := if flen then restore_fregs s else s in
  let s := foldl (fun s ro => s <| xr ::= upd_reg ro.1 (lw ro.2 s) |>) s frame_offsets in
  h_mret user (s <| h_sp ::= fun sp => u32 (sp + FRAME_SIZE flen) |>).

(** From [lw sp, 0(a0)] on, a0 being the TCB of the task switched to. *)
Definition restore_riscv_task (user flen : bool) (next : addr) (s : Hart) : Hart :=
  restore_context user flen (load32 next (h_mem s)) s.

(** sertos_port_start_first_task: the trap vector is set, then the same with the task that
    sertos_current_tcb points to. *)
Definition sertos_port_start_first_task (user flen : bool) (trap_handler : Z) (current : addr) (s : Hart) (c : RiscV) :
    Hart * RiscV :=
  (restore_riscv_task user flen current s, c <| mtvec := trap_handler |>).

(** The port contract.  [trap_handler] is where the linker puts sertos_riscv_trap_handler; a
    clock that never lets itself be read leaves the port where it is. *)
Definition riscv_ops (fuel : nat) (user flen : bool) (trap_handler : Z) : PortOps := {|
  PortState := RiscV;
  port_host := false;
  port_size_bits := 32;
  Platform.sertos_port_stack_init := sertos_port_stack_init flen;
  port_start_first_task := fun c => c <| mtvec := trap_handler |>
    <| mstatus := mret_mstatus user (if flen then Z.lor (Z.shiftl 3 13) (initial_mstatus flen) else initial_mstatus flen) |>;
  port_yield := sertos_port_yield;
  port_enter_critical := sertos_port_enter_critical;
  port_exit_critical := sertos_port_exit_critical;
  port_tick_init := fun rate c =>
    match sertos_port_tick_init fuel flen trap_handler rate c with
    | Some r => r
    | None => (SERTOS_STATUS_ERROR_INVALID_PARAM, c)
    end;
  port_task_create_hook := sertos_port_task_create_hook;
  port_task_delete_hook := sertos_port_task_delete_hook;
  port_stop_scheduler := sertos_port_stop_scheduler;
  port_runtime_counter := sertos_port_runtime_counter;
  port_runtime_counter_init := sertos_port_runtime_counter_init |}.

(** ** Traps and the kernel *)

Section trap.
Context (PL : Platform) (fuel : nat) (user flen : bool) (trap_handler : Z).
Abbreviation rv_platform := (with_port PL (riscv_ops fuel user flen trap_handler)).
Abbreviation RvKernel := (@Kernel rv_platform).
Context (CB : @Callbacks rv_platform).

Definition with_riscv (f : RiscV -> RiscV) : M RvKernel unit := modify (fun k : RvKernel => set (port (PL:=rv_platform)) f k).

Definition sertos_port_riscv_timer_handler : M RvKernel unit :=
  c ← gets (fun k : RvKernel => port k);
  match arm_timer fuel c with
  | None => stuck OutOfFuel
  | Some c => with_riscv (fun _ => c)
  end;;
  with_riscv (set s_in_isr (fun _ => 1));;
  sertos_scheduler_tick;;
  with_riscv (set s_in_isr (fun _ => 0)).

(** The trap handler between saving the context, which leaves it at [sp], and restoring one: what it
    calls, by cause, and what it does to the TCB of the task it stopped. *)
Definition sertos_riscv_trap_handler (cause sp : Z) : M RvKernel ptr :=
  when (cause =? 0x80000007) sertos_port_riscv_timer_handler;;
  current ← gets (fun k : RvKernel => sertos_current_tcb k);
  match current with
  | Some t => upd_tcb t (set stack_ptr (fun _ => of_uintptr sp))
  | None => mret tt
  end;;
  sertos_scheduler_perform_switch.
End trap.

#[export] Instance riscv_critical_ops : CriticalOps RiscV := {
  enter_critical := sertos_port_enter_critical;
  exit_critical := sertos_port_exit_critical;
  nesting := s_critical_nesting;
  mask := mstatus;
  closed := fun v => Z.ldiff v 8 }.

#[export] Instance riscv_critical_laws : CriticalLaws RiscV.
Proof.
  split; simpl.
  - intros v. apply Z.bits_inj. intros n. rewrite !Z.ldiff_spec. by destruct (Z.testbit v n), (Z.testbit 8 n).
  - intros c. done.
  - intros v c Hn. unfold sertos_port_exit_critical. rsimpl. rewrite (proj2 (Z.ltb_lt _ _) Hn).
    destruct (Z.eqb_spec (s_critical_nesting c - 1) 0), (Z.eqb_spec (s_critical_nesting c) 1); rsimpl; done || lia.
  - intros v c Hn. unfold sertos_port_exit_critical. by rewrite Hn.
Qed.
