(* ===== verification/RiscVProps.v ===== *)
(** Properties of the RISC-V port and of the kernel on top of it. *)
From S2P Require Import Prelude Effects Types Platform PortFrame PortCritical LinkedLists Kernel Invariant.
From S2P Require Import RefPlatform KernelCheck SchedCore TaskInfo Stats Timer Scheduler Task SchedulerSpec.
From S2P Require Import BlockSpec TaskSpec RiscV.

(** ** The clock and the tick timer *)

Lemma shiftl_lor_split v : Z.lor (Z.shiftl (Z.shiftr v 32) 32) (u32 v) = v.
Proof.
  unfold wrap. rewrite <-Z.land_ones by lia. apply Z.bits_inj'. intros n Hn.
  rewrite Z.lor_spec, Z.land_spec. destruct (Z.lt_ge_cases n 32).
  - rewrite Z.shiftl_spec_low, Z.ones_spec_low by lia. by rewrite andb_true_r.
  - rewrite Z.shiftl_spec_high, Z.shiftr_spec, Z.ones_spec_high by lia.
    rewrite andb_false_r, orb_false_r. f_equal. lia.
Qed.

Lemma high_word_between a b c :
  a <= b <= c -> Z.shiftr a 32 = Z.shiftr c 32 -> Z.shiftr b 32 = Z.shiftr a 32.
Proof.
  intros Hb He. rewrite !Z.shiftr_div_pow2 in * by lia.
  pose proof (Z.div_le_mono a b (2 ^ 32)). pose proof (Z.div_le_mono b c (2 ^ 32)). lia.
Qed.

(** A clock that does not run a full low word ahead during six accesses is read, by the second
    try at the latest, as the value it had at one of them. *)
Lemma read_mtime_spec fuel (c : RiscV) :
  let n := mtime_reads c in
  (2 <= fuel)%nat -> (forall i j, (i <= j)%nat -> mtime c i <= mtime c j) ->
  mtime c (n + 5)%nat - mtime c n < 2 ^ 32 ->
  exists i now_h now_l c', read_mtime fuel c = Some (now_h, now_l, c') /\ (n < i < n + 5)%nat /\
    Z.lor (Z.shiftl now_h 32) now_l = mtime c i /\
    c' = c <| mtime_reads := mtime_reads c' |>.
Proof.
  intros n Hfuel Hmono Hslow. destruct fuel as [|[|fuel]]; [lia|lia|]. cbn [read_mtime].
  unfold read_mtime_h, read_mtime_l. rsimpl. fold n.
  destruct (Z.eqb_spec (Z.shiftr (mtime c n) 32) (Z.shiftr (mtime c (S (S n))) 32)) as [He|He].
  - exists (S n). eexists _, _, _. split; [reflexivity|]. split; [lia|]. split; [|by destruct c].
    rewrite <-(high_word_between _ _ _ (conj (Hmono n (S n) ltac:(lia)) (Hmono (S n) (S (S n)) ltac:(lia))) He).
    apply shiftl_lor_split.
  - destruct (Z.eqb_spec (Z.shiftr (mtime c (S (S (S n)))) 32) (Z.shiftr (mtime c (S (S (S (S (S n)))))) 32)) as [He2|He2].
    + exists (S (S (S (S n)))). eexists _, _, _. split; [reflexivity|]. split; [lia|]. split; [|by destruct c].
      rewrite <-(high_word_between _ (mtime c (S (S (S (S n))))) _
        (conj (Hmono (S (S (S n))) (S (S (S (S n)))) ltac:(lia))
           (Hmono (S (S (S (S n)))) (S (S (S (S (S n))))) ltac:(lia))) He2).
      apply shiftl_lor_split.
    + exfalso. rewrite !Z.shiftr_div_pow2 in * by lia. replace (n + 5)%nat with (S (S (S (S (S n))))) in Hslow by lia.
      pose proof (Hmono n (S (S n)) ltac:(lia)) as H1. pose proof (Hmono (S (S n)) (S (S (S n))) ltac:(lia)) as H2.
      pose proof (Hmono (S (S (S n))) (S (S (S (S (S n))))) ltac:(lia)) as H3.
      apply (Z.div_le_mono _ _ (2 ^ 32) ltac:(lia)) in H1, H2, H3.
      set (a := mtime c n) in *. set (z := mtime c (S (S (S (S (S n)))))) in *.
      pose proof (Z.div_mod a (2 ^ 32)). pose proof (Z.mod_pos_bound a (2 ^ 32)).
      pose proof (Z.div_mod z (2 ^ 32)). pose proof (Z.mod_pos_bound z (2 ^ 32)).
      assert (a / 2 ^ 32 + 2 <= z / 2 ^ 32) by lia. lia.
Qed.

Lemma comparator_split v : 0 <= v < 2 ^ 64 ->
  Z.lor (Z.shiftl (Z.shiftr v 32) 32) (Z.land v 0xFFFFFFFF) = v.
Proof.
  intros Hv. change 0xFFFFFFFF with (Z.ones 32). rewrite Z.land_ones by lia. apply shiftl_lor_split.
Qed.

(** C25: arming the tick timer terminates on every clock that does not advance by 2^32 cycles
    during six accesses, and is exact: the loop reads the 64-bit clock as it was at one of its
    accesses, although it is read in two halves, and the comparator ends at that time plus one
    tick (modulo 2^64).  In between, the comparator, written in halves too, only holds values
    whose high word is all ones, so no early interrupt is raised; and nothing else changes. *)
Theorem timer_armed_exactly fuel (c : RiscV) :
  let n := mtime_reads c in
  (2 <= fuel)%nat -> (forall i j, (i <= j)%nat -> mtime c i <= mtime c j) ->
  mtime c (n + 5)%nat - mtime c n < 2 ^ 32 -> 0 <= mtimecmp_l c < 2 ^ 32 ->
  exists i c' low1 low2, arm_timer fuel c = Some c' /\ (n < i < n + 5)%nat /\
    let next := u64 (mtime c i + s_tick_cycles c) in
    comparator c' = next /\ 0 <= low1 < 2 ^ 32 /\ 0 <= low2 < 2 ^ 32 /\
    mtimecmp_trace c' =
      mtimecmp_trace c ++ [Z.shiftl 0xFFFFFFFF 32 + low1; Z.shiftl 0xFFFFFFFF 32 + low2; next] /\
    c' = c <| mtime_reads := mtime_reads c' |> <| mtimecmp_h := mtimecmp_h c' |>
           <| mtimecmp_l := mtimecmp_l c' |> <| mtimecmp_trace := mtimecmp_trace c' |>.
Proof.
  intros n Hfuel Hmono Hslow Hlow.
  destruct (read_mtime_spec fuel c Hfuel Hmono Hslow) as (i & now_h & now_l & c1 & He & Hi & Hnow & Hc1).
  set (next := u64 (mtime c i + s_tick_cycles c)).
  assert (Hnext : 0 <= next < 2 ^ 64) by (apply Z.mod_pos_bound; lia).
  assert (Htop : forall low, 0 <= low < 2 ^ 32 ->
    Z.lor (Z.shiftl 0xFFFFFFFF 32) low = Z.shiftl 0xFFFFFFFF 32 + low).
  { intros low Hl. rewrite <-Z.lxor_lor; [rewrite Z.add_nocarry_lxor; [done|]|];
      (rewrite <-(Z.mod_small low (2 ^ 32)), <-Z.land_ones by lia;
       apply Z.bits_inj'; intros k Hk; rewrite !Z.land_spec, Z.bits_0; destruct (Z.lt_ge_cases k 32);
       [rewrite Z.shiftl_spec_low by lia; done|rewrite Z.ones_spec_high by lia; by rewrite !andb_false_r]). }
  exists i. unfold arm_timer. rewrite He. eexists _, (mtimecmp_l c), (Z.land next 0xFFFFFFFF).
  assert (Hs : s_tick_cycles c1 = s_tick_cycles c) by by rewrite Hc1.
  rewrite Hnow, Hs. fold next. split; [reflexivity|]. split; [done|]. cbv zeta.
  assert (Hl2 : 0 <= Z.land next 0xFFFFFFFF < 2 ^ 32).
  { change 0xFFFFFFFF with (Z.ones 32). rewrite Z.land_ones by lia. apply Z.mod_pos_bound. lia. }
  rewrite Hc1. unfold write_mtimecmp_h, write_mtimecmp_l, trace_comparator, comparator. rsimpl.
  split; [by apply comparator_split|]. split; [done|]. split; [done|].
  split; [|by destruct c]. by rewrite !Htop, comparator_split, <-!app_assoc by done.
Qed.

(** ** Saving and restoring a context *)

#[local] Arguments load_le : simpl never.
#[local] Arguments store_le : simpl never.

(** Words at offsets from a base. *)
Definition store_table (base : Z) (l : list (Z * Z)) (m : Mem) : Mem :=
  foldl (fun m ov => store32 (base + ov.1) ov.2 m) m l.

Definition word_offset (size off : Z) : Prop := off mod 4 = 0 /\ 0 <= off <= size - 4.
#[local] Instance word_offset_dec size off : Decision (word_offset size off).
Proof. unfold word_offset. apply _. Defined.

Lemma store_table_out base l m x size :
  Forall (fun ov => word_offset size ov.1) l -> ~ base <= x < base + size -> store_table base l m x = m x.
Proof.
  intros Hl Hx. revert m. induction Hl as [|[off v] l [_ Hoff] _ IH]; intros m; [done|].
  unfold store_table in *. simpl in *. rewrite IH. apply store_le_out. lia.
Qed.

Lemma load_store_table_other base l m off size :
  Forall (fun ov => word_offset size ov.1) l -> word_offset size off -> off ∉ l.*1 ->
  load32 (base + off) (store_table base l m) = load32 (base + off) m.
Proof.
  intros Hl [Hoff _]. revert m. induction Hl as [|[o v] l [Ho _] _ IH]; intros m Hni; [done|].
  unfold store_table in *. simpl in *. apply not_elem_of_cons in Hni as [Hne Hni]. rewrite IH by done.
  apply load_store_ne. pose proof (Z.div_mod off 4). pose proof (Z.div_mod o 4). lia.
Qed.

Lemma load_store_table base l m off v size :
  Forall (fun ov => word_offset size ov.1) l -> NoDup l.*1 -> (off, v) ∈ l ->
  load32 (base + off) (store_table base l m) = u32 v.
Proof.
  intros Hl. revert m. induction Hl as [|[o w] l Ho Hl IH]; intros m Hnd Hin; [by apply elem_of_nil in Hin|].
  apply NoDup_cons in Hnd as [Hni Hnd]. unfold store_table in *. simpl in *.
  apply elem_of_cons in Hin as [[= -> ->]|Hin]; [|by apply IH].
  pose proof (load_store_table_other base l (store32 (base + o) w m) o size Hl Ho Hni) as Hother.
  unfold store_table in Hother. rewrite Hother. apply (load_store_same 4).
Qed.

(** The sw and lw sequences, and what they make of a hart. *)
Lemma foldl_sw {A} (val : Hart -> A -> Z) (tbl : list (A * Z)) (s : Hart) m :
  (forall m r, val (s <| h_mem := m |>) r = val s r) ->
  foldl (fun s ro => sw (val s ro.1) ro.2 s) (s <| h_mem := m |>) tbl =
    s <| h_mem := store_table (h_sp s) ((fun ro => (ro.2, val s ro.1)) <$> tbl) m |>.
Proof.
  intros Hval. revert m. induction tbl as [|[r off] tbl IH]; intros m; [done|].
  cbn [foldl fst snd fmap list_fmap]. rewrite Hval.
  assert (sw (val s r) off (s <| h_mem := m |>) = s <| h_mem := store32 (h_sp s + off) (val s r) m |>) as -> by done.
  by rewrite IH.
Qed.

(** The registers a sequence of lw leaves. *)
Definition loaded {A} `{EqDecision A} (s : Hart) (tbl : list (A * Z)) (g : A -> Z) : A -> Z :=
  foldl (fun g ro => upd_reg ro.1 (lw ro.2 s) g) g tbl.

Lemma foldl_lw tbl (s : Hart) :
  foldl (fun s ro => s <| xr ::= upd_reg ro.1 (lw ro.2 s) |>) s tbl = s <| xr ::= loaded s tbl |>.
Proof.
  revert s. induction tbl as [|[r off] tbl IH]; intros s; [by destruct s|].
  cbn [foldl]. rewrite IH. by destruct s.
Qed.

Lemma foldl_flw tbl (s : Hart) :
  foldl (fun s ro => s <| fregs ::= upd_reg ro.1 (lw ro.2 s) |>) s tbl = s <| fregs ::= loaded s tbl |>.
Proof.
  revert s. induction tbl as [|[r off] tbl IH]; intros s; [by destruct s|].
  cbn [foldl]. rewrite IH. by destruct s.
Qed.

Lemma loaded_other {A} `{EqDecision A} s (tbl : list (A * Z)) g x : x ∉ tbl.*1 -> loaded s tbl g x = g x.
Proof.
  revert g. induction tbl as [|[y p] tbl IH]; intros g Hni; [done|]. unfold loaded in *. simpl in *.
  apply not_elem_of_cons in Hni as [Hne Hni]. rewrite IH by done. unfold upd_reg. by rewrite decide_False.
Qed.

Lemma loaded_lookup {A} `{EqDecision A} s (tbl : list (A * Z)) g x o :
  NoDup tbl.*1 -> (x, o) ∈ tbl -> loaded s tbl g x = lw o s.
Proof.
  revert g. induction tbl as [|[y p] tbl IH]; intros g Hnd Hin; [by apply elem_of_nil in Hin|].
  apply NoDup_cons in Hnd as [Hni Hnd].
  apply elem_of_cons in Hin as [[= -> ->]|Hin]; [|by apply (IH (upd_reg y (lw p s) g))].
  change (loaded s ((y, p) :: tbl) g y) with (loaded s tbl (upd_reg y (lw p s) g) y).
  rewrite loaded_other by done. unfold upd_reg. by rewrite decide_True.
Qed.

(** The words of a saved context, by offset. *)
Definition context_words (flen : bool) (s : Hart) (pc mstatus : Z) : list (Z * Z) :=
  ((fun ro => (ro.2, xr s ro.1)) <$> frame_offsets) ++ [(112, pc); (116, mstatus)] ++
  if flen then ((fun ro => (ro.2, fregs s ro.1)) <$> freg_offsets) ++ [(248, h_fcsr s)] else [].

Lemma context_words_offsets flen s pc mst :
  Forall (fun ov => word_offset (FRAME_SIZE flen) ov.1) (context_words flen s pc mst) /\
  NoDup (context_words flen s pc mst).*1.
Proof.
  assert (He : (context_words flen s pc mst).*1 =
    frame_offsets.*2 ++ [112; 116] ++ if flen then freg_offsets.*2 ++ [248] else []).
  { destruct flen; reflexivity. }
  split; [apply (Forall_fmap fst (word_offset (FRAME_SIZE flen)))|]; rewrite He; destruct flen;
    apply (bool_decide_unpack _); vm_compute; reflexivity.
Qed.

Lemma context_words_in flen s pc mst off v :
  (off, v) ∈ context_words flen s pc mst <->
  (exists r, (r, off) ∈ frame_offsets /\ v = xr s r) \/ (off = 112 /\ v = pc) \/ (off = 116 /\ v = mst) \/
  flen = true /\ ((exists i, (i, off) ∈ freg_offsets /\ v = fregs s i) \/ (off = 248 /\ v = h_fcsr s)).
Proof.
  unfold context_words. generalize frame_offsets, freg_offsets. intros tx tf.
  rewrite !elem_of_app, !elem_of_cons, list_elem_of_fmap. split.
  - intros [([r o] & [= -> ->] & Hr)|[[[= -> ->]|[[= -> ->]|Hn]]|Hf]]; [left; by exists r|auto..| |].
    { by apply elem_of_nil in Hn. }
    destruct flen; [|by apply elem_of_nil in Hf].
    apply elem_of_app in Hf as [([i o] & [= -> ->] & Hi)%list_elem_of_fmap|[= -> ->]%list_elem_of_singleton];
      do 3 right; (split; [done|]); [left; by exists i|by right].
  - intros [(r & Hr & ->)|[[-> ->]|[[-> ->]|[-> Hf]]]]; [left; by exists (r, off)|right; left; auto..|].
    right. right. rewrite elem_of_app, list_elem_of_fmap, list_elem_of_singleton.
    destruct Hf as [(i & Hi & ->)|[-> ->]]; [left; by exists (i, off)|by right].
Qed.

(** Where the task goes on after the trap. *)
Definition resume_pc (s : Hart) : option Z :=
  if Z.testbit (h_mcause s) 31 then Some (h_mepc s)
  else if (h_mcause s =? 11) || (h_mcause s =? 8) then Some (u32 (h_mepc s + 4)) else None.

Lemma store_table_app base l1 l2 m : store_table base (l1 ++ l2) m = store_table base l2 (store_table base l1 m).
Proof. apply foldl_app. Qed.

Lemma save_fregs_spec s m :
  exists s', save_fregs (s <| h_mem := m |>) = s' /\ h_sp s' = h_sp s /\
    h_mem s' = store_table (h_sp s)
      (((fun ro => (ro.2, fregs s ro.1)) <$> freg_offsets) ++ [(248, h_fcsr s)]) m.
Proof.
  eexists. split; [reflexivity|]. unfold save_fregs. set (s1 := s <| h_mstatus ::= Z.lor (Z.shiftl 3 13) |>).
  change (s <| h_mem := m |> <| h_mstatus ::= Z.lor (Z.shiftl 3 13) |>) with (s1 <| h_mem := m |>).
  rewrite (foldl_sw (fun s => fregs s)) by done. split; [done|]. rewrite store_table_app. done.
Qed.

Lemma save_context_spec flen s :
  FRAME_SIZE flen <= h_sp s < 2 ^ 32 ->
  match resume_pc s with
  | None => save_context flen s = None
  | Some pc => exists s', save_context flen s = Some s' /\ h_sp s' = h_sp s - FRAME_SIZE flen /\
      h_mem s' = store_table (h_sp s - FRAME_SIZE flen) (context_words flen s pc (h_mstatus s)) (h_mem s)
  end.
Proof.
  intros Hsp. unfold save_context, resume_pc.
  assert (Hu : u32 (h_sp s - FRAME_SIZE flen) = h_sp s - FRAME_SIZE flen).
  { apply Z.mod_small. destruct flen; simpl in *; lia. }
  set (s0 := s <| h_sp ::= fun sp => u32 (sp - FRAME_SIZE flen) |>).
  assert (Hs0 : s0 = s0 <| h_mem := h_mem s |>) by by destruct s.
  rewrite Hs0, (foldl_sw (fun s => xr s)) by done.
  set (l := (fun ro : xreg * Z => (ro.2, xr s0 ro.1)) <$> frame_offsets).
  assert (Hgen : forall pc, exists s', 
    Some (let s1 := sw (h_mstatus s) 116 (sw pc 112 (s0 <| h_mem := store_table (h_sp s0) l (h_mem s) |>)) in
          if flen then save_fregs s1 else s1) = Some s' /\ h_sp s' = h_sp s - FRAME_SIZE flen /\
    h_mem s' = store_table (h_sp s - FRAME_SIZE flen) (context_words flen s pc (h_mstatus s)) (h_mem s)).
  { intros pc. eexists. split; [reflexivity|]. cbv zeta. rewrite <-Hu. unfold context_words.
    rewrite !store_table_app. destruct flen; [|split; reflexivity].
    change (sw (h_mstatus s) 116 _) with (s0 <| h_mem :=
      store_table (h_sp s0) [(112, pc); (116, h_mstatus s)] (store_table (h_sp s0) l (h_mem s)) |>).
    edestruct (save_fregs_spec s0) as (s' & -> & Hsp' & Hm'). rewrite Hm'. split; [done|].
    by rewrite store_table_app. }
  change (h_mcause (s0 <| h_mem := _ |>)) with (h_mcause s).
  destruct (Z.testbit (h_mcause s) 31); [apply (Hgen (h_mepc s))|].
  destruct ((h_mcause s =? 11) || (h_mcause s =? 8)); [apply (Hgen (u32 (h_mepc s + 4)))|done].
Qed.

Lemma frame_offsets_nodup : NoDup frame_offsets.*1.
Proof. apply (bool_decide_unpack _). vm_compute. reflexivity. Qed.
Lemma freg_offsets_nodup : NoDup freg_offsets.*1.
Proof. apply (bool_decide_unpack _). vm_compute. reflexivity. Qed.
Lemma frame_offsets_all r : r <> X_gp -> r <> X_tp -> exists off, (r, off) ∈ frame_offsets.
Proof. intros Hg Ht. destruct r; try done; eexists; unfold frame_offsets; repeat (first [by left|right]). Qed.
Lemma frame_offsets_not r : r = X_gp \/ r = X_tp -> r ∉ frame_offsets.*1.
Proof. intros [-> | ->]; apply (bool_decide_unpack _); vm_compute; reflexivity. Qed.
Lemma freg_offsets_all i : 0 <= i < 32 -> (i, 120 + 4 * i) ∈ freg_offsets.
Proof.
  intros Hi. apply list_elem_of_fmap. exists i. split; [done|]. apply elem_of_seqZ. lia.
Qed.

(** What a hart with the registers [g] holds once the context at [sp] is restored. *)
Record restored (user flen : bool) (sp : Z) (m : Mem) (g : xreg -> Z) (s : Hart) : Prop := Restored {
  rs_xr : forall r off, (r, off) ∈ frame_offsets -> xr s r = load32 (sp + off) m;
  rs_kept : forall r, r = X_gp \/ r = X_tp -> xr s r = g r;
  rs_pc : h_pc s = load32 (sp + 112) m;
  rs_mstatus : h_mstatus s = mret_mstatus user
    (if flen then Z.lor (Z.shiftl 3 13) (load32 (sp + 116) m) else load32 (sp + 116) m);
  rs_fregs : flen = true -> forall i, 0 <= i < 32 -> fregs s i = load32 (sp + (120 + 4 * i)) m;
  rs_fcsr : flen = true -> h_fcsr s = load32 (sp + 248) m;
  rs_sp : h_sp s = u32 (sp + FRAME_SIZE flen);
  rs_mem : h_mem s = m }.

Lemma restore_context_spec user flen sp s :
  restored user flen sp (h_mem s) (xr s) (restore_context user flen sp s).
Proof.
  unfold restore_context, restore_fregs. rewrite foldl_lw. destruct flen; [rewrite foldl_flw|].
  - split; try done.
    + intros r off Hr. exact (loaded_lookup _ frame_offsets (xr s) r off frame_offsets_nodup Hr).
    + intros r Hr. exact (loaded_other _ frame_offsets (xr s) r (frame_offsets_not r Hr)).
    + intros _ i Hi.
      exact (loaded_lookup _ freg_offsets (fregs s) i (120 + 4 * i) freg_offsets_nodup (freg_offsets_all i Hi)).
  - split; try done.
    + intros r off Hr. exact (loaded_lookup _ frame_offsets (xr s) r off frame_offsets_nodup Hr).
    + intros r Hr. exact (loaded_other _ frame_offsets (xr s) r (frame_offsets_not r Hr)).
Qed.

(** Interrupts are on after a trap and its mret exactly if they were on before it. *)
Lemma trap_mret_mie (user flen : bool) v :
  Z.testbit (mret_mstatus user (if flen then Z.lor (Z.shiftl 3 13) (u32 (trap_mstatus v)) else u32 (trap_mstatus v))) 3 =
  Z.testbit v 3.
Proof.
  assert (Hret : forall w, Z.testbit (mret_mstatus user w) 3 = Z.testbit w 7).
  { intros w. unfold mret_mstatus. rewrite !Z.lor_spec, Z.ldiff_spec.
    change (Z.testbit 0x1888 3) with true. change (Z.testbit 0x80 3) with false.
    rewrite andb_false_r. by destruct (Z.testbit w 7), user. }
  assert (Htrap : Z.testbit (u32 (trap_mstatus v)) 7 = Z.testbit v 3).
  { unfold wrap. rewrite Z.mod_pow2_bits_low by lia. unfold trap_mstatus. rewrite !Z.lor_spec, Z.ldiff_spec.
    change (Z.testbit 0x1888 7) with true. rewrite andb_false_r. by destruct (Z.testbit v 3). }
  rewrite Hret. destruct flen; [|done]. rewrite Z.lor_spec, Htrap. reflexivity.
Qed.

(** The words of a hart are 32 bits wide. *)
Definition word_sized (s : Hart) : Prop :=
  (forall r, 0 <= xr s r < 2 ^ 32) /\ (forall i, 0 <= fregs s i < 2 ^ 32) /\ 0 <= h_fcsr s < 2 ^ 32 /\
  0 <= h_pc s < 2 ^ 32.

(** The TCB at [t] has its first word outside the frame below [sp]. *)
Definition tcb_apart (flen : bool) (t : addr) (sp : Z) : Prop :=
  0 <= t /\ (t + 4 <= sp - FRAME_SIZE flen \/ sp <= t).

(** What restoring the task at [t] gives back of [s], to go on at [pc]; [s2] is the hart that does
    it, which has the task's context of [s1] in its memory. *)
Definition given_back (user flen : bool) (t : addr) (pc : Z) (s s1 s2 : Hart) : Prop :=
  (forall x, h_sp s1 <= x < h_sp s \/ t <= x < t + 4 -> h_mem s2 x = h_mem s1 x) ->
  let s3 := restore_riscv_task user flen t s2 in
  (forall r, r <> X_gp -> r <> X_tp -> xr s3 r = xr s r) /\
  xr s3 X_gp = xr s2 X_gp /\ xr s3 X_tp = xr s2 X_tp /\
  (flen = true -> (forall i, 0 <= i < 32 -> fregs s3 i = fregs s i) /\ h_fcsr s3 = h_fcsr s) /\
  h_pc s3 = pc /\ h_sp s3 = h_sp s /\
  Z.testbit (h_mstatus s3) 3 = Z.testbit (h_mstatus s) 3 /\ h_mem s3 = h_mem s2.

(** Restoring the frame that was saved of [s], to go on at [pc]. *)
Lemma saved_frame_restored (user flen : bool) cause (s s1 s2 : Hart) pc t :
  word_sized s -> FRAME_SIZE flen <= h_sp s < 2 ^ 32 -> 0 <= pc < 2 ^ 32 -> tcb_apart flen t (h_sp s) ->
  let s0 := trap_entry cause s in
  h_sp s1 = h_sp s - FRAME_SIZE flen ->
  h_mem s1 = store_table (h_sp s - FRAME_SIZE flen) (context_words flen s0 pc (h_mstatus s0)) (h_mem s0) ->
  let s1 := do_switch (Some t) s1 in
  load32 t (h_mem s1) = h_sp s1 /\
  (forall x, ~ h_sp s1 <= x < h_sp s -> ~ t <= x < t + 4 -> h_mem s1 x = h_mem s x) /\
  given_back user flen t pc s s1 s2.
Proof.
  intros (Hxr & Hfr & Hfc & Hpc) Hsp Hpcr [Ht0 Ht] s0 Hsp1 Hm1 s1'.
  assert (Hfs : 0 <= FRAME_SIZE flen) by by destruct flen.
  set (sp := h_sp s - FRAME_SIZE flen) in *.
  assert (Hsp' : h_sp s1' = sp) by exact Hsp1.
  assert (Hm' : h_mem s1' = store32 t (h_sp s1) (h_mem s1)) by reflexivity.
  assert (Hout : forall x, ~ t <= x < t + 4 -> h_mem s1' x = h_mem s1 x).
  { intros x Hx. rewrite Hm'. apply store_le_out. lia. }
  assert (Hword1 : load32 t (h_mem s1') = sp).
  { rewrite Hm', Hsp1. rewrite (load_store_same 4 t sp). apply Z.mod_small. unfold sp. simpl. lia. }
  destruct (context_words_offsets flen s0 pc (h_mstatus s0)) as [Hoff Hnd].
  unfold given_back. rewrite Hsp'. split; [done|]. split.
  { intros x Hx Hxt. rewrite Hout, Hm1 by done. apply (store_table_out _ _ _ _ (FRAME_SIZE flen)); [done|lia]. }
  intros Hmem. set (s3 := restore_riscv_task user flen t s2).
  assert (Hsp2 : load32 t (h_mem s2) = sp).
  { rewrite <-Hword1. apply load_le_ext. intros x Hx. apply Hmem. right. simpl in Hx. lia. }
  assert (Hs3 : s3 = restore_context user flen sp s2) by (unfold s3, restore_riscv_task; by rewrite Hsp2).
  pose proof (restore_context_spec user flen sp s2) as [Rx Rk Rpc Rms Rf Rc Rsp Rm].
  rewrite <-Hs3 in Rx, Rk, Rpc, Rms, Rf, Rc, Rsp, Rm.
  assert (Hword : forall off v, (off, v) ∈ context_words flen s0 pc (h_mstatus s0) ->
    load32 (sp + off) (h_mem s2) = u32 v).
  { intros off v Hin. pose proof (proj1 (Forall_forall _ _) Hoff _ Hin) as [_ Hr]. simpl in Hr.
    rewrite <-(load_store_table sp _ (h_mem s0) off v (FRAME_SIZE flen) Hoff Hnd Hin), <-Hm1.
    apply load_le_ext. intros x Hx. rewrite Hmem by (left; simpl in Hx; lia). apply Hout. simpl in Hx. lia. }
  setoid_rewrite context_words_in in Hword. split_and!.
  - intros r Hg Htp. destruct (frame_offsets_all r Hg Htp) as [off Hr]. rewrite (Rx r off Hr), (Hword off (xr s r)).
    + apply Z.mod_small, Hxr.
    + left. by exists r.
  - apply Rk. by left.
  - apply Rk. by right.
  - intros Hfl. split.
    + intros i Hi. rewrite (Rf Hfl i Hi), (Hword _ (fregs s i)); [apply Z.mod_small, Hfr|].
      do 3 right. split; [done|]. left. exists i. split; [by apply freg_offsets_all|done].
    + rewrite (Rc Hfl), (Hword 248 (h_fcsr s)); [by apply Z.mod_small|]. do 3 right. split; [done|]. by right.
  - rewrite Rpc, (Hword 112 pc); [by apply Z.mod_small|]. right. by left.
  - rewrite Rsp. unfold sp. rewrite Z.sub_add. apply Z.mod_small. lia.
  - rewrite Rms, (Hword 116 (h_mstatus s0)).
    + apply (trap_mret_mie user flen (h_mstatus s)).
    + right. right. by left.
  - done.
Qed.

(** The trap handler leaves gp and tp alone. *)
Lemma foldl_sw_kept {A} (val : Hart -> A -> Z) (tbl : list (A * Z)) (s : Hart) :
  xr (foldl (fun s ro => sw (val s ro.1) ro.2 s) s tbl) = xr s.
Proof. revert s. induction tbl as [|ro tbl IH]; intros s; [done|]. cbn [foldl]. by rewrite IH. Qed.

Lemma save_fregs_kept s : xr (save_fregs s) = xr s.
Proof.
  unfold save_fregs. generalize freg_offsets. intros tbl. cbv zeta.
  set (s1 := s <| h_mstatus ::= _ |>). change (xr (foldl (fun s ro => sw (fregs s ro.1) ro.2 s) s1 tbl) = xr s1).
  apply (foldl_sw_kept (fun s => fregs s)).
Qed.

Lemma save_context_kept flen s s1 : save_context flen s = Some s1 -> xr s1 = xr s.
Proof.
  unfold save_context. generalize frame_offsets. intros tbl. cbv zeta. set (s' := s <| h_sp ::= _ |>).
  pose proof (foldl_sw_kept (fun s => xr s) tbl s') as H0. set (s0 := foldl _ _ _) in *.
  destruct (Z.testbit _ _); [|destruct (_ || _); [|done]]; intros [= <-]; destruct flen;
    rewrite ?save_fregs_kept; exact H0.
Qed.

(** C24: a trap is lossless.  Whatever interrupt or ecall stops a task (whose TCB is outside the
    frame), the trap handler saves its context below its stack pointer and the new stack pointer
    in the first word of its TCB.  Once the handler restores that task, as long as those words
    were left alone, ra, t0 - t6, s0 - s11, a0 - a7, with floating point every f register and fcsr,
    and the stack pointer are back, interrupts are on again exactly if they were, and the task goes
    on where it was stopped, or behind the ecall instruction.  gp and tp, which are not in the
    frame, are neither changed by saving nor by restoring.  The handler only writes the frame and
    that word; every exception but ecall makes it wait for ever. *)
Theorem riscv_context_roundtrip (user flen : bool) cause t (s s2 : Hart) :
  word_sized s -> FRAME_SIZE flen <= h_sp s < 2 ^ 32 -> 0 <= cause < 2 ^ 32 -> tcb_apart flen t (h_sp s) ->
  match trap_save flen (Some t) (trap_entry cause s) with
  | None => Z.testbit cause 31 = false /\ cause <> 8 /\ cause <> 11
  | Some s1 =>
      h_sp s1 = h_sp s - FRAME_SIZE flen /\ load32 t (h_mem s1) = h_sp s1 /\
      xr s1 X_gp = xr s X_gp /\ xr s1 X_tp = xr s X_tp /\
      (forall x, ~ h_sp s1 <= x < h_sp s -> ~ t <= x < t + 4 -> h_mem s1 x = h_mem s x) /\
      given_back user flen t (if Z.testbit cause 31 then h_pc s else u32 (h_pc s + 4)) s s1 s2
  end.
Proof.
  intros Hw Hsp Hcause Ht. set (s0 := trap_entry cause s). unfold trap_save.
  pose proof (save_context_spec flen s0 Hsp) as Hsave. unfold resume_pc in Hsave.
  change (h_mcause s0) with cause in Hsave. change (h_mepc s0) with (h_pc s) in Hsave.
  change (h_sp s0) with (h_sp s) in Hsave.
  assert (Hgo : forall s1 pc, save_context flen s0 = Some s1 -> 0 <= pc < 2 ^ 32 ->
    h_sp s1 = h_sp s - FRAME_SIZE flen ->
    h_mem s1 = store_table (h_sp s - FRAME_SIZE flen) (context_words flen s0 pc (h_mstatus s0)) (h_mem s0) ->
    let s1 := do_switch (Some t) s1 in
    h_sp s1 = h_sp s - FRAME_SIZE flen /\ load32 t (h_mem s1) = h_sp s1 /\
    xr s1 X_gp = xr s X_gp /\ xr s1 X_tp = xr s X_tp /\
    (forall x, ~ h_sp s1 <= x < h_sp s -> ~ t <= x < t + 4 -> h_mem s1 x = h_mem s x) /\
    given_back user flen t pc s s1 s2).
  { intros s1 pc Hs1 Hpc Hsp1 Hm1 s1'. pose proof (save_context_kept _ _ _ Hs1) as Hx.
    destruct (saved_frame_restored user flen cause s s1 s2 pc t Hw Hsp Hpc Ht Hsp1 Hm1) as (H1 & H2 & H3).
    fold s1' in H1, H2, H3. split_and!; [done|done| | |done|done]; change (xr s1') with (xr s1); by rewrite Hx. }
  destruct (Z.testbit cause 31).
  - destruct Hsave as (s1 & Hs1 & Hsp1 & Hm1). rewrite Hs1. apply Hgo; try done. apply Hw.
  - destruct (_ || _) eqn:Hc.
    + destruct Hsave as (s1 & Hs1 & Hsp1 & Hm1). rewrite Hs1. apply Hgo; try done. apply Z.mod_pos_bound. lia.
    + rewrite Hsave. apply orb_false_iff in Hc as [H1 H2]. apply Z.eqb_neq in H1, H2. done.
Qed.

(** ** Starting tasks *)

(** The struct of port_cpu.c is what the assembly expects. *)
Lemma frame_layout flen :
  sizeof 4 (RiscV32StackFrame flen) = FRAME_SIZE flen /\
  offsetof 4 (RiscV32StackFrame flen) F_mepc = 112 /\ offsetof 4 (RiscV32StackFrame flen) F_mstatus = 116 /\
  Forall (fun ro => offsetof 4 (RiscV32StackFrame flen) (F_x ro.1) = ro.2) frame_offsets.
Proof. destruct flen; split_and!; try reflexivity; apply (bool_decide_unpack _); vm_compute; reflexivity. Qed.

Lemma load_le_fill n a base size m :
  base <= a -> a + Z.of_nat n <= base + size -> load_le n a (mem_fill base size 0 m) = 0.
Proof.
  revert a. induction n as [|n IH]; intros a Ha Hend; [done|].
  change (mem_fill base size 0 m a + Z.shiftl (load_le n (a + 1) (mem_fill base size 0 m)) 8 = 0).
  rewrite IH by lia. unfold mem_fill. rewrite (proj2 (Z.leb_le _ _)), (proj2 (Z.ltb_lt _ _)) by lia. done.
Qed.

Lemma frame_offsets_bounds flen : Forall (fun ro => 0 <= ro.2 <= FRAME_SIZE flen - 4) frame_offsets.
Proof. destruct flen; apply (bool_decide_unpack _); vm_compute; reflexivity. Qed.

(** The frame of a task that was not started yet. *)
Lemma stack_init_spec flen top limit entry param m :
  0 <= top < 2 ^ 32 -> FRAME_SIZE flen < 8 * (top / 8) ->
  let f := 8 * (top / 8) - FRAME_SIZE flen in
  exists m', sertos_port_stack_init flen (Some top) limit entry param m = (Some f, m') /\
    load32 (f + 112) m' = u32 (uintptr entry) /\ load32 (f + 116) m' = initial_mstatus flen /\
    forall r off, (r, off) ∈ frame_offsets ->
      load32 (f + off) m' = if decide (r = X_a0) then u32 (uintptr param) else 0.
Proof.
  intros Htop Hsize f. unfold sertos_port_stack_init. destruct (frame_layout flen) as (Hsz & Hepc & Hst & Hx).
  rewrite Hsz. destruct (frame_base_spec 32 top (FRAME_SIZE flen)) as [-> Hle]; [lia|done|by split; [destruct flen|lia]|].
  fold f. unfold of_uintptr. destruct (Z.eqb_spec f 0); [lia|]. eexists. split; [done|].
  set (l := [_; _; _]). set (m0 := mem_fill _ _ _ _).
  assert (Hwrap : forall v, u32 (u32 v) = u32 v) by (intros v; apply Z.mod_mod; lia).
  assert (Hget := fun g Hg => get_assign 4 (RiscV32StackFrame flen) f l m0 g Hg). unfold get_field in Hget.
  split_and!.
  - rewrite <-Hepc. rewrite Hget; [|by destruct flen; apply (bool_decide_unpack _); vm_compute].
    simpl. apply Hwrap.
  - rewrite <-Hst. rewrite Hget; [|by destruct flen; apply (bool_decide_unpack _); vm_compute].
    by destruct flen.
  - intros r off Hr. pose proof (proj1 (Forall_forall _ _) Hx _ Hr) as Hoff. simpl in Hoff. rewrite <-Hoff.
    assert (Hin : F_x r ∈ RiscV32StackFrame flen).
    { unfold RiscV32StackFrame. apply elem_of_app. left. apply list_elem_of_fmap. exists r. split; [done|].
      change xregs with frame_offsets.*1. apply list_elem_of_fmap. by exists (r, off). }
    rewrite (Hget _ Hin). unfold l. cbn [reverse rev_append]. 
    destruct (decide (r = X_a0)) as [->|Hne].
    + simpl. apply Hwrap.
    + simpl. rewrite !decide_False by congruence. simpl.
      pose proof (proj1 (Forall_forall _ _) (frame_offsets_bounds flen) _ Hr) as Hb. cbn [snd] in Hb.
      apply load_le_fill; rewrite Hoff; lia.
Qed.

(** The smallest stack the kernel accepts, 256 bytes, has no room for a floating-point frame unless it
    is 8-byte aligned: the frame starts below the stack. *)
Lemma minimal_stack_underflows base limit entry param m :
  256 < base -> base + 256 < 2 ^ 32 -> base mod 8 <> 0 ->
  exists f m', sertos_port_stack_init true (Some (8 * ((base + 256) / 8))) limit entry param m = (Some f, m') /\
    f < base.
Proof.
  intros Hb Hend Hodd. set (top := 8 * ((base + 256) / 8)).
  pose proof (Z.div_mod (base + 256) 8 ltac:(lia)). pose proof (Z.mod_pos_bound (base + 256) 8 ltac:(lia)).
  pose proof (Z.div_mod base 8 ltac:(lia)).
  assert (Hm : (base + 256) mod 8 = base mod 8) by (rewrite <-(Z.mod_add base 32 8) by lia; f_equal; lia).
  assert (Ht : 8 * (top / 8) = top) by (unfold top; rewrite (Z.mul_comm 8 ((base + 256) / 8)), Z.div_mul by lia; lia).
  pose proof (Z.mod_pos_bound base 8 ltac:(lia)).
  destruct (stack_init_spec true top limit entry param m) as (m' & He & _); [unfold top; lia|rewrite Ht; simpl; lia|].
  rewrite Ht in He. exists (top - FRAME_SIZE true), m'. split; [exact He|]. simpl FRAME_SIZE. lia.
Qed.

Section start.
Context `{PL : Platform} `{!PlatformLaws} `{!Callbacks}.

(** C26: a task created on RISC-V before the scheduler runs, with a stack that has room for the frame
    between its base and its 8-byte-aligned top (every accepted stack has on a hart without
    floating point), starts right.  The first restore of its context, by the trap handler or, for
    the first task, by sertos_port_start_first_task, reads the stack pointer in its TCB and enters
    its entry function with the parameter in a0, ra, t0 - t6, s0 - s11 and a1 - a7 zero, gp and tp
    as they were, interrupts on and sp at the 8-byte-aligned top of its stack. *)
Theorem created_riscv_task_starts fuel user flen trap_handler k V t cfg ts rs base :
  platform_port = riscv_ops fuel user flen trap_handler ->
  kernel_ok k V -> outside V t -> detached V FRegistry t -> valid_config cfg ->
  s_is_running k = false -> V (LReady (cfg_priority cfg)) = Some ts -> V LRegistry = Some rs ->
  cfg_stack_buffer cfg = Some base -> 0 < base -> base + cfg_stack_size cfg < 2 ^ 32 ->
  base + FRAME_SIZE flen <= 8 * ((base + cfg_stack_size cfg) / 8) ->
  exists k', exec (sertos_task_create_static (Some cfg) (Some t) true) k =
      Some ((SERTOS_STATUS_OK, Some t), k') /\
    forall s c, (forall x, base <= x < base + cfg_stack_size cfg -> h_mem s x = mem k' x) ->
      load32 t (h_mem s) = uintptr (stack_ptr (tcbs k' t)) ->
      let s' := restore_riscv_task user flen t s in
      RiscV.sertos_port_start_first_task user flen trap_handler t s c = (s', c <| mtvec := trap_handler |>) /\
      h_pc s' = u32 (uintptr (cfg_entry_func cfg)) /\ xr s' X_a0 = u32 (uintptr (cfg_param cfg)) /\
      (forall r, r <> X_a0 -> r <> X_gp -> r <> X_tp -> xr s' r = 0) /\
      xr s' X_gp = xr s X_gp /\ xr s' X_tp = xr s X_tp /\ Z.testbit (h_mstatus s') 3 = true /\
      h_sp s' = 8 * ((base + cfg_stack_size cfg) / 8) /\ h_sp s' mod 8 = 0.
Proof.
  intros Hport Hk Hout Hreg Hcfg Hrun Hts Hrs Hbuf Hb Hend Hroom.
  assert (Hsize : 256 <= cfg_stack_size cfg) by by apply valid_config_size.
  destruct (create_static_exec k V t cfg ts rs) as (k' & pc & He & _ & _ & Ht & _ & Hm); [done..|].
  exists k'. split; [done|]. intros s c Hmem Htcb s'. split; [done|].
  assert (stack_ptr (tcbs k' t) = (initial_frame (mem k) cfg).1) as Hp by by rewrite Ht.
  assert (Hfs : 0 <= FRAME_SIZE flen) by by destruct flen.
  destruct (aligned_top_bounds base (cfg_stack_size cfg)) as [Htop Hlo]; [lia|lia|].
  unfold initial_frame in Hm, Hp. rewrite Hbuf in Hm, Hp. cbn [uintptr] in Hm, Hp.
  rewrite stack_top_of_spec in Hm, Hp by (by rewrite Hport || lia).
  set (top := 8 * ((base + cfg_stack_size cfg) / 8)) in *.
  unfold of_uintptr in Hm, Hp. destruct (Z.eqb_spec top 0); [lia|].
  destruct (stack_init_spec flen top (Some base) (cfg_entry_func cfg) (cfg_param cfg) (painted (mem k) cfg))
    as (m' & Hinit & Hepc & Hst & Hregs); [lia|rewrite Htop; lia|].
  rewrite Htop in *. set (f := top - FRAME_SIZE flen) in *.
  assert (Hinit' : sertos_port_stack_init flen (Some top) (Some base) (cfg_entry_func cfg) (cfg_param cfg)
    (painted (mem k) cfg) = (Some f, m')) by exact Hinit.
  rewrite Hport in Hm, Hp. cbn [Platform.sertos_port_stack_init riscv_ops] in Hm, Hp.
  rewrite Hinit' in Hm, Hp. cbn [fst snd] in Hm, Hp.
  unfold s', restore_riscv_task. rewrite Htcb, Hp. cbn [uintptr].
  destruct (restore_context_spec user flen f s) as [Rx Rk Rpc Rms _ _ Rsp _].
  assert (Hword : forall off, 0 <= off <= FRAME_SIZE flen - 4 -> load32 (f + off) (h_mem s) = load32 (f + off) m').
  { intros off Hoff. apply load_le_ext. intros x Hx. rewrite <-Hm. apply Hmem. unfold f in *. lia. }
  assert (Hx : forall r, r <> X_gp -> r <> X_tp -> xr (restore_context user flen f s) r =
    if decide (r = X_a0) then u32 (uintptr (cfg_param cfg)) else 0).
  { intros r Hg Htp. destruct (frame_offsets_all r Hg Htp) as [off Hr]. rewrite (Rx r off Hr), <-(Hregs r off Hr).
    apply Hword. exact (proj1 (Forall_forall _ _) (frame_offsets_bounds flen) _ Hr). }
  assert (Hroom' : 128 <= FRAME_SIZE flen) by by destruct flen.
  split_and!.
  - rewrite Rpc, <-Hepc. apply Hword. lia.
  - rewrite Hx by done. by rewrite decide_True.
  - intros r Hne Hg Htp. rewrite Hx by done. by rewrite decide_False.
  - apply Rk. by left.
  - apply Rk. by right.
  - rewrite Rms, Hword, Hst by lia. destruct flen, user; reflexivity.
  - rewrite Rsp. unfold f. rewrite Z.sub_add. apply Z.mod_small. lia.
  - rewrite Rsp. unfold f. rewrite Z.sub_add. unfold wrap. rewrite (Z.mod_small top) by lia.
    unfold top. rewrite Z.mul_comm. by apply Z.mod_mul.
Qed.
End start.
