(* ===== verification/PortScenarios.v ===== *)
(** Concrete kernels on the ports, and the witnesses of the ports' properties. *)
From S2P Require Import Prelude Effects Types Platform PortFrame PortCritical CortexM LinkedLists Kernel.
From S2P Require Import Invariant RefPlatform KernelCheck SchedCore TaskInfo Stats Timer Scheduler Task Sem.
From S2P Require Import SchedulerSpec BlockSpec TaskSpec Scenarios CortexPorts CortexProps RiscV RiscVProps.
From S2P Require CortexM4.

(** Memory full of zeros on a port in its reset state. *)
Definition blank_on (PO : PortOps) (s : @PortState PO) : @Kernel (with_port (ref_platform false) PO) :=
  @mkKernel (with_port (ref_platform false) PO)
    (mkListHeap (fun _ => mkNode None None) (fun _ => 0))
    (fun _ => blank_tcb) (fun _ => mkSem 0 0 false 0) (fun _ => mkMutex None 0 0 false 0)
    (fun _ => mkTimer None 0 0 false false None None false 0)
    (fun _ => mkQueue rb_zero 0 0 None false 0) (fun _ => mkStream rb_zero 0 None false 0)
    (fun _ => 0) (mkRefPool [] 64) s
    (fun _ => false, 0) None false 0 false 0 0 false None None false false 0.

Definition idle_callbacks (PL : Platform) : @Callbacks PL :=
  {| call_hook := fun _ => mret tt; call_timer_callback := fun _ _ _ => mret tt |}.

#[local] Existing Instance idle_callbacks.
#[local] Instance on_port_laws PO : @PlatformLaws (with_port (ref_platform false) PO) :=
  with_port_laws _ _ (ref_platform_laws false).

(** The idle task, A of priority 3 and C of priority 5; C runs, sleeps for a tick, and A, which
    runs meanwhile, locks the scheduler. *)
Section scenario.
Context (PO : PortOps) (s : @PortState PO).
#[local] Hint Extern 0 Platform => exact (with_port (ref_platform false) PO) : typeclass_instances.
#[local] Hint Extern 0 Callbacks => exact (idle_callbacks (with_port (ref_platform false) PO)) : typeclass_instances.

Definition create_on (t p stack : Z) : M Kernel unit :=
  sertos_task_create_static (Some (task_config p stack)) (Some t) true;; mret tt.
Definition ready_on : Kernel := after (sertos_scheduler_init;; create_on tA 3 0x8000) (blank_on PO s).
Definition locked_on : Kernel :=
  after (sertos_scheduler_init;; create_on tA 3 0x8000;; create_on tC 5 0x8200;; sertos_scheduler_start;;
    sertos_scheduler_delay 1;; sertos_scheduler_perform_switch;; sertos_scheduler_lock) (blank_on PO s).
End scenario.

Definition cortex_reset : CortexM :=
  mkCortexM 0 (fun _ => 0) [] (fun n => Z.of_nat n * 100) 0 0 false.
Abbreviation m4_ops := (cortex_ops M4).
Definition m4_ready := ready_on m4_ops cortex_reset.
Definition m4_locked := locked_on m4_ops cortex_reset.

Definition riscv_reset : RiscV :=
  mkRiscV 0x1800 0 0 (fun n => 1000 + Z.of_nat n) 0 0xFFFFFFFF 0xFFFFFFFF [] (fun n => Z.of_nat n) 0 0 None 0 0 0.
Abbreviation rv_ops := (riscv_ops 2 false false 0x400).
Definition rv_ready := ready_on rv_ops riscv_reset.
Definition rv_locked := locked_on rv_ops riscv_reset.

(** ** Critical sections *)

(** On every Cortex-M core and on RISC-V, code that pairs its calls of
    [sertos_port_enter_critical] and [sertos_port_exit_critical], nested as deep as it likes,
    leaves the interrupt mask register and the depth counter exactly as it found them, and
    whatever runs between the two calls of a pair starts with interrupts masked. *)
Theorem critical_sections_nest :
  (forall c, let _ := core_port c in forall n f (s : CortexM), balanced n f -> consistent s ->
     nesting s + Z.of_nat n < 2 ^ 32 -> nesting (f s) = nesting s /\ mask (f s) = mask s /\
     primask (snd (core_enter_critical s)) = 1) /\
  (forall n f (s : RiscV), balanced n f -> consistent s -> nesting s + Z.of_nat n < 2 ^ 32 ->
     nesting (f s) = nesting s /\ mask (f s) = mask s /\
     Z.testbit (mstatus (snd (RiscV.sertos_port_enter_critical s))) 3 = false).
Proof.
  split.
  - intros c P n f s Hf Hc Hn. pose proof (@core_critical_laws _ (core_port_laws c)) as L.
    destruct (balanced_restores n f s Hf Hc Hn) as (_ & Hn' & Hm'). split; [done|]. split; [done|].
    destruct (enter_law s) as (_ & He & _). exact He.
  - intros n f s Hf Hc Hn. destruct (balanced_restores n f s Hf Hc Hn) as (_ & Hn' & Hm').
    split; [done|]. split; [done|]. 
    change (Z.testbit (Z.ldiff (mstatus s) 8) 3 = false). rewrite Z.ldiff_spec. apply andb_false_r.
Qed.

(** ** Ticks under a locked scheduler *)

Definition m4_tick : M (@Kernel (with_port (ref_platform false) m4_ops)) unit :=
  @CortexM4.SysTick_Handler _ (idle_callbacks (with_port (ref_platform false) m4_ops)).
Definition rv_tick : M (@Kernel (with_port (ref_platform false) rv_ops)) ptr :=
  sertos_riscv_trap_handler (ref_platform false) 2 false false 0x400
    (idle_callbacks (with_port (ref_platform false) rv_ops)) 0x80000007 0x8E00.

(** A tick that wakes a task of higher priority while the running task A holds the
    scheduler lock.  On Cortex-M the tick only notes that a switch is due and PendSV is not
    requested, so A goes on.  On RISC-V the timer trap ends in
    [sertos_scheduler_perform_switch], which does not look at the lock: the woken task C runs
    although A holds it. *)
Theorem riscv_tick_switches_under_lock :
  (sertos_current_tcb m4_locked = Some tA /\ s_lock_nesting m4_locked = 1 /\
   exists k', exec m4_tick m4_locked = Some (tt, k') /\ sertos_current_tcb k' = Some tA /\
     s_reschedule_pending k' = true /\ mmio_writes (port k') = mmio_writes (port m4_locked)) /\
  (sertos_current_tcb rv_locked = Some tA /\ s_lock_nesting rv_locked = 1 /\
   exists k', exec rv_tick rv_locked = Some (Some tC, k') /\ sertos_current_tcb k' = Some tC /\
     state (tcbs k' tC) = SERTOS_TASK_STATE_RUNNING /\ state (tcbs k' tA) = SERTOS_TASK_STATE_READY /\
     s_lock_nesting k' = 1).
Proof.
  split; (split; [vm_compute; reflexivity|]); (split; [vm_compute; reflexivity|]).
  - exists (after m4_tick m4_locked). split; [apply exec_after; vm_compute; reflexivity|]. vm_compute. by split_and!.
  - exists (after rv_tick rv_locked). split; [apply exec_after; vm_compute; reflexivity|]. vm_compute. by split_and!.
Qed.

(** ** Witnesses *)

Lemma m4_ready_ok : kernel_ok m4_ready (view_of v_ready).
Proof. check_kernel. Qed.
Lemma rv_ready_ok : kernel_ok rv_ready (view_of v_ready).
Proof. check_kernel. Qed.

(** B of priority 3, with its stack at 0x8100. *)
Abbreviation cfgB := (task_config 3 0x8100).

Lemma created_task_starts_witness :
  exists k', exec (@sertos_task_create_static (with_port (ref_platform false) m4_ops) (Some cfgB) (Some tB) true) m4_ready =
      Some ((SERTOS_STATUS_OK, Some tB), k') /\
    forall code s, code = @core_svc (core_port M4) \/ code = @core_restore (core_port M4) ->
      restoring k' tB s ->
      let s' := exception_return (run_code code s) in
      m_pc s' = u32 (uintptr (cfg_entry_func cfgB)) /\ m_xpsr s' = CORTEX_M_DEFAULT_XPSR /\
      gr s' R0 = u32 (uintptr (cfg_param cfgB)) /\ gr s' LR = 0 /\ m_primask s' = 0 /\
      m_psp s' = 8 * ((0x8100 + cfg_stack_size cfgB) / 8).
Proof.
  apply (created_task_starts M4 m4_ready (view_of v_ready) tB cfgB [tA] [idle; tA] 0x8100).
  - reflexivity.
  - apply m4_ready_ok.
  - split; apply detached_check, (bool_decide_eq_true_1 _); vm_compute; reflexivity.
  - apply detached_check, (bool_decide_eq_true_1 _); vm_compute; reflexivity.
  - split; [done|]. split; [reflexivity|done].
  - vm_compute; reflexivity.
  - vm_compute; reflexivity.
  - vm_compute; reflexivity.
  - reflexivity.
  - done.
  - done.
Defined.

(** A task at 0x200 with its own number in every register, floating-point state in use and PSP at
    0x9004, which is not 8-byte aligned. *)
Definition a_task : Machine :=
  mkMachine (fun r => Z.of_nat (areg_index r)) (fun j => 100 + j mod 64) 0x9004 0 2 0 0x200 0x01000000 (fun _ => 0)
    (fun _ => 0x9000 - 104 - 100) (Some 0x4000) None.
Abbreviation exc_fpu := 0xFFFFFFED.
Definition a_switch : Machine := run_code (@core_save (core_port M4)) (exception_entry exc_fpu a_task).

Lemma context_switch_roundtrip_witness :
  let s3 := exception_return (run_code (@core_restore (core_port M4)) a_switch) in
  (forall r, gr s3 r = gr a_task r) /\ m_pc s3 = m_pc a_task /\ m_xpsr s3 = m_xpsr a_task /\
  m_psp s3 = m_psp a_task /\
  (stacks_fpu exc_fpu = true -> forall j, 0 <= j <= 32 -> fr s3 j = fr a_task j) /\
  m_primask s3 = 0 /\ m_mem s3 = m_mem a_switch /\
  (forall x, ~ tcb_in a_switch 0 <= x < m_psp a_task -> m_mem a_switch x = m_mem a_task x).
Proof.
  apply (context_switch_roundtrip M4 exc_fpu a_task a_switch).
  - split; [intros []; vm_compute; by split|]. split; [|vm_compute; by split].
    intros j. simpl. pose proof (Z.mod_pos_bound j 64). lia.
  - vm_compute; by split.
  - vm_compute; reflexivity.
  - vm_compute; by split.
  - by eexists.
  - done.
  - left. apply (bool_decide_eq_true_1 _). vm_compute. reflexivity.
  - vm_compute; reflexivity.
  - done.
Defined.

Lemma tick_init_exact_witness :
  @core_tick_init (core_port M4) 1000 cortex_reset =
    if decide (0 < 1000 /\ 0 < 25000000 / 1000 <= 2 ^ 24)
    then (SERTOS_STATUS_OK, foldl (fun s w => mmio_write w.1 w.2 s) cortex_reset
      [(CORTEX_M_SHPR3, Z.lor (mmio cortex_reset CORTEX_M_SHPR3) 0x00FF0000);
       (CORTEX_M_SYSTICK_LOAD, 25000000 / 1000 - 1); (CORTEX_M_SYSTICK_VAL, 0); (CORTEX_M_SYSTICK_CTRL, 7)])
    else (SERTOS_STATUS_ERROR_INVALID_PARAM, cortex_reset).
Proof. apply (tick_init_exact M4 1000 cortex_reset). lia. Defined.

Lemma timer_armed_exactly_witness :
  exists i c' low1 low2, arm_timer 2 riscv_reset = Some c' /\ (0 < i < 0 + 5)%nat /\
    let next := u64 (mtime riscv_reset i + s_tick_cycles riscv_reset) in
    comparator c' = next /\ 0 <= low1 < 2 ^ 32 /\ 0 <= low2 < 2 ^ 32 /\
    mtimecmp_trace c' =
      mtimecmp_trace riscv_reset ++ [Z.shiftl 0xFFFFFFFF 32 + low1; Z.shiftl 0xFFFFFFFF 32 + low2; next] /\
    c' = riscv_reset <| mtime_reads := mtime_reads c' |> <| mtimecmp_h := mtimecmp_h c' |>
           <| mtimecmp_l := mtimecmp_l c' |> <| mtimecmp_trace := mtimecmp_trace c' |>.
Proof.
  apply (timer_armed_exactly 2 riscv_reset); [lia| |vm_compute; reflexivity|vm_compute; by split].
  intros i j Hij. simpl. lia.
Defined.

(** The same task on a hart with floating point, stopped by the timer with interrupts on. *)
Definition a_hart : Hart := mkHart (fun _ => 5) 0x9000 (fun i => 9) 3 0x200 0 0 0x8 (fun _ => 0).
Abbreviation timer_cause := 0x80000007.
Definition a_trap : Hart :=
  match trap_save true (Some 0xA000) (trap_entry timer_cause a_hart) with Some s => s | None => a_hart end.

Lemma riscv_context_roundtrip_witness :
  match trap_save true (Some 0xA000) (trap_entry timer_cause a_hart) with
  | None => Z.testbit timer_cause 31 = false /\ timer_cause <> 8 /\ timer_cause <> 11
  | Some s1 =>
      h_sp s1 = h_sp a_hart - FRAME_SIZE true /\ load32 0xA000 (h_mem s1) = h_sp s1 /\
      xr s1 X_gp = xr a_hart X_gp /\ xr s1 X_tp = xr a_hart X_tp /\
      (forall x, ~ h_sp s1 <= x < h_sp a_hart -> ~ 0xA000 <= x < 0xA000 + 4 -> h_mem s1 x = h_mem a_hart x) /\
      given_back false true 0xA000 (if Z.testbit timer_cause 31 then h_pc a_hart else u32 (h_pc a_hart + 4)) a_hart s1 a_trap
  end.
Proof.
  apply (riscv_context_roundtrip false true timer_cause 0xA000 a_hart a_trap).
  - split; [intros r; vm_compute; by split|]. split; [intros i; vm_compute; by split|]. vm_compute. by split.
  - vm_compute. by split.
  - lia.
  - split; [lia|]. right. vm_compute. discriminate.
Defined.

Lemma created_riscv_task_starts_witness :
  exists k', exec (@sertos_task_create_static (with_port (ref_platform false) rv_ops) (Some cfgB) (Some tB) true) rv_ready =
      Some ((SERTOS_STATUS_OK, Some tB), k') /\
    forall s c, (forall x, 0x8100 <= x < 0x8100 + cfg_stack_size cfgB -> h_mem s x = mem k' x) ->
      load32 tB (h_mem s) = uintptr (stack_ptr (tcbs k' tB)) ->
      let s' := restore_riscv_task false false tB s in
      RiscV.sertos_port_start_first_task false false 0x400 tB s c = (s', c <| mtvec := 0x400 |>) /\
      h_pc s' = u32 (uintptr (cfg_entry_func cfgB)) /\ xr s' X_a0 = u32 (uintptr (cfg_param cfgB)) /\
      (forall r, r <> X_a0 -> r <> X_gp -> r <> X_tp -> xr s' r = 0) /\
      xr s' X_gp = xr s X_gp /\ xr s' X_tp = xr s X_tp /\ Z.testbit (h_mstatus s') 3 = true /\
      h_sp s' = 8 * ((0x8100 + cfg_stack_size cfgB) / 8) /\ h_sp s' mod 8 = 0.
Proof.
  apply (created_riscv_task_starts 2 false false 0x400 rv_ready (view_of v_ready) tB cfgB [tA] [idle; tA] 0x8100).
  - reflexivity.
  - apply rv_ready_ok.
  - split; apply detached_check, (bool_decide_eq_true_1 _); vm_compute; reflexivity.
  - apply detached_check, (bool_decide_eq_true_1 _); vm_compute; reflexivity.
  - split; [done|]. split; [reflexivity|done].
  - vm_compute; reflexivity.
  - vm_compute; reflexivity.
  - vm_compute; reflexivity.
  - reflexivity.
  - done.
  - done.
  - done.
Defined.

Lemma critical_sections_nest_witness :
  let _ := core_port M4 in
  nesting (inside (inside (fun s => s)) cortex_reset) = nesting cortex_reset /\
  mask (inside (inside (fun s => s)) cortex_reset) = mask cortex_reset /\
  primask (snd (core_enter_critical cortex_reset)) = 1.
Proof.
  apply (proj1 critical_sections_nest M4 2%nat (inside (inside (fun s => s))) cortex_reset).
  - do 2 apply balanced_inside. by apply balanced_plain.
  - by split.
  - reflexivity.
Defined.
