(* ===== verification/HostPort.v ===== *)
(** What the POSIX and the Windows simulator ports share: the simulated stack frame, the static
    pool of context descriptors, and threads. *)
From S2P Require Import Prelude Types Platform PortFrame.

Inductive host_slot : Type :=
  | P_r4 | P_r5 | P_r6 | P_r7 | P_r8 | P_r9 | P_r10 | P_r11
  | P_r0 | P_r1 | P_r2 | P_r3 | P_r12 | P_lr | P_pc | P_psr.
#[export] Instance host_slot_eq_dec : EqDecision host_slot.
Proof. solve_decision. Defined.

(** Pointers of [bytes] bytes. *)
Definition host_frame : list host_slot :=
  [P_r4; P_r5; P_r6; P_r7; P_r8; P_r9; P_r10; P_r11; P_r0; P_r1; P_r2; P_r3; P_r12; P_lr; P_pc; P_psr].
Definition host_fields (entry param : ptr) : list (host_slot * Z) :=
  [(P_r4, 0x04040404); (P_r5, 0x05050505); (P_r6, 0x06060606); (P_r7, 0x07070707);
   (P_r8, 0x08080808); (P_r9, 0x09090909); (P_r10, 0x10101010); (P_r11, 0x11111111);
   (P_r0, uintptr param); (P_r1, 0); (P_r2, 0); (P_r3, 0); (P_r12, 0); (P_lr, 0);
   (P_pc, uintptr entry); (P_psr, 0x01000000)].
Definition host_stack_init (bytes : nat) (stack_top stack_limit entry param : ptr) (m : Mem) : ptr * Mem :=
  match stack_top with
  | None => (None, m)
  | Some top =>
      let frame := frame_base (8 * Z.of_nat bytes) top (sizeof bytes host_frame) in
      (of_uintptr frame, assign bytes host_frame frame (host_fields entry param) m)
  end.

Definition host_tick_init (tick_rate_hz : Z) : SertosStatus :=
  if 0 <? tick_rate_hz then SERTOS_STATUS_OK else SERTOS_STATUS_ERROR_INVALID_PARAM.

(** Threads are numbered; a thread that runs a task knows its context by its index in the pool. *)
Abbreviation tid := Z.

(** The pool search of [sertos_port_task_create_hook]. *)
Fixpoint first_free {C} (in_use : C -> bool) (l : list C) : option nat :=
  match l with
  | [] => None
  | c :: l => if in_use c then S <$> first_free in_use l else Some O
  end.

Lemma first_free_spec {C} (in_use : C -> bool) l :
  match first_free in_use l with
  | Some i => (exists c, l !! i = Some c /\ in_use c = false) /\
              forall j c, (j < i)%nat -> l !! j = Some c -> in_use c = true
  | None => forall c, c ∈ l -> in_use c = true
  end.
Proof.
  induction l as [|c l IH]; simpl; [by intros c Hc%elem_of_nil|].
  destruct (in_use c) eqn:Hc.
  - destruct (first_free in_use l) as [i|]; simpl.
    + destruct IH as [Hi Hlow]. split; [done|]. intros [|j] c' Hj Hl; [by simplify_eq/=|]. apply (Hlow j); [lia|done].
    + intros c' [->|Hc']%elem_of_cons; [done|]. by apply IH.
  - split; [by exists c|]. intros j c' Hj. lia.
Qed.
