(* ===== verification/Posix.v ===== *)
(** The POSIX simulator port (src/port/posix/): every task runs in a thread of its own, and the
    contexts in a static pool say whose turn it is.

    [Posix] holds the statics of port_posix.c, the kernel fields the port uses ([current_tcb] is
    sertos_current_tcb, [port_context] and [tcb_state] are fields of the TCBs) and the threads.
    A function that takes [self] is run by that thread.

    Cancellation is deferred: a request acts in [pthread_cond_wait], [pthread_join] and
    [usleep].  The mutex s_yield_mutex is only held between blocking points, except by a thread
    that was cancelled in [pthread_cond_wait], which takes it again and ends with it:
    [s_yield_mutex] is the thread that did. *)
From S2P Require Import Prelude Effects Types Platform PortFrame HostPort Kernel.
From S2P Require Import Scheduler.

(** ** State *)

Record PortPosixContext : Type := mkPosixContext {
  thread : tid;
  signaled : bool;
  ctx_tcb : ptr;
  in_use : bool }.
#[export] Instance PortPosixContext_eta : Eta PortPosixContext := fun c =>
  mkPosixContext (thread c) (signaled c) (ctx_tcb c) (in_use c).

(** What a task's thread does. *)
Inductive thread_state : Type :=
  | Starts (tcb : ptr)   (** about to enter port_task_wrapper *)
  | WaitsForStart        (** in pthread_cond_wait of port_task_wrapper *)
  | Executes             (** runs task or kernel code *)
  | WaitsForTurn         (** in pthread_cond_wait of sertos_port_yield *)
  | Joins (tcb : addr) (ctx : nat)   (** in pthread_join of sertos_port_task_delete_hook *)
  | Ended.

Record Posix : Type := mkPosix {
  s_task_contexts : list PortPosixContext;
  s_tls_my_ctx : tid -> option nat;
  s_critical_mutex : option (tid * nat);   (** owner and depth *)
  s_critical_mutex_initialized : bool;
  s_yield_mutex : option tid;
  s_exit_signaled : bool;
  s_tick_thread : tid;
  s_tick_thread_created : bool;
  s_scheduler_running : bool;
  s_running_ctx : option nat;
  current_tcb : ptr;
  port_context : addr -> option nat;
  tcb_state : addr -> SertosTaskState;
  threads : tid -> option thread_state;
  cancelled : tid -> bool;
  next_thread : tid }.
#[export] Instance Posix_eta : Eta Posix := fun p =>
  mkPosix (s_task_contexts p) (s_tls_my_ctx p) (s_critical_mutex p) (s_critical_mutex_initialized p)
    (s_yield_mutex p) (s_exit_signaled p) (s_tick_thread p) (s_tick_thread_created p) (s_scheduler_running p)
    (s_running_ctx p) (current_tcb p) (port_context p) (tcb_state p) (threads p) (cancelled p) (next_thread p).

Definition SERTOS_CONFIG_MAX_TASKS : nat := 32.

(** Before anything ran; thread 0 is the main thread. *)
Definition posix_init : Posix :=
  mkPosix (replicate SERTOS_CONFIG_MAX_TASKS (mkPosixContext 0 false None false)) (fun _ => None) None false
    None false 0 false false None None (fun _ => None) (fun _ => SERTOS_TASK_STATE_READY) (fun _ => None)
    (fun _ => false) 1.

Definition set_ctx (i : nat) (f : PortPosixContext -> PortPosixContext) (p : Posix) : Posix :=
  p <| s_task_contexts ::= alter f i |>.
Definition set_signaled (i : nat) (b : bool) (p : Posix) : Posix :=
  set_ctx i (set signaled (fun _ => b)) p.
Definition set_thread (t : tid) (s : thread_state) (p : Posix) : Posix :=
  p <| threads ::= fun f => <[t := Some s]> f |>.

(** ** Operations *)

Definition sertos_port_tick_clock_hz : Z := 0.

(** [clock_gettime] gives seconds and nanoseconds, or fails. *)
Definition sertos_port_runtime_counter (ts : option (Z * Z)) : Z :=
  match ts with
  | Some (tv_sec, tv_nsec) => u32 (u64 (u64 (tv_sec * 1000000000) + tv_nsec))
  | None => 0
  end.
Definition sertos_port_runtime_counter_init (p : Posix) : Posix := p.

Definition PortStackFrame : list host_slot := host_frame.
Definition sertos_port_stack_init : ptr -> ptr -> ptr -> ptr -> Mem -> ptr * Mem := host_stack_init 8.

Definition init_critical_mutex (p : Posix) : Posix :=
  if s_critical_mutex_initialized p then p
  else p <| s_critical_mutex := None |> <| s_critical_mutex_initialized := true |>.

(** The mutex is recursive; [None] when the thread has to wait for its owner. *)
Definition sertos_port_enter_critical (self : tid) (p : Posix) : option (Z * Posix) :=
  let p := init_critical_mutex p in
  match s_critical_mutex p with
  | None => Some (0, p <| s_critical_mutex := Some (self, 1%nat) |>)
  | Some (owner, depth) =>
      if owner =? self then Some (0, p <| s_critical_mutex := Some (self, S depth) |>) else None
  end.
Definition sertos_port_exit_critical (self : tid) (status : Z) (p : Posix) : Posix :=
  if s_critical_mutex_initialized p then
    match s_critical_mutex p with
    | Some (owner, S (S depth)) =>
        if owner =? self then p <| s_critical_mutex := Some (self, S depth) |> else p
    | Some (owner, _) => if owner =? self then p <| s_critical_mutex := None |> else p
    | None => p
    end
  else p.

Definition sertos_port_tick_init : Z -> SertosStatus := host_tick_init.

(** port_task_wrapper up to its wait, and behind it: the task's function, unless the scheduler
    has stopped, then [sertos_task_delete]. *)
Definition port_task_wrapper (self : tid) (param : ptr) (p : Posix) : Posix :=
  match param with
  | None => set_thread self Ended p
  | Some tcb =>
      match port_context p tcb with
      | None => set_thread self Ended p
      | Some ctx => set_thread self WaitsForStart (p <| s_tls_my_ctx ::= fun f => <[self := Some ctx]> f |>)
      end
  end.

(** The tick thread; [running] is what it successively reads from s_scheduler_running. *)
Fixpoint port_tick_thread_func `{PL : Platform} `{!Callbacks} (running : list bool) : M Kernel unit :=
  match running with
  | true :: running' :: rest =>
      when running' sertos_scheduler_tick;;
      port_tick_thread_func rest
  | _ => mret tt
  end.

(** [created] says whether [pthread_create] succeeds. *)
Definition sertos_port_task_create_hook (created : bool) (tcb : ptr) (p : Posix) : Posix :=
  match tcb with
  | None => p
  | Some t =>
      match first_free in_use (s_task_contexts p) with
      | None => p
      | Some i =>
          let p := set_ctx i (fun c => c <| in_use := true |> <| ctx_tcb := Some t |> <| signaled := false |>) p in
          let p := p <| port_context ::= fun f => <[t := Some i]> f |> in
          if created then
            let new := next_thread p in
            set_thread new (Starts (Some t))
              (set_ctx i (set thread (fun _ => new)) (p <| next_thread ::= Z.add 1 |>))
          else set_ctx i (set in_use (fun _ => false)) (p <| port_context ::= fun f => <[t := None]> f |>)
      end
  end.

(** Up to its wait in [pthread_join], and behind it.  A thread that deletes its own task ends in
    [pthread_join], with the request it has just made. *)
Definition sertos_port_task_delete_hook (self : tid) (tcb : ptr) (p : Posix) : Posix :=
  match tcb with
  | None => p
  | Some t =>
      match port_context p t with
      | None => p
      | Some i =>
          match s_task_contexts p !! i with
          | None => p
          | Some ctx =>
              let p := p <| cancelled ::= fun f => <[thread ctx := true]> f |> in
              if cancelled p self then set_thread self Ended p else set_thread self (Joins t i) p
          end
      end
  end.
Definition delete_hook_end (self : tid) (t : addr) (i : nat) (p : Posix) : Posix :=
  let p := set_ctx i (fun c => c <| in_use := false |> <| ctx_tcb := None |>) p in
  set_thread self Executes (p <| port_context ::= fun f => <[t := None]> f |>).

(** sertos_port_start_first_task up to the wait for the end, and behind it; [created] as above. *)
Definition sertos_port_start_first_task (created : bool) (p : Posix) : Posix :=
  let p := init_critical_mutex p in
  let p := p <| s_exit_signaled := false |> <| s_scheduler_running := true |> in
  let p := if created then p <| s_tick_thread := next_thread p |> <| next_thread ::= Z.add 1 |>
                             <| s_tick_thread_created := true |> else p in
  match current_tcb p with
  | None => p
  | Some t =>
      let p := p <| tcb_state ::= fun f => <[t := SERTOS_TASK_STATE_RUNNING]> f |> in
      let p := p <| s_running_ctx := port_context p t |> in
      match s_running_ctx p with
      | None => p
      | Some c => set_signaled c true p
      end
  end.
Definition start_first_task_end (p : Posix) : Posix :=
  p <| s_scheduler_running := false |> <| s_tick_thread_created := false |>.

(** By the time it returns or waits; a cancelled thread ends where the function sleeps. *)
Definition sertos_port_yield (self : tid) (p : Posix) : Posix :=
  if negb (s_scheduler_running p) then p
  else
    match current_tcb p with
    | None => p
    | Some current =>
        let next_ctx := port_context p current in
        if s_tick_thread_created p && (self =? s_tick_thread p) then
          match next_ctx with
          | None => p
          | Some next =>
              if decide (next_ctx = s_running_ctx p) then p
              else
                let old_ctx := s_running_ctx p in
                let p := p <| s_running_ctx := next_ctx |> in
                let p := match old_ctx with Some old => set_signaled old false p | None => p end in
                set_signaled next true p
          end
        else
          let my_ctx := s_tls_my_ctx p self in
          if negb (bool_decide (my_ctx = None)) && bool_decide (next_ctx = my_ctx)
          then if cancelled p self then set_thread self Ended p else p
          else
            let p := p <| s_running_ctx := next_ctx |> in
            let p := match next_ctx with Some next => set_signaled next true p | None => p end in
            match my_ctx with
            | None => p
            | Some my => set_thread self WaitsForTurn (set_signaled my false p)
            end
    end.

Definition sertos_port_stop_scheduler (p : Posix) : Posix :=
  p <| s_scheduler_running := false |>
    <| s_task_contexts ::= fmap (fun c => if in_use c then c <| signaled := true |> else c) |>
    <| s_exit_signaled := true |>.

(** ** Threads *)

(** What a thread that waits may look at. *)
Definition is_signaled (p : Posix) (c : nat) : bool :=
  match s_task_contexts p !! c with Some ctx => signaled ctx | None => false end.

(** A task's thread or the tick thread. *)
Definition active (p : Posix) (t : tid) : Prop :=
  threads p t = Some Executes \/ (s_tick_thread_created p = true /\ t = s_tick_thread p).

(** One step of the program, up to ticks, deletions and the end of the scheduler: the kernel,
    run by the main thread or by a task's, creates tasks, starts the scheduler and picks the
    current task at any time. *)
Inductive task_step : Posix -> Posix -> Prop :=
  | step_create created t p :
      port_context p t = None -> task_step p (sertos_port_task_create_hook created (Some t) p)
  | step_start created p :
      s_scheduler_running p = false -> s_yield_mutex p = None ->
      task_step p (sertos_port_start_first_task created p)
  | step_dispatch t p : task_step p (p <| current_tcb := t |>)
  | step_begin self tcb p :
      threads p self = Some (Starts tcb) -> s_yield_mutex p = None ->
      task_step p (port_task_wrapper self tcb p)
  | step_first_turn self c p :
      threads p self = Some WaitsForStart -> s_tls_my_ctx p self = Some c -> is_signaled p c = true ->
      cancelled p self = false -> s_yield_mutex p = None -> task_step p (set_thread self Executes p)
  | step_turn self c p :
      threads p self = Some WaitsForTurn -> s_tls_my_ctx p self = Some c ->
      is_signaled p c || negb (s_scheduler_running p) = true ->
      cancelled p self = false -> s_yield_mutex p = None -> task_step p (set_thread self Executes p)
  | step_enter self status p p' :
      active p self -> sertos_port_enter_critical self p = Some (status, p') -> task_step p p'
  | step_exit self status p :
      active p self -> task_step p (sertos_port_exit_critical self status p)
  | step_yield self p :
      threads p self = Some Executes -> s_yield_mutex p = None ->
      task_step p (sertos_port_yield self p).

Inductive step : Posix -> Posix -> Prop :=
  | step_task p p' : task_step p p' -> step p p'
  | step_tick p :
      s_tick_thread_created p = true -> s_yield_mutex p = None ->
      step p (sertos_port_yield (s_tick_thread p) p)
  | step_delete self t p :
      threads p self = Some Executes -> step p (sertos_port_task_delete_hook self (Some t) p)
  | step_cancelled_wait t p :
      threads p t = Some WaitsForStart \/ threads p t = Some WaitsForTurn -> cancelled p t = true ->
      s_yield_mutex p = None -> step p (set_thread t Ended (p <| s_yield_mutex := Some t |>))
  | step_cancelled_join t x i p :
      threads p t = Some (Joins x i) -> cancelled p t = true -> step p (set_thread t Ended p)
  | step_joined self t i ctx p :
      threads p self = Some (Joins t i) -> s_task_contexts p !! i = Some ctx ->
      threads p (thread ctx) = Some Ended -> step p (delete_hook_end self t i p)
  | step_stop p : s_yield_mutex p = None -> step p (sertos_port_stop_scheduler p)
  | step_end p : s_exit_signaled p = true -> step p (start_first_task_end p).

(** What port_posix.c is on Windows, where the simulator is port_windows.c: a port that does
    nothing. *)
Definition dummy_ops (size_bits : Z) : PortOps := {|
  PortState := unit;
  port_host := true;
  port_size_bits := size_bits;
  Platform.sertos_port_stack_init := fun stack_top _ _ _ m => (stack_top, m);
  port_start_first_task := fun s => s;
  port_yield := fun s => s;
  port_enter_critical := fun s => (0, s);
  port_exit_critical := fun _ s => s;
  port_tick_init := fun tick_rate_hz s => (sertos_port_tick_init tick_rate_hz, s);
  port_task_create_hook := fun _ ctx s => (ctx, s);
  port_task_delete_hook := fun _ ctx s => (ctx, s);
  port_stop_scheduler := fun s => s;
  port_runtime_counter := fun _ s => (0, s);
  port_runtime_counter_init := fun s => s |}.
