(* ===== verification/PosixProps.v ===== *)
(** Properties of the POSIX simulator port. *)
From stdpp Require Import relations.
From S2P Require Import Prelude Effects Types Platform PortFrame HostPort Kernel Posix.

Implicit Types (p : Posix) (t : tid) (c : nat).

(** Context [c] belongs to thread [t]. *)
Definition link p c t : Prop :=
  exists ctx, s_task_contexts p !! c = Some ctx /\ in_use ctx = true /\ thread ctx = t.

(** The state between steps, as long as no task is deleted and the tick does not preempt. *)
Record posix_ok p : Prop := Posix_ok {
  po_mutex : s_yield_mutex p = None;
  po_fresh : forall t, next_thread p <= t -> threads p t = None;
  po_tick : s_tick_thread_created p = true -> threads p (s_tick_thread p) = None /\ s_tick_thread p < next_thread p;
  po_thread : forall t s, threads p t = Some s -> exists c, link p c t;
  po_link : forall c t, link p c t ->
    match threads p t with
    | Some (Starts (Some x)) => port_context p x = Some c
    | Some WaitsForStart | Some Executes | Some WaitsForTurn => s_tls_my_ctx p t = Some c
    | _ => False
    end;
  po_context : forall x c, port_context p x = Some c -> exists t, link p c t;
  po_running : forall c, s_running_ctx p = Some c -> exists t, link p c t;
  po_signaled : forall c, is_signaled p c = true <-> s_running_ctx p = Some c;
  po_turn : forall t, threads p t = Some Executes \/ threads p t = Some WaitsForTurn -> s_scheduler_running p = true;
  po_executes : forall t, threads p t = Some Executes -> exists c, link p c t /\ s_running_ctx p = Some c;
  po_off : s_scheduler_running p = false -> s_running_ctx p = None;
  po_cancelled : forall t, cancelled p t = false }.

Lemma link_fun p c t t' : link p c t -> link p c t' -> t = t'.
Proof. intros (ctx & H1 & _ & <-) (ctx' & H2 & _ & <-). congruence. Qed.

Lemma link_set_signaled p i b c t : link (set_signaled i b p) c t <-> link p c t.
Proof.
  unfold link, set_signaled, set_ctx. rsimpl. rewrite list_lookup_alter. case_decide as Hd; [|done]. subst i.
  destruct (s_task_contexts p !! c) as [[]|]; simpl; naive_solver.
Qed.

Lemma is_signaled_set p i b c :
  is_signaled (set_signaled i b p) c =
    if decide (i = c) then bool_decide (is_Some (s_task_contexts p !! c)) && b else is_signaled p c.
Proof.
  unfold is_signaled, set_signaled, set_ctx. rsimpl. rewrite list_lookup_alter. case_decide as Hd; [subst i|done].
  destruct (s_task_contexts p !! c) as [[]|].
  - by rewrite bool_decide_true by (by eexists).
  - by rewrite bool_decide_false by (by intros []).
Qed.

(** A link is to a context that exists. *)
Lemma link_is_Some p c t : link p c t -> bool_decide (is_Some (s_task_contexts p !! c)) = true.
Proof. intros (ctx & -> & _). by apply bool_decide_eq_true. Qed.

Lemma posix_init_ok : posix_ok posix_init.
Proof.
  assert (Hctx : forall c ctx, s_task_contexts posix_init !! c = Some ctx -> ctx = mkPosixContext 0 false None false).
  { intros c ctx Hc. by apply lookup_replicate_1 in Hc as [-> _]. }
  assert (Hfree : forall c t, ~ link posix_init c t).
  { intros c t (ctx & Hc & Hu & _). apply Hctx in Hc. by subst ctx. }
  split; try done.
  - intros c. split; [|done]. unfold is_signaled. destruct (s_task_contexts posix_init !! c) as [ctx|] eqn:Hc; [|done].
    apply Hctx in Hc. by subst ctx.
  - intros t [?|?]; done.
Qed.

(** A thread [t] that is past its start changes its state, and the turn may pass on. *)
Lemma posix_ok_update p q t st :
  posix_ok p -> (forall s, threads p t = Some s -> forall tcb, s <> Starts tcb) -> threads p t <> None ->
  st = WaitsForTurn \/ st = Executes ->
  threads q = <[t := Some st]> (threads p) -> s_tls_my_ctx q = s_tls_my_ctx p -> port_context q = port_context p ->
  s_yield_mutex q = s_yield_mutex p -> next_thread q = next_thread p -> s_tick_thread q = s_tick_thread p ->
  s_tick_thread_created q = s_tick_thread_created p -> s_scheduler_running q = s_scheduler_running p ->
  cancelled q = cancelled p ->
  (forall c, is_signaled q c = true <-> s_running_ctx q = Some c) ->
  (forall c u, link q c u <-> link p c u) ->
  (forall c, s_running_ctx q = Some c -> exists u, link p c u) ->
  (forall u, threads q u = Some Executes -> exists c, link p c u /\ s_running_ctx q = Some c) ->
  s_scheduler_running p = true -> posix_ok q.
Proof.
  intros [Hm Hf Ht Hth Hl Hc Hr Hs Htu He Ho Hcn] Hst Hlive Hcase F1 F2 F3 F4 F5 F6 F7 F8 F9 Hsig Hlink Hrun Hex Hon.
  assert (Hown : exists c, link p c t).
  { destruct (threads p t) as [s|] eqn:Hs'; [|done]. by eapply Hth. }
  split; rewrite ?F2, ?F3, ?F4, ?F5, ?F6, ?F7, ?F8, ?F9; try done.
  - intros u Hu. rewrite F1, fn_lookup_insert_ne; [by apply Hf|]. intros ->. by apply Hlive, Hf.
  - intros Hk. destruct (Ht Hk) as [H1 H2]. split; [|done]. rewrite F1, fn_lookup_insert_ne; [done|]. by intros ->.
  - intros u s Hu. setoid_rewrite Hlink. destruct (decide (t = u)) as [<-|Hne]; [done|].
    rewrite F1, fn_lookup_insert_ne in Hu by done. by eapply Hth.
  - intros c u Hlu%Hlink. rewrite F1. destruct (decide (t = u)) as [<-|Hne]; [|rewrite fn_lookup_insert_ne by done; by apply Hl].
    rewrite fn_lookup_insert. pose proof (Hl c t Hlu) as Hm'. destruct (threads p t) as [s|]; [|done].
    specialize (Hst s eq_refl). destruct s; try done; [|by destruct Hcase as [-> | ->]..]. by destruct (Hst tcb).
  - intros x c Hx. destruct (Hc x c Hx) as [u Hu]. exists u. by apply Hlink.
  - intros c Hc'. destruct (Hrun c Hc') as [u Hu]. exists u. by apply Hlink.
  - intros u Hu. destruct (Hex u Hu) as (c & Hlu & Hc'). exists c. split; [by apply Hlink|done].
  - by rewrite Hon.
Qed.

(** A waiting thread takes its turn. *)
Lemma posix_ok_wake p t c :
  posix_ok p -> threads p t = Some WaitsForStart \/ threads p t = Some WaitsForTurn ->
  s_tls_my_ctx p t = Some c -> is_signaled p c = true -> posix_ok (set_thread t Executes p).
Proof.
  intros Hp Hw Htls Hsig. pose proof Hp as [Hm Hf Ht Hth Hl Hc Hr Hs Htu He Ho Hcn].
  assert (Hlc : link p c t).
  { destruct Hw as [Hw|Hw]; destruct (Hth t _ Hw) as [c' Hl']; pose proof (Hl c' t Hl') as Hm';
      rewrite Hw in Hm'; by simplify_eq. }
  assert (Hon : s_scheduler_running p = true).
  { destruct (s_scheduler_running p) eqn:Hoff; [done|]. apply Hs in Hsig. by rewrite Ho in Hsig. }
  apply (posix_ok_update p _ t Executes); try done.
  - intros s Hst tcb ->. destruct Hw; congruence.
  - destruct Hw; congruence.
  - by right.
  - intros u. unfold set_thread. rsimpl. destruct (decide (t = u)) as [<-|Hne]; [|rewrite fn_lookup_insert_ne by done; apply He].
    intros _. exists c. split; [done|]. by apply Hs.
Qed.

(** What [sertos_port_yield] does to the contexts when a task's thread hands over. *)
Definition pass_turn (my : nat) (next : option nat) (p : Posix) : Posix :=
  let p := p <| s_running_ctx := next |> in
  set_signaled my false (match next with Some n => set_signaled n true p | None => p end).

Lemma pass_turn_facts p x my :
  posix_ok p -> s_running_ctx p = Some my -> port_context p x <> Some my ->
  let q := pass_turn my (port_context p x) p in
  (forall c u, link q c u <-> link p c u) /\
  (forall c, is_signaled q c = true <-> port_context p x = Some c) /\
  threads q = threads p /\ s_tls_my_ctx q = s_tls_my_ctx p /\ port_context q = port_context p /\
  s_yield_mutex q = s_yield_mutex p /\ next_thread q = next_thread p /\ s_tick_thread q = s_tick_thread p /\
  s_tick_thread_created q = s_tick_thread_created p /\ s_scheduler_running q = s_scheduler_running p /\
  cancelled q = cancelled p /\ s_running_ctx q = port_context p x.
Proof.
  intros Hp Hrun Hne q. assert (Hlink : forall c u, link q c u <-> link p c u).
  { intros c u. unfold q, pass_turn. rewrite link_set_signaled. destruct (port_context p x); [|done].
    by rewrite link_set_signaled. }
  assert (Hsig : forall c, is_signaled q c = true <-> port_context p x = Some c).
  { intros c. unfold q, pass_turn. rewrite is_signaled_set. case_decide as Hd.
    - subst c. by rewrite andb_false_r.
    - destruct (port_context p x) as [n|] eqn:Hx.
      + destruct (po_context p Hp x n Hx) as [u Hu]. rewrite is_signaled_set. case_decide as Hd2.
        * subst n. rsimpl. by rewrite (link_is_Some p c u Hu).
        * split; [intros Hc'%(po_signaled p Hp); congruence|intros [= ->]; done].
      + split; [|done]. intros Hc'%(po_signaled p Hp). congruence. }
  unfold q, pass_turn in *. by destruct (port_context p x).
Qed.

(** A thread changes its state within the link to its context. *)
Lemma posix_ok_yield p t : posix_ok p -> threads p t = Some Executes -> posix_ok (sertos_port_yield t p).
Proof.
  intros Hp Hex. pose proof Hp as [Hm Hf Ht Hth Hl Hc Hr Hs Htu He Ho Hcn].
  destruct (He t Hex) as (my & Hmy & Hrun). pose proof (Hl my t Hmy) as Htls. rewrite Hex in Htls.
  assert (Hon : s_scheduler_running p = true) by (apply (Htu t); by left).
  assert (Honly : forall u, threads p u = Some Executes -> u = t).
  { intros u Hu. destruct (He u Hu) as (c & Hlu & Hcu). rewrite Hrun in Hcu. simplify_eq. by eapply link_fun. }
  unfold sertos_port_yield. rewrite Hon. cbn [negb]. destruct (current_tcb p) as [x|]; [|done].
  assert (Htick : s_tick_thread_created p && (t =? s_tick_thread p) = false).
  { destruct (s_tick_thread_created p); [|done]. apply Z.eqb_neq. intros ->. destruct (Ht eq_refl). congruence. }
  rewrite Htick, Htls. rewrite bool_decide_false by done. cbn [negb andb].
  rewrite Hcn. case_bool_decide as Hnext; [done|]. unfold set_thread.
  destruct (pass_turn_facts p x my Hp Hrun Hnext)
    as (Hlink & Hsig & F1 & F2 & F3 & F4 & F5 & F6 & F7 & F8 & F9 & F10).
  set (p2 := pass_turn my (port_context p x) p) in *.
  change (set_signaled my false _) with p2.
  apply (posix_ok_update p _ t WaitsForTurn); try done.
  - intros s Hst tcb ->. congruence.
  - congruence.
  - by left.
  - change (<[t := Some WaitsForTurn]> (threads p2) = <[t := Some WaitsForTurn]> (threads p)). by rewrite F1.
  - intros c. change (is_signaled p2 c = true <-> s_running_ctx p2 = Some c). by rewrite F10.
  - intros c. change (s_running_ctx p2 = Some c -> exists u, link p c u). rewrite F10. apply Hc.
  - intros u. change ((<[t := Some WaitsForTurn]> (threads p2)) u = Some Executes ->
      exists c, link p c u /\ s_running_ctx p2 = Some c). rewrite F1.
    destruct (decide (t = u)) as [<-|Hne]; [by rewrite fn_lookup_insert|]. rewrite fn_lookup_insert_ne by done.
    intros Hu. by destruct (Hne (eq_sym (Honly u Hu))).
Qed.

Lemma posix_ok_begin p t tcb :
  posix_ok p -> threads p t = Some (Starts tcb) -> posix_ok (port_task_wrapper t tcb p).
Proof.
  intros [Hm Hf Ht Hth Hl Hc Hr Hs Htu He Ho Hcn] Hst. destruct (Hth t _ Hst) as [c Hlc].
  pose proof (Hl c t Hlc) as Hx. rewrite Hst in Hx. destruct tcb as [x|]; [|done].
  unfold port_task_wrapper. rewrite Hx. unfold set_thread.
  assert (Hone : forall c', link p c' t -> c' = c).
  { intros c' Hl'. pose proof (Hl c' t Hl') as Hx'. rewrite Hst in Hx'. congruence. }
  split; rsimpl; try done.
  - intros u Hu. rewrite fn_lookup_insert_ne; [by apply Hf|]. intros ->. by rewrite Hf in Hst.
  - intros Hk. destruct (Ht Hk) as [H1 H2]. split; [|done]. rewrite fn_lookup_insert_ne; [done|]. congruence.
  - intros u s. destruct (decide (t = u)) as [<-|Hne]; [by exists c|]. rewrite fn_lookup_insert_ne by done. apply Hth.
  - intros c' u Hlu. destruct (decide (t = u)) as [<-|Hne].
    + rewrite !fn_lookup_insert. by rewrite (Hone c' Hlu).
    + rewrite !fn_lookup_insert_ne by done. by apply Hl.
  - intros u. destruct (decide (t = u)) as [<-|Hne]; [rewrite fn_lookup_insert; intros [?|?]; done|].
    rewrite fn_lookup_insert_ne by done. apply Htu.
  - intros u. destruct (decide (t = u)) as [<-|Hne]; [by rewrite fn_lookup_insert|].
    rewrite fn_lookup_insert_ne by done. apply He.
Qed.

Lemma posix_ok_tcb_state f p : posix_ok p -> posix_ok (p <| tcb_state ::= f |>).
Proof. intros []. by split. Qed.

(** Before the scheduler runs nobody has or waits for a turn, so that any first turn is right. *)
Lemma posix_ok_first_turn p q :
  posix_ok p -> s_scheduler_running p = false ->
  threads q = threads p -> s_tls_my_ctx q = s_tls_my_ctx p -> port_context q = port_context p ->
  s_yield_mutex q = None -> next_thread p <= next_thread q -> s_scheduler_running q = true ->
  cancelled q = cancelled p ->
  (s_tick_thread_created q = true -> threads p (s_tick_thread q) = None /\ s_tick_thread q < next_thread q) ->
  (forall c t, link q c t <-> link p c t) -> (forall c, is_signaled q c = true <-> s_running_ctx q = Some c) ->
  (forall c, s_running_ctx q = Some c -> exists t, link p c t) -> posix_ok q.
Proof.
  intros [Hm Hf Ht Hth Hl Hc Hr Hs Htu He Ho Hcn] Hoff Q1 Q2 Q3 Q4 Q5 Q6 Q7 Q8 QL QS QR.
  assert (Hnoex : forall u, threads p u <> Some Executes).
  { intros u Hu. rewrite (Htu u) in Hoff by (by left). done. }
  split; rewrite ?Q1, ?Q2, ?Q3, ?Q4, ?Q6, ?Q7; try done.
  - intros u Hu. apply Hf. lia.
  - intros u s Hu. setoid_rewrite QL. by eapply Hth.
  - intros c u Hlu%QL. by apply Hl.
  - intros x c Hx. setoid_rewrite QL. by apply (Hc x).
  - intros c Hx. setoid_rewrite QL. by apply QR.
  - intros u Hu. by destruct (Hnoex u).
Qed.

Lemma posix_ok_start p created :
  posix_ok p -> s_scheduler_running p = false -> posix_ok (sertos_port_start_first_task created p).
Proof.
  intros Hp Hoff. pose proof Hp as [Hm Hf Ht Hth Hl Hc Hr Hs Htu He Ho Hcn].
  unfold sertos_port_start_first_task.
  set (p0 := if created then _ else _).
  assert (F : threads p0 = threads p /\ s_tls_my_ctx p0 = s_tls_my_ctx p /\ port_context p0 = port_context p /\
    s_yield_mutex p0 = s_yield_mutex p /\ next_thread p <= next_thread p0 /\ s_scheduler_running p0 = true /\
    cancelled p0 = cancelled p /\ s_running_ctx p0 = s_running_ctx p /\ s_task_contexts p0 = s_task_contexts p /\
    (s_tick_thread_created p0 = true -> threads p (s_tick_thread p0) = None /\ s_tick_thread p0 < next_thread p0) /\
    current_tcb p0 = current_tcb p).
  { subst p0. unfold init_critical_mutex. destruct created, (s_critical_mutex_initialized p); rsimpl;
      split_and!; try done; try lia; intros _; (split; [|lia]); apply Hf; lia. }
  destruct F as (F1 & F2 & F3 & F4 & F5 & F6 & F7 & F8 & F9 & F10 & F11). clearbody p0.
  assert (Hl0 : forall c t, link p0 c t <-> link p c t) by (intros; unfold link; by rewrite F9).
  assert (Hs0 : forall c, is_signaled p0 c = is_signaled p c) by (intros; unfold is_signaled; by rewrite F9).
  assert (Hnone : s_running_ctx p = None) by by apply Ho.
  pose proof (fun q => posix_ok_first_turn p q Hp Hoff) as G.
  destruct (current_tcb p0) as [x|].
  - set (f := fun f => <[x := SERTOS_TASK_STATE_RUNNING]> f). cbv zeta.
    change (port_context (p0 <| tcb_state ::= f |>) x) with (port_context p0 x). rewrite F3.
    destruct (port_context p x) as [c|] eqn:Hx.
    + destruct (Hc x c Hx) as [u Hu].
      cut (posix_ok (set_signaled c true (p0 <| s_running_ctx := Some c |>))); [exact (posix_ok_tcb_state f _)|].
      apply G; try done; unfold set_signaled, set_ctx; rsimpl; try congruence.
      * intros c' t'. rewrite <-Hl0. exact (link_set_signaled (p0 <| s_running_ctx := Some c |>) c true c' t').
      * intros c'. change (is_signaled (set_signaled c true (p0 <| s_running_ctx := Some c |>)) c' = true <-> Some c = Some c').
        rewrite is_signaled_set. case_decide as Hd.
        -- subst c'. rsimpl. rewrite F9, (link_is_Some p c u Hu). done.
        -- change (is_signaled (p0 <| s_running_ctx := Some c |>) c') with (is_signaled p0 c').
           rewrite Hs0. split; [intros Hc'%Hs; congruence|congruence].
      * intros c' [= <-]. by exists u.
    + cut (posix_ok (p0 <| s_running_ctx := None |>)); [exact (posix_ok_tcb_state f _)|]. apply G; try done; rsimpl; try congruence.
      intros c'. change (is_signaled p0 c' = true <-> None = Some c'). rewrite Hs0.
      split; [intros Hc'%Hs; congruence|done].
  - apply G; try done; try congruence.
    intros c'. rewrite Hs0, Hs, F8. done.
Qed.

(** A context that is not in use is nobody's. *)
Lemma free_context p i ctx :
  posix_ok p -> s_task_contexts p !! i = Some ctx -> in_use ctx = false ->
  (forall t, ~ link p i t) /\ (forall y, port_context p y <> Some i) /\ s_running_ctx p <> Some i /\
  signaled ctx = false.
Proof.
  intros [_ _ _ _ _ Hc Hr Hs _ _ _ _] Hi Hu.
  assert (Hni : forall t, ~ link p i t) by (intros t (ctx' & Hi' & Hu' & _); congruence).
  assert (Hnr : s_running_ctx p <> Some i) by (intros Hrun; destruct (Hr i Hrun) as [t Hlt]; by eapply Hni).
  split_and!; try done.
  - intros y Hy. destruct (Hc y i Hy) as [t Hlt]. by eapply Hni.
  - destruct (signaled ctx) eqn:Hsg; [|done]. destruct Hnr. apply Hs. unfold is_signaled. by rewrite Hi.
Qed.

(** A free context that is written but not signaled does not show in [is_signaled]. *)
Lemma is_signaled_free p q i ctx new :
  (forall c, s_task_contexts q !! c = if decide (i = c) then Some new else s_task_contexts p !! c) ->
  s_task_contexts p !! i = Some ctx -> signaled ctx = false -> signaled new = false ->
  forall c, is_signaled q c = is_signaled p c.
Proof.
  intros Hq Hi Hs Hn c. unfold is_signaled. rewrite Hq. case_decide as Hd; [|done]. subst c. by rewrite Hi, Hs, Hn.
Qed.

(** The fields creating a task leaves alone. *)
Definition same_turn p q : Prop :=
  s_tls_my_ctx q = s_tls_my_ctx p /\ s_yield_mutex q = s_yield_mutex p /\ s_running_ctx q = s_running_ctx p /\
  s_scheduler_running q = s_scheduler_running p /\ cancelled q = cancelled p /\
  s_tick_thread q = s_tick_thread p /\ s_tick_thread_created q = s_tick_thread_created p.

(** A free context got a new thread. *)
Lemma posix_ok_new p q i ctx x :
  posix_ok p -> s_task_contexts p !! i = Some ctx -> in_use ctx = false -> port_context p x = None ->
  (forall c, s_task_contexts q !! c = if decide (i = c) then
      Some (mkPosixContext (next_thread p) false (Some x) true) else s_task_contexts p !! c) ->
  threads q = <[next_thread p := Some (Starts (Some x))]> (threads p) ->
  port_context q = <[x := Some i]> (port_context p) -> next_thread q = 1 + next_thread p -> same_turn p q ->
  posix_ok q.
Proof.
  intros Hp Hi Hu Hx Hlook Q1 Q2 Q3 (Q4 & Q5 & Q6 & Q7 & Q8 & Q9 & Q10).
  destruct (free_context p i ctx Hp Hi Hu) as (Hni & Hnx & Hnr & Hsg).
  pose proof (is_signaled_free p q i ctx _ Hlook Hi Hsg eq_refl) as Hsq.
  destruct Hp as [Hm Hf Ht Hth Hl Hc Hr Hs Htu He Ho Hcn].
  assert (Hnew : threads p (next_thread p) = None) by (apply Hf; lia).
  assert (Hlq : forall c t, link q c t <-> if decide (i = c) then t = next_thread p else link p c t).
  { intros c t. unfold link. rewrite Hlook. case_decide; [|done]. simpl. naive_solver. }
  assert (Hkeep : forall c t, link p c t -> link q c t).
  { intros c t Hlt. apply Hlq. rewrite decide_False; [done|]. intros ->. by eapply Hni. }
  assert (Hother : forall t, t <> next_thread p -> threads q t = threads p t).
  { intros t Hne. rewrite Q1. by apply fn_lookup_insert_ne. }
  split; rewrite ?Q4, ?Q5, ?Q6, ?Q7, ?Q8, ?Q9, ?Q10, ?Q3; try done.
  - intros t Ht'. rewrite Hother by lia. apply Hf. lia.
  - intros Hk. destruct (Ht Hk) as [H1 H2]. rewrite Hother by lia. split; [done|lia].
  - intros t s Hts. destruct (decide (t = next_thread p)) as [->|Hne].
    + exists i. apply Hlq. by rewrite decide_True.
    + rewrite Hother in Hts by done. destruct (Hth t s Hts) as [c Hlt]. exists c. by apply Hkeep.
  - intros c t Hlt%Hlq. case_decide as Hd.
    + subst c t. by rewrite Q1, fn_lookup_insert, Q2, fn_lookup_insert.
    + pose proof (Hl c t Hlt) as Hm'. rewrite Hother by (intros ->; by rewrite Hnew in Hm').
      destruct (threads p t) as [[[y|]| | | | |]|]; try done. rewrite Q2, fn_lookup_insert_ne; [done|]. congruence.
  - intros y c. rewrite Q2. destruct (decide (x = y)) as [<-|Hne].
    + rewrite fn_lookup_insert. intros [= <-]. exists (next_thread p). apply Hlq. by rewrite decide_True.
    + rewrite fn_lookup_insert_ne by done. intros Hy. destruct (Hc y c Hy) as [t Hlt]. exists t. by apply Hkeep.
  - intros c Hrc. destruct (Hr c Hrc) as [t Hlt]. exists t. by apply Hkeep.
  - intros c. rewrite Hsq. apply Hs.
  - intros t Ht'. apply (Htu t). destruct (decide (t = next_thread p)) as [->|Hne]; [|by rewrite Hother in Ht'].
    rewrite Q1, fn_lookup_insert in Ht'. by destruct Ht'.
  - intros t Ht'. destruct (decide (t = next_thread p)) as [->|Hne]; [by rewrite Q1, fn_lookup_insert in Ht'|].
    rewrite Hother in Ht' by done. destruct (He t Ht') as (c & Hlt & Hrc). exists c. split; [by apply Hkeep|done].
Qed.

(** A free context was claimed and given back. *)
Lemma posix_ok_unclaimed p q i ctx new :
  posix_ok p -> s_task_contexts p !! i = Some ctx -> in_use ctx = false -> in_use new = false -> signaled new = false ->
  (forall c, s_task_contexts q !! c = if decide (i = c) then Some new else s_task_contexts p !! c) ->
  (forall y, port_context q y = port_context p y) -> threads q = threads p -> next_thread q = next_thread p ->
  same_turn p q -> posix_ok q.
Proof.
  intros Hp Hi Hu Hun Hsn Hlook Q1 Q2 Q3 (Q4 & Q5 & Q6 & Q7 & Q8 & Q9 & Q10).
  destruct (free_context p i ctx Hp Hi Hu) as (Hni & _ & _ & Hsg).
  pose proof (is_signaled_free p q i ctx _ Hlook Hi Hsg Hsn) as Hsq.
  destruct Hp as [Hm Hf Ht Hth Hl Hc Hr Hs Htu He Ho Hcn].
  assert (Hlq : forall c t, link q c t <-> link p c t).
  { intros c t. unfold link at 1. rewrite Hlook. case_decide as Hd; [|done]. subst c.
    split; [|intros Hlt; by destruct (Hni t)]. intros (ctx' & [= <-] & Hu' & _). congruence. }
  split; rewrite ?Q2, ?Q3, ?Q4, ?Q5, ?Q6, ?Q7, ?Q8, ?Q9, ?Q10; try done.
  - intros t s Hts. setoid_rewrite Hlq. by eapply Hth.
  - intros c t Hlt%Hlq. pose proof (Hl c t Hlt) as Hm'. destruct (threads p t) as [[[y|]| | | | |]|]; try done.
    by rewrite Q1.
  - intros y c. rewrite Q1. setoid_rewrite Hlq. apply Hc.
  - intros c. setoid_rewrite Hlq. apply Hr.
  - intros c. rewrite Hsq. apply Hs.
  - intros t. setoid_rewrite Hlq. apply He.
Qed.

Lemma posix_ok_create p created x :
  posix_ok p -> port_context p x = None -> posix_ok (sertos_port_task_create_hook created (Some x) p).
Proof.
  intros Hp Hx. unfold sertos_port_task_create_hook.
  pose proof (first_free_spec in_use (s_task_contexts p)) as Hfree.
  destruct (first_free in_use (s_task_contexts p)) as [i|]; [|done].
  destruct Hfree as [(ctx & Hi & Hu) _].
  assert (Hctx : forall f g (c : nat), (alter f i (alter g i (s_task_contexts p))) !! c =
    if decide (i = c) then Some (f (g ctx)) else s_task_contexts p !! c).
  { intros f g c. destruct (decide (i = c)) as [<-|Hd]; [by rewrite !list_lookup_alter_eq, Hi|by rewrite !list_lookup_alter_ne]. }
  destruct created; unfold set_ctx, set_thread.
  - apply (posix_ok_new p _ i ctx x); try done. intros c. rsimpl. rewrite Hctx. by destruct ctx.
  - apply (posix_ok_unclaimed p _ i ctx (mkPosixContext (thread ctx) false (Some x) false)); try done.
    + intros c. rsimpl. rewrite Hctx. by destruct ctx.
    + intros y. rsimpl. destruct (decide (x = y)) as [<-|Hne]; [by rewrite fn_lookup_insert|].
      by rewrite !fn_lookup_insert_ne.
Qed.

(** The critical section does not show in the invariant. *)
Definition same_but_critical p q : Prop :=
  q = p <| s_critical_mutex := s_critical_mutex q |>
        <| s_critical_mutex_initialized := s_critical_mutex_initialized q |>.

Lemma same_but_critical_refl p : same_but_critical p p.
Proof. by destruct p. Qed.

Lemma posix_enter_same self p status q : sertos_port_enter_critical self p = Some (status, q) -> same_but_critical p q.
Proof.
  unfold sertos_port_enter_critical, init_critical_mutex, same_but_critical.
  destruct p; simpl. repeat case_match; intros [= _ <-]; done.
Qed.

Lemma exit_same self status p : same_but_critical p (sertos_port_exit_critical self status p).
Proof.
  unfold sertos_port_exit_critical, same_but_critical. destruct p; simpl. by repeat case_match.
Qed.

Lemma posix_ok_critical p q : same_but_critical p q -> posix_ok p -> posix_ok q.
Proof. intros -> []. by split. Qed.

Lemma posix_task_step_ok p p' : posix_ok p -> task_step p p' -> posix_ok p'.
Proof.
  intros Hp Hstep. destruct Hstep as [created t p Hx|created p Hoff _|t p|self tcb p Hst _|self c p Hst Htls Hsig _ _|
    self c p Hst Htls Hsig _ _|self status p p' _ He|self status p _|self p Hst _].
  - by apply posix_ok_create.
  - by apply posix_ok_start.
  - destruct Hp. by split.
  - by apply posix_ok_begin.
  - apply (posix_ok_wake p self c); auto.
  - apply (posix_ok_wake p self c); auto. rewrite (po_turn p Hp self) in Hsig by auto. by rewrite orb_false_r in Hsig.
  - eapply posix_ok_critical; [by eapply posix_enter_same|done].
  - eapply posix_ok_critical; [apply exit_same|done].
  - by apply posix_ok_yield.
Qed.

Lemma posix_task_steps_ok p p' : rtc task_step p p' -> posix_ok p -> posix_ok p'.
Proof. induction 1 as [|p1 p2 p3 Hs _ IH]; [done|]. intros Hp. by eapply IH, posix_task_step_ok. Qed.

(** C22: on POSIX, from the start until the scheduler is stopped, as long as no task is deleted and
    the tick thread makes no switch, however the threads interleave, at most one task thread
    executes, and it is the one whose context is selected.  Exactly the selected context is signaled and its thread is not lost: it
    executes, has not begun yet or is waiting with its signal set, ready to go on. *)
Theorem posix_one_task_executes p :
  rtc task_step posix_init p ->
  (forall t t', threads p t = Some Executes -> threads p t' = Some Executes -> t = t') /\
  (forall c, is_signaled p c = true <-> s_running_ctx p = Some c) /\
  (forall c, s_running_ctx p = Some c -> exists t, link p c t /\
     match threads p t with
     | Some Executes => True
     | Some (Starts tcb) => task_step p (port_task_wrapper t tcb p)
     | Some WaitsForStart | Some WaitsForTurn => task_step p (set_thread t Executes p)
     | _ => False
     end).
Proof.
  intros Hr. assert (Hp : posix_ok p).
  { apply (posix_task_steps_ok posix_init); [done|apply posix_init_ok]. }
  clear Hr. destruct Hp as [Hm Hf Ht Hth Hl Hc Hr Hs Htu He Ho Hcn]. split; [|split; [done|]].
  - intros t t' H1 H2. destruct (He t H1) as (c & Hlt & Hrc), (He t' H2) as (c' & Hlt' & Hrc').
    rewrite Hrc in Hrc'. simplify_eq. by eapply link_fun.
  - intros c Hrc. destruct (Hr c Hrc) as [t Hlt]. exists t. split; [done|]. pose proof (Hl c t Hlt) as Hm'.
    pose proof (proj2 (Hs c) Hrc) as Hsig.
    destruct (threads p t) as [[tcb| | | | |]|] eqn:Hst; try done; [by apply step_begin|by eapply step_first_turn|].
    eapply step_turn; try done. by rewrite Hsig.
Qed.

(** ** What the tick and the end of a task break *)

(** Two tasks, 0x4000 in context 0 and 0x4200 in context 1, with threads 1 and 2; the first
    was started and executes, with the tick thread 3 created. *)
Definition posix_two : Posix :=
  let p := sertos_port_task_create_hook true (Some 0x4000) posix_init in
  let p := sertos_port_task_create_hook true (Some 0x4200) p in
  let p := port_task_wrapper 1 (Some 0x4000) p in
  let p := port_task_wrapper 2 (Some 0x4200) p in
  let p := sertos_port_start_first_task true (p <| current_tcb := Some 0x4000 |>) in
  set_thread 1 Executes p.

Lemma posix_two_reachable : rtc task_step posix_init posix_two.
Proof.
  unfold posix_two. eapply rtc_l; [by apply (step_create true 0x4000)|].
  eapply rtc_l; [by apply (step_create true 0x4200)|].
  eapply rtc_l; [by apply (step_begin 1 (Some 0x4000))|].
  eapply rtc_l; [by apply (step_begin 2 (Some 0x4200))|].
  eapply rtc_l; [by apply (step_dispatch (Some 0x4000))|].
  eapply rtc_l; [by apply (step_start true)|].
  eapply rtc_l; [by apply (step_first_turn 1 0%nat)|]. apply rtc_refl.
Qed.

(** A switch made by the tick thread does not stop the preempted task: its thread is not
    told to wait, so after the tick has switched to the second task both threads execute task
    code at the same time. *)
Theorem posix_tick_runs_two_tasks :
  exists p, rtc step posix_init p /\ threads p 1 = Some Executes /\ threads p 2 = Some Executes /\
    is_signaled p 0%nat = false /\ s_running_ctx p = Some 1%nat.
Proof.
  exists (set_thread 2 Executes (sertos_port_yield 3 (posix_two <| current_tcb := Some 0x4200 |>))).
  split; [|vm_compute; by split_and!].
  transitivity posix_two.
  { eapply (rtc_subrel task_step step); [|apply posix_two_reachable]. intros p p'. apply step_task. }
  eapply rtc_l; [by apply step_task, (step_dispatch (Some 0x4200))|].
  eapply rtc_l; [by apply (step_tick (posix_two <| current_tcb := Some 0x4200 |>))|].
  eapply rtc_l; [by apply step_task, (step_first_turn 2 1%nat)|]. apply rtc_refl.
Qed.

(** ** Deleting tasks *)

(** What one step can do to a thread. *)
Inductive thread_step p q t : option thread_state -> option thread_state -> Prop :=
  | thread_same s : thread_step p q t s s
  | thread_begin tcb s : s_yield_mutex p = None -> s = WaitsForStart \/ s = Ended ->
      thread_step p q t (Some (Starts tcb)) (Some s)
  | thread_joined x i s : s = Executes \/ s = Ended -> thread_step p q t (Some (Joins x i)) (Some s)
  | thread_turn s : s = WaitsForStart \/ s = WaitsForTurn -> s_yield_mutex p = None -> cancelled p t = false ->
      thread_step p q t (Some s) (Some Executes)
  | thread_stops s : s = WaitsForTurn \/ s = Ended \/ (exists x i, s = Joins x i) ->
      thread_step p q t (Some Executes) (Some s)
  | thread_cancelled s : s = WaitsForStart \/ s = WaitsForTurn -> s_yield_mutex q = Some t ->
      thread_step p q t (Some s) (Some Ended)
  | thread_new s tcb : next_thread p <= t -> t < next_thread q -> thread_step p q t s (Some (Starts tcb)).

Record step_facts p q : Prop := Step_facts {
  sf_threads : forall t, thread_step p q t (threads p t) (threads q t);
  sf_next : next_thread p <= next_thread q;
  sf_mutex : forall t, s_yield_mutex p = Some t -> s_yield_mutex q = Some t;
  sf_cancelled : forall t, cancelled p t = true -> cancelled q t = true;
  sf_tick : s_tick_thread_created q = true ->
    (s_tick_thread_created p = true /\ s_tick_thread q = s_tick_thread p) \/
    (next_thread p <= s_tick_thread q < next_thread q /\ threads q (s_tick_thread q) = threads p (s_tick_thread q)) }.

(** One thread moves, or none. *)
Lemma step_facts_set p q t s :
  threads q = <[t := Some s]> (threads p) -> next_thread q = next_thread p ->
  (forall u, s_yield_mutex p = Some u -> s_yield_mutex q = Some u) ->
  (forall u, cancelled p u = true -> cancelled q u = true) ->
  s_tick_thread_created q = s_tick_thread_created p -> s_tick_thread q = s_tick_thread p ->
  thread_step p q t (threads p t) (Some s) -> step_facts p q.
Proof.
  intros F1 F2 F3 F4 F5 F6 Ht. split; try done; [|lia|rewrite F5, F6; by left].
  intros u. rewrite F1. destruct (decide (t = u)) as [<-|Hne]; [by rewrite fn_lookup_insert|].
  rewrite fn_lookup_insert_ne by done. constructor.
Qed.
Lemma step_facts_same p q :
  threads q = threads p -> next_thread q = next_thread p -> s_yield_mutex q = s_yield_mutex p ->
  cancelled q = cancelled p ->
  (s_tick_thread_created q = true -> s_tick_thread_created p = true /\ s_tick_thread q = s_tick_thread p) ->
  step_facts p q.
Proof.
  intros F1 F2 F3 F4 F5. split; [|by rewrite F2|by rewrite F3|by rewrite F4|by left; apply F5].
  intros t. rewrite F1. constructor.
Qed.

Lemma set_signaled_threads i b p : threads (set_signaled i b p) = threads p.
Proof. done. Qed.

Lemma yield_tick_facts p :
  s_tick_thread_created p = true -> step_facts p (sertos_port_yield (s_tick_thread p) p).
Proof.
  intros Hk. unfold sertos_port_yield. rewrite Hk, Z.eqb_refl. cbn [andb].
  destruct (negb _), (current_tcb p) as [x|]; try by apply step_facts_same.
  destruct (port_context p x) as [n|]; [|by apply step_facts_same].
  case_decide; [by apply step_facts_same|]. destruct (s_running_ctx p); by apply step_facts_same.
Qed.

Lemma yield_task_facts p t : threads p t = Some Executes -> step_facts p (sertos_port_yield t p).
Proof.
  intros Hex. destruct (s_tick_thread_created p && (t =? s_tick_thread p)) eqn:Hk.
  { apply andb_true_iff in Hk as [Hk ->%Z.eqb_eq]. by apply yield_tick_facts. }
  unfold sertos_port_yield. rewrite Hk. destruct (negb _), (current_tcb p) as [x|]; try by apply step_facts_same.
  destruct (negb (bool_decide (s_tls_my_ctx p t = None)) && bool_decide (port_context p x = s_tls_my_ctx p t)).
  { destruct (cancelled p t) eqn:Hc; [|by apply step_facts_same].
    apply (step_facts_set p _ t Ended); try done. rewrite Hex. constructor. auto. }
  destruct (s_tls_my_ctx p t) as [my|]; [|by destruct (port_context p x); apply step_facts_same].
  apply (step_facts_set p _ t WaitsForTurn); try by destruct (port_context p x).
  rewrite Hex. constructor. auto.
Qed.

Lemma start_projections created p :
  let q := sertos_port_start_first_task created p in
  threads q = threads p /\ next_thread q = (if created then 1 + next_thread p else next_thread p) /\
  s_yield_mutex q = s_yield_mutex p /\ cancelled q = cancelled p /\
  s_tick_thread_created q = (if created then true else s_tick_thread_created p) /\
  s_tick_thread q = (if created then next_thread p else s_tick_thread p).
Proof.
  destruct p; cbv zeta. unfold sertos_port_start_first_task, init_critical_mutex. cbn.
  destruct created, s_critical_mutex_initialized, current_tcb as [x|]; cbn; try done; by destruct (port_context x).
Qed.

Lemma task_step_facts p q : task_step p q -> step_facts p q.
Proof.
  intros Hstep. destruct Hstep as [created x p Hx|created p Hoff _|x p|self tcb p Hst Hm|self c p Hst Htls Hsig Hc Hm|
    self c p Hst Htls Hsig Hc Hm|self status p q _ He|self status p _|self p Hst _].
  - unfold sertos_port_task_create_hook. destruct (first_free in_use (s_task_contexts p)) as [i|]; [|by apply step_facts_same].
    destruct created; [|by apply step_facts_same]. split; try done; [|change (next_thread p <= 1 + next_thread p); lia|by left].
    intros t. match goal with |- thread_step _ ?q _ _ _ => change (thread_step p q t (threads p t) ((<[next_thread p := Some (Starts (Some x))]> (threads p)) t)) end.
    destruct (decide (next_thread p = t)) as [<-|Hne]; [|rewrite fn_lookup_insert_ne by done; constructor].
    rewrite fn_lookup_insert. apply thread_new; [lia|]. change (next_thread p < 1 + next_thread p). lia.
  - destruct (start_projections created p) as (F1 & F2 & F3 & F4 & F5 & F6).
    split; rewrite ?F1, ?F2, ?F5, ?F6; [intros t; constructor|destruct created; lia|by rewrite F3|by rewrite F4|].
    destruct created; [right; split; [lia|done]|by left].
  - by apply step_facts_same.
  - unfold port_task_wrapper. destruct tcb as [x|]; [destruct (port_context p x)|];
      (eapply (step_facts_set p _ self); try done; rewrite Hst; constructor; auto).
  - apply (step_facts_set p _ self Executes); try done. rewrite Hst. constructor; auto.
  - apply (step_facts_set p _ self Executes); try done. rewrite Hst. constructor; auto.
  - pose proof (posix_enter_same self p status q He) as ->. by apply step_facts_same.
  - pose proof (exit_same self status p) as ->. by apply step_facts_same.
  - by apply yield_task_facts.
Qed.

Lemma delete_hook_facts p self x :
  threads p self = Some Executes -> step_facts p (sertos_port_task_delete_hook self (Some x) p).
Proof.
  intros Hex. unfold sertos_port_task_delete_hook. destruct (port_context p x) as [i|]; [|by apply step_facts_same].
  destruct (s_task_contexts p !! i) as [ctx|]; [|by apply step_facts_same]. cbv zeta.
  assert (Hcan : forall u, cancelled p u = true -> (<[thread ctx := true]> (cancelled p)) u = true).
  { intros u Hu. destruct (decide (thread ctx = u)) as [<-|Hne]; [by rewrite fn_lookup_insert|by rewrite fn_lookup_insert_ne]. }
  case_match; (eapply (step_facts_set p _ self); try done; rewrite Hex; constructor; eauto).
Qed.

Lemma step_has_facts p q : step p q -> step_facts p q.
Proof.
  intros Hstep. destruct Hstep as [p q Hstep|p Hk _|self x p Hex|t p Hw Hc Hm|t x i p Hj Hc|self x i ctx p Hj Hctx He|p Hm|p Hx].
  - by apply task_step_facts.
  - by apply yield_tick_facts.
  - by apply delete_hook_facts.
  - apply (step_facts_set p _ t Ended); try done; [intros u Hu; congruence|].
    destruct Hw as [-> | ->]; constructor; auto.
  - apply (step_facts_set p _ t Ended); try done. rewrite Hj. constructor. auto.
  - apply (step_facts_set p _ self Executes); try done. rewrite Hj. constructor. auto.
  - by apply step_facts_same.
  - by apply step_facts_same.
Qed.

(** Threads that do not exist yet. *)
Record fresh_ok p : Prop := Fresh_ok {
  fo_fresh : forall t, next_thread p <= t -> threads p t = None;
  fo_tick : s_tick_thread_created p = true -> s_tick_thread p < next_thread p /\ threads p (s_tick_thread p) = None }.

Lemma thread_step_none p q t s : thread_step p q t None s -> s = None \/ next_thread p <= t < next_thread q.
Proof. inversion 1; auto. Qed.

Lemma step_fresh p q : step_facts p q -> fresh_ok p -> fresh_ok q.
Proof.
  intros [Ht Hn _ _ Hk] [Hf Hft]. split.
  - intros t Hle. pose proof (Ht t) as Hs. rewrite Hf in Hs by lia. apply thread_step_none in Hs as [->|?]; [done|lia].
  - intros Hq. destruct (Hk Hq) as [[Hp ->]|[Hr Heq]].
    + destruct (Hft Hp) as [H1 H2]. split; [lia|]. pose proof (Ht (s_tick_thread p)) as Hs. rewrite H2 in Hs.
      apply thread_step_none in Hs as [->|?]; [done|lia].
    + rewrite Heq. split; [lia|]. apply Hf. lia.
Qed.

(** An invariant of single steps holds along all of them. *)
Lemma steps_keep (I : Posix -> Prop) p q :
  (forall p1 p2, step p1 p2 -> step_facts p1 p2 -> fresh_ok p1 -> I p1 -> I p2) ->
  rtc step p q -> fresh_ok p -> I p -> fresh_ok q /\ I q.
Proof.
  intros HI. induction 1 as [|p1 p2 p3 Hs _ IH]; [done|]. intros Hf Hp. pose proof (step_has_facts _ _ Hs) as Hfacts.
  apply IH; [by eapply step_fresh|by eapply HI].
Qed.

Lemma steps_fresh p q : rtc step p q -> fresh_ok p -> fresh_ok q.
Proof. intros Hq Hp. by destruct (steps_keep (fun _ => True) p q). Qed.

Lemma reach_fresh p : rtc step posix_init p -> fresh_ok p.
Proof. intros Hr. by apply (steps_fresh posix_init). Qed.

(** The thread has a cancellation request that finds it waiting, or a thread has ended with the
    mutex. *)
Definition dying x p : Prop :=
  x < next_thread p /\ cancelled p x = true /\
  (threads p x = Some WaitsForStart \/ threads p x = Some WaitsForTurn \/ exists h, s_yield_mutex p = Some h).

Lemma dying_step x p q : step_facts p q -> dying x p -> dying x q.
Proof.
  intros [Ht Hn Hm Hc _] (Hlt & Hcan & Hw). split; [lia|]. split; [by apply Hc|]. specialize (Ht x).
  destruct Hw as [Hw|[Hw|[h Hh]]]; [..|eauto]; rewrite Hw in Ht; inversion Ht; subst; auto; try congruence; try lia; eauto.
Qed.

(** From [p0] on the mutex is held, and a thread that executes did so before or came back from a
    join. *)
Definition going u p : Prop := threads p u = Some Executes \/ exists x i, threads p u = Some (Joins x i).
Definition no_turns p0 p : Prop :=
  s_yield_mutex p = s_yield_mutex p0 /\ forall u, going u p -> going u p0.

Lemma no_turns_step p0 h p q :
  s_yield_mutex p0 = Some h -> step_facts p q -> no_turns p0 p -> no_turns p0 q.
Proof.
  intros Hh [Ht _ Hm _ _] [Hp Hg]. rewrite Hh in Hp. split; [rewrite Hh; by apply Hm|].
  intros u Hu. apply Hg. specialize (Ht u). unfold going in *.
  destruct Hu as [Hu|(x & i & Hu)]; rewrite Hu in Ht; inversion Ht; subst; eauto; try congruence.
  all: match goal with H : _ \/ _ |- _ => destruct H as [->|[->|(? & ? & ->)]] || destruct H as [-> | ->] end; eauto; congruence.
Qed.

(** Deleting a task whose thread waits, for its start or for its turn, stops the system.
    The thread is cancelled inside [pthread_cond_wait] and ends holding s_yield_mutex: once it
    has ended, and the deleting thread can leave [pthread_join], the mutex stays locked whatever
    happens, and no waiting thread ever gets a turn again. *)
Theorem posix_delete_blocks_turns self t p p1 p2 i ctx :
  rtc step posix_init p -> threads p self = Some Executes ->
  port_context p t = Some i -> s_task_contexts p !! i = Some ctx ->
  threads p (thread ctx) = Some WaitsForStart \/ threads p (thread ctx) = Some WaitsForTurn ->
  rtc step (sertos_port_task_delete_hook self (Some t) p) p1 -> threads p1 (thread ctx) = Some Ended ->
  rtc step p1 p2 ->
  exists holder, s_yield_mutex p1 = Some holder /\ s_yield_mutex p2 = Some holder /\
    forall u, threads p2 u = Some Executes ->
      threads p1 u = Some Executes \/ exists x j, threads p1 u = Some (Joins x j).
Proof.
  intros Hr Hex Hi Hctx Hw Hp1 Hend Hp2. pose proof (reach_fresh p Hr) as Hf.
  assert (Hne : self <> thread ctx) by (intros Heq; rewrite <-Heq in Hw; destruct Hw; congruence).
  set (p' := sertos_port_task_delete_hook self (Some t) p) in *.
  assert (Hf' : fresh_ok p') by (eapply step_fresh; [by apply delete_hook_facts|done]).
  assert (Hd : dying (thread ctx) p').
  { assert (Hlt : thread ctx < next_thread p).
    { destruct (Z.lt_ge_cases (thread ctx) (next_thread p)) as [|Hge]; [done|].
      rewrite (fo_fresh p Hf _ Hge) in Hw. by destruct Hw. }
    subst p'. unfold sertos_port_task_delete_hook. rewrite Hi, Hctx. cbv zeta.
    case_match; (split; [done|]; split; [apply fn_lookup_insert|]);
      unfold set_thread; rsimpl; rewrite fn_lookup_insert_ne by done; destruct Hw; auto. }
  destruct (steps_keep (dying (thread ctx)) p' p1) as [_ (_ & _ & Hm)]; try done.
  { intros q1 q2 _ Hfacts _. by apply dying_step. }
  rewrite Hend in Hm. destruct Hm as [?|[?|[h Hh]]]; [done..|]. exists h. split; [done|].
  destruct (steps_keep (no_turns p1) p1 p2) as [_ [Hm2 Hg]]; try done.
  { intros q1 q2 _ Hfacts _. by apply (no_turns_step p1 h). }
  { by eapply steps_fresh. }
  split; [by rewrite Hm2|]. intros u Hu. apply Hg. by left.
Qed.

(** The thread that owns the critical section has ended. *)
Record orphaned t p : Prop := Orphaned {
  or_mutex : exists d, s_critical_mutex p = Some (t, S d) /\ s_critical_mutex_initialized p = true;
  or_ended : threads p t = Some Ended }.

Lemma posix_orphaned_blocks t p u : orphaned t p -> u <> t -> sertos_port_enter_critical u p = None.
Proof.
  intros [(d & Hm & Hi) _] Hne. unfold sertos_port_enter_critical, init_critical_mutex. rewrite Hi, Hm.
  by rewrite (proj2 (Z.eqb_neq _ _)).
Qed.

(** The critical section changes only when a thread enters or leaves it. *)
Definition critical_of p : option (tid * nat) * bool := (s_critical_mutex p, s_critical_mutex_initialized p).

Lemma critical_of_yield u p : critical_of (sertos_port_yield u p) = critical_of p.
Proof.
  unfold sertos_port_yield. repeat (case_match; try done).
Qed.

Lemma critical_of_step p q :
  step p q -> s_critical_mutex_initialized p = true ->
  critical_of q = critical_of p \/
  exists u status, active p u /\
    (sertos_port_enter_critical u p = Some (status, q) \/ q = sertos_port_exit_critical u status p).
Proof.
  intros Hstep Hi. destruct Hstep as [p q Hstep|p Hk _|self x p Hex|t p Hw Hc Hm|t x i p Hj Hc|self x i ctx p Hj Hctx He|p Hm|p Hx];
    try by left.
  - destruct Hstep as [created x p Hx|created p Hoff _|x p|self tcb p Hst Hm|self c p Hst Htls Hsig Hc Hm|
      self c p Hst Htls Hsig Hc Hm|self status p q Ha He|self status p Ha|self p Hst _]; try by left.
    + left. unfold sertos_port_task_create_hook. destruct (first_free _ _); [|done]. by destruct created.
    + left. unfold sertos_port_start_first_task, init_critical_mutex. rewrite Hi.
      destruct created; cbv zeta; rsimpl; (destruct (current_tcb p) as [x|] eqn:Hx; rewrite ?Hx; [destruct (port_context p x) eqn:Hpx; rsimpl; rewrite ?Hpx|]); done.
    + left. unfold port_task_wrapper. destruct tcb as [x|]; [|done]. by destruct (port_context p x).
    + right. eauto.
    + right. eauto.
    + left. apply critical_of_yield.
  - left. apply critical_of_yield.
  - left. unfold sertos_port_task_delete_hook. destruct (port_context p x) as [i|]; [|done].
    destruct (s_task_contexts p !! i); [|done]. cbv zeta. by case_match.
Qed.

Lemma orphaned_step t p q : step p q -> step_facts p q -> fresh_ok p -> orphaned t p -> orphaned t q.
Proof.
  intros Hstep [Ht _ _ _ _] [Hf Hk] Hor. pose proof Hor as [(d & Hm & Hi) He].
  assert (Hend : threads q t = Some Ended).
  { specialize (Ht t). rewrite He in Ht. inversion Ht; subst; [congruence|naive_solver congruence..|]. by rewrite Hf in He. }
  split; [|done]. exists d.
  destruct (critical_of_step p q Hstep Hi) as [Heq|(u & status & Ha & Hq)].
  - unfold critical_of in Heq. rewrite Hm, Hi in Heq. by injection Heq as -> ->.
  - assert (Hne : u <> t).
    { intros ->. destruct Ha as [Ha|[Hc Ha]]; [congruence|]. destruct (Hk Hc). congruence. }
    destruct Hq as [Hq | ->]; [by rewrite (posix_orphaned_blocks t p u) in Hq|].
    unfold sertos_port_exit_critical. rewrite Hi, Hm. destruct d; by rewrite (proj2 (Z.eqb_neq t u)) by done.
Qed.

(** On POSIX a task that ends, by deleting itself or by returning from its function, stops
    the system.  [sertos_task_delete] calls the delete hook inside its critical section; the
    hook requests the cancellation of the calling thread and then calls [pthread_join], where
    the request acts: the critical section is never left, and no other thread enters it again. *)
Theorem posix_self_delete_locks self t p q i ctx d :
  rtc step posix_init p -> port_context p t = Some i -> s_task_contexts p !! i = Some ctx ->
  thread ctx = self -> threads p self = Some Executes ->
  s_critical_mutex p = Some (self, S d) -> s_critical_mutex_initialized p = true ->
  rtc step (sertos_port_task_delete_hook self (Some t) p) q ->
  threads q self = Some Ended /\ forall u, u <> self -> sertos_port_enter_critical u q = None.
Proof.
  intros Hr Hi Hctx Hself Hex Hm Hinit Hq. pose proof (reach_fresh p Hr) as Hf.
  assert (Hf' : fresh_ok (sertos_port_task_delete_hook self (Some t) p))
    by (eapply step_fresh; [by apply delete_hook_facts|done]).
  destruct (steps_keep (orphaned self) _ q (fun p1 p2 => orphaned_step self p1 p2) Hq Hf') as [_ Hor].
  - unfold sertos_port_task_delete_hook. rewrite Hi, Hctx. cbv zeta. rewrite Hself. rsimpl.
    rewrite fn_lookup_insert. split; [by exists d|]. apply fn_lookup_insert.
  - split; [apply Hor|]. intros u Hne. by apply (posix_orphaned_blocks self).
Qed.

(** ** Witnesses *)

Lemma posix_one_task_executes_witness :
  (forall t t', threads posix_two t = Some Executes -> threads posix_two t' = Some Executes -> t = t') /\
  (forall c, is_signaled posix_two c = true <-> s_running_ctx posix_two = Some c) /\
  (forall c, s_running_ctx posix_two = Some c -> exists t, link posix_two c t /\
     match threads posix_two t with
     | Some Executes => True
     | Some (Starts tcb) => task_step posix_two (port_task_wrapper t tcb posix_two)
     | Some WaitsForStart | Some WaitsForTurn => task_step posix_two (set_thread t Executes posix_two)
     | _ => False
     end).
Proof. exact (posix_one_task_executes posix_two posix_two_reachable). Defined.

Lemma posix_two_steps : rtc step posix_init posix_two.
Proof. eapply (rtc_subrel task_step step); [|apply posix_two_reachable]. intros p p'. apply step_task. Qed.

(** The first task deletes the second, whose thread ends in its wait. *)
Definition posix_deleted : Posix :=
  let p := sertos_port_task_delete_hook 1 (Some 0x4200) posix_two in
  set_thread 2 Ended (p <| s_yield_mutex := Some 2 |>).

Lemma posix_delete_blocks_turns_witness :
  exists holder, s_yield_mutex posix_deleted = Some holder /\ s_yield_mutex posix_deleted = Some holder /\
    forall u, threads posix_deleted u = Some Executes ->
      threads posix_deleted u = Some Executes \/ exists x j, threads posix_deleted u = Some (Joins x j).
Proof.
  apply (posix_delete_blocks_turns 1 0x4200 posix_two posix_deleted posix_deleted 1%nat
    (mkPosixContext 2 false (Some 0x4200) true)).
  - exact posix_two_steps.
  - vm_compute. reflexivity.
  - vm_compute. reflexivity.
  - vm_compute. reflexivity.
  - left. vm_compute. reflexivity.
  - apply rtc_once. apply (step_cancelled_wait 2); [left|..]; vm_compute; reflexivity.
  - vm_compute. reflexivity.
  - apply rtc_refl.
Defined.

(** The first task has entered the critical section to delete itself. *)
Definition posix_deleting : Posix :=
  match sertos_port_enter_critical 1 posix_two with Some (_, p) => p | None => posix_two end.

Lemma posix_self_delete_locks_witness :
  let q := sertos_port_task_delete_hook 1 (Some 0x4000) posix_deleting in
  threads q 1 = Some Ended /\ forall u, u <> 1 -> sertos_port_enter_critical u q = None.
Proof.
  apply (posix_self_delete_locks 1 0x4000 posix_deleting _ 0%nat (mkPosixContext 1 true (Some 0x4000) true) 0%nat).
  - eapply rtc_r; [exact posix_two_steps|]. apply step_task. apply (step_enter 1 0).
    + left. vm_compute. reflexivity.
    + vm_compute. reflexivity.
  - vm_compute. reflexivity.
  - vm_compute. reflexivity.
  - reflexivity.
  - vm_compute. reflexivity.
  - vm_compute. reflexivity.
  - vm_compute. reflexivity.
  - apply rtc_refl.
Defined.
