(* ===== verification/Windows.v ===== *)
(** The Windows simulator port (src/port/windows/): every task runs in a thread of its own, which
    waits on the auto-reset event of its context for its turn; the tick thread preempts a task by
    suspending its thread.

    [Windows] holds the statics of port_windows.c, the kernel fields the port uses
    ([current_tcb] is sertos_current_tcb, [port_context] and [tcb_state] are fields of the TCBs)
    and the threads.
    A function that takes [self] is run by that thread.  Events are taken to be created
    successfully, threads need not be. *)
From S2P Require Import Prelude Effects Types Platform PortFrame HostPort Kernel.
From S2P Require Import Scheduler.

(** ** State *)

Record PortWindowsContext : Type := mkWindowsContext {
  thread_handle : option tid;
  event : bool;                  (** whether the event is set *)
  ctx_tcb : ptr;
  is_suspended_by_tick : bool;
  in_use : bool }.
#[export] Instance PortWindowsContext_eta : Eta PortWindowsContext := fun c =>
  mkWindowsContext (thread_handle c) (event c) (ctx_tcb c) (is_suspended_by_tick c) (in_use c).

(** What a task's thread does; it waits on the event of a context. *)
Inductive thread_code : Type :=
  | Starts (tcb : ptr)   (** about to enter port_task_wrapper *)
  | Waits (ctx : nat)
  | Executes             (** runs task or kernel code *)
  | Ended.

(** A thread only runs while its suspend count is 0. *)
Record Thread : Type := mkThread { code : thread_code; suspend_count : nat }.
#[export] Instance Thread_eta : Eta Thread := fun t => mkThread (code t) (suspend_count t).

Record Windows : Type := mkWindows {
  s_task_contexts : list PortWindowsContext;
  s_port_cs : option (tid * nat);   (** owner and depth *)
  s_cs_initialized : bool;
  s_exit_event : option bool;
  s_tick_thread : option tid;
  s_tick_thread_id : tid;
  s_scheduler_running : bool;
  s_running_ctx : option nat;
  current_tcb : ptr;
  port_context : addr -> option nat;
  tcb_state : addr -> SertosTaskState;
  threads : tid -> option Thread;
  next_thread : tid }.
#[export] Instance Windows_eta : Eta Windows := fun p =>
  mkWindows (s_task_contexts p) (s_port_cs p) (s_cs_initialized p) (s_exit_event p) (s_tick_thread p)
    (s_tick_thread_id p) (s_scheduler_running p) (s_running_ctx p) (current_tcb p) (port_context p) (tcb_state p)
    (threads p) (next_thread p).

Definition SERTOS_CONFIG_MAX_TASKS : nat := 32.

(** Before anything ran; thread 1 is the main thread, and no thread has identifier 0. *)
Definition windows_init : Windows :=
  mkWindows (replicate SERTOS_CONFIG_MAX_TASKS (mkWindowsContext None false None false false)) None false None
    None 0 false None None (fun _ => None) (fun _ => SERTOS_TASK_STATE_READY) (fun _ => None) 2.

Definition set_ctx (i : nat) (f : PortWindowsContext -> PortWindowsContext) (p : Windows) : Windows :=
  p <| s_task_contexts ::= alter f i |>.
Definition upd_thread (t : tid) (f : Thread -> Thread) (p : Windows) : Windows :=
  p <| threads ::= fun g => <[t := f <$> g t]> g |>.
Definition set_code (t : tid) (c : thread_code) (p : Windows) : Windows :=
  upd_thread t (set code (fun _ => c)) p.

Definition SetEvent (i : nat) (p : Windows) : Windows := set_ctx i (set event (fun _ => true)) p.
Definition SuspendThread (h : option tid) (p : Windows) : Windows :=
  match h with Some t => upd_thread t (set suspend_count S) p | None => p end.
Definition ResumeThread (h : option tid) (p : Windows) : Windows :=
  match h with Some t => upd_thread t (set suspend_count pred) p | None => p end.

(** A critical section is recursive; [None] when the thread has to wait for its owner. *)
Definition EnterCriticalSection (self : tid) (p : Windows) : option Windows :=
  match s_port_cs p with
  | None => Some (p <| s_port_cs := Some (self, 1%nat) |>)
  | Some (owner, depth) => if owner =? self then Some (p <| s_port_cs := Some (self, S depth) |>) else None
  end.
Definition LeaveCriticalSection (self : tid) (p : Windows) : Windows :=
  match s_port_cs p with
  | Some (owner, S (S depth)) => if owner =? self then p <| s_port_cs := Some (self, S depth) |> else p
  | Some (owner, _) => if owner =? self then p <| s_port_cs := None |> else p
  | None => p
  end.

(** ** Operations *)

Definition sertos_port_tick_clock_hz : Z := 0.

(** [QueryPerformanceCounter] gives a value or fails; [GetTickCount] is then used. *)
Definition sertos_port_runtime_counter (counter : option Z) (tick_count : Z) : Z :=
  match counter with Some v => u32 (Z.land v 0xFFFFFFFF) | None => u32 tick_count end.
Definition sertos_port_runtime_counter_init (p : Windows) : Windows := p.

Definition PortStackFrame : list host_slot := host_frame.
Definition sertos_port_stack_init : ptr -> ptr -> ptr -> ptr -> Mem -> ptr * Mem := host_stack_init 8.

Definition init_cs (p : Windows) : Windows :=
  if s_cs_initialized p then p else p <| s_port_cs := None |> <| s_cs_initialized := true |>.
Definition sertos_port_enter_critical (self : tid) (p : Windows) : option (Z * Windows) :=
  (fun p => (0, p)) <$> EnterCriticalSection self (init_cs p).
Definition sertos_port_exit_critical (self : tid) (status : Z) (p : Windows) : Windows :=
  if s_cs_initialized p then LeaveCriticalSection self p else p.

Definition sertos_port_tick_init : Z -> SertosStatus := host_tick_init.

(** port_task_wrapper up to its wait; behind it the thread runs the task's function, unless the
    scheduler has stopped, then [sertos_task_delete]. *)
Definition port_task_wrapper (self : tid) (param : ptr) (p : Windows) : Windows :=
  match param with
  | None => set_code self Ended p
  | Some tcb =>
      match port_context p tcb with
      | None => set_code self Ended p
      | Some ctx => set_code self (Waits ctx) p
      end
  end.

(** The tick thread; [running] is what it successively reads from s_scheduler_running. *)
Fixpoint port_tick_thread_func `{PL : Platform} `{!Callbacks} (running : list bool) : M Kernel unit :=
  match running with
  | true :: running' :: rest =>
      when running' sertos_scheduler_tick;;
      port_tick_thread_func rest
  | _ => mret tt
  end.

(** [created] says whether [CreateThread] succeeds; the thread starts suspended. *)
Definition sertos_port_task_create_hook (created : bool) (tcb : ptr) (p : Windows) : Windows :=
  match tcb with
  | None => p
  | Some t =>
      match first_free in_use (s_task_contexts p) with
      | None => p
      | Some i =>
          let new := next_thread p in
          let p := set_ctx i (fun _ => mkWindowsContext (if created then Some new else None) false (Some t) false true) p in
          let p := if created then
              p <| threads ::= fun f => <[new := Some (mkThread (Starts (Some t)) 1)]> f |> <| next_thread ::= Z.add 1 |>
            else p in
          p <| port_context ::= fun f => <[t := Some i]> f |>
      end
  end.

(** [TerminateThread] on oneself does not return: the rest of the hook is not run. *)
Definition sertos_port_task_delete_hook (self : tid) (tcb : ptr) (p : Windows) : Windows :=
  match tcb with
  | None => p
  | Some t =>
      match port_context p t with
      | None => p
      | Some i =>
          match s_task_contexts p !! i with
          | None => p
          | Some ctx =>
              let p := match thread_handle ctx with Some h => set_code h Ended p | None => p end in
              if decide (thread_handle ctx = Some self) then p
              else
                let p := set_ctx i (fun c => c <| thread_handle := None |> <| in_use := false |> <| ctx_tcb := None |>) p in
                p <| port_context ::= fun f => <[t := None]> f |>
          end
      end
  end.

(** The threads of the pool are resumed in order. *)
Definition resume_all (p : Windows) : Windows :=
  foldl (fun p ctx => if in_use ctx then ResumeThread (thread_handle ctx) p else p) p (s_task_contexts p).

(** sertos_port_start_first_task up to the wait for the end, and behind it. *)
Definition sertos_port_start_first_task (created : bool) (p : Windows) : Windows :=
  let p := init_cs p in
  let p := p <| s_exit_event := Some false |> <| s_scheduler_running := true |> in
  let p := if created then p <| s_tick_thread := Some (next_thread p) |> <| s_tick_thread_id := next_thread p |>
                             <| next_thread ::= Z.add 1 |> else p in
  let p := resume_all p in
  match current_tcb p with
  | None => p
  | Some t =>
      let p := p <| tcb_state ::= fun f => <[t := SERTOS_TASK_STATE_RUNNING]> f |> in
      let p := p <| s_running_ctx := port_context p t |> in
      match s_running_ctx p with
      | None => p
      | Some c => SetEvent c p
      end
  end.
Definition start_first_task_end (p : Windows) : Windows :=
  p <| s_scheduler_running := false |> <| s_tick_thread := None |> <| s_exit_event := None |>
    <| s_cs_initialized := false |>.

(** Gives context [next] its turn. *)
Definition give_turn (next : nat) (p : Windows) : Windows :=
  match s_task_contexts p !! next with
  | None => p
  | Some ctx =>
      if is_suspended_by_tick ctx
      then ResumeThread (thread_handle ctx) (set_ctx next (set is_suspended_by_tick (fun _ => false)) p)
      else SetEvent next p
  end.

(** By the time it returns or waits; [None] when it has to wait for the critical section. *)
Definition sertos_port_yield (self : tid) (p : Windows) : option Windows :=
  if negb (s_scheduler_running p) then Some p
  else
    match EnterCriticalSection self (init_cs p) with
    | None => None
    | Some p =>
        Some
          match current_tcb p with
          | None => LeaveCriticalSection self p
          | Some current =>
              let next_ctx := port_context p current in
              if self =? s_tick_thread_id p then
                let p :=
                  match next_ctx with
                  | None => p
                  | Some next =>
                      if decide (next_ctx = s_running_ctx p) then p
                      else
                        let prev_ctx := s_running_ctx p in
                        let p := p <| s_running_ctx := next_ctx |> in
                        let p :=
                          match prev_ctx ≫= fun prev => ctx ← s_task_contexts p !! prev; h ← thread_handle ctx; Some (prev, h) with
                          | Some (prev, h) => set_ctx prev (set is_suspended_by_tick (fun _ => true)) (SuspendThread (Some h) p)
                          | None => p
                          end in
                        give_turn next p
                  end in
                LeaveCriticalSection self p
              else if decide (next_ctx = s_running_ctx p) then LeaveCriticalSection self p
              else
                let prev_ctx := s_running_ctx p in
                let p := p <| s_running_ctx := next_ctx |> in
                let p := match next_ctx with Some next => give_turn next p | None => p end in
                let p := LeaveCriticalSection self p in
                match prev_ctx with
                | Some prev => set_code self (Waits prev) p
                | None => p
                end
          end
    end.

Definition sertos_port_stop_scheduler (p : Windows) : Windows :=
  let p := p <| s_scheduler_running := false |> in
  match s_exit_event p with
  | Some _ => p <| s_exit_event := Some true |>
  | None => p
  end.

(** ** Threads *)

Definition is_set (p : Windows) (c : nat) : bool :=
  match s_task_contexts p !! c with Some ctx => event ctx | None => false end.
(** A thread that runs [c] and is not suspended. *)
Definition runs (p : Windows) (t : tid) (c : thread_code) : Prop := threads p t = Some (mkThread c 0).

(** One step of the program, up to deletions and the end of the scheduler. *)
Inductive task_step : Windows -> Windows -> Prop :=
  | step_create created t p :
      port_context p t = None -> task_step p (sertos_port_task_create_hook created (Some t) p)
  | step_start created p :
      s_scheduler_running p = false -> task_step p (sertos_port_start_first_task created p)
  | step_dispatch t p : task_step p (p <| current_tcb := t |>)
  | step_begin self tcb p : runs p self (Starts tcb) -> task_step p (port_task_wrapper self tcb p)
  | step_turn self c p :
      runs p self (Waits c) -> is_set p c = true ->
      task_step p (set_code self Executes (set_ctx c (set event (fun _ => false)) p))
  | step_enter self status p p' :
      runs p self Executes \/ s_tick_thread p = Some self ->
      sertos_port_enter_critical self p = Some (status, p') -> task_step p p'
  | step_exit self status p :
      runs p self Executes \/ s_tick_thread p = Some self -> task_step p (sertos_port_exit_critical self status p)
  | step_yield self p p' :
      runs p self Executes -> sertos_port_yield self p = Some p' -> task_step p p'
  | step_tick p p' :
      s_tick_thread p = Some (s_tick_thread_id p) -> sertos_port_yield (s_tick_thread_id p) p = Some p' -> task_step p p'.

Inductive step : Windows -> Windows -> Prop :=
  | step_task p p' : task_step p p' -> step p p'
  | step_delete self t p : runs p self Executes -> step p (sertos_port_task_delete_hook self (Some t) p).
