(* ===== verification/WindowsProps.v ===== *)
(** Properties of the Windows simulator port. *)
From stdpp Require Import relations.
From S2P Require Import Prelude Effects Types Platform PortFrame HostPort Kernel Windows.

Implicit Types (p : Windows) (t : tid) (c n : nat) (ctx : PortWindowsContext) (th : Thread) (T : nat -> bool).

(** Context [c] belongs to thread [t]. *)
Definition link p c t : Prop :=
  exists ctx, s_task_contexts p !! c = Some ctx /\ in_use ctx = true /\ thread_handle ctx = Some t.
Definition used p c : Prop := exists ctx, s_task_contexts p !! c = Some ctx /\ in_use ctx = true.

(** Threads and contexts belong together. *)
Record shape_ok p : Prop := Shape_ok {
  so_fresh : forall t, next_thread p <= t -> threads p t = None;
  so_tick : s_tick_thread_id p < next_thread p /\ threads p (s_tick_thread_id p) = None;
  so_thread : forall t th, threads p t = Some th -> exists c, link p c t;
  so_link : forall c t, link p c t -> exists th, threads p t = Some th /\
    match code th with Starts (Some x) => port_context p x = Some c | Waits c' => c' = c | Executes => True | _ => False end;
  so_injective : forall c c' t, link p c t -> link p c' t -> c = c';
  so_context : forall x c, port_context p x = Some c -> used p c }.

(** A context that has the turn is not suspended by the tick, and its thread executes or has its
    event set, not both.  One that was suspended kept that, in a suspended thread.  Every
    other one has its event clear and does not execute. *)
Definition slot_ok (turn : bool) ctx th : Prop :=
  (code th = Executes -> event ctx = false) /\
  if turn then is_suspended_by_tick ctx = false /\ (event ctx = true \/ code th = Executes)
  else if is_suspended_by_tick ctx then (1 <= suspend_count th)%nat /\ (event ctx = true \/ code th = Executes)
  else event ctx = false /\ code th <> Executes.
Definition slots_ok p T : Prop := forall c ctx t th,
  s_task_contexts p !! c = Some ctx -> in_use ctx = true -> thread_handle ctx = Some t ->
  threads p t = Some th -> slot_ok (T c) ctx th.

Definition turn_of (r : option nat) : nat -> bool := fun c => bool_decide (r = Some c).

Record windows_ok p : Prop := Windows_ok {
  wo_shape : shape_ok p;
  wo_slots : slots_ok p (turn_of (s_running_ctx p));
  wo_running : forall c, s_running_ctx p = Some c -> used p c;
  wo_off : s_scheduler_running p = false -> s_running_ctx p = None /\
    forall c ctx, s_task_contexts p !! c = Some ctx -> is_suspended_by_tick ctx = false }.

(** ** Changes that keep the shape *)

Lemma lookup_set_ctx i f p c :
  s_task_contexts (set_ctx i f p) !! c = if decide (i = c) then f <$> s_task_contexts p !! c else s_task_contexts p !! c.
Proof. unfold set_ctx. rsimpl. rewrite list_lookup_alter. case_decide as Hd; [by subst i|done]. Qed.

Lemma lookup_upd_thread t f p u :
  threads (upd_thread t f p) u = if decide (t = u) then f <$> threads p u else threads p u.
Proof.
  unfold upd_thread. rsimpl. case_decide as Hd; [subst u; by rewrite fn_lookup_insert|by rewrite fn_lookup_insert_ne].
Qed.

(** [q] has the contexts and threads of [p], up to events, suspensions and what [code_ok] allows. *)
Definition same_shape p q : Prop :=
  (forall c, (fun ctx => (in_use ctx, thread_handle ctx)) <$> s_task_contexts q !! c =
             (fun ctx => (in_use ctx, thread_handle ctx)) <$> s_task_contexts p !! c) /\
  port_context q = port_context p /\ next_thread q = next_thread p /\ s_tick_thread_id q = s_tick_thread_id p.

Lemma same_shape_link p q c t : same_shape p q -> link q c t <-> link p c t.
Proof.
  intros [Hc _]. specialize (Hc c). unfold link.
  destruct (s_task_contexts q !! c) as [[]|], (s_task_contexts p !! c) as [[]|]; simpl in Hc; try done; naive_solver.
Qed.
Lemma same_shape_used p q c : same_shape p q -> used q c <-> used p c.
Proof.
  intros [Hc _]. specialize (Hc c). unfold used.
  destruct (s_task_contexts q !! c) as [[]|], (s_task_contexts p !! c) as [[]|]; simpl in Hc; try done; naive_solver.
Qed.

Lemma shape_ok_same p q :
  shape_ok p -> same_shape p q -> (forall t, code <$> threads q t = code <$> threads p t) -> shape_ok q.
Proof.
  intros [Hf Ht Hth Hl Hi Hc] Hq Hcode. pose proof Hq as (_ & Q2 & Q3 & Q4).
  assert (Hdom : forall t, threads q t = None <-> threads p t = None).
  { intros t. specialize (Hcode t). by destruct (threads q t), (threads p t). }
  split; rewrite ?Q2, ?Q3, ?Q4.
  - intros t Ht'. by apply Hdom, Hf.
  - split; [apply Ht|]. apply Hdom, Ht.
  - intros t th Hq'. setoid_rewrite (same_shape_link p q); [|done]. specialize (Hcode t). rewrite Hq' in Hcode.
    destruct (threads p t) as [th'|] eqn:Hp'; [|done]. by eapply Hth.
  - intros c t Hlt. apply (same_shape_link p q) in Hlt; [|done]. destruct (Hl c t Hlt) as (th & Hp' & Hm).
    specialize (Hcode t). rewrite Hp' in Hcode. destruct (threads q t) as [th'|]; [|done].
    exists th'. split; [done|]. simpl in Hcode. injection Hcode as ->. done.
  - intros c c' t H1 H2. apply (same_shape_link p q) in H1, H2; [|done..]. by eapply Hi.
  - intros x c Hx. apply (same_shape_used p q); [done|]. by apply (Hc x).
Qed.

(** A thread changes its code within its context. *)
Lemma shape_ok_code p c t k :
  shape_ok p -> link p c t -> k = Waits c \/ k = Executes -> shape_ok (set_code t k p).
Proof.
  intros Hp Hlt Hk. pose proof Hp as [Hf Ht Hth Hl Hi Hc]. unfold set_code.
  assert (Hdom : forall u, threads (upd_thread t (set code (fun _ => k)) p) u = None <-> threads p u = None).
  { intros u. rewrite lookup_upd_thread. case_decide; [|done]. by destruct (threads p u). }
  split; rsimpl.
  - intros u Hu. by apply Hdom, Hf.
  - split; [apply Ht|]. by apply Hdom, Ht.
  - intros u th. rewrite lookup_upd_thread. case_decide; [subst u; intros _; by exists c|]. apply Hth.
  - intros c' u Hlu. destruct (Hl c' u Hlu) as (th & Hth' & Hm). rewrite lookup_upd_thread, Hth'. case_decide.
    + subst u. pose proof (Hi c c' t Hlt Hlu) as <-. eexists. split; [reflexivity|]. by destruct Hk as [-> | ->].
    + by exists th.
  - apply Hi.
  - apply Hc.
Qed.

Lemma shape_ok_give_turn p n : shape_ok p -> shape_ok (give_turn n p) /\ same_shape p (give_turn n p).
Proof.
  intros Hp. assert (same_shape p (give_turn n p) /\ forall t, code <$> threads (give_turn n p) t = code <$> threads p t) as [Hs Hc];
    [|split; [by eapply shape_ok_same|done]].
  unfold give_turn. destruct (s_task_contexts p !! n) as [ctx|] eqn:Hn; [|done].
  destruct (is_suspended_by_tick ctx); [destruct (thread_handle ctx) as [h|]|]; unfold SetEvent, ResumeThread, same_shape.
  - split; [split; [|done]|].
    + intros c. change (s_task_contexts (upd_thread h _ _)) with (s_task_contexts (set_ctx n (set is_suspended_by_tick (fun _ => false)) p)).
      rewrite lookup_set_ctx. case_decide; [|done]. by destruct (s_task_contexts p !! c) as [[]|].
    + intros t. rewrite lookup_upd_thread. case_decide; [|done].
      change (threads (set_ctx n _ p) t) with (threads p t). by destruct (threads p t) as [[]|].
  - split; [|done]. split; [|done]. intros c. rewrite lookup_set_ctx. case_decide; [|done].
    by destruct (s_task_contexts p !! c) as [[]|].
  - split; [|done]. split; [|done]. intros c. rewrite lookup_set_ctx. case_decide; [|done].
    by destruct (s_task_contexts p !! c) as [[]|].
Qed.

(** ** Turns *)

(** One context, and the thread it belongs to, change; the turn is decided anew for it only. *)
Lemma slots_ok_update p q T T' n :
  shape_ok p -> same_shape p q -> slots_ok p T -> (forall c, c <> n -> T' c = T c) ->
  (forall c, c <> n -> s_task_contexts q !! c = s_task_contexts p !! c) ->
  (forall t, ~ link p n t -> threads q t = threads p t) ->
  (forall ctx t th ctx' th', link p n t -> s_task_contexts p !! n = Some ctx -> threads p t = Some th ->
     s_task_contexts q !! n = Some ctx' -> threads q t = Some th' -> slot_ok (T n) ctx th -> slot_ok (T' n) ctx' th') ->
  slots_ok q T'.
Proof.
  intros Hp Hshape HT Hne Hctx Hthr Hn c ctx' t th' Hc Hu Hh Hth.
  assert (Hq : link q c t) by by exists ctx'. assert (Hlp : link p c t) by by apply (same_shape_link p q).
  pose proof Hlp as (ctx & Hcp & Hup & Hhp). destruct (so_link p Hp c t Hlp) as (th & Hthp & _).
  destruct (decide (c = n)) as [->|Hcn].
  - apply (Hn ctx t th ctx' th'); try done. by apply (HT n ctx t th).
  - rewrite Hne by done. rewrite Hctx in Hc by done. rewrite Hcp in Hc. injection Hc as <-.
    rewrite Hthr in Hth; [|intros Hn'; by apply Hcn, (so_injective p Hp c n t)]. rewrite Hthp in Hth. injection Hth as <-.
    by apply (HT c ctx t th).
Qed.

(** Not-running context [n] gets the turn. *)
Lemma give_turn_slots p n T T' :
  shape_ok p -> slots_ok p T -> used p n -> T n = false -> T' n = true -> (forall c, c <> n -> T' c = T c) ->
  slots_ok (give_turn n p) T'.
Proof.
  intros Hp HT (ctxn & Hctxn & Hun) Hn Hn' Hne. apply (slots_ok_update p _ T T' n); try done; [by apply shape_ok_give_turn|..].
  - intros c Hc. unfold give_turn. destruct (s_task_contexts p !! n) as [ctx|]; [|done].
    assert (forall f, s_task_contexts (set_ctx n f p) !! c = s_task_contexts p !! c) as Hset.
    { intros f. rewrite lookup_set_ctx, decide_False by done. done. }
    destruct (is_suspended_by_tick ctx); [destruct (thread_handle ctx)|]; apply Hset.
  - intros t Hnl. unfold give_turn. rewrite Hctxn. rename ctxn into ctx.
    destruct (is_suspended_by_tick ctx) eqn:Hsus; [|done]. destruct (thread_handle ctx) as [h|] eqn:Hh; [|done].
    unfold ResumeThread. rewrite lookup_upd_thread. case_decide as Hd; [|done]. subst t.
    destruct Hnl. by exists ctx.
  - intros ctx t th ctx' th' (ctx0 & Hc0 & Hu & Hh) Hc Hth Hc' Hth' Hslot. rewrite Hc in Hc0. injection Hc0 as <-.
    rewrite Hn in Hslot. rewrite Hn'. unfold give_turn in Hc', Hth'. rewrite Hc in Hc', Hth'. unfold slot_ok in *.
    destruct (is_suspended_by_tick ctx) eqn:Hsus.
    + rewrite Hh in Hc', Hth'. unfold ResumeThread in *.
      change (s_task_contexts (upd_thread t _ _)) with (s_task_contexts (set_ctx n (set is_suspended_by_tick (fun _ => false)) p)) in Hc'.
      rewrite lookup_set_ctx, decide_True, Hc in Hc' by done. rewrite lookup_upd_thread, decide_True in Hth' by done.
      change (threads (set_ctx n _ p) t) with (threads p t) in Hth'. rewrite Hth in Hth'.
      injection Hc' as <-. injection Hth' as <-. by destruct ctx, th; simpl in *; naive_solver.
    + unfold SetEvent in *. rewrite lookup_set_ctx, decide_True, Hc in Hc' by done.
      change (threads (set_ctx n _ p) t) with (threads p t) in Hth'. rewrite Hth in Hth'.
      injection Hc' as <-. injection Hth' as <-. destruct ctx, th; simpl in *; naive_solver.
Qed.

(** The thread of [c], which executes, waits for its next turn. *)
Lemma give_up_slots p c t th T T' :
  shape_ok p -> slots_ok p T -> link p c t -> threads p t = Some th -> code th = Executes -> T c = true ->
  T' c = false -> (forall c', c' <> c -> T' c' = T c') -> slots_ok (set_code t (Waits c) p) T'.
Proof.
  intros Hp HT Hlt Hth Hex Hc Hc' Hne. apply (slots_ok_update p _ T T' c); try done.
  - intros u Hu. unfold set_code. rewrite lookup_upd_thread. case_decide; [by subst u|done].
  - intros ctx u th0 ctx' th' Hlu Hctx Hth0 Hctx' Hth' Hslot. change (s_task_contexts (set_code _ _ p)) with (s_task_contexts p) in Hctx'.
    assert (u = t) as -> by (destruct Hlu as (? & ? & ? & ?), Hlt as (? & ? & ? & ?); congruence).
    unfold set_code in Hth'. rewrite lookup_upd_thread, decide_True, Hth in Hth' by done. injection Hth' as <-.
    assert (ctx' = ctx) as -> by congruence. assert (th0 = th) as -> by congruence.
    rewrite Hc in Hslot. rewrite Hc'. unfold slot_ok in *. destruct ctx, th; simpl in *. naive_solver.
Qed.

(** The tick suspends the thread of [c]. *)
Lemma suspend_slots p c t T T' :
  shape_ok p -> slots_ok p T -> link p c t -> T c = true -> T' c = false -> (forall c', c' <> c -> T' c' = T c') ->
  let q := set_ctx c (set is_suspended_by_tick (fun _ => true)) (SuspendThread (Some t) p) in
  slots_ok q T' /\ shape_ok q /\ same_shape p q.
Proof.
  intros Hp HT Hlt Hc Hc' Hne q.
  assert (Hctx : forall c', s_task_contexts q !! c' =
    if decide (c = c') then set is_suspended_by_tick (fun _ => true) <$> s_task_contexts p !! c' else s_task_contexts p !! c').
  { intros c'. unfold q. rewrite lookup_set_ctx. done. }
  assert (Hthr : forall u, threads q u = if decide (t = u) then set suspend_count S <$> threads p u else threads p u).
  { intros u. change (threads q u) with (threads (SuspendThread (Some t) p) u). apply lookup_upd_thread. }
  assert (Hsame : same_shape p q).
  { split; [|done]. intros c'. rewrite Hctx. case_decide; [|done]. by destruct (s_task_contexts p !! c') as [[]|]. }
  split; [|split; [|done]].
  - apply (slots_ok_update p q T T' c); try done.
    + intros c0 Hc0. by rewrite Hctx, decide_False.
    + intros u Hu. rewrite Hthr. case_decide; [by subst u|done].
    + intros ctx u th ctx' th' Hlu Hcx Hth Hcx' Hth' Hslot.
      assert (u = t) as -> by (destruct Hlu as (? & ? & ? & ?), Hlt as (? & ? & ? & ?); congruence).
      rewrite Hctx, decide_True, Hcx in Hcx' by done. rewrite Hthr, decide_True, Hth in Hth' by done.
      injection Hcx' as <-. injection Hth' as <-. rewrite Hc in Hslot. rewrite Hc'. unfold slot_ok in *.
      destruct ctx, th; simpl in *. split; [naive_solver|]. split; [lia|naive_solver].
  - apply (shape_ok_same p); try done. intros u. rewrite Hthr. case_decide; [|done]. by destruct (threads p u) as [[]|].
Qed.

(** ** Steps *)

(** [q] is [p] up to the critical section. *)
Definition same_but_cs p q : Prop :=
  q = p <| s_port_cs := s_port_cs q |> <| s_cs_initialized := s_cs_initialized q |>.

Lemma same_but_cs_trans p q r : same_but_cs p q -> same_but_cs q r -> same_but_cs p r.
Proof. unfold same_but_cs. intros -> ->. by destruct p, r. Qed.
Lemma init_cs_same p : same_but_cs p (init_cs p).
Proof. unfold init_cs. destruct p as [? ? [] ?]; done. Qed.
Lemma windows_enter_same self p q : EnterCriticalSection self p = Some q -> same_but_cs p q.
Proof.
  unfold EnterCriticalSection. destruct (s_port_cs p) as [[o d]|]; [destruct (o =? self)|]; intros [= <-]; by destruct p.
Qed.
Lemma leave_same self p : same_but_cs p (LeaveCriticalSection self p).
Proof.
  unfold LeaveCriticalSection. destruct (s_port_cs p) as [[o [|[|d]]]|]; [..|by destruct p];
    destruct (o =? self); by destruct p.
Qed.
Lemma same_but_cs_code p q t k : same_but_cs p q -> same_but_cs (set_code t k p) (set_code t k q).
Proof. unfold same_but_cs. intros ->. by destruct p. Qed.
Lemma windows_ok_cs p q : same_but_cs p q -> windows_ok p -> windows_ok q.
Proof. intros -> [[] ? ? ?]. by split; [split|..]. Qed.

Lemma runs_turn p t : windows_ok p -> runs p t Executes ->
  exists c, link p c t /\ s_running_ctx p = Some c.
Proof.
  intros [Hp Hs _ _] Hr. destruct (so_thread p Hp t _ Hr) as [c Hlt]. exists c. split; [done|].
  pose proof Hlt as (ctx & Hc & Hu & Hh). destruct (Hs c ctx t _ Hc Hu Hh Hr) as [_ Ht]. unfold turn_of in Ht.
  case_bool_decide; [done|]. destruct (is_suspended_by_tick ctx); simpl in Ht; [lia|by destruct Ht].
Qed.

Lemma turn_of_other r c c' : r = Some c -> c' <> c -> turn_of r c' = false.
Proof. intros -> Hne. unfold turn_of. rewrite bool_decide_false; congruence. Qed.

(** The part of [sertos_port_yield] between entering and leaving the critical section, when a
    task's thread hands over. *)
Lemma windows_ok_give_turn p t c next :
  windows_ok p -> runs p t Executes -> s_running_ctx p = Some c -> link p c t -> next <> Some c ->
  (forall n, next = Some n -> used p n) -> s_scheduler_running p = true ->
  windows_ok (set_code t (Waits c)
    (match next with Some n => give_turn n (p <| s_running_ctx := next |>) | None => p <| s_running_ctx := next |> end)).
Proof.
  intros [Hp Hs Hru Ho] Hrun Hrc Hlt Hne Hused Hon.
  set (p1 := p <| s_running_ctx := next |>).
  assert (Hp1 : shape_ok p1) by by destruct Hp.
  assert (Hs1 : slots_ok p1 (turn_of (Some c))) by by rewrite <-Hrc.
  assert (Htc : turn_of (Some c) c = true) by by apply bool_decide_true.
  destruct next as [n|].
  - assert (Hnc : n <> c) by congruence. destruct (shape_ok_give_turn p1 n Hp1) as [Hp2 Hsame].
    assert (Hth : threads (give_turn n p1) t = threads p t).
    { unfold give_turn. destruct (s_task_contexts p1 !! n) as [ctx|] eqn:Hctx; [|done].
      destruct (is_suspended_by_tick ctx); [|done]. destruct (thread_handle ctx) as [h|] eqn:Hh; [|done].
      unfold ResumeThread. rewrite lookup_upd_thread. case_decide as Hd; [|done]. subst h.
      destruct (Hused n eq_refl) as (ctx' & Hctx' & Hu). change (s_task_contexts p1) with (s_task_contexts p) in Hctx.
      rewrite Hctx in Hctx'. injection Hctx' as <-. destruct Hnc. apply (so_injective p Hp n c t); [by exists ctx|done]. }
    assert (Hs2 : slots_ok (give_turn n p1) (fun x => turn_of (Some c) x || bool_decide (x = n))).
    { apply (give_turn_slots p1 n (turn_of (Some c))); try done.
      - by apply Hused.
      - by apply (turn_of_other _ c).
      - rewrite (bool_decide_true (n = n)) by done. apply orb_true_r.
      - intros x Hx. rewrite (bool_decide_false (x = n)) by done. apply orb_false_r. }
    assert (Hlt2 : link (give_turn n p1) c t) by by apply (same_shape_link p1).
    assert (Hrun2 : s_running_ctx (give_turn n p1) = Some n /\ s_scheduler_running (give_turn n p1) = true).
    { unfold give_turn. destruct (s_task_contexts p1 !! n) as [ctx|]; [|done].
      destruct (is_suspended_by_tick ctx); [|done]. by destruct (thread_handle ctx). }
    destruct Hrun2 as [Hrun2 Hon2]. split.
    + apply (shape_ok_code _ c); auto.
    + change (s_running_ctx (set_code _ _ ?q)) with (s_running_ctx q). rewrite Hrun2.
      eapply (give_up_slots _ c t); try done.
      * by rewrite Hth.
      * done.
      * simpl. by rewrite Htc.
      * by apply (turn_of_other _ n).
      * intros x Hx. unfold turn_of at 2. rewrite (bool_decide_false (Some c = Some x)) by congruence. simpl.
        unfold turn_of. apply bool_decide_ext. naive_solver.
    + change (s_running_ctx (set_code _ _ ?q)) with (s_running_ctx q). rewrite Hrun2. intros x [= <-].
      apply (same_shape_used p1 _ n Hsame). by apply Hused.
    + change (s_scheduler_running (set_code _ _ ?q)) with (s_scheduler_running q). by rewrite Hon2.
  - split.
    + apply (shape_ok_code _ c); auto.
    + eapply (give_up_slots p1 c t); try done. intros x Hx. by rewrite (turn_of_other (Some c) c x).
    + done.
    + change (s_scheduler_running (set_code _ _ p1)) with (s_scheduler_running p). by rewrite Hon.
Qed.

Lemma give_turn_fields n p :
  s_running_ctx (give_turn n p) = s_running_ctx p /\ s_scheduler_running (give_turn n p) = s_scheduler_running p.
Proof.
  unfold give_turn. destruct (s_task_contexts p !! n) as [ctx|]; [|done].
  destruct (is_suspended_by_tick ctx); [|done]. by destruct (thread_handle ctx).
Qed.

(** The same when the tick thread preempts. *)
Lemma windows_ok_preempt p n :
  windows_ok p -> used p n -> s_running_ctx p <> Some n -> s_scheduler_running p = true ->
  windows_ok (give_turn n
    (match s_running_ctx p ≫= fun prev => ctx ← s_task_contexts p !! prev; h ← thread_handle ctx; Some (prev, h) with
     | Some (prev, h) => set_ctx prev (set is_suspended_by_tick (fun _ => true))
                           (SuspendThread (Some h) (p <| s_running_ctx := Some n |>))
     | None => p <| s_running_ctx := Some n |>
     end)).
Proof.
  intros [Hp Hs Hru Ho] Hused Hne Hon. set (p1 := p <| s_running_ctx := Some n |>).
  assert (Hp1 : shape_ok p1) by by destruct Hp.
  assert (G : forall q, shape_ok q -> slots_ok q (fun _ => false) -> same_shape p q -> s_running_ctx q = Some n ->
    s_scheduler_running q = true -> windows_ok (give_turn n q)).
  { intros q Hq Hqs Hsame Hqr Hqo. assert (Hqu : used q n) by by apply (same_shape_used p).
    destruct (shape_ok_give_turn q n Hq) as [Hq' Hsame']. destruct (give_turn_fields n q) as [F1 F2].
    split; [done| |rewrite F1, Hqr|by rewrite F2, Hqo].
    - rewrite F1, Hqr. apply (give_turn_slots q n (fun _ => false)); try done.
      + by apply bool_decide_true.
      + intros c Hc. by apply (turn_of_other _ n).
    - intros x [= <-]. by apply (same_shape_used q). }
  destruct (s_running_ctx p) as [prev|] eqn:Hrc.
  - destruct (Hru prev eq_refl) as (ctx & Hc & Hu). simpl. rewrite Hc. simpl.
    destruct (thread_handle ctx) as [h|] eqn:Hh; simpl.
    + assert (Hlt : link p1 prev h) by by exists ctx.
      destruct (suspend_slots p1 prev h (turn_of (Some prev)) (fun _ => false) Hp1 Hs Hlt) as (Hq & Hqp & Hqsame);
        [by apply bool_decide_true|done| |by apply G].
      intros c Hcp. by rewrite (turn_of_other (Some prev) prev c).
    + apply G; try done. intros c cx t th Hcx Hux Htx Hthx. pose proof (Hs c cx t th Hcx Hux Htx Hthx) as Hslot.
      rewrite (turn_of_other (Some prev) prev c) in Hslot; [done|done|]. intros ->.
      change (s_task_contexts p1) with (s_task_contexts p) in Hcx. congruence.
  - by apply G.
Qed.

Lemma windows_ok_yield p self q :
  windows_ok p -> runs p self Executes \/ self = s_tick_thread_id p ->
  sertos_port_yield self p = Some q -> windows_ok q.
Proof.
  intros Hp Hself. unfold sertos_port_yield.
  destruct (s_scheduler_running p) eqn:Hon; cbn [negb]; [|by intros [= <-]].
  destruct (EnterCriticalSection self (init_cs p)) as [p1|] eqn:Hcs; [|done]. intros [= <-].
  assert (Hsame : same_but_cs p p1) by (eapply same_but_cs_trans; [apply init_cs_same|by eapply windows_enter_same]).
  assert (Hp1 : windows_ok p1) by by eapply windows_ok_cs.
  assert (F : s_tick_thread_id p1 = s_tick_thread_id p /\ s_scheduler_running p1 = true /\ threads p1 = threads p).
  { rewrite Hsame. done. }
  destruct F as (F1 & F2 & F3). clear Hcs Hsame.
  destruct (current_tcb p1) as [x|]; [|eapply windows_ok_cs; [apply leave_same|done]]. cbv zeta. rewrite F1.
  destruct (Z.eqb_spec self (s_tick_thread_id p)) as [->|Hnt].
  - eapply windows_ok_cs; [apply leave_same|]. destruct (port_context p1 x) as [n|] eqn:Hx; [|done].
    case_decide as Hd; [done|]. apply windows_ok_preempt; try done.
    by apply (so_context p1 (wo_shape p1 Hp1) x).
  - destruct Hself as [Hr|]; [|done]. assert (Hr1 : runs p1 self Executes) by (unfold runs in *; by rewrite F3).
    case_decide as Hd; [eapply windows_ok_cs; [apply leave_same|done]|].
    destruct (runs_turn p1 self Hp1 Hr1) as (c & Hlt & Hrc). rewrite Hrc.
    pose proof (windows_ok_give_turn p1 self c (port_context p1 x) Hp1 Hr1 Hrc Hlt) as Hok.
    specialize (Hok ltac:(congruence) (fun n Hn => so_context p1 (wo_shape p1 Hp1) x n Hn) F2).
    eapply windows_ok_cs; [|exact Hok]. apply same_but_cs_code, leave_same.
Qed.

(** ** Creating and starting *)

(** A context opened for the task [x]: entry [i] of the pool and, if it was created, a thread. *)
Definition opened_ctx p (created : bool) x : PortWindowsContext :=
  mkWindowsContext (if created then Some (next_thread p) else None) false (Some x) false true.
Record opened p (created : bool) x i q : Prop := Opened {
  op_ctx : forall c, s_task_contexts q !! c = if decide (i = c) then Some (opened_ctx p created x) else s_task_contexts p !! c;
  op_thread : forall t, threads q t = if decide (created = true /\ t = next_thread p)
    then Some (mkThread (Starts (Some x)) 1) else threads p t;
  op_task : port_context q = <[x := Some i]> (port_context p);
  op_next : next_thread q = (if created then 1 + next_thread p else next_thread p);
  op_tick : s_tick_thread_id q = s_tick_thread_id p;
  op_running : s_running_ctx q = s_running_ctx p;
  op_scheduler : s_scheduler_running q = s_scheduler_running p }.

Lemma create_hook_opens p created (x : addr) :
  match first_free in_use (s_task_contexts p) with
  | None => sertos_port_task_create_hook created (Some x) p = p
  | Some i => ~ used p i /\ opened p created x i (sertos_port_task_create_hook created (Some x) p)
  end.
Proof.
  unfold sertos_port_task_create_hook. pose proof (first_free_spec in_use (s_task_contexts p)) as Hfree.
  destruct (first_free in_use (s_task_contexts p)) as [i|]; [|done]. destruct Hfree as [(ctx & Hctx & Hu) _].
  split; [intros (ctx' & Hc' & Hu'); congruence|]. split; try by destruct created.
  - intros c. transitivity (s_task_contexts (set_ctx i (fun _ => opened_ctx p created x) p) !! c); [by destruct created|].
    rewrite lookup_set_ctx. case_decide; [subst c; by rewrite Hctx|done].
  - intros t. destruct created; rsimpl; [|rewrite decide_False by naive_solver; done].
    destruct (decide (next_thread p = t)) as [<-|Hne]; [rewrite fn_lookup_insert, decide_True by done; done|].
    rewrite fn_lookup_insert_ne, decide_False by naive_solver. done.
Qed.

Section opened.
Context (p q : Windows) (created : bool) (x : addr) (i : nat).
Hypothesis (Ho : opened p created x i q) (Hnu : ~ used p i) (Hp : shape_ok p).

Lemma opened_link c t :
  link q c t <-> if decide (i = c) then created = true /\ t = next_thread p else link p c t.
Proof.
  unfold link. rewrite (op_ctx _ _ _ _ _ Ho). destruct (decide (i = c)) as [Hd|Hd]; [|naive_solver].
  unfold opened_ctx. split.
  - intros (cx & [= <-] & _ & Hh). destruct created; [|done]. simpl in Hh. by simplify_eq.
  - intros [Hcr ->]. eexists. split; [done|]. by rewrite Hcr.
Qed.

Lemma opened_used c : used p c -> used q c.
Proof.
  intros (ctx & Hc & Hu). exists ctx. rewrite (op_ctx _ _ _ _ _ Ho), decide_False; [done|].
  intros ->. by apply Hnu; exists ctx.
Qed.

Lemma opened_old c t : link p c t -> t <> next_thread p /\ link q c t.
Proof using Ho Hnu Hp.
  intros Hlt. destruct Hp as [Hf _ _ Hl _ _]. destruct (Hl c t Hlt) as (th & Hth & _).
  split; [intros ->; by rewrite Hf in Hth|]. apply opened_link. rewrite decide_False; [done|].
  intros ->. apply Hnu. destruct Hlt as (cx & Hc & Hu & _). by exists cx.
Qed.

Lemma opened_shape : port_context p x = None -> shape_ok q.
Proof using Ho Hnu Hp.
  intros Hx. pose proof Hp as [Hf Ht Hth Hl Hi Hc].
  split; rewrite ?(op_next _ _ _ _ _ Ho), ?(op_tick _ _ _ _ _ Ho).
  - intros t Ht'. rewrite (op_thread _ _ _ _ _ Ho), decide_False; [|intros [-> ->]; lia]. apply Hf. destruct created; lia.
  - destruct Ht as [H1 H2]. split; [destruct created; lia|].
    rewrite (op_thread _ _ _ _ _ Ho), decide_False; [done|]. intros []. lia.
  - intros t th. rewrite (op_thread _ _ _ _ _ Ho). destruct (decide (created = true /\ t = next_thread p)) as [Hd|Hd].
    + intros _. exists i. apply opened_link. by rewrite decide_True by done.
    + intros Hth'. destruct (Hth t th Hth') as [c Hlt]. exists c. by apply opened_old.
  - intros c t Hlt%opened_link. rewrite (op_thread _ _ _ _ _ Ho). case_decide as Hd.
    + subst c. rewrite decide_True by done. eexists. split; [done|]. simpl. by rewrite (op_task _ _ _ _ _ Ho), fn_lookup_insert.
    + destruct (Hl c t Hlt) as (th & Hth' & Hm). exists th. destruct (opened_old c t Hlt) as [Hne _].
      rewrite decide_False by (by intros []). split; [done|]. destruct (code th) as [[y|]| | |]; try done.
      rewrite (op_task _ _ _ _ _ Ho), fn_lookup_insert_ne; [done|]. congruence.
  - intros c c' t H1%opened_link H2%opened_link. destruct (decide (i = c)), (decide (i = c')); [congruence|..|by eapply Hi].
    + destruct H1 as [_ H1]. by destruct (opened_old c' t H2).
    + destruct H2 as [_ H2]. by destruct (opened_old c t H1).
  - intros y c. rewrite (op_task _ _ _ _ _ Ho). destruct (decide (x = y)) as [<-|Hne].
    + rewrite fn_lookup_insert. intros [= <-]. eexists. by rewrite (op_ctx _ _ _ _ _ Ho), decide_True.
    + rewrite fn_lookup_insert_ne by done. intros Hy. by apply opened_used, (Hc y).
Qed.
End opened.

Lemma windows_ok_create p created (x : addr) :
  windows_ok p -> port_context p x = None -> windows_ok (sertos_port_task_create_hook created (Some x) p).
Proof.
  intros Hw Hx. pose proof Hw as [Hp Hs Hru Ho]. pose proof (create_hook_opens p created x) as Hop.
  destruct (first_free in_use (s_task_contexts p)) as [i|]; [|by rewrite Hop]. destruct Hop as [Hnu Hop].
  set (q := sertos_port_task_create_hook created (Some x) p) in *. clearbody q.
  pose proof (opened_used p q created x i Hop Hnu) as Huq. split; [by eapply opened_shape| | |].
  - rewrite (op_running _ _ _ _ _ Hop). intros c cx t th Hcx Hux Htx Hthx.
    rewrite (op_ctx _ _ _ _ _ Hop) in Hcx. rewrite (op_thread _ _ _ _ _ Hop) in Hthx.
    destruct (decide (i = c)) as [Hd|Hd].
    + subst c. injection Hcx as <-. unfold turn_of. rewrite bool_decide_false; [|intros Hrc; by apply Hnu, Hru].
      unfold opened_ctx in *. destruct created; [|done]. injection Htx as <-. rewrite decide_True in Hthx by done.
      injection Hthx as <-. by split.
    + assert (Hlt : link p c t) by by exists cx. destruct (opened_old p q created x i Hop Hnu Hp c t Hlt) as [Hne _].
      rewrite decide_False in Hthx by (by intros []). by apply (Hs c cx t th).
  - rewrite (op_running _ _ _ _ _ Hop). intros c Hrc. by apply Huq, Hru.
  - rewrite (op_running _ _ _ _ _ Hop), (op_scheduler _ _ _ _ _ Hop). intros Hoff. destruct (Ho Hoff) as [Hn Hcx].
    split; [done|]. intros c cx. rewrite (op_ctx _ _ _ _ _ Hop).
    destruct (decide (i = c)); [|apply Hcx]. intros Hnew. by injection Hnew as <-.
Qed.

Lemma resume_fold l p :
  let q := foldl (fun p ctx => if in_use ctx then ResumeThread (thread_handle ctx) p else p) p l in
  s_task_contexts q = s_task_contexts p /\ (forall t, code <$> threads q t = code <$> threads p t) /\
  port_context q = port_context p /\ next_thread q = next_thread p /\ s_tick_thread_id q = s_tick_thread_id p /\
  s_running_ctx q = s_running_ctx p /\ s_scheduler_running q = s_scheduler_running p /\ current_tcb q = current_tcb p.
Proof.
  revert p. induction l as [|ctx l IH]; intros p; [done|]. simpl.
  destruct (IH (if in_use ctx then ResumeThread (thread_handle ctx) p else p)) as (-> & H & -> & -> & -> & -> & -> & ->).
  destruct (in_use ctx); [|done]. destruct (thread_handle ctx) as [h|]; [|done]. split_and!; try done.
  intros t. rewrite H. unfold ResumeThread. rewrite lookup_upd_thread. case_decide; [|done]. by destruct (threads p t).
Qed.

Lemma windows_ok_tcb_state f p : windows_ok p -> windows_ok (p <| tcb_state ::= f |>).
Proof. intros [[] Hs Hru Ho]. by split. Qed.

(** No thread executes or has its event set, and none was suspended by the tick. *)
Definition all_wait q : Prop := forall c ctx t th, s_task_contexts q !! c = Some ctx -> in_use ctx = true ->
  thread_handle ctx = Some t -> threads q t = Some th ->
  is_suspended_by_tick ctx = false /\ event ctx = false /\ code th <> Executes.

(** The first turn. *)
Lemma windows_ok_first_turn q x c :
  shape_ok q -> all_wait q -> s_scheduler_running q = true -> port_context q x = Some c ->
  windows_ok (SetEvent c (q <| tcb_state ::= fun f => <[x := SERTOS_TASK_STATE_RUNNING]> f |> <| s_running_ctx := Some c |>)).
Proof.
  intros Hq Hold Hqon Hx.
  set (q1 := q <| tcb_state ::= fun f => <[x := SERTOS_TASK_STATE_RUNNING]> f |>).
  set (q2 := SetEvent c (q1 <| s_running_ctx := Some c |>)).
  assert (Hctx : forall c', s_task_contexts q2 !! c' = if decide (c = c') then set event (fun _ => true) <$> s_task_contexts q !! c'
    else s_task_contexts q !! c') by (intros c'; exact (lookup_set_ctx c (set event (fun _ => true)) (q1 <| s_running_ctx := Some c |>) c')).
  assert (Hsame2 : same_shape q q2).
  { split; [|done]. intros c'. rewrite Hctx. case_decide; [|done]. by destruct (s_task_contexts q !! c') as [[]|]. }
  split.
  - by apply (shape_ok_same q).
  - intros c' ctx t th Hc Hu Hh Hth. rewrite Hctx in Hc. change (threads q2) with (threads q) in Hth.
    change (s_running_ctx q2) with (Some c). unfold turn_of. case_decide as Hd.
    + subst c'. destruct (s_task_contexts q !! c) as [ctx0|] eqn:Hc0; [|done]. simpl in Hc. injection Hc as <-.
      destruct (Hold c ctx0 t th Hc0 Hu Hh Hth) as (H1 & H2 & H3). rewrite bool_decide_true by done.
      split; [done|]. split; [done|by left].
    + destruct (Hold c' ctx t th Hc Hu Hh Hth) as (H1 & H2 & H3). rewrite bool_decide_false by congruence.
      split; [done|]. by rewrite H1.
  - intros c' [= <-]. apply (same_shape_used q q2); [done|]. by apply (so_context q Hq x).
  - change (s_scheduler_running q2) with (s_scheduler_running q). by rewrite Hqon.
Qed.

Lemma windows_ok_start p created :
  windows_ok p -> s_scheduler_running p = false -> windows_ok (sertos_port_start_first_task created p).
Proof.
  intros [Hp Hs Hru Ho] Hoff. destruct (Ho Hoff) as [Hrc Hflag].
  unfold sertos_port_start_first_task.
  set (p0 := if created then _ else _).
  assert (F : s_task_contexts p0 = s_task_contexts p /\ threads p0 = threads p /\ port_context p0 = port_context p /\
    next_thread p <= next_thread p0 /\ (s_tick_thread_id p0 < next_thread p0 /\ threads p (s_tick_thread_id p0) = None) /\
    s_running_ctx p0 = None /\ s_scheduler_running p0 = true).
  { pose proof (so_tick p Hp) as [Ht1 Ht2]. pose proof (so_fresh p Hp (next_thread p)) as Hfr.
    unfold p0, init_cs. destruct created, (s_cs_initialized p); rsimpl; split_and!; try done; try lia; try (by apply Hfr; lia). }
  destruct F as (F1 & F2 & F3 & F4 & F5 & F6 & F7). clearbody p0.
  destruct (resume_fold (s_task_contexts p0) p0) as (R1 & R2 & R3 & R4 & R5 & R6 & R7 & R8).
  fold (resume_all p0) in R1, R2, R3, R4, R5, R6, R7, R8. set (q := resume_all p0) in *.
  assert (Hq0 : shape_ok p0).
  { destruct Hp as [Hf Ht Hth Hl Hi Hc]. unfold link, used in *.
    split; unfold link, used; rewrite ?F1, ?F2, ?F3; try done. intros t Ht'. apply Hf. lia. }
  assert (Hsame : same_shape p0 q) by (split; [by rewrite R1|done]).
  assert (Hq : shape_ok q) by by eapply shape_ok_same.
  assert (Hold : all_wait q).
  { intros c ctx t th Hc Hu Hh Hth. rewrite R1, F1 in Hc. specialize (R2 t). rewrite Hth, F2 in R2.
    destruct (threads p t) as [th0|] eqn:Hth0; [|done]. injection R2 as R2. rewrite R2.
    pose proof (Hs c ctx t th0 Hc Hu Hh Hth0) as [_ Hslot]. rewrite Hrc in Hslot. simpl in Hslot.
    rewrite (Hflag c ctx Hc) in Hslot. split; [by apply (Hflag c)|done]. }
  assert (Hnone : s_running_ctx q = None) by congruence.
  assert (Hqon : s_scheduler_running q = true) by congruence.
  assert (G : forall r, r = None -> windows_ok (q <| s_running_ctx := r |>)).
  { intros r ->. split; [by destruct Hq| |done|rsimpl; congruence]. intros c ctx t th Hc Hu Hh Hth.
    destruct (Hold c ctx t th Hc Hu Hh Hth) as (H1 & H2 & H3). split; [done|]. simpl. by rewrite H1. }
  clearbody q. destruct (current_tcb q) as [x|].
  2:{ specialize (G None eq_refl). rewrite <-Hnone in G. by destruct q. }
  set (q1 := q <| tcb_state ::= fun f => <[x := SERTOS_TASK_STATE_RUNNING]> f |>). cbv zeta.
  change (port_context q1 x) with (port_context q x).
  destruct (port_context q x) as [c|] eqn:Hx; [|exact (windows_ok_tcb_state (fun f => <[x := SERTOS_TASK_STATE_RUNNING]> f) _ (G None eq_refl))].
  by apply windows_ok_first_turn.
Qed.

Lemma windows_ok_begin p t tcb :
  windows_ok p -> runs p t (Starts tcb) -> windows_ok (port_task_wrapper t tcb p).
Proof.
  intros [Hp Hs Hru Ho] Hr. destruct (so_thread p Hp t _ Hr) as [c Hlt].
  destruct (so_link p Hp c t Hlt) as (th & Hth & Hm). unfold runs in Hr. rewrite Hr in Hth. injection Hth as <-.
  simpl in Hm. destruct tcb as [x|]; [|done]. unfold port_task_wrapper. rewrite Hm.
  split; [apply (shape_ok_code p c); auto| |done|done].
  apply (slots_ok_update p _ (turn_of (s_running_ctx p)) _ c); try done.
  - intros u Hu. unfold set_code. rewrite lookup_upd_thread. case_decide; [by subst u|done].
  - intros ctx u th0 ctx' th' Hlu Hc Hth0 Hc' Hth' Hslot.
    assert (u = t) as -> by (destruct Hlu as (? & ? & ? & ?), Hlt as (? & ? & ? & ?); congruence).
    change (s_task_contexts (set_code _ _ p)) with (s_task_contexts p) in Hc'.
    assert (ctx' = ctx) as -> by congruence. rewrite Hr in Hth0. injection Hth0 as <-.
    unfold set_code in Hth'. rewrite lookup_upd_thread, decide_True, Hr in Hth' by done. injection Hth' as <-.
    change (s_running_ctx (set_code _ _ p)) with (s_running_ctx p). unfold slot_ok in *.
    destruct Hslot as [_ Hslot]. split; [done|].
    destruct (turn_of _ c); [|destruct (is_suspended_by_tick ctx)]; destruct Hslot as [H1 H2];
      (split; [done|]); [destruct H2; [by left|done]..|done].
Qed.

Lemma windows_ok_turn p t c :
  windows_ok p -> runs p t (Waits c) -> is_set p c = true ->
  windows_ok (set_code t Executes (set_ctx c (set event (fun _ => false)) p)).
Proof.
  intros [Hp Hs Hru Ho] Hr Hset. destruct (so_thread p Hp t _ Hr) as [c' Hlt].
  destruct (so_link p Hp c' t Hlt) as (th & Hth & Hm). unfold runs in Hr. rewrite Hr in Hth. injection Hth as <-.
  simpl in Hm. subst c'. pose proof Hlt as (ctx & Hc & Hu & Hh). unfold is_set in Hset. rewrite Hc in Hset.
  pose proof (Hs c ctx t _ Hc Hu Hh Hr) as Hslot.
  assert (Hturn : turn_of (s_running_ctx p) c = true /\ is_suspended_by_tick ctx = false).
  { destruct Hslot as [_ Hslot]. destruct (turn_of _ c); [by destruct Hslot|].
    destruct (is_suspended_by_tick ctx); simpl in Hslot; [lia|]. destruct Hslot. congruence. }
  destruct Hturn as [Hturn Hflag].
  set (p1 := set_ctx c (set event (fun _ => false)) p).
  assert (Hctx : forall c', s_task_contexts p1 !! c' = if decide (c = c') then set event (fun _ => false) <$> s_task_contexts p !! c'
    else s_task_contexts p !! c') by (intros c'; exact (lookup_set_ctx c (set event (fun _ => false)) p c')).
  assert (Hsame : same_shape p p1).
  { split; [|done]. intros c'. rewrite Hctx. case_decide; [|done]. by destruct (s_task_contexts p !! c') as [[]|]. }
  assert (Hp1 : shape_ok p1) by by apply (shape_ok_same p).
  split.
  - apply (shape_ok_code p1 c); [done|by apply (same_shape_link p)|by right].
  - apply (slots_ok_update p _ (turn_of (s_running_ctx p)) _ c); try done.
    + intros c' Hne. change (s_task_contexts (set_code _ _ p1)) with (s_task_contexts p1). by rewrite Hctx, decide_False.
    + intros u Hnu. unfold set_code. rewrite lookup_upd_thread. case_decide; [by subst u|done].
    + intros ctx0 u th0 ctx' th' Hlu Hc0 Hth0 Hc' Hth' _.
      assert (u = t) as -> by (destruct Hlu as (? & ? & ? & ?); congruence).
      change (s_task_contexts (set_code _ _ p1)) with (s_task_contexts p1) in Hc'.
      rewrite Hctx, decide_True, Hc in Hc' by done. injection Hc' as <-.
      unfold set_code in Hth'. rewrite lookup_upd_thread, decide_True in Hth' by done.
      change (threads p1 t) with (threads p t) in Hth'. rewrite Hr in Hth'. injection Hth' as <-.
      change (s_running_ctx (set_code _ _ p1)) with (s_running_ctx p). rewrite Hturn. unfold slot_ok.
      split; [done|]. split; [done|by right].
  - intros c' Hrc. apply (same_shape_used p p1); [done|]. by apply Hru.
  - intros Hoff. change (s_scheduler_running p = false) in Hoff. destruct (Ho Hoff) as [Hrc _].
    rewrite Hrc in Hturn. done.
Qed.

Lemma windows_task_step_ok p q : windows_ok p -> task_step p q -> windows_ok q.
Proof.
  intros Hp Hstep. destruct Hstep as [created x p Hx|created p Hoff|x p|self tcb p Hr|self c p Hr Hset|self status p q _ He|
    self status p _|self p q Hr Hy|p q _ Hy].
  - by apply windows_ok_create.
  - by apply windows_ok_start.
  - destruct Hp as [[] ? ? ?]. by split; [split|..].
  - by apply windows_ok_begin.
  - by apply windows_ok_turn.
  - unfold sertos_port_enter_critical in He. destruct (EnterCriticalSection self (init_cs p)) as [q'|] eqn:Hq; [|done].
    injection He as _ <-. eapply windows_ok_cs; [|done]. eapply same_but_cs_trans; [apply init_cs_same|by eapply windows_enter_same].
  - unfold sertos_port_exit_critical. destruct (s_cs_initialized p); [|done]. eapply windows_ok_cs; [apply leave_same|done].
  - eapply windows_ok_yield; [done| |done]. by left.
  - eapply windows_ok_yield; [done| |done]. by right.
Qed.

Lemma windows_init_ok : windows_ok windows_init.
Proof.
  assert (Hctx : forall c ctx, s_task_contexts windows_init !! c = Some ctx -> ctx = mkWindowsContext None false None false false).
  { intros c ctx Hc. by apply lookup_replicate_1 in Hc as [-> _]. }
  assert (Hfree : forall c t, ~ link windows_init c t) by (intros c t (ctx & Hc & Hu & _); apply Hctx in Hc; by subst ctx).
  split; [split|..]; try done.
  - intros c t Hl. by destruct (Hfree c t).
  - intros c c' t Hl. by destruct (Hfree c t).
  - intros _. split; [done|]. intros c ctx Hc. apply Hctx in Hc. by subst ctx.
Qed.

Lemma windows_task_steps_ok p q : rtc task_step p q -> windows_ok p -> windows_ok q.
Proof. induction 1 as [|p1 p2 p3 Hs _ IH]; [done|]. intros Hp. by eapply IH, windows_task_step_ok. Qed.

(** C23: on Windows, from the start until the scheduler stops, as long as no task is deleted,
    however the task threads, the tick thread, which preempts, and the kernel interleave, at most one task thread executes without being
    suspended, and it is the one whose context was selected.  Its event is then clear: the turn
    is either taken or pending, never both, so it is never granted twice. *)
Theorem windows_one_task_executes p :
  rtc task_step windows_init p ->
  (forall t t', runs p t Executes -> runs p t' Executes -> t = t') /\
  (forall t, runs p t Executes -> exists c, link p c t /\ s_running_ctx p = Some c /\ is_set p c = false) /\
  (forall c t th, s_running_ctx p = Some c -> link p c t -> threads p t = Some th ->
     is_set p c = true \/ code th = Executes).
Proof.
  intros Hr. pose proof (windows_task_steps_ok _ _ Hr windows_init_ok) as Hp. clear Hr. split; [|split].
  - intros t t' H1 H2. destruct (runs_turn p t Hp H1) as (c & (ctx & Hc & _ & Hh) & Hrc).
    destruct (runs_turn p t' Hp H2) as (c' & (ctx' & Hc' & _ & Hh') & Hrc'). rewrite Hrc in Hrc'. simplify_eq. congruence.
  - intros t H1. destruct (runs_turn p t Hp H1) as (c & Hlt & Hrc). exists c. split_and!; try done.
    destruct Hlt as (ctx & Hc & Hu & Hh). unfold is_set. rewrite Hc.
    by apply (wo_slots p Hp c ctx t _ Hc Hu Hh H1).
  - intros c t th Hrc (ctx & Hc & Hu & Hh) Hth. pose proof (wo_slots p Hp c ctx t th Hc Hu Hh Hth) as [_ Hslot].
    rewrite Hrc in Hslot. unfold turn_of in Hslot. rewrite bool_decide_true in Hslot by done. unfold is_set. rewrite Hc.
    by destruct Hslot as [_ Hslot].
Qed.

(** ** What creating late and deleting oneself break *)

(** Thread [t] of context [c] was created while the scheduler ran, and nobody resumes it. *)
Definition never_resumed p c t : Prop :=
  link p c t /\ exists ctx th tcb, s_task_contexts p !! c = Some ctx /\ threads p t = Some th /\ code th = Starts tcb /\
    suspend_count th = if is_suspended_by_tick ctx then 2%nat else 1%nat.

Lemma never_resumed_cs p q c t : same_but_cs p q -> never_resumed p c t -> never_resumed q c t.
Proof. by intros ->. Qed.

(** Other contexts and threads do not matter. *)
Lemma never_resumed_other p q c t :
  never_resumed p c t -> s_task_contexts q !! c = s_task_contexts p !! c -> threads q t = threads p t ->
  never_resumed q c t.
Proof.
  intros [Hlt (ctx & th & tcb & Hc & Hth & Hcode & Hsus)] Hq Hqt. split.
  - destruct Hlt as (ctx' & Hc' & Hu & Hh). exists ctx'. by rewrite Hq.
  - exists ctx, th, tcb. by rewrite Hq, Hqt.
Qed.

Lemma never_resumed_give_turn p n c t :
  shape_ok p -> used p n -> never_resumed p c t -> never_resumed (give_turn n p) c t.
Proof.
  intros Hsh Hn Hnr. destruct (decide (n = c)) as [->|Hne].
  - destruct Hnr as [Hlt (ctx & th & tcb & Hc & Hth & Hcode & Hsus)]. split.
    { apply (same_shape_link p); [|done]. by apply shape_ok_give_turn. }
    destruct Hlt as (ctx' & Hc' & Hu & Hh). assert (ctx' = ctx) as -> by congruence.
    unfold give_turn. rewrite Hc. destruct (is_suspended_by_tick ctx) eqn:Hf.
    + rewrite Hh. unfold ResumeThread. eexists (set is_suspended_by_tick (fun _ => false) ctx), _, tcb.
      split; [change (s_task_contexts (upd_thread t _ ?q)) with (s_task_contexts q); by rewrite lookup_set_ctx, decide_True, Hc by done|].
      split; [rewrite lookup_upd_thread, decide_True by done; change (threads (set_ctx c _ p) t) with (threads p t); by rewrite Hth|].
      split; [done|]. simpl. by rewrite Hsus.
    + exists (set event (fun _ => true) ctx), th, tcb. unfold SetEvent.
      split; [by rewrite lookup_set_ctx, decide_True, Hc by done|]. split; [done|]. split; [done|]. simpl. by rewrite Hf.
  - apply (never_resumed_other p); [done|..].
    + unfold give_turn. destruct (s_task_contexts p !! n) as [ctx|]; [|done].
      assert (forall f, s_task_contexts (set_ctx n f p) !! c = s_task_contexts p !! c) as Hset
        by (intros f; by rewrite lookup_set_ctx, decide_False).
      destruct (is_suspended_by_tick ctx); [destruct (thread_handle ctx)|]; apply Hset.
    + destruct Hn as (ctx & Hc & Hu). unfold give_turn. rewrite Hc.
      destruct (is_suspended_by_tick ctx); [|done]. destruct (thread_handle ctx) as [h|] eqn:Hh; [|done].
      unfold ResumeThread. rewrite lookup_upd_thread. case_decide as Hd; [|done]. subst h.
      destruct Hne. apply (so_injective p Hsh n c t); [by exists ctx|apply Hnr].
Qed.

Lemma never_resumed_suspend p prev h c t :
  windows_ok p -> s_running_ctx p = Some prev -> link p prev h -> never_resumed p c t ->
  never_resumed (set_ctx prev (set is_suspended_by_tick (fun _ => true)) (SuspendThread (Some h) p)) c t.
Proof.
  intros Hp Hrc Hlp Hnr. pose proof (wo_shape p Hp) as Hsh. pose proof Hlp as (ctxp & Hcp & Hup & Hhp).
  destruct (decide (prev = c)) as [->|Hne].
  - destruct Hnr as [(ctx & Hc & Hu & Hh) (ctx' & th & tcb & Hc' & Hth & Hcode & Hsus)].
    assert (h = t) as -> by congruence.
    assert (Hflag : is_suspended_by_tick ctx' = false).
    { pose proof (wo_slots p Hp c ctx' t th) as Hslot. destruct Hslot as [_ Hslot]; try done; [congruence..|].
      rewrite Hrc in Hslot. unfold turn_of in Hslot. rewrite bool_decide_true in Hslot by done. by destruct Hslot. }
    rewrite Hflag in Hsus. unfold SuspendThread. split.
    + exists (set is_suspended_by_tick (fun _ => true) ctx'). rewrite lookup_set_ctx, decide_True by done.
      change (s_task_contexts (upd_thread t _ p)) with (s_task_contexts p). rewrite Hc'.
      split; [done|]. assert (ctx' = ctx) as -> by congruence. done.
    + exists (set is_suspended_by_tick (fun _ => true) ctx'), (set suspend_count S th), tcb.
      rewrite lookup_set_ctx, decide_True by done. change (s_task_contexts (upd_thread t _ p)) with (s_task_contexts p).
      rewrite Hc'. split; [done|]. change (threads (set_ctx _ _ ?q) t) with (threads q t).
      rewrite lookup_upd_thread, decide_True, Hth by done. split; [done|]. split; [done|]. simpl. by rewrite Hsus.
  - apply (never_resumed_other p); [done|..].
    + rewrite lookup_set_ctx, decide_False by done. done.
    + change (threads (set_ctx _ _ ?q) t) with (threads q t). unfold SuspendThread. rewrite lookup_upd_thread.
      case_decide as Hd; [|done]. subst h. destruct Hne. apply (so_injective p Hsh prev c t); [done|apply Hnr].
Qed.

Lemma never_resumed_code p u k c t : u <> t -> never_resumed p c t -> never_resumed (set_code u k p) c t.
Proof.
  intros Hne Hnr. apply (never_resumed_other p); [done|done|]. unfold set_code.
  by rewrite lookup_upd_thread, decide_False.
Qed.

Lemma never_resumed_yield p self q c t :
  windows_ok p -> runs p self Executes \/ self = s_tick_thread_id p -> sertos_port_yield self p = Some q ->
  never_resumed p c t -> never_resumed q c t.
Proof.
  intros Hp Hself. unfold sertos_port_yield.
  destruct (s_scheduler_running p) eqn:Hon; cbn [negb]; [|by intros [= <-]].
  destruct (EnterCriticalSection self (init_cs p)) as [p1|] eqn:Hcs; [|done]. intros [= <-] Hnr.
  assert (Hsame : same_but_cs p p1) by (eapply same_but_cs_trans; [apply init_cs_same|by eapply windows_enter_same]).
  assert (Hp1 : windows_ok p1) by by eapply windows_ok_cs.
  assert (Hnr1 : never_resumed p1 c t) by by eapply never_resumed_cs.
  assert (F : s_tick_thread_id p1 = s_tick_thread_id p /\ threads p1 = threads p) by by rewrite Hsame.
  destruct F as (F1 & F3). clear Hcs Hsame Hnr. pose proof (wo_shape p1 Hp1) as Hsh.
  destruct (current_tcb p1) as [x|]; [|eapply never_resumed_cs; [apply leave_same|done]]. cbv zeta. rewrite F1.
  destruct (Z.eqb_spec self (s_tick_thread_id p)) as [->|Hnt].
  - eapply never_resumed_cs; [apply leave_same|]. destruct (port_context p1 x) as [n|] eqn:Hx; [|done].
    case_decide as Hd; [done|]. assert (Hn : used p1 n) by by apply (so_context p1 Hsh x).
    assert (Hsh' : shape_ok (p1 <| s_running_ctx := Some n |>)) by by destruct Hsh.
    destruct (s_running_ctx p1) as [prev|] eqn:Hrc; [|by apply never_resumed_give_turn].
    destruct (wo_running p1 Hp1 prev Hrc) as (ctx & Hc & Hu). simpl. rewrite Hc. simpl.
    destruct (thread_handle ctx) as [h|] eqn:Hh; simpl; [|by apply never_resumed_give_turn].
    assert (Hlt : link p1 prev h) by by exists ctx.
    destruct (suspend_slots (p1 <| s_running_ctx := Some n |>) prev h (turn_of (Some prev)) (fun _ => false) Hsh')
      as (_ & Hq & Hqs); try done; [rewrite <-Hrc; apply Hp1|by apply bool_decide_true| |].
    { intros c' Hc'. by rewrite (turn_of_other (Some prev) prev c'). }
    apply never_resumed_give_turn; [done|by apply (same_shape_used (p1 <| s_running_ctx := Some n |>))|].
    exact (never_resumed_suspend p1 prev h c t Hp1 Hrc Hlt Hnr1).
  - destruct Hself as [Hr|]; [|done].
    assert (Hne : self <> t).
    { intros ->. destruct Hnr1 as [_ (ctx & th & tcb & _ & Hth & Hcode & _)]. unfold runs in Hr.
      rewrite F3, Hr in Hth. injection Hth as <-. done. }
    case_decide as Hd; [eapply never_resumed_cs; [apply leave_same|done]|].
    assert (Hsh' : forall r, shape_ok (p1 <| s_running_ctx := r |>)) by by destruct Hsh.
    assert (Hho : never_resumed (match port_context p1 x with
      | Some next => give_turn next (p1 <| s_running_ctx := port_context p1 x |>)
      | None => p1 <| s_running_ctx := port_context p1 x |> end) c t).
    { destruct (port_context p1 x) as [n|] eqn:Hx; [|done]. apply never_resumed_give_turn; [done| |done].
      by apply (so_context p1 Hsh x). }
    destruct (s_running_ctx p1); [apply never_resumed_code; [done|]|]; (eapply never_resumed_cs; [apply leave_same|done]).
Qed.

(** What only starting the scheduler changes. *)
Definition globals p : bool * option tid * tid := (s_scheduler_running p, s_tick_thread p, s_tick_thread_id p).

Lemma globals_give_turn n p : globals (give_turn n p) = globals p.
Proof.
  unfold give_turn. destruct (s_task_contexts p !! n) as [ctx|]; [|done].
  destruct (is_suspended_by_tick ctx); [|done]. by destruct (thread_handle ctx).
Qed.
Lemma globals_cs p q : same_but_cs p q -> globals q = globals p.
Proof. by intros ->. Qed.

Lemma globals_yield self p q : sertos_port_yield self p = Some q -> globals q = globals p.
Proof.
  unfold sertos_port_yield. destruct (s_scheduler_running p); cbn [negb]; [|by intros [= <-]].
  destruct (EnterCriticalSection self (init_cs p)) as [p1|] eqn:Hcs; [|done]. intros [= <-].
  assert (Hg : globals p1 = globals p).
  { apply globals_cs. eapply same_but_cs_trans; [apply init_cs_same|by eapply windows_enter_same]. }
  rewrite <-Hg. destruct (current_tcb p1) as [x|]; [|apply globals_cs, leave_same]. cbv zeta.
  destruct (self =? s_tick_thread_id p1).
  - rewrite (globals_cs _ _ (leave_same self _)). destruct (port_context p1 x) as [n|]; [|done].
    case_decide; [done|]. rewrite globals_give_turn.
    destruct (_ ≫= _) as [[prev h]|]; done.
  - case_decide; [apply globals_cs, leave_same|].
    assert (Hl : globals (LeaveCriticalSection self match port_context p1 x with
      | Some next => give_turn next (p1 <| s_running_ctx := port_context p1 x |>)
      | None => p1 <| s_running_ctx := port_context p1 x |> end) = globals p1).
    { rewrite (globals_cs _ _ (leave_same self _)). destruct (port_context p1 x); [by rewrite globals_give_turn|done]. }
    by destruct (s_running_ctx p1).
Qed.

Lemma step_globals p q : task_step p q -> s_scheduler_running p = true -> globals q = globals p.
Proof.
  intros Hstep Hon. destruct Hstep as [created x p Hx|created p Hoff|x p|self tcb p Hr|self c' p Hr Hset|self status p q _ He|
    self status p _|self p q Hr Hy|p q _ Hy]; try done; try congruence.
  - unfold sertos_port_task_create_hook. destruct (first_free in_use (s_task_contexts p)); [|done]. by destruct created.
  - unfold port_task_wrapper. destruct tcb as [x|]; [|done]. by destruct (port_context p x).
  - unfold sertos_port_enter_critical in He. destruct (EnterCriticalSection self (init_cs p)) as [q'|] eqn:Hq; [|done].
    injection He as _ <-. apply globals_cs. eapply same_but_cs_trans; [apply init_cs_same|by eapply windows_enter_same].
  - unfold sertos_port_exit_critical. destruct (s_cs_initialized p); [|done]. apply globals_cs, leave_same.
  - by eapply globals_yield.
  - by eapply globals_yield.
Qed.

Lemma never_resumed_step p q c t :
  windows_ok p -> task_step p q -> s_scheduler_running p = true ->
  never_resumed p c t -> never_resumed q c t.
Proof.
  intros Hp Hstep Hon Hnr. pose proof (wo_shape p Hp) as Hsh.
  assert (Hnot : forall u k, runs p u k -> u <> t).
  { intros u k Hr ->. destruct Hnr as [_ (ctx & th & tcb & _ & Hth & _ & Hsus)]. unfold runs in Hr. rewrite Hr in Hth.
    injection Hth as <-. simpl in Hsus. by destruct (is_suspended_by_tick ctx). }
  destruct Hstep as [created x p Hx|created p Hoff|x p|self tcb p Hr|self c' p Hr Hset|self status p q _ He|
    self status p _|self p q Hr Hy|p q _ Hy].
  - unfold sertos_port_task_create_hook. pose proof (first_free_spec in_use (s_task_contexts p)) as Hfree.
    destruct (first_free in_use (s_task_contexts p)) as [i|]; [|done]. destruct Hfree as [(ctx & Hctx & Hu) _].
    pose proof Hnr as [(ctx' & Hc' & Hu' & Hh) (_ & th & _ & _ & Hth & _ & _)].
    assert (i <> c) as Hne by (intros ->; congruence).
    assert (t <> next_thread p) as Hnt by (intros ->; by rewrite (so_fresh p Hsh) in Hth).
    destruct created; (apply (never_resumed_other p); [done|..]).
    + exact (eq_trans (lookup_set_ctx i _ p c) (decide_False _ _ Hne)).
    + rsimpl. by rewrite fn_lookup_insert_ne.
    + exact (eq_trans (lookup_set_ctx i _ p c) (decide_False _ _ Hne)).
    + done.
  - congruence.
  - done.
  - unfold port_task_wrapper. pose proof (Hnot self _ Hr).
    destruct tcb as [x|]; [destruct (port_context p x)|]; by apply never_resumed_code.
  - apply never_resumed_code; [by eapply Hnot|]. apply (never_resumed_other p); [done| |done].
    rewrite lookup_set_ctx, decide_False; [done|]. intros ->.
    destruct (so_thread p Hsh self _ Hr) as [c' Hlc]. destruct (so_link p Hsh c' self Hlc) as (th & Hth & Hm).
    unfold runs in Hr. rewrite Hr in Hth. injection Hth as <-. simpl in Hm. subst c'.
    apply (Hnot self (Waits c)); [done|]. destruct Hnr as [(cx & H1 & _ & H2) _], Hlc as (cx' & H1' & _ & H2'). congruence.
  - unfold sertos_port_enter_critical in He. destruct (EnterCriticalSection self (init_cs p)) as [q'|] eqn:Hq; [|done].
    injection He as _ <-. eapply never_resumed_cs; [|done]. eapply same_but_cs_trans; [apply init_cs_same|by eapply windows_enter_same].
  - unfold sertos_port_exit_critical. destruct (s_cs_initialized p); [|done]. eapply never_resumed_cs; [apply leave_same|done].
  - eapply never_resumed_yield; [done| |done..]. by left.
  - eapply never_resumed_yield; [done| |done..]. by right.
Qed.

(** On Windows a task that is created while the scheduler runs never runs: its thread is
    created suspended, and only [sertos_port_start_first_task] resumes such threads.  Whatever
    happens later, deletions apart, and however often the kernel selects the task, its thread
    stays suspended before the first instruction of its wrapper. *)
Theorem windows_late_task_never_runs p q x i :
  rtc task_step windows_init p -> s_scheduler_running p = true -> port_context p x = None ->
  first_free in_use (s_task_contexts p) = Some i ->
  rtc task_step (sertos_port_task_create_hook true (Some x) p) q ->
  exists th tcb, threads q (next_thread p) = Some th /\ code th = Starts tcb /\ (1 <= suspend_count th)%nat.
Proof.
  intros Hr Hon Hx Hi Hq. pose proof (windows_task_steps_ok _ _ Hr windows_init_ok) as Hp. clear Hr.
  pose proof (windows_ok_create p true x Hp Hx) as Hp'.
  assert (Hnr : never_resumed (sertos_port_task_create_hook true (Some x) p) i (next_thread p)).
  { unfold sertos_port_task_create_hook. pose proof (first_free_spec in_use (s_task_contexts p)) as Hfree.
    rewrite Hi in *. destruct Hfree as [(ctx & Hctx & _) _].
    match goal with |- never_resumed ?q _ _ => set (q0 := q) end.
    assert (Hc : s_task_contexts q0 !! i = Some (mkWindowsContext (Some (next_thread p)) false (Some x) false true)).
    { etransitivity; [exact (lookup_set_ctx i (fun _ => _) p i)|]. by rewrite decide_True, Hctx by done. }
    split; [by eexists|]. eexists _, _, (Some x). split; [exact Hc|]. split; [apply fn_lookup_insert|]. done. }
  assert (Hon' : s_scheduler_running (sertos_port_task_create_hook true (Some x) p) = true).
  { pose proof (step_globals _ _ (step_create true x p Hx) Hon) as Hg. unfold globals in Hg. congruence. }
  revert Hp' Hnr Hon'. induction Hq as [q|p1 p2 p3 Hs _ IH]; intros Hp' Hnr Hon'.
  - destruct Hnr as [_ (ctx & th & tcb & _ & Hth & Hcode & Hsus)]. exists th, tcb. split; [done|]. split; [done|].
    rewrite Hsus. destruct (is_suspended_by_tick ctx); lia.
  - apply IH; [by eapply windows_task_step_ok|by eapply never_resumed_step|].
    pose proof (step_globals _ _ Hs Hon') as Hg. unfold globals in Hg. congruence.
Qed.

(** The thread that owns the critical section has ended. *)
Record orphaned p t : Prop := Orphaned {
  or_cs : exists d, s_port_cs p = Some (t, S d) /\ s_cs_initialized p = true;
  or_ended : exists th, threads p t = Some th /\ code th = Ended;
  or_running : s_scheduler_running p = true;
  or_tick : s_tick_thread p <> Some t /\ s_tick_thread_id p <> t;
  or_old : t < next_thread p }.

Lemma windows_orphaned_blocks p t u : orphaned p t -> u <> t ->
  sertos_port_enter_critical u p = None /\ sertos_port_yield u p = None.
Proof.
  intros [(d & Hcs & Hi) _ Hon _ _] Hne.
  assert (He : EnterCriticalSection u (init_cs p) = None).
  { unfold init_cs. rewrite Hi. unfold EnterCriticalSection. rewrite Hcs. by rewrite (proj2 (Z.eqb_neq _ _)). }
  unfold sertos_port_enter_critical, sertos_port_yield. by rewrite Hon, He.
Qed.

Lemma orphaned_code p t u k : u <> t -> orphaned p t -> orphaned (set_code u k p) t.
Proof.
  intros Hne [Hcs (th & Hth & Hc) Hon Ht Ho]. split; try done. exists th. split; [|done].
  unfold set_code. by rewrite lookup_upd_thread, decide_False.
Qed.

Lemma step_orphaned p q t : step p q -> orphaned p t -> orphaned q t.
Proof.
  intros Hstep Hor. pose proof Hor as [(d & Hcs & Hi) (th & Hth & Hc) Hon [Ht Hti] Ho].
  assert (Hnot : forall u k, runs p u k -> k <> Ended -> u <> t) by 
    (unfold runs; intros u k Hr Hk ->; rewrite Hr in Hth; injection Hth as <-; done).
  destruct Hstep as [p q Hstep|self x p Hr].
  - destruct Hstep as [created x p Hx|created p Hoff|x p|self tcb p Hr|self c' p Hr Hset|self status p q Hs He|
      self status p Hs|self p q Hr Hy|p q _ Hy].
    + unfold sertos_port_task_create_hook. destruct (first_free in_use (s_task_contexts p)) as [i|]; [|done].
      unfold set_ctx. destruct created; (split; rsimpl; [by exists d|exists th|done|done|first [done|lia]]); [by rewrite fn_lookup_insert_ne by lia|done].
    + congruence.
    + by destruct Hor.
    + unfold port_task_wrapper. pose proof (Hnot self _ Hr ltac:(done)).
      destruct tcb as [x|]; [destruct (port_context p x)|]; by apply orphaned_code.
    + apply orphaned_code; [by eapply Hnot|]. by destruct Hor.
    + assert (self <> t) as Hne by (destruct Hs as [Hr|Hs]; [by eapply Hnot|congruence]).
      by rewrite (proj1 (windows_orphaned_blocks p t self Hor Hne)) in He.
    + assert (self <> t) as Hne by (destruct Hs as [Hr|Hs]; [by eapply Hnot|congruence]).
      unfold sertos_port_exit_critical, LeaveCriticalSection. rewrite Hi, Hcs. destruct d;
        by rewrite (proj2 (Z.eqb_neq t self)) by done.
    + assert (self <> t) as Hne by by eapply Hnot. by rewrite (proj2 (windows_orphaned_blocks p t self Hor Hne)) in Hy.
    + by rewrite (proj2 (windows_orphaned_blocks p t (s_tick_thread_id p) Hor Hti)) in Hy.
  - unfold sertos_port_task_delete_hook. destruct (port_context p x) as [i|]; [|done].
    destruct (s_task_contexts p !! i) as [ctx|]; [|done].
    assert (orphaned (match thread_handle ctx with Some h => set_code h Ended p | None => p end) t) as Hor'.
    { destruct (thread_handle ctx) as [h|]; [|done]. destruct (decide (h = t)) as [->|Hne]; [|by apply orphaned_code].
      split; try done; [by exists d|]. exists (set code (fun _ => Ended) th). unfold set_code.
      rewrite lookup_upd_thread, decide_True, Hth by done. done. }
    case_decide; [done|]. by destruct Hor'.
Qed.

Lemma steps_orphaned p q t : rtc step p q -> orphaned p t -> orphaned q t.
Proof. induction 1 as [|p1 p2 p3 Hs _ IH]; [done|]. intros Hp. apply IH. by eapply step_orphaned. Qed.

(** On Windows a task that ends, by deleting itself or by returning from its function,
    stops the system.  [sertos_task_delete] calls the delete hook inside its critical section;
    the hook terminates the calling thread there, so that the critical section is never left:
    whatever happens then, no other thread enters it or gets past a yield again. *)
Theorem windows_self_delete_locks p q self t i d :
  rtc task_step windows_init p -> runs p self Executes -> link p i self -> port_context p t = Some i ->
  s_port_cs p = Some (self, S d) -> s_cs_initialized p = true -> s_tick_thread p = Some (s_tick_thread_id p) ->
  rtc step (sertos_port_task_delete_hook self (Some t) p) q ->
  (exists th, threads q self = Some th /\ code th = Ended) /\
  forall u, u <> self -> sertos_port_enter_critical u q = None /\ sertos_port_yield u q = None.
Proof.
  intros Hreach Hr (ctx & Hc & Hu & Hh) Hx Hcs Hi Htick Hq.
  pose proof (windows_task_steps_ok _ _ Hreach windows_init_ok) as Hp. pose proof (wo_shape p Hp) as Hsh.
  assert (Hon : s_scheduler_running p = true).
  { destruct (s_scheduler_running p) eqn:Hoff; [done|]. destruct (runs_turn p self Hp Hr) as (c & _ & Hrc).
    destruct (wo_off p Hp Hoff). congruence. }
  assert (Hne : s_tick_thread_id p <> self).
  { intros <-. destruct (so_tick p Hsh) as [_ Hn]. unfold runs in Hr. congruence. }
  assert (Hold : self < next_thread p).
  { destruct (Z.lt_ge_cases self (next_thread p)); [done|]. unfold runs in Hr. by rewrite (so_fresh p Hsh) in Hr. }
  assert (Hor : orphaned (sertos_port_task_delete_hook self (Some t) p) self).
  { unfold sertos_port_task_delete_hook. rewrite Hx, Hc, Hh, decide_True by done.
    split; try done; [by exists d| |split; [|done]; intros Heq; change (s_tick_thread p = Some self) in Heq; congruence].
    eexists. unfold set_code. rewrite lookup_upd_thread, decide_True, Hr by done. done. }
  pose proof (steps_orphaned _ _ self Hq Hor) as Horq.
  split; [apply Horq|]. intros u Hne'. by apply (windows_orphaned_blocks q self u).
Qed.

(** ** Witnesses *)

(** Two tasks, 0x4000 in context 0 and 0x4200 in context 1, with threads 2 and 3; the tick
    thread is 4; the first task executes. *)
Definition windows_two : Windows :=
  let p := sertos_port_task_create_hook true (Some 0x4000) windows_init in
  let p := sertos_port_task_create_hook true (Some 0x4200) p in
  let p := sertos_port_start_first_task true (p <| current_tcb := Some 0x4000 |>) in
  let p := port_task_wrapper 2 (Some 0x4000) p in
  let p := port_task_wrapper 3 (Some 0x4200) p in
  set_code 2 Executes (set_ctx 0 (set event (fun _ => false)) p).

Lemma windows_two_reachable : rtc task_step windows_init windows_two.
Proof.
  unfold windows_two. eapply rtc_l; [by apply (step_create true 0x4000)|].
  eapply rtc_l; [by apply (step_create true 0x4200)|].
  eapply rtc_l; [by apply (step_dispatch (Some 0x4000))|].
  eapply rtc_l; [by apply (step_start true)|].
  eapply rtc_l; [by apply (step_begin 2 (Some 0x4000))|].
  eapply rtc_l; [by apply (step_begin 3 (Some 0x4200))|].
  eapply rtc_l; [by apply (step_turn 2 0%nat)|]. apply rtc_refl.
Qed.

Lemma windows_one_task_executes_witness :
  (forall t t', runs windows_two t Executes -> runs windows_two t' Executes -> t = t') /\
  (forall t, runs windows_two t Executes ->
     exists c, link windows_two c t /\ s_running_ctx windows_two = Some c /\ is_set windows_two c = false) /\
  (forall c t th, s_running_ctx windows_two = Some c -> link windows_two c t -> threads windows_two t = Some th ->
     is_set windows_two c = true \/ code th = Executes).
Proof. exact (windows_one_task_executes windows_two windows_two_reachable). Defined.

Lemma windows_late_task_never_runs_witness :
  let q := sertos_port_task_create_hook true (Some 0x4300) windows_two in
  exists th tcb, threads q (next_thread windows_two) = Some th /\ code th = Starts tcb /\ (1 <= suspend_count th)%nat.
Proof.
  apply (windows_late_task_never_runs windows_two _ 0x4300 2%nat windows_two_reachable);
    [reflexivity|reflexivity|vm_compute; reflexivity|apply rtc_refl].
Defined.

(** The first task has entered the critical section to delete itself. *)
Definition windows_deleting : Windows :=
  match sertos_port_enter_critical 2 windows_two with Some (_, p) => p | None => windows_two end.

Lemma windows_deleting_reachable : rtc task_step windows_init windows_deleting.
Proof.
  eapply rtc_r; [apply windows_two_reachable|]. unfold windows_deleting.
  destruct (sertos_port_enter_critical 2 windows_two) as [[status p]|] eqn:He.
  - apply (step_enter 2 status); [left; vm_compute; reflexivity|done].
  - vm_compute in He. discriminate He.
Qed.

Lemma windows_self_delete_locks_witness :
  let q := sertos_port_task_delete_hook 2 (Some 0x4000) windows_deleting in
  (exists th, threads q 2 = Some th /\ code th = Ended) /\
  forall u, u <> 2 -> sertos_port_enter_critical u q = None /\ sertos_port_yield u q = None.
Proof.
  apply (windows_self_delete_locks windows_deleting _ 2 0x4000 0%nat 0%nat windows_deleting_reachable);
    [vm_compute; reflexivity|eexists; split; [vm_compute; reflexivity|done]|vm_compute; reflexivity..|apply rtc_refl].
Defined.
